(* ===== verification/_CoqProject ===== *)
-Q . S2P
Prelude.v
GoLib.v
Json.v
Marshal.v
Calendar.v
Mime.v
NetAddr.v
Sha256.v
Models.v
Extern.v
Store.v
Queries.v
Logic.v
Demo.v
Schedule.v
Convert.v
Checkin.v
Scheduler.v
Paging.v
Monitor.v
Feeds.v
Ownership.v
Session.v
User.v
RateLimit.v
Rollup.v
Prober.v
ProbeWorker.v
Outbox.v
Alert.v
Alerter.v
Integrity.v
Lifecycle.v
Watch.v
SoakAudit.v
Timeline.v
Http.v
AuthApi.v
Responses.v
MonitorApi.v
Server.v
EnvConfig.v
Worker.v
Process.v
FlakyTarget.v
Outage.v
TestClock.v
Validation.v
Access.v
Account.v
Routes.v
LoadGen.v
