(* ===== verification/Prelude.v ===== *)
(** * ping: a verification library for the monitoring service under src/backend

    ping watches cron jobs and websites.  A job sends a request to its ping
    address; a scheduler notices pings that do not come; a prober requests the
    websites; transitions go through an outbox to an alerter, which sends
    e-mail; a rollup keeps daily statistics and prunes the logs; an HTTP API
    manages monitors, sessions and keys.  Everything shared is in Postgres,
    Redis holds rate-limit counters and heartbeats, and the processes run
    side by side.

    ** How the program is modelled

    A store operation or a handler is a program ([Store.Prog]): a tree of
    atomic actions on a [World], one per SQL statement, transaction, Redis
    command, clock reading or draw of random bytes.  [run] runs a program
    alone; [pool_step] interleaves any number of them action by action, which
    is what requests, workers and replicas do.  What a run does not control
    (faults, the clock, fresh ids, random bytes) is the environment [Env], by
    the number of the action: a statement can fail before it takes effect or
    lose its acknowledgement after.  A Go function with an error is a program
    with a result in [Res]; [let!] is the check of [err] after a call, [wrap]
    and [on_err] are what the code does to an error, [attempt] is an error
    taken as a value.

    ** The files

    - Prelude, GoLib, Json, Marshal, Calendar, Mime, NetAddr, Sha256: results,
      wrapping integers, lists; the parts of Go's standard library the code
      uses (strconv, strings, time, encoding/json, mime, net/netip,
      crypto/sha256, base64), executable.  Mime also has buildMIME
      (alert/email.go) and readers of what it writes.
    - Models, Extern, Store, Queries, Logic, Demo: the rows of db/models.go
      and the errors of store/errors.go; the packages outside the repository,
      as parameters with their documented laws; programs, transactions,
      faults; every statement of db/*.sql.go with the constraints of
      db/migrations; the program logics; a small database for examples.
    - Schedule (schedule/), Convert (store/convert.go and the store's types),
      Checkin (store/checkin.go), Scheduler (store/scheduler.go), Paging and
      Monitor (store/monitor.go, store/slug.go), Feeds (store/events.go and
      the lists of checkin.go and prober.go), Ownership.
    - Session (store/session.go), User (store/user.go, store/apikey.go),
      RateLimit (store/ratelimit.go), Rollup (store/rollup.go,
      worker/rollup/), Prober (store/prober.go), ProbeWorker
      (worker/prober/), Outbox (store/alerter.go), Alert (alert/), Alerter
      (worker/alerter/).
    - Integrity and Lifecycle: the schema's constraints as an invariant, the
      statements and operations of the service, and the classes
      [PlainInvariant], [TimelineInvariant], [StatementInvariant] and
      [ServiceInvariant] of what survives all of them; Watch (a running monitor
      has its deadline, an http monitor its next probe); SoakAudit
      (cmd/soakaudit/); Timeline (the events of a monitor and its state).
    - Http (server/middleware.go, auth_middleware.go, jwt.go, response.go),
      AuthApi (server/auth.go, apikey.go, alerting.go), Responses and
      MonitorApi (server/monitor.go, events.go), Server (server/checkin.go,
      health.go, the middleware of server.go), EnvConfig (internal/config/),
      Worker (worker/worker.go, heartbeat.go), Process (cmd/ping/),
      FlakyTarget (cmd/soakflakytarget/), Outage (scheduler, outbox and
      alerter composed), TestClock (server/testclock.go,
      internal/testclock/), Validation, Access, Account
      (a registration and what it can be used for), Routes (the registrations of
      server.go), LoadGen (cmd/soakloadgen/, composed with the server).

    A definition has the name of the Go function it translates; where two
    packages share a name it is prefixed (auth_login, monitor_create,
    store_Monitor); db_X is the statement behind Queries.X.

    ** What the theorems show

    - Of the whole service, for any interleaving and any faults:
      [integrity_preserved] (the constraints, references and sequences),
      [one_alert_per_down] (each transition has exactly one alert),
      [timeline_truth] (a monitor is down exactly when its timeline says so,
      and its owner has an alert for it),
      [never_forgotten] (a monitor that is up or late has a deadline the
      scheduler acts on, an http monitor a time the prober does),
      [api_isolation] (no requests change what is another user's),
      [single_use] (of all refreshes with one token at most one succeeds).
    - Of the API: [route_table] (what is registered is what docs/API.md
      lists), [auth_required] (a request without a credential, whatever its
      path), [sign_up] (what a registration gives its client),
      [access_token_round_trip], [create_endpoint], [update_endpoint] (which
      updates keep a monitor valid), [flags_spec] (pause, mute, unmute and
      resume), [ping_answer], [heartbeats_created] (a client and the server
      composed), and the lemma [health_window].
    - Of single operations, on every branch: [RecordCheckin_spec],
      [EvaluateDueMonitors_spec], [RecordProbeResult_spec], [dispatch_spec],
      [RotateRefreshToken_spec], [CreateMonitor_spec], [UpdateMonitor_spec],
      [EnqueueDownReminders_spec], [runProbe_spec], [Send_spec],
      [NextDeadline_spec], [Load_spec]; under faults [RecordCheckin_atomic]
      (and, as lemmas, the same of the scheduler and the prober).
    - Against a reference definition: [ListMonitors_enumerates] and
      [feeds_enumerate] (the pages of a list are the list), [RollupDay_spec]
      (the day's statistics are those of its rows), [confirmation_threshold].
    - Progress and bounds: [missed_ping_announced] (a ping that does not come
      is mailed to the owner), [advance_settles] (after a jump of the test
      clock no deadline it passed is left unhandled), [PruneOldData_spec],
      [worker_Run_spec], [window_admits_limit], [downtime_bounded], and the
      lemmas [scheduler_drains], [retry_budget], [tls_warned_once].
    - The edges: [guardedDial_guarded] (no internal address is dialled),
      [mail_received] (the reader of a message gets the subject and the bodies
      that were sent), and the lemmas [password_encrypted],
      [renderHTML_markup] (no text of a user is markup), [encode_round_trip]
      (JSON written is read back), [flipLoop_spec].

    Examples state behaviour the code may not mean, each on a concrete input:
    [switch_to_cron_breaks_pings], [accepted_switch_breaks_pings],
    [two_probers_two_downs], [two_alerters_two_mails], [resume_ends_no_outage],
    [resumed_while_probed], [resume_keeps_streak], [only_first_address],
    [foreign_resume_names_the_schedule], [accepted_config_never_probed],
    [lost_expire_blocks_for_good], [retention_forgets_outage],
    [wedged_worker_healthy_again],
    [unknown_role_ends_well], [rollup_unwatched], [advance_wraps] and others.

    ** Bounds and fuel

    int32 and int64 arithmetic wraps where the code can reach the end of the
    range ([wrap32], [wrap64]); INTEGER columns refuse it.  JSON is read with
    fuel the length of the text, enough by [json_fuel_enough]; so is a
    duration, each component of which takes a byte.  [drainBatches] has the
    number of batches as fuel, and [PruneOldData_spec] says how many are
    enough; [walk] has the number of pages.  Slugs are drawn at most
    [maxSlugRetries] times, as in the code.

    ** Simplifications

    - A transaction is one action: Postgres's row locks and SKIP LOCKED keep
      others out of its rows.  Sequences are not rolled back.
    - Rows that tie in an ORDER BY keep their table order; Go's iteration over
      a map is an arbitrary order given as an argument.
    - Instants reach the database unrounded; text is valid UTF-8 without NUL;
      the JSON of an http_config column is the text it was given.
    - Case folding, ToLower and Quote treat ASCII; other bytes are kept.
    - float64 values that only pass through are kept as their JSON text;
      ParseDuration's fractions and humanDuration's rounding are exact.
    - Server times are UTC.  Logging is left out everywhere, and so is the
      comparison against a dummy hash that only takes time.
    - Texts of database errors do not reach clients and are not modelled
      beyond their class.

    ** Not modelled

    Packages outside the repository are parameters: the router go-chi
    ([Chi] with [ChiLaws]), net/http below the handler and the client, the
    SMTP and TLS libraries (a conversation with an arbitrary server), JWT
    signing ([Jwt] with [JwtLaws]), net/mail and url.Parse beyond the scheme
    ([Web]), Redis itself ([Redis], [KV]), the cron parser and the time-zone
    database ([Extern]).  db/querier.go is a generated interface and db/db.go
    its wiring; logging, flags and printing have no effect on the state; the
    frontend is TypeScript. *)
From Stdlib Require Export ZArith Lia Ascii.
From stdpp Require Export sorting base tactics option strings numbers list gmap.

(** ** Results: a Go function returning [(T, error)] *)

Declare Scope ping_scope.
Delimit Scope ping_scope with ping.

(** ** Machine integers: Go's int32 and int64 wrap around *)

Definition wrap32 (z : Z) : Z := ((z + 2147483648) mod 4294967296 - 2147483648)%Z.

Definition wrap64 (z : Z) : Z :=
  ((z + 9223372036854775808) mod 18446744073709551616 - 9223372036854775808)%Z.

Definition is_int32 (z : Z) : Prop := (-2147483648 <= z <= 2147483647)%Z.

Definition is_int64 (z : Z) : Prop := (-9223372036854775808 <= z <= 9223372036854775807)%Z.

(** ** Stable insertion sort: the executable reading of SQL's ORDER BY

    Rows that compare equal keep their table order; SQL leaves that order
    open, and no theorem of the library depends on it. *)

Section sort_by.
Context {A : Type} (le : A -> A -> bool).

Fixpoint insert_by (x : A) (l : list A) : list A :=
  match l with
  | [] => [x]
  | y :: l' => if le x y then x :: y :: l' else y :: insert_by x l'
  end.

Fixpoint sort_by (l : list A) : list A :=
  match l with
  | [] => []
  | x :: l' => insert_by x (sort_by l')
  end.
End sort_by.

(** LIMIT [n] on a result set ([n] non-negative; the callers check it). *)
Definition sql_limit {A} (n : Z) (l : list A) : list A := take (Z.to_nat n) l.

(** ** Generic lemmas *)

Lemma wrap32_id z : is_int32 z -> wrap32 z = z.
Proof. unfold is_int32, wrap32. intros. rewrite Z.mod_small; lia. Qed.

Lemma wrap64_id z : is_int64 z -> wrap64 z = z.
Proof. unfold is_int64, wrap64. intros. rewrite Z.mod_small; lia. Qed.

Lemma wrap32_range z : is_int32 (wrap32 z).
Proof.
  unfold is_int32, wrap32.
  pose proof (Z.mod_pos_bound (z + 2147483648) 4294967296 ltac:(lia)). lia.
Qed.

Section sort_by_facts.
Context {A : Type} (le : A -> A -> bool).

Lemma insert_by_perm x l : insert_by le x l ≡ₚ x :: l.
Proof.
  induction l as [|y l IH]; simpl; [done|].
  destruct (le x y); [done|]. rewrite IH. apply Permutation_swap.
Qed.

Lemma sort_by_perm l : sort_by le l ≡ₚ l.
Proof. induction l as [|x l IH]; simpl; [done|]. by rewrite insert_by_perm, IH. Qed.

Lemma elem_of_sort_by x l : x ∈ sort_by le l <-> x ∈ l.
Proof. by rewrite sort_by_perm. Qed.

Lemma length_sort_by l : length (sort_by le l) = length l.
Proof. by rewrite sort_by_perm. Qed.

Context (le_total : forall x y, le x y = true \/ le y x = true).
Context (le_trans : forall x y z, le x y = true -> le y z = true -> le x z = true).

Lemma insert_by_sorted x l :
  StronglySorted (fun a b => le a b = true) l ->
  StronglySorted (fun a b => le a b = true) (insert_by le x l).
Proof using le_total le_trans.
  induction 1 as [|y l Hs IH Hy]; simpl; [repeat constructor|].
  destruct (le x y) eqn:E.
  - constructor; [by constructor|]. constructor; [done|].
    eapply List.Forall_impl; [|exact Hy]. intros z Hz. by eapply le_trans.
  - constructor; [done|]. rewrite insert_by_perm. constructor; [|done].
    by destruct (le_total x y); congruence.
Qed.

Lemma sort_by_sorted l : StronglySorted (fun a b => le a b = true) (sort_by le l).
Proof using le_total le_trans. induction l; simpl; [constructor|]. by apply insert_by_sorted. Qed.
End sort_by_facts.
