(* ===== verification/GoLib.v ===== *)
(** * GoLib: the parts of Go's standard library the program uses

    Times and durations (package time), byte strings (package strings),
    decimal conversion (package strconv), base64 and hexadecimal
    (packages encoding/base64 and encoding/hex).  A Go string is a byte
    string, so it is Rocq's [string] of 8-bit characters.  A [time.Time] is
    its instant: nanoseconds since the Unix epoch, in [Z]; a
    [time.Duration] is an int64 of nanoseconds, in [Z], with its wrap-around
    written where a product or sum could leave the range. *)
From S2P Require Import Prelude.
From Stdlib Require Import DecimalString DecimalPos DecimalN NArith Decimal.
Local Open Scope Z_scope.

(** ** Package time *)

Abbreviation Time := Z (only parsing).
Abbreviation Duration := Z (only parsing).

Definition Microsecond : Duration := 1000.
Definition Second : Duration := 1000000000.
Definition Minute : Duration := 60 * Second.
Definition Hour : Duration := 60 * Minute.
Definition Day : Duration := 24 * Hour.

(** The zero [time.Time]: 1 January of year 1, 00:00:00 UTC. *)
Definition zero_time : Time := -62135596800 * Second.

Definition time_IsZero (t : Time) : bool := t =? zero_time.

Definition time_Add (t : Time) (d : Duration) : Time := t + d.

(** [t.Sub(u)] saturates at the int64 bounds. *)
Definition time_Sub (t u : Time) : Duration :=
  Z.max (-9223372036854775808) (Z.min 9223372036854775807 (t - u)).

(** [t.Truncate(d)] for [d > 0] rounds down to a multiple of [d] since the
    zero time. *)
Definition time_Truncate (t : Time) (d : Duration) : Time := t - (t - zero_time) mod d.

(** [time.Duration(n) * time.Second]: an int64 product. *)
Definition seconds (n : Z) : Duration := wrap64 (n * Second).

(** Midnight UTC of the day [t] falls in. *)
Definition utc_midnight (t : Time) : Time := t - t mod Day.

(** ** Package strings *)

Fixpoint str_all (p : ascii -> bool) (s : string) : bool :=
  match s with
  | EmptyString => true
  | String c s' => p c && str_all p s'
  end.

Fixpoint str_any (p : ascii -> bool) (s : string) : bool :=
  match s with
  | EmptyString => false
  | String c s' => p c || str_any p s'
  end.

(** [strings.HasPrefix(s, p)] and the rest of [s] after [p]. *)
Fixpoint cut_prefix (p s : string) : option string :=
  match p, s with
  | EmptyString, _ => Some s
  | String a p', String b s' => if Ascii.eqb a b then cut_prefix p' s' else None
  | String _ _, EmptyString => None
  end.

(** [strings.Contains(s, sub)]. *)
Fixpoint str_contains (sub s : string) : bool :=
  match cut_prefix sub s with
  | Some _ => true
  | None => match s with EmptyString => false | String _ s' => str_contains sub s' end
  end.

Definition is_digit (c : ascii) : bool := let x := N_of_ascii c in ((48 <=? x) && (x <=? 57))%N.

(** The value of a hexadecimal digit, in either case. *)
Definition hex_value (c : ascii) : option N :=
  let x := N_of_ascii c in
  (if (48 <=? x) && (x <=? 57) then Some (x - 48)
   else if (97 <=? x) && (x <=? 102) then Some (x - 87)
   else if (65 <=? x) && (x <=? 70) then Some (x - 55) else None)%N.

(** The white space of [unicode.IsSpace] at the head of a UTF-8 string: the
    number of bytes it takes, or 0.  The multi-byte sequences are U+0085,
    U+00A0, U+1680, U+2000 to U+200A, U+2028, U+2029, U+202F, U+205F and
    U+3000; a lead byte never occurs inside another rune, so matching bytes
    is matching runes. *)
Definition space_width (s : string) : nat :=
  match s with
  | String a r =>
      let x := N_of_ascii a in
      if ((9 <=? x) && (x <=? 13) || (x =? 32))%N then 1%nat else
      match r with
      | String b r2 =>
          let y := N_of_ascii b in
          if ((x =? 194) && ((y =? 133) || (y =? 160)))%N then 2%nat else
          match r2 with
          | String c _ =>
              let z := N_of_ascii c in
              if ((x =? 225) && (y =? 154) && (z =? 128)
                  || (x =? 226) && (y =? 128)
                     && ((128 <=? z) && (z <=? 138) || (z =? 168) || (z =? 169) || (z =? 175))
                  || (x =? 226) && (y =? 129) && (z =? 159)
                  || (x =? 227) && (y =? 128) && (z =? 128))%N then 3%nat else 0%nat
          | EmptyString => 0%nat
          end
      | EmptyString => 0%nat
      end
  | EmptyString => 0%nat
  end.

(** [strings.Fields(s)].  [skip] counts the bytes of a white-space rune still
    to drop; [cur] holds the current field in reverse. *)
Fixpoint fields_go (skip : nat) (cur s : string) : list string :=
  let flush := if String.eqb cur "" then [] else [String.rev cur] in
  match s with
  | EmptyString => flush
  | String c s' =>
      match skip with
      | S k => fields_go k cur s'
      | O => match space_width s with
             | O => fields_go 0 (String c cur) s'
             | S k => flush ++ fields_go k "" s'
             end
      end
  end.

Definition str_Fields (s : string) : list string := fields_go 0 "" s.

(** [strings.ReplaceAll(s, "\r\n", "\n")] and [strings.ReplaceAll(s, "\n", "\r\n")]. *)
Definition CR : ascii := "013"%char.
Definition LF : ascii := "010"%char.

Fixpoint replace_crlf_lf (s : string) : string :=
  match s with
  | String a ((String b r) as s') =>
      if Ascii.eqb a CR && Ascii.eqb b LF then String LF (replace_crlf_lf r)
      else String a (replace_crlf_lf s')
  | _ => s
  end.

Fixpoint replace_lf_crlf (s : string) : string :=
  match s with
  | EmptyString => EmptyString
  | String a r =>
      if Ascii.eqb a LF then String CR (String LF (replace_lf_crlf r))
      else String a (replace_lf_crlf r)
  end.

(** [html.EscapeString(s)]. *)
Definition escape_byte (c : ascii) : string :=
  if Ascii.eqb c "<" then "&lt;"
  else if Ascii.eqb c ">" then "&gt;"
  else if Ascii.eqb c "&" then "&amp;"
  else if Ascii.eqb c "'" then "&#39;"
  else if Ascii.eqb c "034" then "&#34;"
  else String c "".

Fixpoint EscapeString (s : string) : string :=
  match s with
  | EmptyString => EmptyString
  | String c r => escape_byte c +:+ EscapeString r
  end.

(** ** Package strconv *)

(** [strconv.FormatInt(n, 10)] and [strconv.Itoa(n)]. *)
Definition FormatInt (z : Z) : string :=
  match z with
  | Z0 => "0"
  | Zpos p => NilEmpty.string_of_uint (Pos.to_uint p)
  | Zneg p => String "-" (NilEmpty.string_of_uint (Pos.to_uint p))
  end.

(** A non-empty run of decimal digits. *)
Definition parse_digits (s : string) : option N :=
  if String.eqb s "" then None else N.of_uint <$> NilEmpty.uint_of_string s.

(** [strconv.ParseInt(s, 10, bits)], with [lim] = 2^(bits-1): an optional sign,
    digits, and the range check. *)
Definition ParseInt (lim : Z) (s : string) : option Z :=
  match s with
  | String "-" r =>
      n ← parse_digits r; if Z.of_N n <=? lim then Some (- Z.of_N n) else None
  | String "+" r =>
      n ← parse_digits r; if Z.of_N n <? lim then Some (Z.of_N n) else None
  | _ => n ← parse_digits s; if Z.of_N n <? lim then Some (Z.of_N n) else None
  end.

Definition lim64 : Z := 9223372036854775808.
Definition lim32 : Z := 2147483648.

(** [strconv.Atoi(s)] on a 64-bit platform. *)
Definition Atoi (s : string) : option Z := ParseInt lim64 s.

(** [fmt.Sprintf("%02d", n)] for [n >= 0]. *)
Definition pad2 (n : Z) : string :=
  if n <? 10 then String "0" (FormatInt n) else FormatInt n.

(** ** Packages encoding/base64 and encoding/hex *)

Definition sextet : Type := bool * bool * bool * bool * bool * bool.

Definition sextet_index (x : sextet) : N :=
  let '(a, b, c, d, e, f) := x in
  (32 * N.b2n a + 16 * N.b2n b + 8 * N.b2n c + 4 * N.b2n d + 2 * N.b2n e + N.b2n f)%N.

(** The URL-safe alphabet: A-Z a-z 0-9 - _ *)
Definition enc64 (x : sextet) : ascii :=
  let i := sextet_index x in
  ascii_of_N (if i <? 26 then 65 + i else if i <? 52 then 71 + i
              else if i <? 62 then i - 4 else if i =? 62 then 45 else 95)%N.

Definition sextet_of_index (i : N) : sextet :=
  (N.testbit i 5, N.testbit i 4, N.testbit i 3, N.testbit i 2, N.testbit i 1, N.testbit i 0).

Definition dec64 (c : ascii) : option sextet :=
  let x := N_of_ascii c in
  sextet_of_index <$>
    (if (65 <=? x) && (x <=? 90) then Some (x - 65)
     else if (97 <=? x) && (x <=? 122) then Some (x - 71)
     else if (48 <=? x) && (x <=? 57) then Some (x + 4)
     else if x =? 45 then Some 62 else if x =? 95 then Some 63 else None)%N.

(** [base64.RawURLEncoding.EncodeToString(s)]; [Ascii]'s bits are listed from
    the least significant one. *)
Fixpoint b64_encode (s : string) : string :=
  match s with
  | String (Ascii a0 a1 a2 a3 a4 a5 a6 a7) (String (Ascii b0 b1 b2 b3 b4 b5 b6 b7)
      (String (Ascii c0 c1 c2 c3 c4 c5 c6 c7) r)) =>
      String (enc64 (a7, a6, a5, a4, a3, a2)) (String (enc64 (a1, a0, b7, b6, b5, b4))
        (String (enc64 (b3, b2, b1, b0, c7, c6)) (String (enc64 (c5, c4, c3, c2, c1, c0))
          (b64_encode r))))
  | String (Ascii a0 a1 a2 a3 a4 a5 a6 a7) (String (Ascii b0 b1 b2 b3 b4 b5 b6 b7) EmptyString) =>
      String (enc64 (a7, a6, a5, a4, a3, a2)) (String (enc64 (a1, a0, b7, b6, b5, b4))
        (String (enc64 (b3, b2, b1, b0, false, false)) EmptyString))
  | String (Ascii a0 a1 a2 a3 a4 a5 a6 a7) EmptyString =>
      String (enc64 (a7, a6, a5, a4, a3, a2))
        (String (enc64 (a1, a0, false, false, false, false)) EmptyString)
  | EmptyString => EmptyString
  end.

(** The decoder proper, on input without line breaks; the bits a short final
    group leaves over are ignored, as the non-strict encoding does. *)
Fixpoint b64_groups (s : string) : option string :=
  match s with
  | String w (String x (String y (String z r))) =>
      '(a7, a6, a5, a4, a3, a2) ← dec64 w;
      '(a1, a0, b7, b6, b5, b4) ← dec64 x;
      '(b3, b2, b1, b0, c7, c6) ← dec64 y;
      '(c5, c4, c3, c2, c1, c0) ← dec64 z;
      t ← b64_groups r;
      Some (String (Ascii a0 a1 a2 a3 a4 a5 a6 a7) (String (Ascii b0 b1 b2 b3 b4 b5 b6 b7)
              (String (Ascii c0 c1 c2 c3 c4 c5 c6 c7) t)))
  | String w (String x (String y EmptyString)) =>
      '(a7, a6, a5, a4, a3, a2) ← dec64 w;
      '(a1, a0, b7, b6, b5, b4) ← dec64 x;
      '(b3, b2, b1, b0, _, _) ← dec64 y;
      Some (String (Ascii a0 a1 a2 a3 a4 a5 a6 a7)
              (String (Ascii b0 b1 b2 b3 b4 b5 b6 b7) EmptyString))
  | String w (String x EmptyString) =>
      '(a7, a6, a5, a4, a3, a2) ← dec64 w;
      '(a1, a0, _, _, _, _) ← dec64 x;
      Some (String (Ascii a0 a1 a2 a3 a4 a5 a6 a7) EmptyString)
  | String _ EmptyString => None
  | EmptyString => Some EmptyString
  end.

Fixpoint drop_newlines (s : string) : string :=
  match s with
  | EmptyString => EmptyString
  | String a r =>
      if Ascii.eqb a CR || Ascii.eqb a LF then drop_newlines r else String a (drop_newlines r)
  end.

(** [base64.RawURLEncoding.DecodeString(s)]. *)
Definition b64_decode (s : string) : option string := b64_groups (drop_newlines s).

Definition hex_digit (n : N) : ascii := ascii_of_N (if n <? 10 then 48 + n else 87 + n)%N.

(** [hex.EncodeToString(b)]. *)
Fixpoint hex_encode (s : string) : string :=
  match s with
  | EmptyString => EmptyString
  | String a r =>
      let n := N_of_ascii a in
      String (hex_digit (n / 16)) (String (hex_digit (n mod 16)) (hex_encode r))
  end.

(** [strconv.Quote(s)], which is what [%q] prints: the escapes of ASCII; a
    byte above 127 is copied, as [Quote] does for the printable runes. *)
Definition dquote : ascii := "034"%char.

Definition quote_byte (c : ascii) : string :=
  let n := N_of_ascii c in
  if Ascii.eqb c dquote then String "\" (String dquote "")
  else if Ascii.eqb c "\" then "\\"
  else if (n =? 7)%N then "\a" else if (n =? 8)%N then "\b" else if (n =? 9)%N then "\t"
  else if (n =? 10)%N then "\n" else if (n =? 11)%N then "\v" else if (n =? 12)%N then "\f"
  else if (n =? 13)%N then "\r"
  else if ((n <? 32) || (n =? 127))%N then "\x" +:+ String (hex_digit (n / 16)) (String (hex_digit (n mod 16)) "")
  else String c "".

Fixpoint quote_bytes (s : string) : string :=
  match s with
  | EmptyString => EmptyString
  | String c r => quote_byte c +:+ quote_bytes r
  end.

Definition Quote (s : string) : string := String dquote (quote_bytes s +:+ String dquote "").

(** The string up to its first space, and the rest after it. *)
Fixpoint split_space (s : string) : option (string * string) :=
  match s with
  | EmptyString => None
  | String c r => if Ascii.eqb c " " then Some ("", r)
                  else '(a, b) ← split_space r; Some (String c a, b)
  end.

(** ** Calendar dates *)

(** Year, month and day of a day number (days since 1 January 1970) in the
    proleptic Gregorian calendar. *)
Definition civil_of_days (z : Z) : Z * Z * Z :=
  let z := z + 719468 in
  let era := z / 146097 in
  let doe := z mod 146097 in
  let yoe := (doe - doe / 1460 + doe / 36524 - doe / 146096) / 365 in
  let doy := doe - (365 * yoe + yoe / 4 - yoe / 100) in
  let mp := (5 * doy + 2) / 153 in
  let d := doy - (153 * mp + 2) / 5 + 1 in
  let m := if mp <? 10 then mp + 3 else mp - 9 in
  (yoe + era * 400 + (if m <=? 2 then 1 else 0), m, d).

Definition days_of_civil (y m d : Z) : Z :=
  let y := if m <=? 2 then y - 1 else y in
  let era := y / 400 in
  let yoe := y mod 400 in
  let doy := (153 * (if 2 <? m then m - 3 else m + 9) + 2) / 5 + d - 1 in
  era * 146097 + (yoe * 365 + yoe / 4 - yoe / 100 + doy) - 719468.

(** [n], which is not negative, in at least [w] decimal digits. *)
Fixpoint zeros (n : nat) (s : string) : string :=
  match n with
  | O => s
  | S n' => String "0" (zeros n' s)
  end.

Definition pad (w : nat) (n : Z) : string := zeros (w - String.length (FormatInt n)) (FormatInt n).

(** [t.UTC().Format(time.RFC3339)], for the years 0 to 9999. *)
Definition FormatRFC3339 (t : Time) : string :=
  let s := t / Second in
  let '(y, m, d) := civil_of_days (s / 86400) in
  let r := s mod 86400 in
  pad 4 y +:+ "-" +:+ pad 2 m +:+ "-" +:+ pad 2 d +:+ "T" +:+ pad 2 (r / 3600) +:+ ":" +:+
  pad 2 (r / 60 mod 60) +:+ ":" +:+ pad 2 (r mod 60) +:+ "Z".

Definition weekday_name (d : Z) : string :=
  nth (Z.to_nat (d mod 7)) ["Thu"; "Fri"; "Sat"; "Sun"; "Mon"; "Tue"; "Wed"] "".

Definition month_name (m : Z) : string :=
  nth (Z.to_nat (m - 1))
    ["Jan"; "Feb"; "Mar"; "Apr"; "May"; "Jun"; "Jul"; "Aug"; "Sep"; "Oct"; "Nov"; "Dec"] "".

(** [t.UTC().Format(time.RFC1123)], for the years 0 to 9999. *)
Definition FormatRFC1123 (t : Time) : string :=
  let s := t / Second in
  let '(y, m, d) := civil_of_days (s / 86400) in
  let r := s mod 86400 in
  weekday_name (s / 86400) +:+ ", " +:+ pad 2 d +:+ " " +:+ month_name m +:+ " " +:+ pad 4 y +:+ " " +:+
  pad 2 (r / 3600) +:+ ":" +:+ pad 2 (r / 60 mod 60) +:+ ":" +:+ pad 2 (r mod 60) +:+ " UTC".

(** [json.Marshal] of a time refuses years outside 0 to 9999. *)
Definition year_0_to_9999 (t : Time) : bool :=
  (-62167219200 * Second <=? t) && (t <? 253402300800 * Second).

(** ** Facts *)

Lemma seconds_int32 n : is_int32 n -> seconds n = n * Second.
Proof. intros H. apply wrap64_id. unfold is_int32, is_int64, Second in *. lia. Qed.

Lemma string_of_uint_nonempty p : NilEmpty.string_of_uint (Pos.to_uint p) <> "".
Proof.
  intros E. pose proof (DecimalPos.Unsigned.of_to p) as H.
  destruct (Pos.to_uint p); simpl in E; try discriminate.
Qed.

Lemma parse_digits_pos p :
  parse_digits (NilEmpty.string_of_uint (Pos.to_uint p)) = Some (Npos p).
Proof.
  unfold parse_digits. destruct (String.eqb_spec (NilEmpty.string_of_uint (Pos.to_uint p)) "") as [E|_].
  - by apply string_of_uint_nonempty in E.
  - rewrite DecimalString.NilEmpty.usu. simpl. f_equal.
    change (Pos.to_uint p) with (N.to_uint (Npos p)). apply DecimalN.Unsigned.of_to.
Qed.

(** The head of a printed positive is a digit, never a sign. *)
Lemma string_of_uint_head p :
  exists c r, NilEmpty.string_of_uint (Pos.to_uint p) = String c r /\ c <> "-"%char /\ c <> "+"%char.
Proof.
  pose proof (string_of_uint_nonempty p).
  destruct (Pos.to_uint p); simpl in *; try done; by do 2 eexists.
Qed.

Lemma ParseInt_FormatInt z : is_int64 z -> ParseInt lim64 (FormatInt z) = Some z.
Proof.
  unfold is_int64, lim64. intros Hz. destruct z as [|p|p]; simpl FormatInt.
  - done.
  - pose proof (parse_digits_pos p) as Hp.
    destruct (string_of_uint_head p) as (c & r & E & Hm & Hpl). rewrite E in *.
    assert (Hgen : ParseInt 9223372036854775808 (String c r) =
      (n ← parse_digits (String c r); if Z.of_N n <? 9223372036854775808 then Some (Z.of_N n) else None)).
    { destruct c as [[] [] [] [] [] [] [] []]; try done; congruence. }
    rewrite Hgen, Hp. simpl. case_match; [done|lia].
  - unfold ParseInt. rewrite parse_digits_pos. simpl. case_match; [done|lia].
Qed.

Lemma dec64_enc64 x : dec64 (enc64 x) = Some x.
Proof. destruct x as [[[[[[] []] []] []] []] []]; reflexivity. Qed.

Lemma enc64_no_newline x : Ascii.eqb (enc64 x) CR || Ascii.eqb (enc64 x) LF = false.
Proof. destruct x as [[[[[[] []] []] []] []] []]; reflexivity. Qed.

(** Induction on a string three bytes at a time. *)
Lemma string_ind3 (P : string -> Prop) :
  P "" -> (forall a, P (String a "")) -> (forall a b, P (String a (String b ""))) ->
  (forall a b c r, P r -> P (String a (String b (String c r)))) -> forall s, P s.
Proof.
  intros H0 H1 H2 H3 s.
  enough (H : P s /\ (forall a, P (String a s)) /\ (forall a b, P (String a (String b s)))) by apply H.
  induction s as [|c s (IH & IHa & IHb)]; [done|]. split_and!; [apply IHa|done|].
  intros a b. by apply H3.
Qed.

Lemma drop_newlines_encode s : drop_newlines (b64_encode s) = b64_encode s.
Proof.
  induction s as [|[] | [] []|[] [] [] r IH] using string_ind3; cbn [b64_encode drop_newlines];
    rewrite ?enc64_no_newline; [done..|]. by rewrite IH.
Qed.

Lemma b64_round_trip s : b64_decode (b64_encode s) = Some s.
Proof.
  unfold b64_decode. rewrite drop_newlines_encode.
  induction s as [|[] | [] []|[] [] [] r IH] using string_ind3; simpl; rewrite ?dec64_enc64; simpl; try done.
  by rewrite IH.
Qed.

Definition no_space (s : string) : bool := str_all (fun c => negb (Ascii.eqb c " ")) s.

Lemma string_of_uint_no_space d : no_space (NilEmpty.string_of_uint d) = true.
Proof. unfold no_space. by induction d. Qed.

Lemma FormatInt_no_space z : no_space (FormatInt z) = true.
Proof. destruct z as [|p|p]; [done|apply string_of_uint_no_space|]. simpl. apply string_of_uint_no_space. Qed.

Lemma split_space_app a b : no_space a = true -> split_space (a +:+ String " " b) = Some (a, b).
Proof.
  unfold no_space. induction a as [|c a IH]; simpl; [done|].
  rewrite andb_true_iff, negb_true_iff. intros [-> Ha]. by rewrite (IH Ha).
Qed.

Lemma split_space_None s : no_space s = true -> split_space s = None.
Proof.
  unfold no_space. induction s as [|c s IH]; simpl; [done|].
  rewrite andb_true_iff, negb_true_iff. intros [-> Hs]. by rewrite (IH Hs).
Qed.

(** *** Strings *)

Lemma append_cons c a b : String c a +:+ b = String c (a +:+ b).
Proof. done. Qed.

Lemma append_assoc a b c : (a +:+ b) +:+ c = a +:+ b +:+ c.
Proof. induction a as [|x a IH]; [done|]. by rewrite !append_cons, IH. Qed.

Lemma append_empty a : a +:+ "" = a.
Proof. induction a as [|x a IH]; [done|]. by rewrite append_cons, IH. Qed.

Lemma length_append a b : String.length (a +:+ b) = (String.length a + String.length b)%nat.
Proof. induction a as [|x a IH]; [done|]. rewrite append_cons. cbn. by rewrite IH. Qed.

Lemma cut_prefix_app p r : cut_prefix p (p +:+ r) = Some r.
Proof.
  induction p as [|a p IH]; [by destruct r|]. rewrite append_cons. cbn [cut_prefix]. by rewrite Ascii.eqb_refl.
Qed.

Lemma cut_prefix_append p q s : cut_prefix (p +:+ q) s = r ← cut_prefix p s; cut_prefix q r.
Proof.
  revert s. induction p as [|a p IH]; intros s; [by destruct s|]. rewrite append_cons.
  destruct s as [|b s]; [done|]. cbn [cut_prefix]. by destruct (Ascii.eqb a b).
Qed.

Lemma str_any_append p a b : str_any p (a +:+ b) = str_any p a || str_any p b.
Proof. induction a as [|x a IH]; [done|]. rewrite append_cons. cbn. by rewrite IH, orb_assoc. Qed.

Lemma str_any_weaken p q s : (forall c, p c = true -> q c = true) -> str_any q s = false -> str_any p s = false.
Proof.
  intros Hpq. induction s as [|c s IH]; [done|]. cbn. intros [Hq Hs]%orb_false_iff. rewrite IH by done.
  destruct (p c) eqn:E; [|done]. apply Hpq in E. congruence.
Qed.

(** The characters of a decimal number. *)
Definition decimal (c : ascii) : bool := is_digit c || Ascii.eqb c "-".

Lemma string_of_uint_decimal d : str_any (fun c => negb (decimal c)) (NilEmpty.string_of_uint d) = false.
Proof. by induction d. Qed.

Lemma FormatInt_decimal z : str_any (fun c => negb (decimal c)) (FormatInt z) = false.
Proof. destruct z as [|p|p]; [done| |]; apply string_of_uint_decimal. Qed.
