(* ===== verification/Json.v ===== *)
(** * Json: the JSON the service reads and writes (package encoding/json)

    [Json] is what a handler marshals; [Value] is what the decoder reads, each
    member of an object with its source text, which is what a
    [json.RawMessage] field keeps.  [read_value] is the scanner and the
    decoder of one value; [decode_object] is the decoding of a struct: keys
    are matched without regard to ASCII case, unknown keys are skipped, a
    later member replaces an earlier one, null leaves a non-pointer field
    alone and a value of the wrong type is an error.  Strings are valid UTF-8. *)
From S2P Require Import Prelude GoLib.
Local Open Scope Z_scope.

(** ** Output *)

#[local] Set Warnings "-register-all".

(** [JRaw] is a json.RawMessage. *)
Inductive Json :=
| JNull
| JBool (b : bool)
| JInt (n : Z)
| JStr (s : string)
| JArr (l : list Json)
| JObj (fields : list (string * Json))
| JRaw (text : string).

(** ** Input *)

Inductive Value :=
| VNull
| VBool (b : bool)
| VNum (literal : string)
| VStr (s : string)
| VArr (l : list Value)
| VObj (members : list (string * (string * Value))).

Definition is_json_space (c : ascii) : bool :=
  Ascii.eqb c " " || Ascii.eqb c "009" || Ascii.eqb c LF || Ascii.eqb c CR.

Fixpoint skip_space (s : string) : string :=
  match s with
  | String c r => if is_json_space c then skip_space r else s
  | EmptyString => ""
  end.

(** *** Strings *)

(** Four hexadecimal digits. *)
Definition read_hex4 (s : string) : option (N * string) :=
  match s with
  | String a (String b (String c (String d r))) =>
      x ← hex_value a; y ← hex_value b; z ← hex_value c; t ← hex_value d;
      Some (4096 * x + 256 * y + 16 * z + t, r)%N
  | _ => None
  end.

(** [utf8.AppendRune]. *)
Definition utf8_encode (r : N) : string :=
  let b (n : N) := String (ascii_of_N n) "" in
  (if r <? 0x80 then b r
   else if r <? 0x800 then b (0xC0 + r / 64) +:+ b (0x80 + r mod 64)
   else if r <? 0x10000 then b (0xE0 + r / 4096) +:+ b (0x80 + r / 64 mod 64) +:+ b (0x80 + r mod 64)
   else b (0xF0 + r / 262144) +:+ b (0x80 + r / 4096 mod 64) +:+ b (0x80 + r / 64 mod 64) +:+ b (0x80 + r mod 64))%N.

Definition replacement_char : N := 0xFFFD.
Definition is_high_surrogate (n : N) : bool := ((0xD800 <=? n) && (n <? 0xDC00))%N.
Definition is_low_surrogate (n : N) : bool := ((0xDC00 <=? n) && (n <? 0xE000))%N.

(** The rune of a \u escape of value [n] before [r]: a surrogate pair is one
    rune, half a pair is U+FFFD. *)
Definition escaped_rune (n : N) (r : string) : N * string :=
  if is_high_surrogate n then
    match r with
    | String "\" (String "u" r') =>
        match read_hex4 r' with
        | Some (lo, r'') => if is_low_surrogate lo then (0x10000 + (n - 0xD800) * 1024 + (lo - 0xDC00), r'')%N
                            else (replacement_char, r)
        | None => (replacement_char, r)
        end
    | _ => (replacement_char, r)
    end
  else if is_low_surrogate n then (replacement_char, r) else (n, r).

Definition simple_escape (c : ascii) : option ascii :=
  if Ascii.eqb c dquote || Ascii.eqb c "\" || Ascii.eqb c "/" then Some c
  else if Ascii.eqb c "b" then Some "008"%char else if Ascii.eqb c "f" then Some "012"%char
  else if Ascii.eqb c "n" then Some LF else if Ascii.eqb c "r" then Some CR
  else if Ascii.eqb c "t" then Some "009"%char else None.

(** The contents of a string literal, after its opening quote. *)
Fixpoint read_string (fuel : nat) (s : string) : option (string * string) :=
  match fuel with
  | O => None
  | S fuel =>
      match s with
      | EmptyString => None
      | String c r =>
          if Ascii.eqb c dquote then Some ("", r)
          else if Ascii.eqb c "\" then
            match r with
            | String "u" r =>
                '(n, r) ← read_hex4 r;
                let '(rune, r) := escaped_rune n r in
                '(t, r) ← read_string fuel r; Some (utf8_encode rune +:+ t, r)
            | String e r => c ← simple_escape e; '(t, r) ← read_string fuel r; Some (String c t, r)
            | EmptyString => None
            end
          else if (N_of_ascii c <? 32)%N then None
          else '(t, r) ← read_string fuel r; Some (String c t, r)
      end
  end.

(** *** Numbers *)

Fixpoint span_digits (s : string) : string * string :=
  match s with
  | String c r => if is_digit c then let '(d, r) := span_digits r in (String c d, r) else ("", s)
  | EmptyString => ("", "")
  end.

Definition digits1 (s : string) : option (string * string) :=
  let '(d, r) := span_digits s in if String.eqb d "" then None else Some (d, r).

(** An optional part that starts with one of [heads]. *)
Definition read_int (s : string) : option (string * string) :=
  match s with
  | String "0" r => Some ("0"%string, r)
  | _ => digits1 s
  end.

Definition read_frac (s : string) : option (string * string) :=
  match s with
  | String "." r => '(d, r) ← digits1 r; Some ("." +:+ d, r)
  | _ => Some ("", s)
  end.

Definition read_exp (s : string) : option (string * string) :=
  match s with
  | String c r =>
      if Ascii.eqb c "e" || Ascii.eqb c "E" then
        let '(sign, r) := match r with
                          | String "+" r => ("+"%string, r)
                          | String "-" r => ("-"%string, r)
                          | _ => ("", r)
                          end in
        '(d, r) ← digits1 r; Some (String c (sign +:+ d), r)
      else Some ("", s)
  | EmptyString => Some ("", "")
  end.

Definition read_number (s : string) : option (string * string) :=
  let '(sign, r) := match s with String "-" r => ("-"%string, r) | _ => ("", s) end in
  '(i, r) ← read_int r;
  '(f, r) ← read_frac r;
  '(e, r) ← read_exp r;
  Some (sign +:+ i +:+ f +:+ e, r).

(** *** Values *)

Definition maxNestingDepth : Z := 10000.

(** The text of [s] up to its suffix [rest]. *)
Definition text_before (s rest : string) : string := String.substring 0 (String.length s - String.length rest) s.

(** A literal. *)
Definition read_scalar (s : string) : option (Value * string) :=
  match s with
  | String c r =>
      if Ascii.eqb c dquote then '(t, r) ← read_string (S (String.length r)) r; Some (VStr t, r)
      else match cut_prefix "null" s, cut_prefix "true" s, cut_prefix "false" s with
           | Some r, _, _ => Some (VNull, r)
           | _, Some r, _ => Some (VBool true, r)
           | _, _, Some r => Some (VBool false, r)
           | _, _, _ => '(n, r) ← read_number s; Some (VNum n, r)
           end
  | EmptyString => None
  end.

(** What follows an opening bracket: its closing one, or contents. *)
Definition read_bracket (close : ascii) (nil : Value) (contents : string -> option (Value * string)) (r : string)
    : option (Value * string) :=
  match skip_space r with
  | String c r' as s => if Ascii.eqb c close then Some (nil, r') else contents s
  | s => contents s
  end.

(** [read_members] and [read_elements] start after the opening bracket or a
    comma, on a member that must be there. *)
Fixpoint read_value (fuel : nat) (depth : Z) (s : string) : option (Value * string) :=
  match fuel with
  | O => None
  | S fuel =>
      match skip_space s with
      | String c r as s =>
          if Ascii.eqb c "{" then
            if maxNestingDepth <=? depth then None
            else read_bracket "}" (VObj [])
                   (fun r => '(ms, r) ← read_members fuel (depth + 1) r; Some (VObj ms, r)) r
          else if Ascii.eqb c "[" then
            if maxNestingDepth <=? depth then None
            else read_bracket "]" (VArr [])
                   (fun r => '(l, r) ← read_elements fuel (depth + 1) r; Some (VArr l, r)) r
          else read_scalar s
      | EmptyString => None
      end
  end
with read_members (fuel : nat) (depth : Z) (s : string) : option (list (string * (string * Value)) * string) :=
  match fuel with
  | O => None
  | S fuel =>
      match skip_space s with
      | String c r =>
          if negb (Ascii.eqb c dquote) then None else
          '(key, r) ← read_string (S (String.length r)) r;
          match skip_space r with
          | String ":" r =>
              '(v, r') ← read_value fuel depth r;
              let text := text_before (skip_space r) r' in
              match skip_space r' with
              | String "," r => '(ms, r) ← read_members fuel depth r; Some ((key, (text, v)) :: ms, r)
              | String "}" r => Some ([(key, (text, v))], r)
              | _ => None
              end
          | _ => None
          end
      | EmptyString => None
      end
  end
with read_elements (fuel : nat) (depth : Z) (s : string) : option (list Value * string) :=
  match fuel with
  | O => None
  | S fuel =>
      '(v, r) ← read_value fuel depth s;
      match skip_space r with
      | String "," r => '(l, r) ← read_elements fuel depth r; Some (v :: l, r)
      | String "]" r => Some ([v], r)
      | _ => None
      end
  end.

Definition json_fuel (s : string) : nat := 2 * String.length s + 2.

(** [json.NewDecoder(r).Decode]: the first value of the input. *)
Definition first_value (s : string) : option Value := fst <$> read_value (json_fuel s) 0 s.

(** [json.Unmarshal] and [json.Valid]: the whole input is one value. *)
Definition whole_value (s : string) : option Value :=
  '(v, r) ← read_value (json_fuel s) 0 s; if String.eqb (skip_space r) "" then Some v else None.

Definition json_Valid (s : string) : bool := bool_decide (is_Some (whole_value s)).

(** *** Structs *)

(** ASCII case folding of a key. *)
Definition fold_byte (c : ascii) : ascii :=
  let n := N_of_ascii c in if ((65 <=? n) && (n <=? 90))%N then ascii_of_N (n + 32) else c.

Fixpoint fold_key (s : string) : string :=
  match s with EmptyString => "" | String c r => String (fold_byte c) (fold_key r) end.

(** A field decoder updates the struct, or fails on a value of the wrong type. *)
Definition FieldDecoder (T : Type) : Type := string -> Value -> T -> option T.

Definition field_string {T} (set : string -> T -> T) : FieldDecoder T := fun _ v x =>
  match v with VStr s => Some (set s x) | VNull => Some x | _ => None end.

Definition field_string_ptr {T} (set : option string -> T -> T) : FieldDecoder T := fun _ v x =>
  match v with VStr s => Some (set (Some s) x) | VNull => Some (set None x) | _ => None end.

Definition field_bool {T} (set : bool -> T -> T) : FieldDecoder T := fun _ v x =>
  match v with VBool b => Some (set b x) | VNull => Some x | _ => None end.

Definition field_bool_ptr {T} (set : option bool -> T -> T) : FieldDecoder T := fun _ v x =>
  match v with VBool b => Some (set (Some b) x) | VNull => Some (set None x) | _ => None end.

(** A number literal that is an integer of the field's width. *)
Definition field_int32_ptr {T} (set : option Z -> T -> T) : FieldDecoder T := fun _ v x =>
  match v with
  | VNum n => i ← ParseInt lim32 n; Some (set (Some i) x)
  | VNull => Some (set None x)
  | _ => None
  end.

Definition field_raw {T} (set : string -> T -> T) : FieldDecoder T := fun text _ x => Some (set text x).

(** A [map[string]string] field: members are added to the map. *)
Definition field_string_map {T} (get : T -> list (string * string)) (set : list (string * string) -> T -> T)
    : FieldDecoder T := fun _ v x =>
  match v with
  | VNull => Some (set [] x)
  | VObj ms =>
      l ← foldl (fun acc '(k, (_, v)) =>
                   l ← acc;
                   match v with
                   | VStr s => Some (List.filter (fun p => negb (String.eqb p.1 k)) l ++ [(k, s)])
                   | VNull => Some (List.filter (fun p => negb (String.eqb p.1 k)) l ++ [(k, ""%string)])
                   | _ => None
                   end) (Some (get x)) ms;
      Some (set l x)
  | _ => None
  end.

Definition find_field {T} (fields : list (string * FieldDecoder T)) (key : string) : option (FieldDecoder T) :=
  snd <$> find (fun p => String.eqb p.1 (fold_key key)) fields.

Definition decode_member {T} (fields : list (string * FieldDecoder T)) (acc : option T)
    (member : string * (string * Value)) : option T :=
  x ← acc;
  let '(key, (text, v)) := member in
  match find_field fields key with
  | Some f => f text v x
  | None => Some x
  end.

Definition decode_object {T} (fields : list (string * FieldDecoder T)) (zero : T) (v : Value) : option T :=
  match v with
  | VNull => Some zero
  | VObj ms => foldl (decode_member fields) (Some zero) ms
  | _ => None
  end.

(** ** Fuel: what is read is shorter, and more fuel reads the same *)

Local Open Scope nat_scope.

Lemma skip_space_length s : String.length (skip_space s) <= String.length s.
Proof. induction s as [|c s IH]; cbn; [done|]. destruct (is_json_space c); cbn; lia. Qed.

Lemma read_hex4_length s n r : read_hex4 s = Some (n, r) -> String.length r < String.length s.
Proof.
  destruct s as [|a [|b [|c [|d s]]]]; cbn; try done.
  destruct (hex_value a), (hex_value b), (hex_value c), (hex_value d); cbn; try done. intros [= <- <-]. lia.
Qed.

Lemma escaped_rune_length n r : String.length (escaped_rune n r).2 <= String.length r.
Proof.
  unfold escaped_rune. repeat case_match; cbn; try done.
  all: match goal with H : read_hex4 _ = Some _ |- _ => apply read_hex4_length in H end; cbn; lia.
Qed.

Lemma read_string_length fuel : forall s t r, read_string fuel s = Some (t, r) -> String.length r < String.length s.
Proof.
  induction fuel as [|fuel IH]; intros s t r; cbn; [done|]. destruct s as [|c s]; [done|].
  destruct (Ascii.eqb c dquote); [intros [= <- <-]; cbn; lia|].
  assert (Hcons : forall x q u, (x ≫= fun '(t0, r0) => Some (String q t0, r0)) = Some (t, r) ->
    x = read_string fuel u -> String.length r < String.length u).
  { intros x q u. destruct x as [[t0 r0]|]; cbn; [|done]. intros [= _ <-] Hx. by eapply IH. }
  destruct (Ascii.eqb c "\").
  - destruct s as [|e s]; [done|].
    assert (Hesc : (simple_escape e ≫= fun c => '(t, r) ← read_string fuel s; Some (String c t, r)) = Some (t, r) ->
      String.length r < S (String.length s)).
    { destruct (simple_escape e); cbn; [|done]. intros Hs. eapply Nat.lt_trans; [eapply Hcons; [exact Hs|done]|lia]. }
    destruct e as [[] [] [] [] [] [] [] []];
      try (intros Hs; apply Hesc in Hs; cbn [String.length]; lia).
    destruct (read_hex4 s) as [[n r1]|] eqn:Eh; cbn; [|done]. apply read_hex4_length in Eh.
    pose proof (escaped_rune_length n r1) as Hr. destruct (escaped_rune n r1) as [rune r2]. cbn in Hr.
    destruct (read_string fuel r2) as [[t0 r0]|] eqn:Er; cbn; [|done]. intros [= _ <-]. apply IH in Er. lia.
  - destruct (_ <? 32)%N; [done|]. intros Hs. cbn. pose proof (Hcons _ _ s Hs eq_refl). lia.
Qed.

(** More fuel for a string changes nothing once there is one unit a byte. *)
Lemma read_string_fuel f : forall f' s, String.length s < f -> f <= f' -> read_string f s = read_string f' s.
Proof.
  induction f as [|f IH]; intros [|f'] s Hs Hf; try lia. cbn. destruct s as [|c s]; [done|]. cbn in Hs.
  destruct (Ascii.eqb c dquote); [done|]. destruct (Ascii.eqb c "\").
  - destruct s as [|e s]; [done|]. cbn in Hs.
    assert (E : read_string f s = read_string f' s) by (apply IH; lia).
    destruct e as [[] [] [] [] [] [] [] []]; try (by rewrite E).
    destruct (read_hex4 s) as [[n r1]|] eqn:Eh; cbn; [|done]. apply read_hex4_length in Eh.
    pose proof (escaped_rune_length n r1) as Hr. destruct (escaped_rune n r1) as [rune r2]. cbn in Hr.
    by rewrite (IH f') by lia.
  - destruct (_ <? 32)%N; [done|]. by rewrite (IH f') by lia.
Qed.

Lemma span_digits_length s : String.length (span_digits s).2 <= String.length s.
Proof. induction s as [|c s IH]; cbn; [done|]. destruct (is_digit c); [|done]. destruct (span_digits s). cbn in *. lia. Qed.

Lemma digits1_length s d r : digits1 s = Some (d, r) -> String.length r < String.length s.
Proof.
  unfold digits1. destruct s as [|c s]; cbn; [done|]. destruct (is_digit c); [|done].
  pose proof (span_digits_length s) as Hs. destruct (span_digits s) as [d' r']. cbn in *. intros [= <- <-]. lia.
Qed.

Lemma read_int_length s d r : read_int s = Some (d, r) -> String.length r < String.length s.
Proof.
  destruct s as [|c s]; cbn [read_int]; [apply digits1_length|].
  destruct c as [[] [] [] [] [] [] [] []]; try apply digits1_length. intros [= <- <-]. cbn. lia.
Qed.

Lemma read_frac_length s d r : read_frac s = Some (d, r) -> String.length r <= String.length s.
Proof.
  destruct s as [|c s]; cbn [read_frac]; [by intros [= <- <-]|].
  destruct c as [[] [] [] [] [] [] [] []]; try (by intros [= <- <-]).
  destruct (digits1 s) as [[d' r']|] eqn:E; cbn; [|done]. intros [= <- <-]. apply digits1_length in E. lia.
Qed.

Lemma read_exp_length s d r : read_exp s = Some (d, r) -> String.length r <= String.length s.
Proof.
  destruct s as [|c s]; cbn [read_exp]; [by intros [= <- <-]|].
  destruct (_ || _); [|by intros [= <- <-]].
  assert (Hd : forall sign s', String.length s' <= String.length s ->
    (digits1 s' ≫= fun '(d, r) => Some (String c (sign +:+ d), r)) = Some (d, r) ->
    String.length r <= String.length (String c s)).
  { intros sign s' Hs'. destruct (digits1 s') as [[d' r']|] eqn:E; cbn; [|done]. intros [= <- <-].
    apply digits1_length in E. lia. }
  destruct s as [|e s]; [by apply Hd|]. destruct e as [[] [] [] [] [] [] [] []]; apply Hd; cbn; lia.
Qed.

Lemma read_number_length s n r : read_number s = Some (n, r) -> String.length r < String.length s.
Proof.
  assert (Hn : forall sign s', String.length s' <= String.length s ->
    ('(i, r) ← read_int s'; '(f, r) ← read_frac r; '(e, r) ← read_exp r; Some (sign +:+ i +:+ f +:+ e, r)) = Some (n, r) ->
    String.length r < String.length s).
  { intros sign s' Hs'. destruct (read_int s') as [[i r1]|] eqn:E1; cbn; [|done].
    destruct (read_frac r1) as [[x r2]|] eqn:E2; cbn; [|done]. destruct (read_exp r2) as [[e r3]|] eqn:E3; cbn; [|done].
    intros [= <- <-]. apply read_int_length in E1. apply read_frac_length in E2. apply read_exp_length in E3. lia. }
  unfold read_number. destruct s as [|c s]; [by apply Hn|]. destruct c as [[] [] [] [] [] [] [] []]; apply Hn; cbn; lia.
Qed.

Lemma cut_prefix_length p : forall s r, cut_prefix p s = Some r -> String.length s = String.length p + String.length r.
Proof.
  induction p as [|a p IH]; intros s r; cbn; [by intros [= ->]|]. destruct s as [|b s]; [done|].
  destruct (Ascii.eqb a b); [|done]. intros Hr. apply IH in Hr. cbn. lia.
Qed.

Lemma read_scalar_length s v r : read_scalar s = Some (v, r) -> String.length r < String.length s.
Proof.
  destruct s as [|c s]; [done|]. cbn [read_scalar]. destruct (Ascii.eqb c dquote).
  { destruct (read_string _ s) as [[t r']|] eqn:E; cbn; [|done]. intros [= _ <-]. apply read_string_length in E. lia. }
  destruct (cut_prefix "null" _) as [r1|] eqn:E1; [apply cut_prefix_length in E1; intros [= _ <-]; cbn in *; lia|].
  destruct (cut_prefix "true" _) as [r2|] eqn:E2; [apply cut_prefix_length in E2; intros [= _ <-]; cbn in *; lia|].
  destruct (cut_prefix "false" _) as [r3|] eqn:E3; [apply cut_prefix_length in E3; intros [= _ <-]; cbn in *; lia|].
  destruct (read_number _) as [[n r']|] eqn:E; cbn; [|done]. intros [= _ <-]. by apply read_number_length in E.
Qed.

Definition shrinks {A} (read : string -> option (A * string)) : Prop :=
  forall s v r, read s = Some (v, r) -> String.length r < String.length s.

Lemma shrinks_map {A B} (read : string -> option (A * string)) (f : A -> B) :
  shrinks read -> shrinks (fun s => '(a, r) ← read s; Some (f a, r)).
Proof. intros Hr s v r. destruct (read s) as [[a r']|] eqn:E; cbn; [|done]. intros [= _ <-]. by eapply Hr. Qed.

Lemma shrinks_bracket close nil contents : shrinks contents -> shrinks (read_bracket close nil contents).
Proof.
  intros Hc r v r'. unfold read_bracket. pose proof (skip_space_length r) as Hs. destruct (skip_space r) as [|c r1].
  - intros Hx. apply Hc in Hx; cbn in *; lia.
  - destruct (Ascii.eqb c close); [intros [= _ <-]; cbn in *; lia|]. intros Hx. apply Hc in Hx; cbn in *; lia.
Qed.

Lemma read_shrinks fuel :
  (forall d, shrinks (read_value fuel d)) /\ (forall d, shrinks (read_members fuel d)) /\
  (forall d, shrinks (read_elements fuel d)).
Proof.
  induction fuel as [|fuel (IHv & IHm & IHe)]; [done|]. split_and!; intros d s v r; cbn [read_value read_members read_elements].
  - pose proof (skip_space_length s) as Hs. destruct (skip_space s) as [|c s1]; [done|]. cbn in Hs.
    destruct (Ascii.eqb c "{"); [|destruct (Ascii.eqb c "[")]; [destruct (_ <=? _)%Z; [done|]..|].
    + intros Hb. eapply (shrinks_bracket _ _ _ (shrinks_map _ VObj (IHm (d + 1)%Z))) in Hb. lia.
    + intros Hb. eapply (shrinks_bracket _ _ _ (shrinks_map _ VArr (IHe (d + 1)%Z))) in Hb. lia.
    + intros Hr%read_scalar_length. cbn in Hr. lia.
  - pose proof (skip_space_length s) as Hs. destruct (skip_space s) as [|c s1]; [done|]. cbn in Hs.
    destruct (negb _); [done|]. destruct (read_string _ s1) as [[key r1]|] eqn:Ek; cbn; [|done].
    apply read_string_length in Ek. pose proof (skip_space_length r1) as H1. destruct (skip_space r1) as [|c2 r2]; [done|].
    cbn in H1.
    assert (Hrest : ('(v, r') ← read_value fuel d r2;
        let text := text_before (skip_space r2) r' in
        match skip_space r' with
        | String "," r => '(ms, r) ← read_members fuel d r; Some ((key, (text, v)) :: ms, r)
        | String "}" r => Some ([(key, (text, v))], r)
        | _ => None
        end) = Some (v, r) -> String.length r < String.length r2).
    { destruct (read_value fuel d r2) as [[x r3]|] eqn:Ev; cbn -[text_before]; [|done]. apply IHv in Ev.
      pose proof (skip_space_length r3) as H3. destruct (skip_space r3) as [|c3 r4]; [done|]. cbn in H3.
      destruct c3 as [[] [] [] [] [] [] [] []]; try done; [intros [= _ <-]; lia|].
      destruct (read_members fuel d r4) as [[ms r5]|] eqn:Em; cbn; [|done]. intros [= _ <-]. apply IHm in Em. lia. }
    destruct c2 as [[] [] [] [] [] [] [] []]; try done. intros Hx%Hrest. lia.
  - destruct (read_value fuel d s) as [[x r1]|] eqn:Ev; cbn; [|done]. apply IHv in Ev.
    pose proof (skip_space_length r1) as H1. destruct (skip_space r1) as [|c2 r2]; [done|]. cbn in H1.
    destruct c2 as [[] [] [] [] [] [] [] []]; try done; [intros [= _ <-]; lia|].
    destruct (read_elements fuel d r2) as [[l r3]|] eqn:Ee; cbn; [|done]. intros [= _ <-]. apply IHe in Ee. lia.
Qed.

Lemma read_bracket_ext close nil c1 c2 r :
  (forall s, String.length s <= String.length r -> c1 s = c2 s) ->
  read_bracket close nil c1 r = read_bracket close nil c2 r.
Proof.
  intros Hc. unfold read_bracket. pose proof (skip_space_length r) as Hs. destruct (skip_space r) as [|c s]; [by apply Hc|].
  destruct (Ascii.eqb c close); [done|by apply Hc].
Qed.

(** Fuel of two units a byte is enough: more reads the same. *)
Lemma read_fuel n : forall f g, 2 * n < f -> 2 * n < g ->
  (forall d s, String.length s <= n -> read_value f d s = read_value g d s) /\
  (forall d s, String.length s <= n -> read_members f d s = read_members g d s) /\
  (forall d s, String.length s <= n -> read_elements (S f) d s = read_elements (S g) d s).
Proof.
  induction n as [n IH] using lt_wf_ind. intros [|f] [|g] Hf Hg; try lia.
  assert (Hv : forall d s, String.length s < n -> read_value f d s = read_value g d s).
  { intros d s Hs. apply (IH (String.length s) Hs f g); lia. }
  assert (Hm : forall d s, String.length s < n -> read_members f d s = read_members g d s).
  { intros d s Hs. apply (IH (String.length s) Hs f g); lia. }
  assert (He : forall d s, String.length s < n -> read_elements f d s = read_elements g d s).
  { intros d s Hs. destruct f as [|f], g as [|g]; try lia. apply (IH (String.length s) Hs f g); lia. }
  assert (Hval : forall d s, String.length s <= n -> read_value (S f) d s = read_value (S g) d s).
  { intros d s Hs. cbn [read_value]. pose proof (skip_space_length s) as H1. destruct (skip_space s) as [|c r]; [done|].
    cbn in H1. destruct (Ascii.eqb c "{"); [|destruct (Ascii.eqb c "["); [|done]];
      (destruct (_ <=? _)%Z; [done|]); apply read_bracket_ext; intros u Hu; [rewrite Hm|rewrite He]; (done || lia). }
  split_and!; [exact Hval| |].
  - intros d s Hs. cbn [read_members]. pose proof (skip_space_length s) as H1. destruct (skip_space s) as [|c s1]; [done|].
    cbn in H1. destruct (negb _); [done|]. destruct (read_string _ s1) as [[key r1]|] eqn:Ek; cbn; [|done].
    apply read_string_length in Ek. pose proof (skip_space_length r1) as H2. destruct (skip_space r1) as [|c2 r2]; [done|].
    cbn in H2. destruct c2 as [[] [] [] [] [] [] [] []]; try done. rewrite Hv by lia.
    destruct (read_value g d r2) as [[x r3]|] eqn:Ev; cbn -[text_before]; [|done]. apply (proj1 (read_shrinks g)) in Ev.
    pose proof (skip_space_length r3) as H3. destruct (skip_space r3) as [|c3 r4]; [done|]. cbn in H3.
    destruct c3 as [[] [] [] [] [] [] [] []]; try done. by rewrite Hm by lia.
  - intros d s Hs. change (read_elements (S (S ?k)) d s) with
      ('(v, r) ← read_value (S k) d s;
       match skip_space r with
       | String "," r => '(l, r) ← read_elements (S k) d r; Some (v :: l, r)
       | String "]" r => Some ([v], r)
       | _ => None
       end).
    rewrite Hval by done. destruct (read_value (S g) d s) as [[x r1]|] eqn:Ev; cbn -[read_elements]; [|done].
    apply (proj1 (read_shrinks (S g))) in Ev.
    pose proof (skip_space_length r1) as H2. destruct (skip_space r1) as [|c2 r2]; [done|]. cbn in H2.
    destruct c2 as [[] [] [] [] [] [] [] []]; try done.
    assert (E : read_elements (S f) d r2 = read_elements (S g) d r2) by (apply (IH (String.length r2) ltac:(lia) f g); lia).
    by rewrite E.
Qed.

(** The decoders' fuel is enough: no more of it would read anything else. *)
Lemma json_fuel_enough s fuel : json_fuel s <= fuel -> read_value fuel 0 s = read_value (json_fuel s) 0 s.
Proof. intros Hf. unfold json_fuel in *. apply (read_fuel (String.length s)); lia. Qed.

(** ** Examples *)

(** Text with ' for the double quote. *)
Fixpoint quoted (s : string) : string :=
  match s with
  | EmptyString => ""
  | String c r => String (if Ascii.eqb c "'" then dquote else c) (quoted r)
  end.

Example json_examples :
  first_value (quoted "{ 'a' : [1, -2.5e3, true], 'b': 'x\u0041\n' } and more")
    = Some (VObj [("a"%string, ("[1, -2.5e3, true]"%string, VArr [VNum "1"; VNum "-2.5e3"; VBool true]));
                  ("b"%string, (quoted "'x\u0041\n'", VStr ("xA" +:+ String LF "")))]) /\
  whole_value "01" = None /\ whole_value "1 2" = None /\ whole_value "[1,]" = None /\ whole_value " null " = Some VNull.
Proof. vm_compute. repeat split. Qed.
