(* ===== verification/Marshal.v ===== *)
(** * Marshal: the text of the JSON the service and its clients write (encoding/json)

    [Marshal] is json.Marshal with its HTML escaping.  [marshal_round_trip]
    says what the decoder of Json reads of it: every number, key and text as it
    was, up to the decoder's nesting limit.  Strings are valid UTF-8, and a
    json.RawMessage is valid JSON. *)
From S2P Require Import Prelude GoLib Json.
From Stdlib Require Import Decimal DecimalString DecimalPos DecimalN NArith.
Local Open Scope Z_scope.

(** ** Output *)

(** The escape of a byte below 128. *)
Definition json_escape_byte (c : ascii) : string :=
  let n := N_of_ascii c in
  if Ascii.eqb c dquote || Ascii.eqb c "\" then String "\" (String c "")
  else if Ascii.eqb c LF then "\n"
  else if Ascii.eqb c CR then "\r"
  else if Ascii.eqb c "009" then "\t"
  else if Ascii.eqb c "008" then "\b"
  else if Ascii.eqb c "012" then "\f"
  else if (n <? 32)%N || Ascii.eqb c "<" || Ascii.eqb c ">" || Ascii.eqb c "&" then
    "\u00" +:+ String (hex_digit (n / 16)) (String (hex_digit (n mod 16)) "")
  else String c "".

(** U+2028 and U+2029 (E2 80 A8 and E2 80 A9) are escaped too. *)
Definition line_separator (c a b : ascii) : bool :=
  (N.eqb (N_of_ascii c) 226 && N.eqb (N_of_ascii a) 128 && (N.eqb (N_of_ascii b) 168 || N.eqb (N_of_ascii b) 169)).

Fixpoint json_escape (s : string) : string :=
  match s with
  | EmptyString => ""
  | String c r =>
      match r with
      | String a (String b r') =>
          if line_separator c a b then "\u202" +:+ String (hex_digit (N_of_ascii b - 160)) (json_escape r')
          else json_escape_byte c +:+ json_escape r
      | _ => json_escape_byte c +:+ json_escape r
      end
  end.

Definition json_quote (s : string) : string := String dquote (json_escape s +:+ String dquote "").

(** The compact form of a json.RawMessage: no space outside strings, and the
    same escapes inside; [instr] and [esc] say where in a string this is. *)
Fixpoint compact (instr esc : bool) (s : string) : string :=
  match s with
  | EmptyString => ""
  | String c r =>
      if instr then
        if Ascii.eqb c "<" || Ascii.eqb c ">" || Ascii.eqb c "&" then json_escape_byte c +:+ compact true false r
        else match r with
             | String a (String b r') =>
                 if line_separator c a b then "\u202" +:+ String (hex_digit (N_of_ascii b - 160)) (compact true false r')
                 else String c (compact (esc || negb (Ascii.eqb c dquote)) (negb esc && Ascii.eqb c "\") r)
             | _ => String c (compact (esc || negb (Ascii.eqb c dquote)) (negb esc && Ascii.eqb c "\") r)
             end
      else if is_json_space c then compact false false r
      else String c (compact (Ascii.eqb c dquote) false r)
  end.

Fixpoint commas (l : list string) : string :=
  match l with
  | [] => ""
  | [x] => x
  | x :: l => x +:+ String "," (commas l)
  end.

Fixpoint Marshal (j : Json) : string :=
  match j with
  | JNull => "null"
  | JBool true => "true"
  | JBool false => "false"
  | JInt n => FormatInt n
  | JStr s => json_quote s
  | JArr l => String "[" (commas (map Marshal l) +:+ "]")
  | JObj fields => String "{" (commas (map (fun f => json_quote f.1 +:+ String ":" (Marshal f.2)) fields) +:+ "}")
  | JRaw text => compact false false text
  end.

(** [json.NewEncoder(w).Encode(v)]. *)
Definition Encode (j : Json) : string := Marshal j +:+ String LF "".

Example Marshal_example :
  Marshal (JObj [("a", JArr [JInt (-5); JBool true; JNull]); ("b<", JStr ("x" +:+ quoted "'" +:+ String LF "")); ("c", JRaw "{ } ")])
  = quoted "{'a':[-5,true,null],'b\u003c':'x\" +:+ quoted "'\n','c':{}}".
Proof. vm_compute. reflexivity. Qed.

(** ** What is read back *)

(** The value of a JSON document without raw parts. *)
Fixpoint value_of (j : Json) : Value :=
  match j with
  | JNull | JRaw _ => VNull
  | JBool b => VBool b
  | JInt n => VNum (FormatInt n)
  | JStr s => VStr s
  | JArr l => VArr (map value_of l)
  | JObj fields => VObj (map (fun f => (f.1, (Marshal f.2, value_of f.2))) fields)
  end.

Fixpoint no_raw (j : Json) : bool :=
  match j with
  | JRaw _ => false
  | JArr l => forallb no_raw l
  | JObj fields => forallb (fun f => no_raw f.2) fields
  | _ => true
  end.

Fixpoint height (j : Json) : Z :=
  match j with
  | JArr l => 1 + foldr Z.max 0 (map height l)
  | JObj fields => 1 + foldr Z.max 0 (map (fun f => height f.2) fields)
  | _ => 0
  end.

(** Induction over a document. *)
Lemma Json_nested_ind (P : Json -> Prop) :
  P JNull -> (forall b, P (JBool b)) -> (forall n, P (JInt n)) -> (forall s, P (JStr s)) ->
  (forall l, Forall P l -> P (JArr l)) -> (forall fields, Forall (fun f => P f.2) fields -> P (JObj fields)) ->
  (forall text, P (JRaw text)) -> forall j, P j.
Proof.
  intros Hn Hb Hi Hs Ha Ho Hr. fix IH 1. intros [|b|n|s|l|fields|text].
  - exact Hn.
  - apply Hb.
  - apply Hi.
  - apply Hs.
  - apply Ha. induction l as [|x l IHl]; constructor; [apply IH|exact IHl].
  - apply Ho. induction fields as [|x l IHl]; constructor; [apply IH|exact IHl].
  - apply Hr.
Qed.

(** *** Strings *)

Definition escaped_u (c : ascii) : bool :=
  (N_of_ascii c <? 32)%N || Ascii.eqb c "<" || Ascii.eqb c ">" || Ascii.eqb c "&".

Lemma read_u_escape c rest : escaped_u c = true ->
  let n := N_of_ascii c in
  read_hex4 (String "0" (String "0" (String (hex_digit (n / 16)) (String (hex_digit (n mod 16)) rest)))) = Some (n, rest) /\
  escaped_rune n rest = (n, rest) /\ utf8_encode n = String c "".
Proof. destruct c as [[] [] [] [] [] [] [] []]; intros Hc; try discriminate Hc; vm_compute; repeat split. Qed.

Lemma read_separator c a b rest : line_separator c a b = true ->
  let n := (0x2020 + (N_of_ascii b - 160))%N in
  read_hex4 (String "2" (String "0" (String "2" (String (hex_digit (N_of_ascii b - 160)) rest)))) = Some (n, rest) /\
  escaped_rune n rest = (n, rest) /\ utf8_encode n = String c (String a (String b "")).
Proof.
  unfold line_separator. intros [[Hc%N.eqb_eq Ha%N.eqb_eq]%andb_true_iff Hb]%andb_true_iff.
  rewrite <- (ascii_N_embedding c), <- (ascii_N_embedding a), <- (ascii_N_embedding b), Hc, Ha.
  apply orb_true_iff in Hb as [Hb%N.eqb_eq|Hb%N.eqb_eq]; rewrite Hb; vm_compute; repeat split.
Qed.

Lemma read_escaped_byte c fuel x :
  read_string (S fuel) (json_escape_byte c +:+ x) = ('(t, r) ← read_string fuel x; Some (String c t, r)).
Proof. destruct c as [[] [] [] [] [] [] [] []]; reflexivity. Qed.

Lemma json_escape_cons c r :
  (exists a b r', r = String a (String b r') /\ line_separator c a b = true /\
     json_escape (String c r) = "\u202" +:+ String (hex_digit (N_of_ascii b - 160)) (json_escape r')) \/
  json_escape (String c r) = json_escape_byte c +:+ json_escape r.
Proof.
  destruct r as [|a [|b r']]; [by right..|]. destruct (line_separator c a b) eqn:E; [left|right].
  - exists a, b, r'. split; [done|]. split; [done|]. cbn. by rewrite E.
  - cbn [json_escape]. by rewrite E.
Qed.

Lemma escape_byte_length c : (0 < String.length (json_escape_byte c))%nat.
Proof. apply Nat.ltb_lt. by destruct c as [[] [] [] [] [] [] [] []]. Qed.

Lemma read_escape s : forall fuel rest, (String.length (json_escape s) < fuel)%nat ->
  read_string fuel (json_escape s +:+ String dquote rest) = Some (s, rest).
Proof.
  remember (String.length s) as n eqn:En. revert s En. induction n as [n IH] using lt_wf_ind. intros [|c r] -> fuel rest Hf.
  { destruct fuel; [cbn in Hf; lia|]. reflexivity. }
  destruct (json_escape_cons c r) as [(a & b & r' & -> & Hsep & Heq)|Heq]; rewrite Heq in *.
  - destruct fuel as [|fuel]; [lia|].
    destruct (read_separator c a b (json_escape r' +:+ String dquote rest) Hsep) as (Hhex & Hrune & Hutf).
    change (("\u202" +:+ String ?h ?x) +:+ ?y) with (String "\" (String "u" (String "2" (String "0" (String "2" (String h (x +:+ y))))))).
    cbn [read_string]. cbn [Ascii.eqb]. change (Ascii.eqb "\" dquote) with false. cbn [Bool.eqb].
    change (Ascii.eqb "\" "\") with true. cbv iota. rewrite Hhex. cbn [mbind option_bind]. rewrite Hrune.
    rewrite (IH (String.length r')); [|cbn; lia|done|]. 2: { rewrite length_append in Hf. cbn in Hf. lia. }
    cbn [mbind option_bind]. rewrite Hutf. reflexivity.
  - rewrite append_assoc, length_append in *. pose proof (escape_byte_length c). destruct fuel as [|fuel]; [lia|].
    rewrite read_escaped_byte, (IH (String.length r)); [reflexivity|cbn; lia|done|lia].
Qed.

(** *** Numbers *)

(** What may follow a number. *)
Definition number_end (s : string) : bool :=
  match s with
  | String c _ => negb (is_digit c || Ascii.eqb c "." || Ascii.eqb c "e" || Ascii.eqb c "E")
  | EmptyString => true
  end.

Lemma span_digits_uint d rest : number_end rest = true ->
  span_digits (NilEmpty.string_of_uint d +:+ rest) = (NilEmpty.string_of_uint d, rest).
Proof.
  intros He. induction d as [|d IH|d IH|d IH|d IH|d IH|d IH|d IH|d IH|d IH|d IH]; cbn [NilEmpty.string_of_uint]; rewrite ?append_cons.
  { destruct rest as [|c rest]; [done|]. unfold number_end in He. change ("" +:+ ?x) with x. cbn [span_digits].
    destruct (is_digit c); [discriminate He|reflexivity]. }
  all: cbn [span_digits]; change (is_digit _) with true; cbv iota; by rewrite IH.
Qed.

Lemma uint_head p : exists c r, NilEmpty.string_of_uint (Pos.to_uint p) = String c r /\ is_digit c = true /\ c <> "0"%char.
Proof.
  assert (Hnorm : unorm (Pos.to_uint p) = Pos.to_uint p).
  { change (Pos.to_uint p) with (N.to_uint (Npos p)). by rewrite <- DecimalN.Unsigned.to_of, DecimalN.Unsigned.of_to. }
  assert (Hnz : Pos.to_uint p <> Nil /\ Pos.to_uint p <> zero)
    by (split; [apply DecimalPos.Unsigned.to_uint_nonnil|apply DecimalPos.Unsigned.to_uint_nonzero]).
  destruct Hnz as [Hn Hz]. unfold unorm in Hnorm.
  assert (Hh : forall d l, nzhead d <> D0 l) by (induction d; cbn; congruence).
  destruct (Pos.to_uint p) as [|l|l|l|l|l|l|l|l|l|l] eqn:E; [done| |by do 2 eexists..].
  exfalso. destruct (nzhead (D0 l)) eqn:Ed; try discriminate Hnorm; [by destruct Hz|by eapply Hh].
Qed.

Lemma read_FormatInt n rest : number_end rest = true -> read_number (FormatInt n +:+ rest) = Some (FormatInt n, rest).
Proof.
  intros He.
  assert (Htail : read_frac rest = Some ("", rest) /\ read_exp rest = Some ("", rest)).
  { destruct rest as [|c rest]; [done|]. cbn in He. apply negb_true_iff in He.
    split; destruct c as [[] [] [] [] [] [] [] []]; try done. }
  destruct Htail as [Hfr Hex].
  assert (Hpos : forall p, read_int (NilEmpty.string_of_uint (Pos.to_uint p) +:+ rest) = Some (NilEmpty.string_of_uint (Pos.to_uint p), rest)).
  { intros p. pose proof (span_digits_uint (Pos.to_uint p) rest He) as Hs. destruct (uint_head p) as (c & r & Hr & Hd & H0).
    unfold read_int, digits1. rewrite Hr in *. rewrite append_cons in *. rewrite Hs. cbn [String.eqb].
    destruct c as [[] [] [] [] [] [] [] []]; try done. }
  destruct n as [|p|p]; cbn [FormatInt]; unfold read_number.
  - change (String "0" "" +:+ rest) with (String "0" rest). cbn [read_int mbind option_bind]. by rewrite Hfr; cbn; rewrite Hex.
  - destruct (uint_head p) as (c & r & Hr & Hd & H0). specialize (Hpos p). rewrite Hr in *. rewrite append_cons in *.
    assert (Hsign : match String c (r +:+ rest) with String "-" r => ("-"%string, r) | _ => ("", String c (r +:+ rest)) end
                    = ("", String c (r +:+ rest))) by (by destruct c as [[] [] [] [] [] [] [] []]).
    rewrite Hsign, Hpos. cbn [mbind option_bind]. rewrite Hfr. cbn [mbind option_bind]. rewrite Hex. cbn.
    by rewrite append_empty.
  - rewrite append_cons, Hpos. cbn [mbind option_bind]. rewrite Hfr. cbn [mbind option_bind]. rewrite Hex. cbn.
    by rewrite append_empty.
Qed.

(** *** Values *)

Local Open Scope nat_scope.

Lemma text_before_append a b : text_before (a +:+ b) b = a.
Proof.
  unfold text_before. rewrite length_append, Nat.add_sub. induction a as [|c a IH]; [by destruct b|].
  rewrite append_cons. cbn [String.length String.substring]. by rewrite IH.
Qed.

Lemma FormatInt_head n : exists c r, FormatInt n = String c r /\ GoLib.decimal c = true.
Proof.
  pose proof (FormatInt_decimal n) as Hd. destruct (FormatInt n) as [|c r] eqn:E.
  - destruct n as [|p|p]; cbn in E; [done| |done]. destruct (uint_head p) as (c & r & Hr & _). by rewrite Hr in E.
  - exists c, r. split; [done|]. cbn in Hd. apply orb_false_iff in Hd as [Hd _]. by apply negb_false_iff in Hd.
Qed.

(** A document starts with no space. *)
Lemma skip_space_Marshal j rest : no_raw j = true -> skip_space (Marshal j +:+ rest) = Marshal j +:+ rest.
Proof.
  destruct j as [|[]|n|s|l|fields|text]; try done. intros _. cbn [Marshal]. destruct (FormatInt_head n) as (c & r & -> & Hc).
  rewrite append_cons. cbn [skip_space]. replace (is_json_space c) with false; [done|].
  symmetry. by destruct c as [[] [] [] [] [] [] [] []].
Qed.

Lemma read_number_value n rest fuel depth : number_end rest = true ->
  read_value (S fuel) depth (FormatInt n +:+ rest) = Some (VNum (FormatInt n), rest).
Proof.
  intros He. pose proof (skip_space_Marshal (JInt n) rest eq_refl) as Hs. cbn [Marshal] in Hs. cbn [read_value]. rewrite Hs.
  pose proof (read_FormatInt n rest He) as Hr. destruct (FormatInt_head n) as (c & r & Heq & Hc). rewrite Heq in *.
  rewrite append_cons in *. unfold read_scalar. rewrite Hr.
  by destruct c as [[] [] [] [] [] [] [] []].
Qed.

Lemma read_string_value s rest fuel depth :
  read_value (S fuel) depth (json_quote s +:+ rest) = Some (VStr s, rest).
Proof.
  unfold json_quote. rewrite append_cons, append_assoc. cbn [read_value skip_space]. unfold read_scalar.
  change (is_json_space dquote) with false. cbv iota. change (Ascii.eqb dquote "{") with false. change (Ascii.eqb dquote "[") with false.
  cbv iota. rewrite Ascii.eqb_refl. change (String dquote "" +:+ rest) with (String dquote rest).
  rewrite read_escape; [done|]. rewrite length_append. cbn. lia.
Qed.

Local Open Scope Z_scope.

(** What the documents of a list need: enough fuel and depth left. *)
Definition reads_back (j : Json) : Prop :=
  no_raw j = true -> forall fuel depth rest,
    (2 * String.length (Marshal j +:+ rest) < fuel)%nat -> depth + height j <= maxNestingDepth -> number_end rest = true ->
    read_value fuel depth (Marshal j +:+ rest) = Some (value_of j, rest).

Lemma commas_cons x l : l <> [] -> commas (x :: l) = x +:+ String "," (commas l).
Proof. by destruct l. Qed.

Lemma max_height l j m : j ∈ l -> foldr Z.max 0 (map height l) <= m -> height j <= m.
Proof.
  induction l as [|x l IH]; [by intros ?%elem_of_nil|]. cbn. intros [->|Hin]%elem_of_cons Hm; [lia|]. apply IH; [done|lia].
Qed.

Lemma read_elements_back l : Forall reads_back l -> forallb no_raw l = true -> l <> [] ->
  forall fuel depth rest, (2 * String.length (commas (map Marshal l) +:+ String "]" rest) < fuel)%nat ->
    depth + foldr Z.max 0 (map height l) <= maxNestingDepth ->
    read_elements (S fuel) depth (commas (map Marshal l) +:+ String "]" rest) = Some (map value_of l, rest).
Proof.
  induction l as [|j l IH]; [done|]. intros [Hj Hl]%Forall_cons [Hrj Hrl]%andb_true_iff _ fuel depth rest Hf Hd.
  cbn [map foldr] in *. change (read_elements (S ?k) ?d ?s) with
      ('(v, r) ← read_value k d s;
       match skip_space r with
       | String "," r => '(l, r) ← read_elements k d r; Some (v :: l, r)
       | String "]" r => Some ([v], r)
       | _ => None
       end).
  destruct (decide (l = [])) as [->|Hne].
  - cbn [map commas] in *. rewrite Hj; [reflexivity|done|exact Hf|lia|done].
  - rewrite commas_cons in * by (by destruct l). rewrite append_assoc, append_cons in *.
    rewrite Hj; [|done|exact Hf|lia|done]. cbn [mbind option_bind skip_space]. change (is_json_space ",") with false. cbv iota.
    destruct fuel as [|fuel]; [lia|]. rewrite length_append in Hf. cbn [String.length] in Hf.
    rewrite IH; [done|done|done|done|lia|lia].
Qed.

Definition member_text (f : string * Json) : string := json_quote f.1 +:+ String ":" (Marshal f.2).

Lemma read_key key rest : 
  read_string (S (String.length (json_escape key +:+ String dquote rest))) (json_escape key +:+ String dquote rest) = Some (key, rest).
Proof. apply read_escape. rewrite length_append. lia. Qed.

Lemma read_members_back fields : Forall (fun f => reads_back f.2) fields -> forallb (fun f => no_raw f.2) fields = true -> fields <> [] ->
  forall fuel depth rest, (2 * String.length (commas (map member_text fields) +:+ String "}" rest) < fuel)%nat ->
    depth + foldr Z.max 0 (map (fun f => height f.2) fields) <= maxNestingDepth ->
    read_members fuel depth (commas (map member_text fields) +:+ String "}" rest)
    = Some (map (fun f => (f.1, (Marshal f.2, value_of f.2))) fields, rest).
Proof.
  induction fields as [|[key j] l IH]; [done|]. intros [Hj Hl]%Forall_cons [Hrj Hrl]%andb_true_iff _ fuel depth rest Hf Hd.
  cbn [map foldr fst snd] in *.
  assert (Hstep : forall fuel x, (2 * String.length (Marshal j +:+ x) < fuel)%nat -> number_end x = true ->
    read_members (S fuel) depth (member_text (key, j) +:+ x)
    = match skip_space x with
      | String "," r => '(ms, r) ← read_members fuel depth r; Some ((key, (Marshal j, value_of j)) :: ms, r)
      | String "}" r => Some ([(key, (Marshal j, value_of j))], r)
      | _ => None
      end).
  { intros k x Hx He. unfold member_text, json_quote. cbn [fst snd]. rewrite !append_assoc, !append_cons, !append_assoc.
    cbn [read_members skip_space]. change (is_json_space dquote) with false. cbv iota. rewrite Ascii.eqb_refl. cbn [negb].
    rewrite !append_cons. change ("" +:+ ?y) with y. rewrite read_key. cbn [mbind option_bind skip_space].
    change (is_json_space ":") with false. cbv iota. rewrite Hj; [|done|exact Hx|lia|done]. cbn [mbind option_bind].
    by rewrite skip_space_Marshal, text_before_append by done. }
  assert (Hkey : (String.length (Marshal j) < String.length (member_text (key, j)))%nat).
  { unfold member_text, json_quote. cbn [fst snd String.length]. rewrite !length_append. cbn [String.length]. rewrite length_append. cbn. lia. }
  destruct fuel as [|fuel]; [lia|]. destruct (decide (l = [])) as [->|Hne].
  - cbn [map commas] in *. rewrite length_append in Hf. cbn [String.length] in Hf.
    rewrite Hstep; [reflexivity| |done]. rewrite length_append. cbn [String.length]. lia.
  - rewrite commas_cons in * by (by destruct l). rewrite append_assoc, append_cons in *. rewrite length_append in Hf. cbn [String.length] in Hf.
    rewrite Hstep; [| |done]. 2: { rewrite length_append. cbn [String.length]. lia. }
    cbn [skip_space]. change (is_json_space ",") with false. cbv iota. rewrite IH; [done|done|done|done|lia|lia].
Qed.

Lemma read_bracket_nonempty close nil contents s :
  (exists c r, s = String c r /\ is_json_space c = false /\ Ascii.eqb c close = false) ->
  read_bracket close nil contents s = contents s.
Proof. intros (c & r & -> & Hs & Hc). unfold read_bracket. cbn [skip_space]. by rewrite Hs, Hc. Qed.

(** A document starts with a character that is no space and no bracket that
    closes. *)
Lemma Marshal_head j : no_raw j = true ->
  exists c r, Marshal j = String c r /\ is_json_space c = false /\ Ascii.eqb c "]" = false /\ Ascii.eqb c "}" = false.
Proof.
  destruct j as [|[]|n|s|l|fields|text]; try done; intros _; try by do 2 eexists.
  cbn [Marshal]. destruct (FormatInt_head n) as (c & r & -> & Hc). exists c, r. split; [done|].
  by destruct c as [[] [] [] [] [] [] [] []].
Qed.

Lemma commas_head x l c r : x = String c r -> exists r', commas (x :: l) = String c r'.
Proof. intros ->. destruct l as [|y l]; [by exists r|]. rewrite commas_cons by done. by eexists. Qed.

Lemma read_Marshal j : reads_back j.
Proof.
  induction j as [|b|n|s|l IH|fields IH|text] using Json_nested_ind; intros Hr fuel depth rest Hf Hd He.
  - by destruct fuel; [lia|].
  - destruct fuel; [lia|]. by destruct b.
  - destruct fuel; [lia|]. by apply read_number_value.
  - destruct fuel; [lia|]. by apply read_string_value.
  - cbn [Marshal value_of height no_raw] in *. rewrite append_cons, append_assoc in *.
    change ("]" +:+ rest) with (String "]" rest) in *. cbn [String.length] in Hf.
    destruct fuel as [|[|fuel]]; [lia..|]. assert (H0 : 0 <= foldr Z.max 0 (map height l)) by (clear; induction l; cbn; lia).
    change (read_value (S (S fuel)) depth (String "[" ?x)) with
      (if maxNestingDepth <=? depth then None
       else read_bracket "]" (VArr []) (fun r => '(l, r) ← read_elements (S fuel) (depth + 1) r; Some (VArr l, r)) x).
    destruct (Z.leb_spec maxNestingDepth depth); [lia|]. destruct (decide (l = [])) as [->|Hne]; [done|].
    rewrite read_bracket_nonempty.
    + rewrite read_elements_back; [done|done|done|done|lia|lia].
    + destruct l as [|j l]; [done|]. cbn in Hr. apply andb_true_iff in Hr as [Hrj _].
      destruct (Marshal_head j Hrj) as (c & r & Hj & Hs & Hc & _). cbn [map].
      destruct (commas_head _ (map Marshal l) c r Hj) as (r' & ->). rewrite append_cons. by do 2 eexists.
  - cbn [Marshal value_of height no_raw] in *. rewrite append_cons, append_assoc in *.
    change ("}" +:+ rest) with (String "}" rest) in *. cbn [String.length] in Hf. fold member_text in *.
    destruct fuel as [|fuel]; [lia|].
    assert (H0 : 0 <= foldr Z.max 0 (map (fun f => height f.2) fields)) by (clear; induction fields; cbn; lia).
    change (read_value (S fuel) depth (String "{" ?x)) with
      (if maxNestingDepth <=? depth then None
       else read_bracket "}" (VObj []) (fun r => '(ms, r) ← read_members fuel (depth + 1) r; Some (VObj ms, r)) x).
    destruct (Z.leb_spec maxNestingDepth depth); [lia|]. destruct (decide (fields = [])) as [->|Hne]; [done|].
    change (fun f => json_quote f.1 +:+ String ":" (Marshal f.2)) with member_text in *.
    rewrite read_bracket_nonempty.
    + rewrite read_members_back; [done|done|done|done|lia|lia].
    + destruct fields as [|f fields]; [done|]. cbn [map].
      destruct (commas_head (member_text f) (map member_text fields) dquote
        ((json_escape f.1 +:+ String dquote "") +:+ String ":" (Marshal f.2)) eq_refl) as (r' & ->).
      rewrite append_cons. by do 2 eexists.
  - done.
Qed.

(** What is marshalled is read back, whatever follows that could not belong to
    a number. *)
Lemma marshal_round_trip j rest :
  no_raw j = true -> height j <= maxNestingDepth -> number_end rest = true ->
  first_value (Marshal j +:+ rest) = Some (value_of j).
Proof.
  intros Hr Hh He. unfold first_value, json_fuel. rewrite read_Marshal; [done|done|lia|lia|done].
Qed.

Lemma encode_round_trip j : no_raw j = true -> height j <= maxNestingDepth -> first_value (Encode j) = Some (value_of j).
Proof. intros. by apply marshal_round_trip. Qed.
