(* ===== verification/Calendar.v ===== *)
(** * Calendar: dates and the RFC 3339 form of an instant (Go's package time)

    [civil_of_days] and [days_of_civil] are inverse to each other; the
    formatter and the parser of [time.RFC3339Nano], which the cursors of the
    monitor list are made of, are inverse on the years 0 to 9999. *)
From S2P Require Import Prelude GoLib.
Local Open Scope Z_scope.

(** ** time.Format and time.Parse with the layout RFC3339Nano *)

Definition digit_char (d : Z) : ascii := ascii_of_N (Z.to_N (48 + d)).

(** The digits of [n] below [10^w], most significant first. *)
Fixpoint digits_of (w : nat) (n : Z) : list Z :=
  match w with
  | O => []
  | S w' => n / 10 ^ Z.of_nat w' mod 10 :: digits_of w' n
  end.

(** The digits without the trailing zeros. *)
Fixpoint trim_zeros (l : list Z) : list Z :=
  match l with
  | [] => []
  | d :: l' => match trim_zeros l' with
               | [] => if d =? 0 then [] else [d]
               | t => d :: t
               end
  end.

Fixpoint digits_string (l : list Z) (rest : string) : string :=
  match l with
  | [] => rest
  | d :: l' => String (digit_char d) (digits_string l' rest)
  end.

(** ".999999999": nothing for a whole second. *)
Definition format_fraction (ns : Z) (rest : string) : string :=
  match trim_zeros (digits_of 9 ns) with
  | [] => rest
  | l => String "." (digits_string l rest)
  end.

(** [t.UTC().Format(time.RFC3339Nano)], for the years 0 to 9999. *)
Definition FormatRFC3339Nano (t : Time) : string :=
  let s := t / Second in
  let '(y, m, d) := civil_of_days (s / 86400) in
  let r := s mod 86400 in
  digits_string (digits_of 4 y) (String "-" (digits_string (digits_of 2 m) (String "-"
    (digits_string (digits_of 2 d) (String "T" (digits_string (digits_of 2 (r / 3600)) (String ":"
      (digits_string (digits_of 2 (r / 60 mod 60)) (String ":" (digits_string (digits_of 2 (r mod 60))
        (format_fraction (t mod Second) "Z"))))))))))).

Definition digit (c : ascii) : option Z :=
  let n := Z.of_N (N_of_ascii c) in if (48 <=? n) && (n <=? 57) then Some (n - 48) else None.

(** [getnum(s, true)]: two digits. *)
Definition getnum_fixed (s : string) : option (Z * string) :=
  match s with
  | String a (String b r) => x ← digit a; y ← digit b; Some (10 * x + y, r)
  | _ => None
  end.

(** [getnum(s, false)]: one or two digits. *)
Definition getnum (s : string) : option (Z * string) :=
  match s with
  | String a r => x ← digit a;
                  match r with
                  | String b r' => match digit b with Some y => Some (10 * x + y, r') | None => Some (x, r) end
                  | EmptyString => Some (x, r)
                  end
  | EmptyString => None
  end.

Definition getyear (s : string) : option (Z * string) :=
  '(c, r) ← getnum_fixed s; '(y, r) ← getnum_fixed r; Some (100 * c + y, r).

Definition skip (c : ascii) (s : string) : option string :=
  match s with String a r => if Ascii.eqb a c then Some r else None | EmptyString => None end.

Definition in_range (lo hi : Z) (x : Z) : option unit := if (lo <=? x) && (x <=? hi) then Some tt else None.

(** The leading digits: their value, how many there are (both up to nine
    digits; the parser drops the others), and what follows. *)
Fixpoint fraction_digits (left : nat) (v : Z) (n : nat) (s : string) : Z * nat * string :=
  match s with
  | String a r =>
      match digit a with
      | Some d => match left with
                  | S left' => fraction_digits left' (10 * v + d) (S n) r
                  | O => fraction_digits O v n r
                  end
      | None => (v, n, s)
      end
  | EmptyString => (v, n, s)
  end.

Definition parse_fraction (s : string) : Z * string :=
  match s with
  | String p (String a r) =>
      if (Ascii.eqb p "." || Ascii.eqb p ",") && bool_decide (is_Some (digit a)) then
        let '(v, n, rest) := fraction_digits 9 0 0 (String a r) in (v * 10 ^ (9 - Z.of_nat n), rest)
      else (0, s)
  | _ => (0, s)
  end.

(** "Z" or "+hh:mm": the offset in seconds, at the end of the input. *)
Definition parse_zone (s : string) : option Z :=
  match s with
  | String "Z" EmptyString => Some 0
  | String sg r =>
      '(h, r) ← getnum_fixed r; r ← skip ":" r; '(m, r) ← getnum_fixed r;
      _ ← in_range 0 24 h; _ ← in_range 0 60 m;
      if String.eqb r "" then
        if Ascii.eqb sg "+" then Some ((h * 60 + m) * 60)
        else if Ascii.eqb sg "-" then Some (- ((h * 60 + m) * 60)) else None
      else None
  | EmptyString => None
  end.

Definition leap (y : Z) : bool := (y mod 4 =? 0) && (negb (y mod 100 =? 0) || (y mod 400 =? 0)).

Definition days_in (m y : Z) : Z :=
  if m =? 2 then (if leap y then 29 else 28)
  else if (m =? 4) || (m =? 6) || (m =? 9) || (m =? 11) then 30 else 31.

(** [time.Parse(time.RFC3339Nano, s)]. *)
Definition ParseRFC3339Nano (s : string) : option Time :=
  '(y, s) ← getyear s; s ← skip "-" s;
  '(m, s) ← getnum_fixed s; _ ← in_range 1 12 m; s ← skip "-" s;
  '(d, s) ← getnum_fixed s; s ← skip "T" s;
  '(hh, s) ← getnum s; _ ← in_range 0 23 hh; s ← skip ":" s;
  '(mi, s) ← getnum_fixed s; _ ← in_range 0 59 mi; s ← skip ":" s;
  '(ss, s) ← getnum_fixed s; _ ← in_range 0 59 ss;
  let '(ns, s) := parse_fraction s in
  off ← parse_zone s;
  _ ← in_range 1 (days_in m y) d;
  Some ((days_of_civil y m d * 86400 + hh * 3600 + mi * 60 + ss - off) * Second + ns).

(** ** Dates *)

(** One day of the 400-year cycle: the facts the round trip needs. *)
Definition cycle_day_ok (doe : Z) : bool :=
  let yoe := (doe - doe / 1460 + doe / 36524 - doe / 146096) / 365 in
  let doy := doe - (365 * yoe + yoe / 4 - yoe / 100) in
  let mp := (5 * doy + 2) / 153 in
  let d := doy - (153 * mp + 2) / 5 + 1 in
  let m := if mp <? 10 then mp + 3 else mp - 9 in
  (0 <=? yoe) && (yoe <? 400) && (1 <=? m) && (m <=? 12) && (1 <=? d) &&
  (d <=? days_in m (yoe + (if m <=? 2 then 1 else 0))) &&
  (yoe * 365 + yoe / 4 - yoe / 100 + ((153 * (if 2 <? m then m - 3 else m + 9) + 2) / 5 + d - 1) =? doe).

Fixpoint all_below (n : positive) (p : Z -> bool) (lo : Z) : bool :=
  match n with
  | xH => p lo
  | xO m => all_below m p lo && all_below m p (lo + Zpos m)
  | xI m => p lo && all_below m p (lo + 1) && all_below m p (lo + 1 + Zpos m)
  end.

Lemma all_below_spec n p : forall lo z, all_below n p lo = true -> lo <= z < lo + Zpos n -> p z = true.
Proof.
  induction n as [m IH|m IH|]; intros lo z Ha Hz; simpl in Ha; rewrite ?andb_true_iff in Ha.
  - destruct Ha as [[H0 H1] H2]. destruct (decide (z = lo)) as [->|]; [done|].
    destruct (decide (z < lo + 1 + Zpos m)); [eapply (IH (lo + 1))|eapply (IH (lo + 1 + Zpos m))]; try done; lia.
  - destruct Ha as [H1 H2]. destruct (decide (z < lo + Zpos m)); [eapply (IH lo)|eapply (IH (lo + Zpos m))];
      try done; lia.
  - replace z with lo by lia. done.
Qed.

Lemma cycle_ok : all_below 146097 cycle_day_ok 0 = true.
Proof. vm_cast_no_check (eq_refl true). Qed.

Lemma leap_cycle y era : leap (y + era * 400) = leap y.
Proof.
  unfold leap. replace (y + era * 400) with (y + era * 100 * 4) at 1 by lia.
  replace (y + era * 400) with (y + era * 4 * 100) at 1 by lia. by rewrite !Z.mod_add by lia.
Qed.

Lemma days_in_cycle m y era : days_in m (y + era * 400) = days_in m y.
Proof. unfold days_in. by rewrite leap_cycle. Qed.

Lemma civil_round_trip z :
  let '(y, m, d) := civil_of_days z in
  days_of_civil y m d = z /\ 1 <= m <= 12 /\ 1 <= d <= days_in m y.
Proof.
  unfold civil_of_days. cbv zeta. set (era := (z + 719468) / 146097).
  pose proof (Z.div_mod (z + 719468) 146097 ltac:(lia)) as Hz.
  pose proof (Z.mod_pos_bound (z + 719468) 146097 ltac:(lia)) as Hb.
  set (doe := (z + 719468) mod 146097) in *. fold era in Hz.
  pose proof (all_below_spec _ _ _ doe cycle_ok ltac:(lia)) as Hok. unfold cycle_day_ok in Hok.
  set (yoe := (doe - doe / 1460 + doe / 36524 - doe / 146096) / 365) in *.
  set (doy := doe - (365 * yoe + yoe / 4 - yoe / 100)) in *.
  set (mp := (5 * doy + 2) / 153) in *. set (d := doy - (153 * mp + 2) / 5 + 1) in *.
  set (m := if mp <? 10 then mp + 3 else mp - 9) in *. clearbody yoe d m era doe.
  rewrite !andb_true_iff, !Z.leb_le, Z.ltb_lt, Z.eqb_eq in Hok.
  destruct Hok as ((((((H1 & H2) & H3) & H4) & H5) & H6) & H7).
  replace (yoe + era * 400 + (if m <=? 2 then 1 else 0)) with (yoe + (if m <=? 2 then 1 else 0) + era * 400) by lia.
  rewrite days_in_cycle. split; [|lia]. unfold days_of_civil.
  replace (if m <=? 2 then _ else _) with (yoe + era * 400) by (destruct (m <=? 2); lia).
  rewrite Z.div_add, Z.mod_add by lia. rewrite (Z.div_small yoe), (Z.mod_small yoe) by lia. lia.
Qed.

(** ** Fields *)

Lemma digit_digit_char d : 0 <= d < 10 -> digit (digit_char d) = Some d.
Proof.
  intros Hd. assert (d = 0 \/ d = 1 \/ d = 2 \/ d = 3 \/ d = 4 \/ d = 5 \/ d = 6 \/ d = 7 \/ d = 8 \/ d = 9)
    as [->|[->|[->|[->|[->|[->|[->|[->|[->| ->]]]]]]]]] by lia; reflexivity.
Qed.

Lemma getnum_fixed_digits n r : 0 <= n < 100 -> getnum_fixed (digits_string (digits_of 2 n) r) = Some (n, r).
Proof.
  intros Hn. cbn -[digit digit_char Z.modulo Z.div Z.mul]. change (10 ^ 1) with 10. change (10 ^ 0) with 1.
  rewrite !digit_digit_char by (apply Z.mod_pos_bound; lia). cbn -[Z.modulo Z.div Z.mul].
  do 2 f_equal. rewrite Z.div_1_r, (Z.mod_small (n / 10)) by (split; [apply Z.div_pos; lia|apply Z.div_lt_upper_bound; lia]).
  symmetry. apply Z.div_mod. lia.
Qed.

Lemma getnum_of_fixed s x : getnum_fixed s = Some x -> getnum s = Some x.
Proof.
  destruct s as [|a [|b r]]; simpl; [done..|]. destruct (digit a); simpl; [|done]. by destruct (digit b).
Qed.

Lemma getnum_digits n r : 0 <= n < 100 -> getnum (digits_string (digits_of 2 n) r) = Some (n, r).
Proof. intros Hn. by apply getnum_of_fixed, getnum_fixed_digits. Qed.

Lemma digits_of_4 n : 0 <= n < 10000 -> digits_of 4 n = digits_of 2 (n / 100) ++ digits_of 2 (n mod 100).
Proof.
  intros Hn. unfold digits_of, app. change (10 ^ Z.of_nat 3) with 1000. change (10 ^ Z.of_nat 2) with 100.
  change (10 ^ Z.of_nat 1) with 10. change (10 ^ Z.of_nat 0) with 1. rewrite !Z.div_1_r, Z.div_div by lia. change (100 * 10) with 1000.
  assert (E1 : n mod 100 / 10 mod 10 = n / 10 mod 10).
  { rewrite (Z.div_mod n 100) at 2 by lia. replace (100 * (n / 100)) with (n / 100 * 10 * 10) by lia.
    rewrite Z.div_add_l by lia. by rewrite Z.add_comm, Z.mod_add by lia. }
  assert (E2 : (n mod 100) mod 10 = n mod 10).
  { rewrite (Z.div_mod n 100) at 2 by lia. replace (100 * (n / 100)) with (n / 100 * 10 * 10) by lia.
    by rewrite Z.add_comm, Z.mod_add by lia. }
  by rewrite E1, E2.
Qed.

Lemma digits_string_app l l' r : digits_string (l ++ l') r = digits_string l (digits_string l' r).
Proof. induction l as [|d l IH]; simpl; [done|]. by rewrite IH. Qed.

Lemma getyear_digits n r : 0 <= n < 10000 -> getyear (digits_string (digits_of 4 n) r) = Some (n, r).
Proof.
  intros Hn. unfold getyear. rewrite digits_of_4, digits_string_app, getnum_fixed_digits by first
    [done | split; [apply Z.div_pos; lia|apply Z.div_lt_upper_bound; lia]]. cbn [mbind option_bind].
  rewrite getnum_fixed_digits by (apply Z.mod_pos_bound; lia).
  cbn [mbind option_bind]. do 2 f_equal. symmetry. apply Z.div_mod. lia.
Qed.

(** ** The fraction *)

Definition value_of_digits (l : list Z) : Z := foldl (fun v d => 10 * v + d) 0 l.

Lemma foldl_digits l : forall v, foldl (fun v d => 10 * v + d) v l = v * 10 ^ Z.of_nat (length l) + value_of_digits l.
Proof.
  unfold value_of_digits. induction l as [|d l IH]; intros v; cbn [foldl length]; [simpl; lia|].
  rewrite (IH (10 * v + d)), (IH (10 * 0 + d)). rewrite Nat2Z.inj_succ, Z.pow_succ_r by lia. lia.
Qed.

Lemma value_of_digits_cons d l : value_of_digits (d :: l) = d * 10 ^ Z.of_nat (length l) + value_of_digits l.
Proof. unfold value_of_digits at 1. cbn [foldl]. rewrite foldl_digits. lia. Qed.

Lemma length_digits_of w n : length (digits_of w n) = w.
Proof. induction w; simpl; congruence. Qed.

Lemma digits_of_value w n : value_of_digits (digits_of w n) = n mod 10 ^ Z.of_nat w.
Proof.
  induction w as [|w IH]; [simpl; by rewrite Z.mod_1_r|]. cbn [digits_of].
  rewrite value_of_digits_cons, IH, length_digits_of, Nat2Z.inj_succ, Z.pow_succ_r by lia.
  rewrite (Z.mul_comm 10), Z.rem_mul_r by lia. lia.
Qed.

Lemma digits_of_range w n : Forall (fun d => 0 <= d < 10) (digits_of w n).
Proof. induction w; simpl; constructor; [|done]. apply Z.mod_pos_bound. lia. Qed.

Lemma trim_zeros_spec l :
  exists k, l = trim_zeros l ++ replicate k 0.
Proof.
  induction l as [|d l [k IH]]; [by exists O|]. simpl. destruct (trim_zeros l) as [|e t] eqn:E.
  - destruct (Z.eqb_spec d 0) as [->|]; [exists (S k)|exists k]; simpl in *; congruence.
  - exists k. simpl in *. congruence.
Qed.

Lemma value_of_digits_zeros l k : value_of_digits (l ++ replicate k 0) = value_of_digits l * 10 ^ Z.of_nat k.
Proof.
  unfold value_of_digits at 1. rewrite foldl_app, foldl_digits, length_replicate. fold (value_of_digits l).
  enough (value_of_digits (replicate k 0) = 0) by lia.
  induction k as [|k IH]; [done|]. simpl. rewrite value_of_digits_cons, IH. lia.
Qed.

Lemma fraction_digits_run l : forall left v n r,
  Forall (fun d => 0 <= d < 10) l -> (length l <= left)%nat ->
  match r with String a _ => digit a = None | EmptyString => True end ->
  fraction_digits left v n (digits_string l r)
  = (foldl (fun v d => 10 * v + d) v l, (n + length l)%nat, r).
Proof.
  induction l as [|d l IH]; intros left v n r Hl Hlen Hr; simpl.
  - rewrite Nat.add_0_r. destruct r as [|a r]; simpl; [by destruct left|]. destruct left; simpl; by rewrite Hr.
  - apply Forall_cons in Hl as [Hd Hl]. destruct left as [|left]; [simpl in Hlen; lia|].
    simpl. rewrite digit_digit_char by done. rewrite IH by (done || (simpl in Hlen; lia)).
    do 2 f_equal. lia.
Qed.

Lemma parse_fraction_format ns : 0 <= ns < Second -> parse_fraction (format_fraction ns "Z") = (ns, "Z").
Proof.
  intros Hns. unfold format_fraction. destruct (trim_zeros_spec (digits_of 9 ns)) as [k Hk].
  pose proof (digits_of_value 9 ns) as Hv. pose proof (length_digits_of 9 ns) as Hlen.
  pose proof (digits_of_range 9 ns) as Hr. rewrite Hk in Hv, Hlen, Hr.
  rewrite value_of_digits_zeros in Hv. rewrite length_app, length_replicate in Hlen.
  apply Forall_app in Hr as [Hr _]. change (10 ^ Z.of_nat 9) with Second in Hv. rewrite Z.mod_small in Hv by done.
  destruct (trim_zeros (digits_of 9 ns)) as [|d l].
  - simpl in *. unfold value_of_digits in Hv. simpl in Hv. f_equal. lia.
  - cbn [digits_string parse_fraction]. assert (Hd : 0 <= d < 10) by (by inversion Hr).
    rewrite (digit_digit_char d Hd). cbn [Ascii.eqb Bool.eqb orb andb]. rewrite bool_decide_true by (by eexists).
    cbn [andb]. change (String (digit_char d) (digits_string l "Z")) with (digits_string (d :: l) "Z").
    rewrite fraction_digits_run by (done || lia). fold (value_of_digits (d :: l)).
    f_equal. rewrite <- Hv. do 2 f_equal. lia.
Qed.

(** ** The round trip *)

Lemma year_range t :
  year_0_to_9999 t = true -> let '(y, _, _) := civil_of_days (t / Second / 86400) in 0 <= y < 10000.
Proof.
  unfold year_0_to_9999. rewrite andb_true_iff, Z.leb_le, Z.ltb_lt. intros [Hlo Hhi].
  assert (Hz : -719528 <= t / Second / 86400 < 2932897).
  { rewrite Z.div_div by done. change (Second * 86400) with 86400000000000.
    unfold Second in *. split; [apply Z.div_le_lower_bound|apply Z.div_lt_upper_bound]; lia. }
  unfold civil_of_days. cbv zeta. set (z := t / Second / 86400) in *. clearbody z. clear Hlo Hhi.
  pose proof (Z.div_mod (z + 719468) 146097 ltac:(lia)) as Hdm.
  pose proof (Z.mod_pos_bound (z + 719468) 146097 ltac:(lia)) as Hb.
  set (era := (z + 719468) / 146097) in *. set (doe := (z + 719468) mod 146097) in *.
  pose proof (all_below_spec _ _ _ doe cycle_ok ltac:(lia)) as Hok. unfold cycle_day_ok in Hok.
  set (yoe := (doe - doe / 1460 + doe / 36524 - doe / 146096) / 365) in *.
  rewrite !andb_true_iff, !Z.leb_le, Z.ltb_lt, Z.eqb_eq in Hok.
  set (doy := doe - (365 * yoe + yoe / 4 - yoe / 100)) in *.
  set (m := if (5 * doy + 2) / 153 <? 10 then _ else _) in *.
  assert (Hera : era = -1 \/ 0 <= era <= 24) by lia.
  destruct Hera as [->|Hera].
  2:{ destruct Hok as ((((((H1 & H2) & H3) & H4) & H5) & H6) & H7).
      destruct (Z.leb_spec m 2) as [Hm|]; [|lia].
      destruct (decide (yoe = 399)) as [Ey|]; [|lia]. destruct (decide (era = 24)); [|lia].
      assert (E9 : (2 <? m) = false) by lia. rewrite E9, Ey in H7.
      change (399 * 365 + 399 / 4 - 399 / 100) with 145731 in H7.
      assert ((153 * (m + 9) + 2) / 5 >= 306) by (apply Z.le_ge, Z.div_le_lower_bound; lia). lia. }
  assert (Hdoe : 146037 <= doe) by lia.
  assert (Hy : yoe = 399 /\ m <= 2); [|destruct Hy as [-> Hm]; rewrite (proj2 (Z.leb_le _ _) Hm); lia].
  revert Hdoe Hb. clear. intros Hdoe Hb. subst m doy yoe.
  assert (Hall : all_below 60 (fun d =>
     let yoe := (d - d / 1460 + d / 36524 - d / 146096) / 365 in
     let doy := d - (365 * yoe + yoe / 4 - yoe / 100) in
     (yoe =? 399) && ((if (5 * doy + 2) / 153 <? 10 then (5 * doy + 2) / 153 + 3 else (5 * doy + 2) / 153 - 9) <=? 2))
     146037 = true) by (vm_compute; reflexivity).
  pose proof (all_below_spec _ _ _ doe Hall ltac:(lia)) as H. cbv beta zeta in H.
  by rewrite andb_true_iff, Z.eqb_eq, Z.leb_le in H.
Qed.

Lemma in_range_ok lo hi x : lo <= x <= hi -> in_range lo hi x = Some tt.
Proof. intros Hx. unfold in_range. by rewrite (proj2 (Z.leb_le _ _) (proj1 Hx)), (proj2 (Z.leb_le _ _) (proj2 Hx)). Qed.

Lemma skip_ok c r : skip c (String c r) = Some r.
Proof. simpl. by rewrite Ascii.eqb_refl. Qed.

Lemma clock_range r : 0 <= r < 86400 ->
  0 <= r / 3600 <= 23 /\ 0 <= r / 60 mod 60 <= 59 /\ 0 <= r mod 60 <= 59 /\
  r / 3600 * 3600 + r / 60 mod 60 * 60 + r mod 60 = r.
Proof.
  intros Hr. pose proof (Z.mod_pos_bound (r / 60) 60 ltac:(lia)). pose proof (Z.mod_pos_bound r 60 ltac:(lia)).
  pose proof (Z.div_mod r 60 ltac:(lia)) as E1. pose proof (Z.div_mod (r / 60) 60 ltac:(lia)) as E2.
  rewrite Z.div_div in E2 by lia. change (60 * 60) with 3600 in E2. lia.
Qed.

Lemma RFC3339Nano_round_trip t : year_0_to_9999 t = true -> ParseRFC3339Nano (FormatRFC3339Nano t) = Some t.
Proof.
  intros Ht. pose proof (year_range t Ht) as Hy. pose proof (civil_round_trip (t / Second / 86400)) as Hc.
  unfold FormatRFC3339Nano. destruct (civil_of_days (t / Second / 86400)) as [[y m] d].
  destruct Hc as (Hdays & Hm & Hd).
  pose proof (Z.mod_pos_bound (t / Second) 86400 ltac:(lia)) as Hr.
  destruct (clock_range _ Hr) as (H1 & H2 & H3 & Hsum). set (r := (t / Second) mod 86400) in *.
  assert (Hd31 : d <= 31) by (unfold days_in in Hd; repeat case_match; lia).
  unfold ParseRFC3339Nano.
  rewrite getyear_digits by done. cbn [mbind option_bind]. rewrite skip_ok. cbn [mbind option_bind].
  rewrite getnum_fixed_digits by lia. cbn [mbind option_bind]. rewrite in_range_ok by lia.
  cbn [mbind option_bind]. rewrite skip_ok. cbn [mbind option_bind].
  rewrite getnum_fixed_digits by lia. cbn [mbind option_bind]. rewrite skip_ok. cbn [mbind option_bind].
  rewrite getnum_digits by lia. cbn [mbind option_bind]. rewrite in_range_ok by lia.
  cbn [mbind option_bind]. rewrite skip_ok. cbn [mbind option_bind].
  rewrite getnum_fixed_digits by lia. cbn [mbind option_bind]. rewrite in_range_ok by lia.
  cbn [mbind option_bind]. rewrite skip_ok. cbn [mbind option_bind].
  rewrite getnum_fixed_digits by lia. cbn [mbind option_bind]. rewrite in_range_ok by lia.
  cbn [mbind option_bind]. rewrite parse_fraction_format by (apply Z.mod_pos_bound; done).
  cbn [parse_zone mbind option_bind]. rewrite in_range_ok by lia. cbn [mbind option_bind]. f_equal.
  rewrite Hdays. pose proof (Z.div_mod (t / Second) 86400 ltac:(lia)). fold r in H.
  pose proof (Z.div_mod t Second ltac:(done)). unfold Second in *. lia.
Qed.
