(* ===== verification/Mime.v ===== *)
(** * Mime: the message put on the wire (alert/email.go, buildMIME)

    [buildMIME] with what it uses of package mime (the Q encoding of RFC 2047)
    and of net/textproto (the dot-stuffing writer behind smtp's DATA), against
    readers written from the RFCs: the receiver gets back the headers, the
    subject and both bodies. *)
From S2P Require Import Prelude GoLib.
Local Open Scope Z_scope.

Record Message := mkMessage {
  msg_To : string;
  msg_Subject : string;
  msg_TextBody : string;
  msg_HTMLBody : string
}.

(** ** Lines *)

Definition hasHeaderInjection (s : string) : bool :=
  str_any (fun c => Ascii.eqb c CR || Ascii.eqb c LF) s.

Definition normalizeCRLF (s : string) : string := replace_lf_crlf (replace_crlf_lf s).

Definition CRLF : string := String CR (String LF "").

(** ** mime.QEncoding *)

Definition byte_between (lo hi : N) (c : ascii) : bool := let n := N_of_ascii c in (lo <=? n)%N && (n <=? hi)%N.

(** [needsEncoding]: a byte above 127 is part of a rune above '~'. *)
Definition needsEncoding (s : string) : bool :=
  str_any (fun c => negb (byte_between 32 126 c) && negb (Ascii.eqb c "009")) s.

Definition upper_hex (n : N) : ascii := ascii_of_N (if n <? 10 then 48 + n else 55 + n)%N.

(** A byte that Q encoding leaves as one character. *)
Definition q_plain (c : ascii) : bool :=
  byte_between 32 126 c && negb (Ascii.eqb c "=") && negb (Ascii.eqb c "?") && negb (Ascii.eqb c "_").

(** [writeQString] on one byte. *)
Definition q_byte (c : ascii) : string :=
  if Ascii.eqb c " " then "_"
  else if q_plain c then String c ""
  else String "=" (String (upper_hex (N_of_ascii c / 16)) (String (upper_hex (N_of_ascii c mod 16)) "")).

(** The width [utf8.DecodeRuneInString] returns: 1 for what is not UTF-8. *)
Definition continues (lo hi : N) (s : string) : bool :=
  match s with String c _ => byte_between lo hi c | EmptyString => false end.

Definition str_tail (s : string) : string := match s with String _ r => r | EmptyString => EmptyString end.

Definition rune_width (c : ascii) (r : string) : nat :=
  let cont s := continues 128 191 s in
  let r1 := str_tail r in
  if byte_between 194 223 c && cont r then 2
  else if (byte_between 224 224 c && continues 160 191 r || byte_between 225 236 c && cont r
           || byte_between 237 237 c && continues 128 159 r || byte_between 238 239 c && cont r) && cont r1 then 3
  else if (byte_between 240 240 c && continues 144 191 r || byte_between 241 243 c && cont r
           || byte_between 244 244 c && continues 128 143 r) && cont r1 && cont (str_tail r1) then 4
  else 1.

Definition openWord : string := "=?utf-8?q?".
Definition closeWord : string := "?=".
Definition splitWord : string := closeWord +:+ " " +:+ openWord.
Definition maxContentLen : nat := 63.

(** [qEncode]: [left] bytes of the current rune are still to be written, and
    [len] is [currentLen]. *)
Fixpoint qEncode (left len : nat) (s : string) : string :=
  match s with
  | EmptyString => EmptyString
  | String c r =>
      match left with
      | S left' => q_byte c +:+ qEncode left' len r
      | O =>
          let runeLen := if q_plain c then 1%nat else rune_width c r in
          let encLen := if q_plain c then 1%nat else (3 * runeLen)%nat in
          if (maxContentLen <? len + encLen)%nat
          then splitWord +:+ q_byte c +:+ qEncode (runeLen - 1) encLen r
          else q_byte c +:+ qEncode (runeLen - 1) (len + encLen) r
      end
  end.

(** [mime.QEncoding.Encode("utf-8", s)]. *)
Definition QEncode (s : string) : string :=
  if needsEncoding s then openWord +:+ qEncode 0 0 s +:+ closeWord else s.

(** ** The message *)

(** [t.UTC().Format(time.RFC1123Z)], for the years 0 to 9999. *)
Definition FormatRFC1123Z (t : Time) : string :=
  let s := t / Second in
  let '(y, m, d) := civil_of_days (s / 86400) in
  let r := s mod 86400 in
  weekday_name (s / 86400) +:+ ", " +:+ pad 2 d +:+ " " +:+ month_name m +:+ " " +:+ pad 4 y +:+ " " +:+
  pad 2 (r / 3600) +:+ ":" +:+ pad 2 (r / 60 mod 60) +:+ ":" +:+ pad 2 (r mod 60) +:+ " +0000".

Definition itoa (n : Z) : string := FormatInt n.

(** [now] and [now2] are the two readings of the clock. *)
Definition mime_boundary (now2 : Time) : string := "ping-boundary-" +:+ itoa (Z.land now2 2147483647).

Definition in_quotes (s : string) : string := String dquote (s +:+ String dquote "").

(** The fields every message has. *)
Definition mime_head (now : Time) (from : string) (msg : Message) : string :=
  "From: " +:+ from +:+ CRLF +:+
  "To: " +:+ msg_To msg +:+ CRLF +:+
  "Subject: " +:+ QEncode (msg_Subject msg) +:+ CRLF +:+
  "MIME-Version: 1.0" +:+ CRLF +:+
  "Date: " +:+ FormatRFC1123Z now +:+ CRLF.

Definition buildMIME (now now2 : Time) (from : string) (msg : Message) : string :=
  let head := mime_head now from msg in
  if String.eqb (msg_HTMLBody msg) "" then
    head +:+ "Content-Type: text/plain; charset=utf-8" +:+ CRLF +:+ CRLF +:+ normalizeCRLF (msg_TextBody msg)
  else
    let boundary := mime_boundary now2 in
    head +:+ "Content-Type: multipart/alternative; boundary=" +:+ in_quotes boundary +:+ CRLF +:+ CRLF +:+
    "--" +:+ boundary +:+ CRLF +:+
    "Content-Type: text/plain; charset=utf-8" +:+ CRLF +:+ CRLF +:+ normalizeCRLF (msg_TextBody msg) +:+ CRLF +:+
    "--" +:+ boundary +:+ CRLF +:+
    "Content-Type: text/html; charset=utf-8" +:+ CRLF +:+ CRLF +:+ normalizeCRLF (msg_HTMLBody msg) +:+ CRLF +:+
    "--" +:+ boundary +:+ "--" +:+ CRLF.

(** ** net/textproto's dot writer, which smtp's DATA writes through *)

Inductive DotState := Begin | BeginLine | InLine | AfterCR.

Fixpoint dot_write (st : DotState) (s : string) : string :=
  match s with
  | EmptyString =>
      match st with
      | Begin | InLine => CRLF +:+ "." +:+ CRLF
      | AfterCR => String LF "" +:+ "." +:+ CRLF
      | BeginLine => "." +:+ CRLF
      end
  | String c r =>
      match st with
      | AfterCR => String c (dot_write (if Ascii.eqb c LF then BeginLine else InLine) r)
      | _ =>
          let dot := match st with Begin | BeginLine => Ascii.eqb c "." | _ => false end in
          (if dot then "." else "") +:+
          (if Ascii.eqb c CR then String c (dot_write AfterCR r)
           else if Ascii.eqb c LF then String CR (String LF (dot_write BeginLine r))
           else String c (dot_write InLine r))
      end
  end.

(** ** What a receiver reads *)

(** RFC 5321: the text up to the line that is a single dot, with the first dot
    of every other line that starts with one taken off. *)
Fixpoint cut_line (s : string) : option (string * string) :=
  match s with
  | String a ((String b r) as s') =>
      if Ascii.eqb a CR && Ascii.eqb b LF then Some ("", r)
      else '(l, rest) ← cut_line s'; Some (String a l, rest)
  | _ => None
  end.

Fixpoint dot_read (fuel : nat) (s : string) : option string :=
  match fuel with
  | O => None
  | S n =>
      '(l, rest) ← cut_line s;
      if String.eqb l "." then Some ""
      else
        let l := match cut_prefix "." l with Some l' => l' | None => l end in
        body ← dot_read n rest; Some (l +:+ CRLF +:+ body)
  end.

(** RFC 2047: a subject of Q-encoded words of UTF-8. *)
Definition hex_upper_value (c : ascii) : option N :=
  if byte_between 48 57 c then Some (N_of_ascii c - 48)%N
  else if byte_between 65 70 c then Some (N_of_ascii c - 55)%N else None.

Fixpoint q_decode (fuel : nat) (s : string) : option string :=
  match fuel with
  | O => None
  | S n =>
      match cut_prefix closeWord s with
      | Some "" => Some ""
      | Some r => r' ← cut_prefix (" " +:+ openWord) r; q_decode n r'
      | None =>
          match s with
          | String "=" (String h (String l r)) =>
              h' ← hex_upper_value h; l' ← hex_upper_value l;
              rest ← q_decode n r; Some (String (ascii_of_N (16 * h' + l')) rest)
          | String c r => rest ← q_decode n r; Some (String (if Ascii.eqb c "_" then " "%char else c) rest)
          | EmptyString => None
          end
      end
  end.

Definition decode_subject (s : string) : option string :=
  match cut_prefix openWord s with
  | Some r => q_decode (S (String.length r)) r
  | None => Some s
  end.

(** RFC 5322: header fields up to the empty line, and what follows it. *)
Fixpoint split_field (s : string) : option (string * string) :=
  match cut_prefix ": " s with
  | Some v => Some ("", v)
  | None => match s with
            | String c r => '(n, v) ← split_field r; Some (String c n, v)
            | EmptyString => None
            end
  end.

Fixpoint read_header (fuel : nat) (s : string) : option (list (string * string) * string) :=
  match fuel with
  | O => None
  | S n =>
      '(l, rest) ← cut_line s;
      if String.eqb l "" then Some ([], rest)
      else f ← split_field l; '(fs, body) ← read_header n rest; Some (f :: fs, body)
  end.

(** [strings.Cut]: around the first occurrence. *)
Fixpoint str_Cut (sep s : string) : option (string * string) :=
  match cut_prefix sep s with
  | Some r => Some ("", r)
  | None => match s with
            | String c r => '(a, b) ← str_Cut sep r; Some (String c a, b)
            | EmptyString => None
            end
  end.

(** RFC 2046: the two parts between the delimiter lines of a boundary. *)
Definition read_alternative (boundary s : string) : option (string * string) :=
  let delimiter := CRLF +:+ "--" +:+ boundary in
  s ← cut_prefix ("--" +:+ boundary +:+ CRLF) s;
  '(part1, s) ← str_Cut delimiter s;
  s ← cut_prefix CRLF s;
  '(part2, s) ← str_Cut delimiter s;
  s ← cut_prefix ("--" +:+ CRLF) s;
  if negb (String.eqb s "") then None else
  '(h1, text) ← read_header 2 part1;
  '(h2, html) ← read_header 2 part2;
  if bool_decide (h1 = [("Content-Type", "text/plain; charset=utf-8")])
     && bool_decide (h2 = [("Content-Type", "text/html; charset=utf-8")])
  then Some (text, html) else None.

Record Mail := mkMail {
  ml_fields : list (string * string);
  ml_text : string;
  ml_html : option string
}.

(** The fields of a mail but its Content-Type, and its bodies. *)
Definition read_mail (s : string) : option Mail :=
  '(fields, body) ← read_header 7 s;
  match last fields with
  | Some ("Content-Type", v) =>
      let fs := removelast fields in
      if String.eqb v "text/plain; charset=utf-8" then Some (mkMail fs body None)
      else
        q ← cut_prefix ("multipart/alternative; boundary=" +:+ String dquote "") v;
        '(boundary, _) ← str_Cut (String dquote "") q;
        '(text, html) ← read_alternative boundary body; Some (mkMail fs text (Some html))
  | _ => None
  end.

(** Text without a line break. *)
Abbreviation one_line s := (hasHeaderInjection s = false).

Lemma one_line_append a b : one_line a -> one_line b -> one_line (a +:+ b).
Proof. unfold hasHeaderInjection. intros Ha Hb. by rewrite str_any_append, Ha. Qed.

Lemma one_line_FormatInt z : one_line (FormatInt z).
Proof.
  eapply str_any_weaken; [|apply FormatInt_decimal]. intros c. unfold decimal, CR, LF.
  destruct (Ascii.eqb_spec c "013"); [by subst|]. by destruct (Ascii.eqb_spec c "010"); [subst|].
Qed.

Lemma one_line_pad w z : one_line (pad w z).
Proof. unfold pad. induction (w - _)%nat as [|n IH]; cbn [zeros]; [apply one_line_FormatInt|exact IH]. Qed.

Lemma one_line_nth (l : list string) n : Forall (fun s => one_line s) l -> one_line (nth n l "").
Proof. intros Hl. revert n. induction Hl as [|x l Hx _ IH]; intros [|n]; cbn; done. Qed.

Lemma one_line_q_byte c : one_line (q_byte c).
Proof. destruct c as [[] [] [] [] [] [] [] []]; reflexivity. Qed.

Create HintDb mime discriminated.
#[export] Hint Resolve one_line_append one_line_FormatInt one_line_pad one_line_nth one_line_q_byte : mime.

Lemma one_line_date t : one_line (FormatRFC1123Z t).
Proof.
  unfold FormatRFC1123Z, weekday_name, month_name. destruct (civil_of_days _) as [[y m] d].
  repeat (apply one_line_append; auto with mime); apply one_line_nth; repeat constructor.
Qed.

Lemma one_line_qEncode s : forall left len, one_line (qEncode left len s).
Proof.
  induction s as [|c s IH]; intros [|left] len; cbn [qEncode]; auto with mime.
  destruct (Nat.ltb _ _); auto with mime.
Qed.

Lemma one_line_QEncode s : one_line (QEncode s).
Proof.
  unfold QEncode. destruct (needsEncoding s) eqn:E; [auto using one_line_qEncode with mime|].
  eapply str_any_weaken; [|exact E]. intros c. unfold CR, LF.
  destruct (Ascii.eqb_spec c "013"); [by subst|]. by destruct (Ascii.eqb_spec c "010"); [subst|].
Qed.

(** ** The subject *)

Lemma q_decode_byte n c r : q_decode (S n) (q_byte c +:+ r) = s ← q_decode n r; Some (String c s).
Proof. destruct c as [[] [] [] [] [] [] [] []]; reflexivity. Qed.

Lemma q_decode_split n r : q_decode (S n) (splitWord +:+ r) = q_decode n r.
Proof. cbn [q_decode]. unfold splitWord. rewrite append_assoc, cut_prefix_app. done. Qed.

Lemma q_byte_length c : (1 <= String.length (q_byte c))%nat.
Proof. unfold q_byte. repeat case_match; cbn; lia. Qed.

Lemma q_decode_qEncode s : forall left len n, (String.length (qEncode left len s) < n)%nat ->
  q_decode n (qEncode left len s +:+ closeWord) = Some s.
Proof.
  assert (Hbyte : forall c s' r n, (forall n, (String.length r < n)%nat -> q_decode n (r +:+ closeWord) = Some s') ->
    (String.length (q_byte c +:+ r) < n)%nat -> q_decode n ((q_byte c +:+ r) +:+ closeWord) = Some (String c s')).
  { intros c s' r n IH Hn. rewrite length_append in Hn. pose proof (q_byte_length c).
    destruct n as [|n]; [lia|]. rewrite append_assoc, q_decode_byte, IH by lia. done. }
  induction s as [|c s IH]; intros left len n Hn.
  - destruct n; [cbn in Hn; lia|]. by destruct left.
  - destruct left as [|left]; cbn [qEncode] in *; [|by apply Hbyte; auto].
    destruct (Nat.ltb _ _); [|by apply Hbyte; auto].
    destruct n as [|n]; [lia|]. rewrite append_assoc, q_decode_split. apply Hbyte; [auto|].
    rewrite length_append in Hn. change (String.length splitWord) with 13%nat in Hn. lia.
Qed.

Lemma cut_prefix_contains p q s : str_contains p s = false -> cut_prefix (p +:+ q) s = None.
Proof.
  rewrite cut_prefix_append. intros Hs. destruct (cut_prefix p s) eqn:E; [|done].
  exfalso. destruct s; cbn in Hs; by rewrite E in Hs.
Qed.

(** A subject that could be taken for encoded words is encoded. *)
Definition subject_ok (s : string) : bool := needsEncoding s || negb (str_contains "=?" s).

Lemma decode_subject_QEncode s : subject_ok s = true -> decode_subject (QEncode s) = Some s.
Proof.
  unfold subject_ok, QEncode, decode_subject. destruct (needsEncoding s); cbn [orb].
  - intros _. rewrite cut_prefix_app. apply q_decode_qEncode. rewrite length_append. lia.
  - intros Hs%negb_true_iff. change openWord with ("=?" +:+ "utf-8?q?"). by rewrite cut_prefix_contains.
Qed.

(** ** Lines and header fields *)

Lemma cut_line_app l rest : one_line l -> cut_line (l +:+ CRLF +:+ rest) = Some (l, rest).
Proof.
  induction l as [|a l IH]; [done|]. unfold hasHeaderInjection. cbn [str_any]. rewrite append_cons.
  intros [[Ha _]%orb_false_iff Hl]%orb_false_iff. specialize (IH Hl).
  destruct (l +:+ CRLF +:+ rest) as [|b r]; [done|].
  change (cut_line (String a (String b r))) with
    (if Ascii.eqb a CR && Ascii.eqb b LF then Some ("", r) else '(l, rest) ← cut_line (String b r); Some (String a l, rest)).
  by rewrite Ha, IH.
Qed.

(** A field name: it has no colon. *)
Definition field_name (s : string) : bool := negb (str_any (fun c => Ascii.eqb c ":") s).

Lemma split_field_app n v : field_name n = true -> split_field (n +:+ ": " +:+ v) = Some (n, v).
Proof.
  unfold field_name. induction n as [|c n IH]; [by destruct v|]. cbn [str_any].
  intros [Hc Hn]%negb_true_iff%orb_false_iff. rewrite append_cons. cbn [split_field].
  change ": " with (String ":" " ") at 1. cbn [cut_prefix].
  rewrite Ascii.eqb_sym in Hc. rewrite Hc, IH by (by rewrite Hn). done.
Qed.

Lemma read_field k n v rest :
  field_name n = true -> one_line n -> one_line v ->
  read_header (S k) (n +:+ ": " +:+ v +:+ CRLF +:+ rest) = '(fs, body) ← read_header k rest; Some ((n, v) :: fs, body).
Proof.
  intros Hn H1 H2. cbn [read_header].
  replace (n +:+ ": " +:+ v +:+ CRLF +:+ rest) with ((n +:+ ": " +:+ v) +:+ CRLF +:+ rest) by (by rewrite !append_assoc).
  rewrite cut_line_app by auto with mime. cbn [mbind option_bind].
  replace (String.eqb (n +:+ ": " +:+ v) "") with false by (by destruct n).
  by rewrite split_field_app.
Qed.

Lemma read_field_some k n v rest fs body :
  field_name n = true -> one_line n -> one_line v -> read_header k rest = Some (fs, body) ->
  read_header (S k) (n +:+ ": " +:+ v +:+ CRLF +:+ rest) = Some ((n, v) :: fs, body).
Proof. intros Hn H1 H2 Hr. by rewrite read_field, Hr. Qed.

Lemma read_no_field k rest : read_header (S k) (CRLF +:+ rest) = Some ([], rest).
Proof.
  cbn [read_header]. change (cut_line (CRLF +:+ rest)) with (cut_line ("" +:+ CRLF +:+ rest)).
  by rewrite cut_line_app.
Qed.

(** ** Boundaries *)

Definition has_char (c : ascii) (s : string) : bool := str_any (Ascii.eqb c) s.

(** A separator whose first character does not occur again is found where it
    was put. *)
Lemma cut_prefix_overlap c d t r s :
  has_char c d = false -> cut_prefix d (t +:+ String c r) = Some s -> exists s', cut_prefix d t = Some s'.
Proof.
  revert t. induction d as [|a d IH]; intros t Hd; [by exists t|]. apply orb_false_iff in Hd as [Ha Hd].
  destruct t as [|b t].
  - change ("" +:+ String c r) with (String c r). cbn [cut_prefix]. by rewrite Ascii.eqb_sym, Ha.
  - rewrite append_cons. cbn [cut_prefix]. destruct (Ascii.eqb a b); [|done]. by apply IH.
Qed.

Lemma str_Cut_app c d t r :
  has_char c d = false -> str_contains (String c d) t = false ->
  str_Cut (String c d) (t +:+ String c d +:+ r) = Some (t, r).
Proof.
  intros Hd. induction t as [|x t IH]; intros Ht.
  - assert (He : cut_prefix (String c d) ("" +:+ String c d +:+ r) = Some r) by exact (cut_prefix_app (String c d) r).
    change ("" +:+ String c d +:+ r) with (String c (d +:+ r)) in *. cbn [str_Cut]. by rewrite He.
  - cbn [str_contains] in Ht. rewrite !append_cons in *. cbn [str_Cut].
    destruct (cut_prefix (String c d) (String x t)) eqn:E; [done|].
    destruct (cut_prefix (String c d) (String x (t +:+ String c (d +:+ r)))) as [s|] eqn:E'.
    + cbn [cut_prefix] in E, E'. destruct (Ascii.eqb c x); [|done].
      apply cut_prefix_overlap in E' as [s' E']; [congruence|done].
    + by rewrite IH.
Qed.

(** No line of a body is the start of a delimiter line. *)
Definition no_delimiter (boundary body : string) : Prop :=
  str_contains (CRLF +:+ "--" +:+ boundary) (CRLF +:+ normalizeCRLF body) = false.

Lemma mime_boundary_plain now2 :
  has_char LF (mime_boundary now2) = false /\ has_char CR (mime_boundary now2) = false /\
  has_char dquote (mime_boundary now2) = false /\ one_line (mime_boundary now2).
Proof.
  unfold mime_boundary, itoa.
  assert (Hc : forall c, has_char c "ping-boundary-" = false -> decimal c = false ->
             has_char c ("ping-boundary-" +:+ FormatInt (Z.land now2 2147483647)) = false).
  { intros c Hp Hd. unfold has_char. rewrite str_any_append. fold (has_char c "ping-boundary-"). rewrite Hp.
    eapply str_any_weaken; [|apply FormatInt_decimal]. intros x ->%Ascii.eqb_eq. cbn. by rewrite Hd. }
  split_and!; try by apply Hc. apply one_line_append; auto with mime.
Qed.

(** A part of the message between two delimiters. *)
Lemma part_delimited ct boundary body rest :
  one_line ct -> has_char CR boundary = false ->
  no_delimiter boundary body ->
  str_Cut (CRLF +:+ "--" +:+ boundary) ((ct +:+ CRLF +:+ CRLF +:+ normalizeCRLF body) +:+ (CRLF +:+ "--" +:+ boundary) +:+ rest)
  = Some (ct +:+ CRLF +:+ CRLF +:+ normalizeCRLF body, rest).
Proof.
  intros Hline Hb Hbody. apply (str_Cut_app CR (String LF ("--" +:+ boundary))).
  { unfold has_char in *. cbn [str_any]. rewrite str_any_append, Hb. done. }
  unfold no_delimiter in Hbody. induction ct as [|x ct IH].
  - transitivity (str_contains (CRLF +:+ "--" +:+ boundary) (CRLF +:+ normalizeCRLF body)); [reflexivity|exact Hbody].
  - unfold hasHeaderInjection in Hline. cbn [str_any] in Hline.
    apply orb_false_iff in Hline as [[Hx _]%orb_false_iff Hline]. rewrite Ascii.eqb_sym in Hx.
    change (CRLF +:+ "--" +:+ boundary) with (String CR (String LF ("--" +:+ boundary))) in *.
    rewrite (append_cons x). cbn [str_contains cut_prefix]. rewrite Hx. by apply IH.
Qed.

(** ** Dot-stuffing *)

(** Text whose line breaks are all CRLF. *)
Inductive lines : string -> Prop :=
| lines_last l : one_line l -> lines l
| lines_more l rest : one_line l -> lines rest -> lines (l +:+ CRLF +:+ rest).

Lemma lines_prefix p s : one_line p -> lines s -> lines (p +:+ s).
Proof.
  intros Hp. destruct 1 as [l Hl|l rest Hl Hr].
  - constructor. by apply one_line_append.
  - rewrite <- append_assoc. apply lines_more; [by apply one_line_append|done].
Qed.

Lemma lines_break a b : lines a -> lines b -> lines (a +:+ CRLF +:+ b).
Proof. induction 1 as [l Hl|l rest Hl _ IH]; intros Hb; [by apply lines_more|]. rewrite !append_assoc. apply lines_more; auto. Qed.

(** A body with a CR only before LFs. *)
Definition no_lone_CR (body : string) : bool := negb (has_char CR (replace_crlf_lf body)).

Lemma lines_normalizeCRLF body : no_lone_CR body = true -> lines (normalizeCRLF body).
Proof.
  unfold no_lone_CR, normalizeCRLF. induction (replace_crlf_lf body) as [|c t IH].
  { intros _. by constructor. }
  unfold has_char in *. cbn [str_any replace_lf_crlf]. intros [Hc Ht]%negb_true_iff%orb_false_iff.
  rewrite Ht in IH. specialize (IH eq_refl). destruct (Ascii.eqb c LF) eqn:E.
  - exact (lines_more "" _ eq_refl IH).
  - apply (lines_prefix (String c "")); [|done]. unfold hasHeaderInjection. cbn [str_any]. rewrite Ascii.eqb_sym in Hc.
    by rewrite Hc, E.
Qed.

(** The text with its last line ended. *)
Fixpoint end_line (inside : bool) (s : string) : string :=
  match s with
  | EmptyString => if inside then CRLF else ""
  | String c r => String c (end_line (negb (Ascii.eqb c LF)) r)
  end.

Lemma end_line_one_line l : forall b, one_line l -> end_line b l = l +:+ end_line (if String.eqb l "" then b else true) "".
Proof.
  induction l as [|c l IH]; intros b; [done|]. unfold hasHeaderInjection. cbn [str_any].
  intros [[_ Hc]%orb_false_iff Hl]%orb_false_iff. cbn [end_line]. rewrite Hc, IH by done. rewrite append_cons. cbn [negb].
  by destruct (String.eqb l "").
Qed.

Lemma end_line_break a b : forall x, end_line x (a +:+ CRLF +:+ b) = a +:+ CRLF +:+ end_line false b.
Proof. induction a as [|c a IH]; intros x; [done|]. rewrite !append_cons. cbn [end_line]. by rewrite IH. Qed.

Definition stuffed (l : string) : string := match l with String "." _ => String "." l | _ => l end.

Lemma dot_write_InLine l s : one_line l -> dot_write InLine (l +:+ s) = l +:+ dot_write InLine s.
Proof.
  induction l as [|c l IH]; [done|]. unfold hasHeaderInjection. cbn [str_any].
  intros [[H1 H2]%orb_false_iff Hl]%orb_false_iff. rewrite !append_cons. cbn [dot_write]. rewrite H1, H2.
  change ("" +:+ ?x) with x. by rewrite IH.
Qed.

Lemma dot_write_line st l s :
  st = Begin \/ st = BeginLine -> one_line l -> l <> "" -> dot_write st (l +:+ s) = stuffed l +:+ dot_write InLine s.
Proof.
  intros Hst Hl Hne. destruct l as [|c l]; [done|]. unfold hasHeaderInjection in Hl. cbn [str_any] in Hl.
  apply orb_false_iff in Hl as [[H1 H2]%orb_false_iff Hl]. rewrite append_cons.
  assert (Hs : stuffed (String c l) = (if Ascii.eqb c "." then "." else "") +:+ String c l).
  { destruct c as [[] [] [] [] [] [] [] []]; reflexivity. }
  rewrite Hs, append_assoc, append_cons, <- dot_write_InLine by done.
  destruct Hst as [-> | ->]; cbn [dot_write]; by rewrite H1, H2.
Qed.

(** What one line of the wire is read as. *)
Lemma dot_read_line n l rest :
  one_line l -> dot_read (S n) (stuffed l +:+ CRLF +:+ rest) = body ← dot_read n rest; Some (l +:+ CRLF +:+ body).
Proof.
  intros Hl. cbn [dot_read].
  assert (Hs : one_line (stuffed l)).
  { destruct l as [|c l]; [done|]. unfold hasHeaderInjection, stuffed in *. destruct c as [[] [] [] [] [] [] [] []]; exact Hl. }
  rewrite cut_line_app by exact Hs. cbn [mbind option_bind].
  assert (Hd : String.eqb (stuffed l) "." = false /\ match cut_prefix "." (stuffed l) with Some l' => l' | None => stuffed l end = l).
  { destruct l as [|c l]; [done|]. destruct c as [[] [] [] [] [] [] [] []]; split; try reflexivity; by destruct l. }
  destruct Hd as [-> Hd]. cbn beta iota. by rewrite Hd.
Qed.

Lemma dot_read_end n : dot_read (S n) ("." +:+ CRLF) = Some "".
Proof. done. Qed.

Lemma dot_round_trip s : lines s -> forall n, (String.length s < n)%nat ->
  dot_read n (dot_write BeginLine s) = Some (end_line false s).
Proof.
  induction 1 as [l Hl|l rest Hl _ IH]; intros n Hn; (destruct n as [|n]; [lia|]).
  - destruct (String.eqb_spec l "") as [->|Hne]; [done|].
    rewrite <- (append_empty l) at 1. rewrite dot_write_line by auto. change (dot_write InLine "") with (CRLF +:+ "." +:+ CRLF).
    rewrite dot_read_line, end_line_one_line by done. destruct n as [|n]; [destruct l; cbn in Hn; [done|lia]|].
    rewrite dot_read_end. destruct (String.eqb_spec l ""); [done|]. done.
  - rewrite !length_append in Hn. change (String.length CRLF) with 2%nat in Hn. rewrite end_line_break.
    assert (Hw : dot_write BeginLine (l +:+ CRLF +:+ rest) = stuffed l +:+ CRLF +:+ dot_write BeginLine rest).
    { destruct (String.eqb_spec l "") as [->|Hne]; [done|]. by rewrite dot_write_line by auto. }
    rewrite Hw, dot_read_line, IH by (done || lia). done.
Qed.

(** ** A whole message *)

Definition mime_fields (now : Time) (from : string) (msg : Message) : list (string * string) :=
  [("From", from); ("To", msg_To msg); ("Subject", QEncode (msg_Subject msg)); ("MIME-Version", "1.0");
   ("Date", FormatRFC1123Z now)].

Lemma read_mime_head k now from msg s fs body :
  one_line from -> one_line (msg_To msg) -> read_header k s = Some (fs, body) ->
  read_header (5 + k) (mime_head now from msg +:+ s) = Some (mime_fields now from msg ++ fs, body).
Proof.
  intros Hf Ht Hs. unfold mime_head. rewrite !append_assoc.
  apply (read_field_some _ "From"); [done..|]. apply (read_field_some _ "To"); [done..|].
  apply (read_field_some _ "Subject"); [done..|apply one_line_QEncode|].
  apply (read_field_some _ "MIME-Version" "1.0"); [done..|].
  by apply (read_field_some _ "Date"); [done|done|apply one_line_date|].
Qed.

Definition plain_type : string := "text/plain; charset=utf-8".
Definition html_type : string := "text/html; charset=utf-8".

Lemma read_content_type k v rest :
  one_line v -> read_header (2 + k) ("Content-Type: " +:+ v +:+ CRLF +:+ CRLF +:+ rest) = Some ([("Content-Type", v)], rest).
Proof. intros Hv. apply (read_field_some _ "Content-Type"); [done..|]. apply read_no_field. Qed.

Lemma part_of_body v boundary body rest :
  one_line v -> has_char CR boundary = false -> no_delimiter boundary body ->
  str_Cut (CRLF +:+ "--" +:+ boundary)
    ("Content-Type: " +:+ v +:+ CRLF +:+ CRLF +:+ normalizeCRLF body +:+ CRLF +:+ "--" +:+ boundary +:+ rest)
  = Some ("Content-Type: " +:+ v +:+ CRLF +:+ CRLF +:+ normalizeCRLF body, rest).
Proof.
  intros Hv Hb Hbody.
  pose proof (part_delimited ("Content-Type: " +:+ v) boundary body rest ltac:(auto with mime) Hb Hbody) as E.
  rewrite !append_assoc in E. exact E.
Qed.

(** The body of a message with two parts. *)
Definition alternative_body (boundary : string) (msg : Message) : string :=
  "--" +:+ boundary +:+ CRLF +:+
  "Content-Type: " +:+ plain_type +:+ CRLF +:+ CRLF +:+ normalizeCRLF (msg_TextBody msg) +:+ CRLF +:+
  "--" +:+ boundary +:+ CRLF +:+
  "Content-Type: " +:+ html_type +:+ CRLF +:+ CRLF +:+ normalizeCRLF (msg_HTMLBody msg) +:+ CRLF +:+
  "--" +:+ boundary +:+ "--" +:+ CRLF.

Lemma read_alternative_body boundary msg :
  has_char CR boundary = false -> no_delimiter boundary (msg_TextBody msg) -> no_delimiter boundary (msg_HTMLBody msg) ->
  read_alternative boundary (alternative_body boundary msg)
  = Some (normalizeCRLF (msg_TextBody msg), normalizeCRLF (msg_HTMLBody msg)).
Proof.
  intros Hb Ht Hh. unfold read_alternative, alternative_body.
  rewrite !cut_prefix_append, cut_prefix_app. cbn [mbind option_bind]. rewrite cut_prefix_append, cut_prefix_app. cbn [mbind option_bind].
  rewrite cut_prefix_app. cbn [mbind option_bind].
  rewrite part_of_body by done. cbn [mbind option_bind]. rewrite cut_prefix_app. cbn [mbind option_bind].
  rewrite part_of_body by done. cbn [mbind option_bind].
  rewrite cut_prefix_append, cut_prefix_app. cbn [mbind option_bind]. rewrite <- (append_empty CRLF) at 2. rewrite cut_prefix_app.
  cbn [mbind option_bind String.eqb negb].
  rewrite (read_content_type 0 plain_type), (read_content_type 0 html_type) by done. reflexivity.
Qed.

Lemma buildMIME_plain now now2 from msg :
  msg_HTMLBody msg = "" ->
  buildMIME now now2 from msg
  = mime_head now from msg +:+ "Content-Type: " +:+ plain_type +:+ CRLF +:+ CRLF +:+ normalizeCRLF (msg_TextBody msg).
Proof. intros Hh. unfold buildMIME. by rewrite Hh. Qed.

Definition alternative_type (boundary : string) : string := "multipart/alternative; boundary=" +:+ in_quotes boundary.

Lemma buildMIME_alternative now now2 from msg :
  msg_HTMLBody msg <> "" ->
  buildMIME now now2 from msg
  = mime_head now from msg +:+ "Content-Type: " +:+ alternative_type (mime_boundary now2) +:+ CRLF +:+ CRLF +:+
    alternative_body (mime_boundary now2) msg.
Proof.
  intros Hh%String.eqb_neq. unfold buildMIME. rewrite Hh. cbv zeta. unfold alternative_type, alternative_body.
  reflexivity.
Qed.

Lemma one_line_alternative_type now2 : one_line (alternative_type (mime_boundary now2)).
Proof.
  destruct (mime_boundary_plain now2) as (_ & _ & _ & Hb). unfold alternative_type, in_quotes.
  apply one_line_append; [done|]. apply (one_line_append (String dquote "")); [done|]. by apply one_line_append.
Qed.

(** The lines of each piece. *)
Lemma lines_field v s : one_line v -> lines s -> lines (v +:+ CRLF +:+ s).
Proof. apply lines_more. Qed.

Lemma lines_mime_head now from msg s :
  one_line from -> one_line (msg_To msg) -> lines s -> lines (mime_head now from msg +:+ s).
Proof.
  intros Hf Ht Hs. unfold mime_head. rewrite !append_assoc.
  do 3 (apply lines_prefix; [done|]; apply lines_field; [auto using one_line_QEncode|]).
  apply lines_field; [done|]. apply lines_prefix; [done|]. apply lines_field; [apply one_line_date|done].
Qed.

Lemma lines_part v body s :
  one_line v -> no_lone_CR body = true -> lines s ->
  lines ("Content-Type: " +:+ v +:+ CRLF +:+ CRLF +:+ normalizeCRLF body +:+ CRLF +:+ s).
Proof.
  intros Hv Hb Hs. apply lines_prefix; [done|]. apply lines_field; [done|].
  apply (lines_more "" _ eq_refl). by apply lines_break; [apply lines_normalizeCRLF|].
Qed.

Lemma lines_alternative_body boundary msg :
  one_line boundary -> no_lone_CR (msg_TextBody msg) = true -> no_lone_CR (msg_HTMLBody msg) = true ->
  lines (alternative_body boundary msg).
Proof.
  intros Hb Ht Hh. unfold alternative_body.
  apply lines_prefix; [done|]. apply lines_field; [done|]. apply lines_part; [done..|].
  apply lines_prefix; [done|]. apply lines_field; [done|]. apply lines_part; [done..|].
  apply lines_prefix; [done|]. apply lines_prefix; [done|]. apply (lines_more "--" "" eq_refl). by constructor.
Qed.

(** What the receiver makes of a message's text and HTML. *)
Definition received_bodies (msg : Message) : string * option string :=
  if String.eqb (msg_HTMLBody msg) "" then (end_line false (normalizeCRLF (msg_TextBody msg)), None)
  else (normalizeCRLF (msg_TextBody msg), Some (normalizeCRLF (msg_HTMLBody msg))).

Lemma lines_buildMIME now now2 from msg :
  one_line from -> one_line (msg_To msg) -> no_lone_CR (msg_TextBody msg) = true -> no_lone_CR (msg_HTMLBody msg) = true ->
  lines (buildMIME now now2 from msg).
Proof.
  intros Hf Ht Hx Hh. destruct (String.eqb_spec (msg_HTMLBody msg) "") as [E|E].
  - rewrite buildMIME_plain by done. apply lines_mime_head; [done..|]. apply lines_prefix; [done|].
    apply lines_field; [done|]. apply (lines_more "" _ eq_refl). by apply lines_normalizeCRLF.
  - rewrite buildMIME_alternative by done. apply lines_mime_head; [done..|]. apply lines_prefix; [done|].
    apply lines_field; [apply one_line_alternative_type|]. apply (lines_more "" _ eq_refl).
    apply lines_alternative_body; [apply mime_boundary_plain|done..].
Qed.

(** A message with two parts ends with a line break. *)
Lemma end_line_alternative_body boundary msg :
  exists a, alternative_body boundary msg = a +:+ CRLF.
Proof. unfold alternative_body. eexists. rewrite <- !append_assoc. reflexivity. Qed.

Lemma cut_boundary b : has_char dquote b = false ->
  (q ← cut_prefix ("multipart/alternative; boundary=" +:+ String dquote "") (alternative_type b); str_Cut (String dquote "") q)
  = Some (b, "").
Proof.
  intros Hb. unfold alternative_type, in_quotes. rewrite cut_prefix_append, cut_prefix_app. cbn [mbind option_bind].
  change (String dquote (b +:+ String dquote "")) with (String dquote "" +:+ (b +:+ String dquote "")).
  rewrite cut_prefix_app. cbn [mbind option_bind]. apply (str_Cut_app dquote "" b ""); [done|].
  revert Hb. unfold has_char. induction b as [|c b IH]; [done|]. cbn [str_any str_contains cut_prefix].
  intros [Hc Hb]%orb_false_iff. rewrite Hc. by apply IH.
Qed.

Lemma end_line_body a c d b :
  end_line false (a +:+ c +:+ d +:+ CRLF +:+ CRLF +:+ b) = a +:+ c +:+ d +:+ CRLF +:+ CRLF +:+ end_line false b.
Proof.
  pose proof (end_line_break (a +:+ c +:+ d) (CRLF +:+ b) false) as E. rewrite !append_assoc in E. rewrite E.
  by rewrite (end_line_break "" b false : end_line false (CRLF +:+ b) = CRLF +:+ end_line false b).
Qed.

Lemma end_line_ended a : end_line false (a +:+ CRLF) = a +:+ CRLF.
Proof. exact (end_line_break a "" false). Qed.

Lemma read_mail_header now from msg v rest :
  one_line from -> one_line (msg_To msg) -> one_line v ->
  read_header 7 (mime_head now from msg +:+ "Content-Type: " +:+ v +:+ CRLF +:+ CRLF +:+ rest)
  = Some (mime_fields now from msg ++ [("Content-Type", v)], rest).
Proof. intros Hf Ht Hv. by apply (read_mime_head 2), (read_content_type 0). Qed.

Lemma read_end_line now now2 from msg :
  one_line from -> one_line (msg_To msg) ->
  no_delimiter (mime_boundary now2) (msg_TextBody msg) -> no_delimiter (mime_boundary now2) (msg_HTMLBody msg) ->
  read_mail (end_line false (buildMIME now now2 from msg))
  = Some (mkMail (mime_fields now from msg) (received_bodies msg).1 (received_bodies msg).2).
Proof.
  intros Hf Ht Hx Hh. unfold received_bodies, read_mail. destruct (String.eqb_spec (msg_HTMLBody msg) "") as [E|E].
  - rewrite buildMIME_plain, end_line_body, read_mail_header by done. reflexivity.
  - destruct (mime_boundary_plain now2) as (_ & Hcr & Hq & _).
    rewrite buildMIME_alternative, end_line_body by done.
    destruct (end_line_alternative_body (mime_boundary now2) msg) as [a Ha].
    replace (end_line false (alternative_body (mime_boundary now2) msg)) with (alternative_body (mime_boundary now2) msg)
      by (by rewrite Ha, end_line_ended).
    rewrite read_mail_header by auto using one_line_alternative_type. cbn [mbind option_bind].
    change (last (mime_fields now from msg ++ [("Content-Type", alternative_type (mime_boundary now2))]))
      with (Some ("Content-Type", alternative_type (mime_boundary now2))).
    pose proof (cut_boundary _ Hq) as Hc. pose proof (read_alternative_body _ msg Hcr Hx Hh) as Hr.
    change (removelast (mime_fields now from msg ++ [("Content-Type", alternative_type (mime_boundary now2))]))
      with (mime_fields now from msg). cbn beta iota.
    change (String.eqb (alternative_type (mime_boundary now2)) "text/plain; charset=utf-8") with false. cbn beta iota.
    destruct (cut_prefix _ (alternative_type _)) as [q|]; [|done]. cbn [mbind option_bind] in *.
    rewrite Hc. cbn [mbind option_bind]. by rewrite Hr.
Qed.

(** ** Property *)

(** C32. What is mailed is what is received: the bytes [Send] hands to SMTP,
    dot-stuffed on the wire and read back by the rules of RFC 5321, 5322, 2047
    and 2046, are a message with exactly the six header fields [buildMIME]
    writes, provided the sender and the recipient hold no line break; the
    subject, line breaks and all, decodes byte for byte to the one given,
    unless it is one that is sent as it is and holds "=?"; and the text and
    the HTML come back with their line breaks as CRLF, provided they hold no
    lone CR and no line that looks like the boundary. *)
Theorem mail_received now now2 from msg :
  hasHeaderInjection from = false -> hasHeaderInjection (msg_To msg) = false -> subject_ok (msg_Subject msg) = true ->
  no_lone_CR (msg_TextBody msg) = true -> no_lone_CR (msg_HTMLBody msg) = true ->
  no_delimiter (mime_boundary now2) (msg_TextBody msg) -> no_delimiter (mime_boundary now2) (msg_HTMLBody msg) ->
  let mail := buildMIME now now2 from msg in
  exists received,
    dot_read (S (String.length mail)) (dot_write Begin mail) = Some received /\
    read_mail received = Some (mkMail (mime_fields now from msg) (received_bodies msg).1 (received_bodies msg).2) /\
    decode_subject (QEncode (msg_Subject msg)) = Some (msg_Subject msg).
Proof.
  intros Hf Ht Hs Ht1 Hh1 Ht2 Hh2 mail. exists (end_line false mail). split; [|split].
  - replace (dot_write Begin mail) with (dot_write BeginLine mail)
      by (unfold mail, buildMIME; cbv zeta; destruct (String.eqb _ _); reflexivity).
    apply dot_round_trip; [by apply lines_buildMIME|lia].
  - by apply read_end_line.
  - by apply decode_subject_QEncode.
Qed.

(** ** At a concrete input *)

Definition demo_mail : Message :=
  mkMessage "ops@example.com" ("[DOWN] caf" +:+ String "195" (String "169" "") +:+ " " +:+ String "226" (String "128" (String "148" "")) +:+ " check failed")
    ("It is down." +:+ String LF ".It is." +:+ String LF "") "<p>It is down.</p>".

Lemma mail_received_witness :
  let mail := buildMIME (1750000000 * Second) 1750000000123456789 "ping@example.com" demo_mail in
  exists received,
    dot_read (S (String.length mail)) (dot_write Begin mail) = Some received /\
    ml_html <$> read_mail received = Some (Some "<p>It is down.</p>"%string).
Proof.
  intros mail. destruct (mail_received (1750000000 * Second) 1750000000123456789 "ping@example.com" demo_mail)
    as (received & Hd & Hr & _); [reflexivity..|].
  exists received. split; [exact Hd|]. by rewrite Hr.
Defined.

(** Long subjects are split between runes, never inside one. *)
Example split_between_runes :
  let dash := String "226" (String "128" (String "148" "")) in
  QEncode (foldr String.append "" (replicate 8 dash)) =
  "=?utf-8?q?=E2=80=94=E2=80=94=E2=80=94=E2=80=94=E2=80=94=E2=80=94=E2=80=94?= =?utf-8?q?=E2=80=94?=".
Proof. vm_compute. reflexivity. Qed.

(** A subject in ASCII that looks like an encoded word is sent as it is, and
    read as what it encodes. *)
Example encoded_word_in_subject : decode_subject (QEncode "=?utf-8?q?=48i?=") = Some "Hi".
Proof. vm_compute. reflexivity. Qed.
