(* ===== verification/NetAddr.v ===== *)
(** * NetAddr: IP addresses and prefixes (Go's package net/netip)

    [netip.Addr] and [netip.Prefix], their parsers and the predicates the
    SSRF guard of worker/prober and the allow-list of internal/config are
    written with.  An address is its 32-bit or 128-bit value; an IPv6 address
    carries a zone ("" when it has none). *)
From S2P Require Import Prelude GoLib.
From Stdlib Require Import NArith.
Local Open Scope N_scope.

Inductive Addr :=
| V4 (v : N)
| V6 (v : N) (zone : string).

Record Prefix := mkPrefix { pfx_addr : Addr; pfx_bits : N }.

#[export] Instance Addr_eq_dec : EqDecision Addr.
Proof. solve_decision. Defined.

(** ** Parsing *)

Fixpoint split_on (c : ascii) (s : string) : list string :=
  match s with
  | EmptyString => [""]
  | String a r =>
      if Ascii.eqb a c then "" :: split_on c r
      else match split_on c r with
           | f :: fs => String a f :: fs
           | [] => [String a ""]
           end
  end.

Definition digits_value (s : string) : N :=
  (fix go (acc : N) (s : string) : N :=
     match s with EmptyString => acc | String c r => go (10 * acc + (N_of_ascii c - 48)) r end) 0 s.

(** One dotted-decimal field: digits, no leading zero, at most 255. *)
Definition v4_field (s : string) : option N :=
  match s with
  | EmptyString => None
  | String c r =>
      if negb (str_all is_digit s) then None
      else if Ascii.eqb c "0" && negb (String.eqb r "") then None
      else let v := digits_value s in
           if (3 <? N.of_nat (String.length s)) || (255 <? v) then None else Some v
  end.

Definition parse_v4 (s : string) : option N :=
  match split_on "." s with
  | [a; b; c; d] =>
      a ← v4_field a; b ← v4_field b; c ← v4_field c; d ← v4_field d;
      Some (a * 16777216 + b * 65536 + c * 256 + d)
  | _ => None
  end.

(** The leading run of hexadecimal digits: its value, its length and the rest;
    more than four digits is an error. *)
Fixpoint hex_run (off : nat) (acc : N) (s : string) : option (N * nat * string) :=
  match s with
  | String c r =>
      match hex_value c with
      | Some d => if (3 <? off)%nat then None else hex_run (S off) (16 * acc + d) r
      | None => Some (acc, off, s)
      end
  | EmptyString => Some (acc, off, s)
  end.

(** The loop of [parseIPv6]: [groups] are the 16-bit fields read so far and
    [ell] the position of the "::"; [fuel] is the number of fields left. *)
Fixpoint v6_loop (fuel : nat) (s : string) (groups : list N) (ell : option nat)
  : option (list N * option nat) :=
  match fuel with
  | O => if String.eqb s "" then Some (groups, ell) else None
  | S f =>
      '(acc, off, rest) ← hex_run 0 0 s;
      if (off =? 0)%nat then None else
      match rest with
      | EmptyString => Some (groups ++ [acc], ell)
      | String "." _ =>
          if (bool_decide (ell = None) && negb (length groups =? 6)%nat) || (6 <? length groups)%nat
          then None
          else v ← parse_v4 s; Some (groups ++ [v / 65536; v mod 65536], ell)
      | String ":" EmptyString => None
      | String ":" (String c r) =>
          let groups' := groups ++ [acc] in
          if Ascii.eqb c ":" then
            match ell with
            | Some _ => None
            | None => if String.eqb r "" then Some (groups', Some (length groups'))
                      else v6_loop f r groups' (Some (length groups'))
            end
          else v6_loop f (String c r) groups' ell
      | _ => None
      end
  end.

Definition v6_value (groups : list N) : N := foldl (fun acc g => acc * 65536 + g) 0 groups.

Definition v6_assemble (r : list N * option nat) : option N :=
  let '(groups, ell) := r in
  let n := length groups in
  match ell with
  | None => if (n =? 8)%nat then Some (v6_value groups) else None
  | Some e => if (n <? 8)%nat
              then Some (v6_value (take e groups ++ replicate (8 - n) 0 ++ drop e groups))
              else None
  end.

Definition parse_v6_body (s : string) : option N :=
  match s with
  | String ":" (String ":" r) =>
      if String.eqb r "" then Some 0 else v6_loop 8 r [] (Some 0%nat) ≫= v6_assemble
  | _ => v6_loop 8 s [] None ≫= v6_assemble
  end.

(** Split at the first '%': the address and its zone, if there is a '%'. *)
Fixpoint cut_zone (s : string) : string * option string :=
  match s with
  | EmptyString => ("", None)
  | String a r => if Ascii.eqb a "%" then ("", Some r)
                  else let '(h, z) := cut_zone r in (String a h, z)
  end.

Definition parse_v6 (s : string) : option Addr :=
  match cut_zone s with
  | (_, Some "") => None
  | (h, Some z) => v ← parse_v6_body h; Some (V6 v z)
  | (h, None) => v ← parse_v6_body h; Some (V6 v "")
  end.

(** [netip.ParseAddr]: the first '.', ':' or '%' decides. *)
Definition ParseAddr (s : string) : option Addr :=
  (fix go (t : string) : option Addr :=
     match t with
     | EmptyString => None
     | String "." _ => V4 <$> parse_v4 s
     | String ":" _ => parse_v6 s
     | String "%" _ => None
     | String _ r => go r
     end) s.

Definition addr_BitLen (a : Addr) : N := match a with V4 _ => 32 | V6 _ _ => 128 end.

(** Split at the last '/'. *)
Fixpoint cut_last_slash (s : string) : option (string * string) :=
  match s with
  | EmptyString => None
  | String a r =>
      match cut_last_slash r with
      | Some (h, t) => Some (String a h, t)
      | None => if Ascii.eqb a "/" then Some ("", r) else None
      end
  end.

(** [netip.ParsePrefix]: no zone, no sign or leading zero in the length. *)
Definition ParsePrefix (s : string) : option Prefix :=
  '(h, t) ← cut_last_slash s;
  a ← ParseAddr h;
  if match a with V6 _ z => negb (String.eqb z "") | V4 _ => false end then None else
  if match t with
     | String c (String _ _) => (N_of_ascii c <? 49) || (57 <? N_of_ascii c)
     | _ => false
     end then None else
  b ← Atoi t;
  if (b <? 0)%Z || (Z.of_N (addr_BitLen a) <? b)%Z then None else Some (mkPrefix a (Z.to_N b)).

(** ** Printing *)

(** The eight 16-bit groups of an IPv6 value. *)
Definition v6_groups (v : N) : list N :=
  (fun i => v / 2 ^ (16 * (7 - N.of_nat i)) mod 65536) <$> seq 0 8.

Definition zero_run (gs : list N) : nat :=
  (fix go (l : list N) : nat := match l with g :: l' => if g =? 0 then S (go l') else O | [] => O end) gs.

(** The first longest run of at least two zero groups: its start and its end. *)
Fixpoint best_run (i : nat) (gs : list N) (best : nat * nat) : nat * nat :=
  match gs with
  | [] => best
  | _ :: gs' =>
      let l := zero_run gs in
      best_run (S i) gs'
        (if ((2 <=? l) && (snd best - fst best <? l))%nat then (i, i + l)%nat else best)
  end.

(** [strconv.AppendUint(b, x, 16)]. *)
Definition hex_group (x : N) : string :=
  let d (k : N) := hex_digit (x / k mod 16) in
  if x <? 16 then String (d 1) ""
  else if x <? 256 then String (d 16) (String (d 1) "")
  else if x <? 4096 then String (d 256) (String (d 16) (String (d 1) ""))
  else String (d 4096) (String (d 256) (String (d 16) (String (d 1) ""))).

(** The loop of [string6] from group [i], with [fuel] groups left. *)
Fixpoint v6_string (fuel i : nat) (gs : list N) (run : nat * nat) : string :=
  match fuel with
  | O => ""
  | S f =>
      if (8 <=? i)%nat then ""
      else if ((i =? fst run) && (fst run <? snd run))%nat then
        "::" +:+ (if (8 <=? snd run)%nat then ""
                  else hex_group (nth (snd run) gs 0) +:+ v6_string f (S (snd run)) gs run)
      else (if (0 <? i)%nat then ":" else "") +:+ hex_group (nth i gs 0) +:+ v6_string f (S i) gs run
  end.

Definition v4_string (v : N) : string :=
  let f (k : N) := FormatInt (Z.of_N (v / k mod 256)) in
  f 16777216 +:+ "." +:+ f 65536 +:+ "." +:+ f 256 +:+ "." +:+ f 1.

Definition zone_suffix (z : string) : string := if String.eqb z "" then "" else "%" +:+ z.

(** [addr.String()]. *)
Definition addr_String (a : Addr) : string :=
  match a with
  | V4 v => v4_string v
  | V6 v z =>
      if v / 4294967296 =? 65535 then "::ffff:" +:+ v4_string (v mod 4294967296) +:+ zone_suffix z
      else let gs := v6_groups v in v6_string 8 0 gs (best_run 0 gs (0, 0)%nat) +:+ zone_suffix z
  end.

Example addr_String_examples :
  addr_String <$> omap ParseAddr ["203.0.113.5"; "::"; "::1"; "2001:db8:0:0:1:0:0:1"; "fe80::1%eth0"; "::ffff:10.0.0.1"; "1:0:0:2::"]
  = ["203.0.113.5"; "::"; "::1"; "2001:db8::1:0:0:1"; "fe80::1%eth0"; "::ffff:10.0.0.1"; "1:0:0:2::"].
Proof. vm_compute. reflexivity. Qed.

(** ** Predicates *)

(** [addr.Unmap()]: an IPv4-mapped IPv6 address becomes the IPv4 one. *)
Definition addr_Unmap (a : Addr) : Addr :=
  match a with
  | V6 v _ => if v / 4294967296 =? 65535 then V4 (v mod 4294967296) else a
  | V4 _ => a
  end.

(** [a]'s top [bits] bits equal [x]'s. *)
Definition top_eq (len bits : N) (x y : N) : bool := x / 2 ^ (len - bits) =? y / 2 ^ (len - bits).

(** [prefix.Contains(addr)]: false for an address with a zone or of the other family. *)
Definition prefix_Contains (p : Prefix) (a : Addr) : bool :=
  match pfx_addr p, a with
  | V4 x, V4 y => top_eq 32 (pfx_bits p) x y
  | V6 x _, V6 y z => String.eqb z "" && top_eq 128 (pfx_bits p) x y
  | _, _ => false
  end.

Definition v4 (a b c d : N) : N := a * 16777216 + b * 65536 + c * 256 + d.

(** The first 16 bits of an IPv6 value. *)
Definition v6_hi (v : N) : N := v / 2 ^ 112.

Definition addr_IsPrivate (a : Addr) : bool :=
  match a with
  | V4 v => top_eq 32 8 v (v4 10 0 0 0) || top_eq 32 12 v (v4 172 16 0 0)
            || top_eq 32 16 v (v4 192 168 0 0)
  | V6 v _ => N.land (v6_hi v) 0xfe00 =? 0xfc00
  end.

Definition addr_IsLoopback (a : Addr) : bool :=
  match a with V4 v => top_eq 32 8 v (v4 127 0 0 0) | V6 v _ => v =? 1 end.

Definition addr_IsLinkLocalUnicast (a : Addr) : bool :=
  match a with
  | V4 v => top_eq 32 16 v (v4 169 254 0 0)
  | V6 v _ => N.land (v6_hi v) 0xffc0 =? 0xfe80
  end.

Definition addr_IsLinkLocalMulticast (a : Addr) : bool :=
  match a with
  | V4 v => top_eq 32 24 v (v4 224 0 0 0)
  | V6 v _ => N.land (v6_hi v) 0xff0f =? 0xff02
  end.

Definition addr_IsMulticast (a : Addr) : bool :=
  match a with
  | V4 v => top_eq 32 4 v (v4 224 0 0 0)
  | V6 v _ => N.land (v6_hi v) 0xff00 =? 0xff00
  end.

(** [IsUnspecified] compares whole [Addr] values, so "::" with a zone is not it. *)
Definition addr_IsUnspecified (a : Addr) : bool :=
  match a with V4 v => v =? 0 | V6 v z => (v =? 0) && String.eqb z "" end.

Definition addr_IsGlobalUnicast (a : Addr) : bool :=
  match a with
  | V4 v => negb ((v =? 0) || (v =? 4294967295))
            && negb (addr_IsLoopback a) && negb (addr_IsMulticast a) && negb (addr_IsLinkLocalUnicast a)
  | V6 _ _ => negb (addr_IsUnspecified a)
              && negb (addr_IsLoopback a) && negb (addr_IsMulticast a) && negb (addr_IsLinkLocalUnicast a)
  end.
