(* ===== verification/Sha256.v ===== *)
(** * Sha256: Go's crypto/sha256 and hex encoding, as hashToken uses them

    SHA-256 over bytes ([N] below 256) and 32-bit words ([N] below 2^32),
    executable. *)
From S2P Require Import Prelude GoLib.
From Stdlib Require Import NArith.
Local Open Scope N_scope.

Definition mask32 (x : N) : N := x mod 4294967296.
Definition add32 (x y : N) : N := mask32 (x + y).
Definition rotr (n x : N) : N := N.lor (N.shiftr x n) (mask32 (N.shiftl x (32 - n))).

(** The constants, as FIPS 180-4 defines them: the first 32 bits of the
    fractional parts of the cube roots of the first 64 primes, and of the
    square roots of the first 8. *)
Definition is_prime (n : N) : bool :=
  forallb (fun d => negb (n mod N.of_nat d =? 0)) (seq 2 (N.to_nat (N.sqrt n) - 1)).

Definition primes_below (n : nat) : list N := List.filter is_prime (N.of_nat <$> seq 2 (n - 2)).

(** The greatest [r] below [lo + 2^bits] with r^3 <= n, a bit at a time. *)
Fixpoint cube_root (bits : nat) (lo n : N) : N :=
  match bits with
  | O => lo
  | S b => let mid := lo + N.shiftl 1 (N.of_nat b) in cube_root b (if mid * mid * mid <=? n then mid else lo) n
  end.

Definition sha_k : list N :=
  Eval vm_compute in (fun p => mask32 (cube_root 36 0 (N.shiftl p 96))) <$> primes_below 312.

Definition sha_h0 : list N :=
  Eval vm_compute in (fun p => mask32 (N.sqrt (N.shiftl p 64))) <$> primes_below 20.

Example sha_constants : length sha_k = 64%nat /\ head sha_k = Some 0x428a2f98 /\ last sha_k = Some 0xc67178f2.
Proof. repeat split. Qed.

Definition sha_s0 (x : N) : N := N.lxor (N.lxor (rotr 7 x) (rotr 18 x)) (N.shiftr x 3).
Definition sha_s1 (x : N) : N := N.lxor (N.lxor (rotr 17 x) (rotr 19 x)) (N.shiftr x 10).
Definition sha_S0 (x : N) : N := N.lxor (N.lxor (rotr 2 x) (rotr 13 x)) (rotr 22 x).
Definition sha_S1 (x : N) : N := N.lxor (N.lxor (rotr 6 x) (rotr 11 x)) (rotr 25 x).
Definition sha_ch (x y z : N) : N := N.lxor (N.land x y) (N.land (4294967295 - x) z).
Definition sha_maj (x y z : N) : N := N.lxor (N.lxor (N.land x y) (N.land x z)) (N.land y z).

(** The message schedule, newest word first. *)
Fixpoint sha_extend (n : nat) (ws : list N) : list N :=
  match n with
  | O => ws
  | S k =>
      let w := fun i => nth i ws 0 in
      sha_extend k
        (add32 (add32 (sha_s1 (w 1%nat)) (w 6%nat)) (add32 (sha_s0 (w 14%nat)) (w 15%nat)) :: ws)
  end.

Definition sha_round (st : list N) (kw : N * N) : list N :=
  match st with
  | [a; b; c; d; e; f; g; h] =>
      let t1 := add32 (add32 (add32 h (sha_S1 e)) (add32 (sha_ch e f g) (fst kw))) (snd kw) in
      let t2 := add32 (sha_S0 a) (sha_maj a b c) in
      [add32 t1 t2; a; b; c; add32 d t1; e; f; g]
  | _ => st
  end.

Definition sha_block (st ws : list N) : list N :=
  let sched := rev (sha_extend 48 (rev ws)) in
  zip_with add32 st (foldl sha_round st (zip sha_k sched)).

Fixpoint words_of_bytes (bs : list N) : list N :=
  match bs with
  | a :: b :: c :: d :: r => (a * 16777216 + b * 65536 + c * 256 + d) :: words_of_bytes r
  | _ => []
  end.

Fixpoint sha_blocks (fuel : nat) (st ws : list N) : list N :=
  match fuel, ws with
  | S k, _ :: _ => sha_blocks k (sha_block st (take 16 ws)) (drop 16 ws)
  | _, _ => st
  end.

Fixpoint string_bytes (s : string) : list N :=
  match s with EmptyString => [] | String a r => N_of_ascii a :: string_bytes r end.

Definition be_bytes (n : nat) (v : N) : list N :=
  (fun i => N.shiftr v (8 * N.of_nat i) mod 256) <$> rev (seq 0 n).

Definition sha_pad (bs : list N) : list N :=
  let l := length bs in
  bs ++ 128 :: replicate ((119 - l mod 64) mod 64) 0 ++ be_bytes 8 (8 * N.of_nat l).

Definition bytes_string (bs : list N) : string :=
  foldr (fun b s => String (ascii_of_N b) s) "" bs.

(** [sha256.Sum256]. *)
Definition sha256 (s : string) : string :=
  let ws := words_of_bytes (sha_pad (string_bytes s)) in
  bytes_string (mjoin (be_bytes 4 <$> sha_blocks (length ws) sha_h0 ws)).

(** The FIPS 180-2 test vector. *)
Example sha256_abc :
  hex_encode (sha256 "abc")
  = "ba7816bf8f01cfea414140de5dae2223b00361a396177a9cb410ff61f20015ad".
Proof. vm_compute. reflexivity. Qed.
