(* ===== verification/Models.v ===== *)
(** * Models: the rows of the database and the error values (db/models.go, store/errors.go)

    One record per table, with the columns of db/models.go; a nullable column
    (pgtype with [Valid]) is an [option].  [Tables] is the committed content
    of the database: tables keyed by a UUID are finite maps, the log tables
    (keyed by a BIGSERIAL id) are lists in insertion order. *)
From S2P Require Import Prelude GoLib NetAddr.
Local Open Scope Z_scope.

(** A [pgtype.UUID] is its 16 bytes, read as a number. *)
Abbreviation UUID := N (only parsing).

(** ** Rows *)

Record User := mkUser {
  u_id : UUID;
  u_email : string;
  u_password_hash : string;
  u_created_at : Time;
  u_updated_at : Time
}.

Record ApiKey := mkApiKey {
  k_id : UUID;
  k_user_id : UUID;
  k_key_hash : string;
  k_label : string;
  k_last_used_at : option Time;
  k_revoked_at : option Time;
  k_created_at : Time
}.

Record Monitor := mkMonitor {
  m_id : UUID;
  m_user_id : UUID;
  m_kind : string;
  m_slug : string;
  m_name : string;
  m_schedule_kind : option string;
  m_period_s : option Z;
  m_cron_expr : option string;
  m_tz : string;
  m_grace_s : option Z;
  m_url : option string;
  m_method : option string;
  m_interval_s : option Z;
  m_timeout_s : option Z;
  m_fail_threshold : option Z;
  m_http_config : string;
  m_state : string;
  m_fail_streak : Z;
  m_last_checkin_at : option Time;
  m_next_deadline : option Time;
  m_next_probe_at : option Time;
  m_alerts_muted : bool;
  m_paused_at : option Time;
  m_created_at : Time;
  m_updated_at : Time;
  m_auto_resume : bool;
  m_reminder_every_s : Z;
  m_tls_warned_expires_at : option Time
}.

(** The columns UPDATE statements write. *)

Definition with_state (v : string) (m : Monitor) : Monitor :=
    mkMonitor (m_id m) (m_user_id m) (m_kind m) (m_slug m) (m_name m) (m_schedule_kind m)
    (m_period_s m) (m_cron_expr m) (m_tz m) (m_grace_s m) (m_url m) (m_method m) (m_interval_s
    m) (m_timeout_s m) (m_fail_threshold m) (m_http_config m) v (m_fail_streak m)
    (m_last_checkin_at m) (m_next_deadline m) (m_next_probe_at m) (m_alerts_muted m)
    (m_paused_at m) (m_created_at m) (m_updated_at m) (m_auto_resume m) (m_reminder_every_s m)
    (m_tls_warned_expires_at m).

Definition with_fail_streak (v : Z) (m : Monitor) : Monitor :=
    mkMonitor (m_id m) (m_user_id m) (m_kind m) (m_slug m) (m_name m) (m_schedule_kind m)
    (m_period_s m) (m_cron_expr m) (m_tz m) (m_grace_s m) (m_url m) (m_method m) (m_interval_s
    m) (m_timeout_s m) (m_fail_threshold m) (m_http_config m) (m_state m) v (m_last_checkin_at
    m) (m_next_deadline m) (m_next_probe_at m) (m_alerts_muted m) (m_paused_at m) (m_created_at
    m) (m_updated_at m) (m_auto_resume m) (m_reminder_every_s m) (m_tls_warned_expires_at m).

Definition with_last_checkin_at (v : option Time) (m : Monitor) : Monitor :=
    mkMonitor (m_id m) (m_user_id m) (m_kind m) (m_slug m) (m_name m) (m_schedule_kind m)
    (m_period_s m) (m_cron_expr m) (m_tz m) (m_grace_s m) (m_url m) (m_method m) (m_interval_s
    m) (m_timeout_s m) (m_fail_threshold m) (m_http_config m) (m_state m) (m_fail_streak m) v
    (m_next_deadline m) (m_next_probe_at m) (m_alerts_muted m) (m_paused_at m) (m_created_at m)
    (m_updated_at m) (m_auto_resume m) (m_reminder_every_s m) (m_tls_warned_expires_at m).

Definition with_next_deadline (v : option Time) (m : Monitor) : Monitor :=
    mkMonitor (m_id m) (m_user_id m) (m_kind m) (m_slug m) (m_name m) (m_schedule_kind m)
    (m_period_s m) (m_cron_expr m) (m_tz m) (m_grace_s m) (m_url m) (m_method m) (m_interval_s
    m) (m_timeout_s m) (m_fail_threshold m) (m_http_config m) (m_state m) (m_fail_streak m)
    (m_last_checkin_at m) v (m_next_probe_at m) (m_alerts_muted m) (m_paused_at m) (m_created_at
    m) (m_updated_at m) (m_auto_resume m) (m_reminder_every_s m) (m_tls_warned_expires_at m).

Definition with_next_probe_at (v : option Time) (m : Monitor) : Monitor :=
    mkMonitor (m_id m) (m_user_id m) (m_kind m) (m_slug m) (m_name m) (m_schedule_kind m)
    (m_period_s m) (m_cron_expr m) (m_tz m) (m_grace_s m) (m_url m) (m_method m) (m_interval_s
    m) (m_timeout_s m) (m_fail_threshold m) (m_http_config m) (m_state m) (m_fail_streak m)
    (m_last_checkin_at m) (m_next_deadline m) v (m_alerts_muted m) (m_paused_at m) (m_created_at
    m) (m_updated_at m) (m_auto_resume m) (m_reminder_every_s m) (m_tls_warned_expires_at m).

Definition with_alerts_muted (v : bool) (m : Monitor) : Monitor :=
    mkMonitor (m_id m) (m_user_id m) (m_kind m) (m_slug m) (m_name m) (m_schedule_kind m)
    (m_period_s m) (m_cron_expr m) (m_tz m) (m_grace_s m) (m_url m) (m_method m) (m_interval_s
    m) (m_timeout_s m) (m_fail_threshold m) (m_http_config m) (m_state m) (m_fail_streak m)
    (m_last_checkin_at m) (m_next_deadline m) (m_next_probe_at m) v (m_paused_at m)
    (m_created_at m) (m_updated_at m) (m_auto_resume m) (m_reminder_every_s m)
    (m_tls_warned_expires_at m).

Definition with_paused_at (v : option Time) (m : Monitor) : Monitor :=
    mkMonitor (m_id m) (m_user_id m) (m_kind m) (m_slug m) (m_name m) (m_schedule_kind m)
    (m_period_s m) (m_cron_expr m) (m_tz m) (m_grace_s m) (m_url m) (m_method m) (m_interval_s
    m) (m_timeout_s m) (m_fail_threshold m) (m_http_config m) (m_state m) (m_fail_streak m)
    (m_last_checkin_at m) (m_next_deadline m) (m_next_probe_at m) (m_alerts_muted m) v
    (m_created_at m) (m_updated_at m) (m_auto_resume m) (m_reminder_every_s m)
    (m_tls_warned_expires_at m).

Definition with_updated_at (v : Time) (m : Monitor) : Monitor :=
    mkMonitor (m_id m) (m_user_id m) (m_kind m) (m_slug m) (m_name m) (m_schedule_kind m)
    (m_period_s m) (m_cron_expr m) (m_tz m) (m_grace_s m) (m_url m) (m_method m) (m_interval_s
    m) (m_timeout_s m) (m_fail_threshold m) (m_http_config m) (m_state m) (m_fail_streak m)
    (m_last_checkin_at m) (m_next_deadline m) (m_next_probe_at m) (m_alerts_muted m)
    (m_paused_at m) (m_created_at m) v (m_auto_resume m) (m_reminder_every_s m)
    (m_tls_warned_expires_at m).

Definition with_tls_warned_expires_at (v : option Time) (m : Monitor) : Monitor :=
    mkMonitor (m_id m) (m_user_id m) (m_kind m) (m_slug m) (m_name m) (m_schedule_kind m)
    (m_period_s m) (m_cron_expr m) (m_tz m) (m_grace_s m) (m_url m) (m_method m) (m_interval_s
    m) (m_timeout_s m) (m_fail_threshold m) (m_http_config m) (m_state m) (m_fail_streak m)
    (m_last_checkin_at m) (m_next_deadline m) (m_next_probe_at m) (m_alerts_muted m)
    (m_paused_at m) (m_created_at m) (m_updated_at m) (m_auto_resume m) (m_reminder_every_s m) v.

Record Checkin := mkCheckin {
  c_id : Z;
  c_monitor_id : UUID;
  c_kind : string;
  c_source_ip : option Addr;
  c_user_agent : option string;
  c_body : option string;
  c_created_at : Time
}.

Record ProbeResult := mkProbeResult {
  p_id : Z;
  p_monitor_id : UUID;
  p_ok : bool;
  p_http_status : option Z;
  p_latency_ms : option Z;
  p_error : option string;
  p_tls_expires_at : option Time;
  p_created_at : Time
}.

(** The JSON documents the store writes to events.meta: the default '{}',
    {"fields": [...]} of a config_change and {"tls_expires_at": ...} of a
    tls_expiry event. *)
Inductive EventMeta :=
| MetaEmpty
| MetaFields (fields : list string)
| MetaTLS (expires_at : Time).

Record Event := mkEvent {
  e_id : Z;
  e_monitor_id : UUID;
  e_type : string;
  e_message : string;
  e_meta : EventMeta;
  e_created_at : Time
}.

Record Alert := mkAlert {
  a_id : Z;
  a_monitor_id : UUID;
  a_event_id : Z;
  a_channel : string;
  a_status : string;
  a_attempts : Z;
  a_next_attempt_at : Time;
  a_sent_at : option Time;
  a_created_at : Time;
  a_is_reminder : bool
}.

Record DailyStat := mkDailyStat {
  d_monitor_id : UUID;
  d_day : Time;
  d_checkins : Z;
  d_failures : Z;
  d_downtime_s : Z;
  d_latency_p50 : option Z;
  d_latency_p95 : option Z
}.

Record RefreshTokenRow := mkRefreshTokenRow {
  r_id : UUID;
  r_user_id : UUID;
  r_family_id : UUID;
  r_token_hash : string;
  r_expires_at : Time;
  r_rotated_at : option Time;
  r_revoked_at : option Time;
  r_created_at : Time
}.

(** ** The database *)

Record Tables := mkTables {
  t_users : gmap UUID User;
  t_api_keys : gmap UUID ApiKey;
  t_monitors : gmap UUID Monitor;
  t_checkins : list Checkin;
  t_probe_results : list ProbeResult;
  t_events : list Event;
  t_alerts : list Alert;
  t_daily_stats : gmap (UUID * Z) DailyStat;
  t_refresh_tokens : gmap UUID RefreshTokenRow
}.

(** The BIGSERIAL sequences: the last value handed out.  [nextval] is not
    undone by a rollback. *)
Record Seqs := mkSeqs { s_checkins : Z; s_probe_results : Z; s_events : Z; s_alerts : Z }.

Definition set_users v t := mkTables v (t_api_keys t) (t_monitors t) (t_checkins t) (t_probe_results t)
  (t_events t) (t_alerts t) (t_daily_stats t) (t_refresh_tokens t).
Definition set_api_keys v t := mkTables (t_users t) v (t_monitors t) (t_checkins t) (t_probe_results t)
  (t_events t) (t_alerts t) (t_daily_stats t) (t_refresh_tokens t).
Definition set_monitors v t := mkTables (t_users t) (t_api_keys t) v (t_checkins t) (t_probe_results t)
  (t_events t) (t_alerts t) (t_daily_stats t) (t_refresh_tokens t).
Definition set_checkins v t := mkTables (t_users t) (t_api_keys t) (t_monitors t) v (t_probe_results t)
  (t_events t) (t_alerts t) (t_daily_stats t) (t_refresh_tokens t).
Definition set_probe_results v t := mkTables (t_users t) (t_api_keys t) (t_monitors t) (t_checkins t) v
  (t_events t) (t_alerts t) (t_daily_stats t) (t_refresh_tokens t).
Definition set_events v t := mkTables (t_users t) (t_api_keys t) (t_monitors t) (t_checkins t)
  (t_probe_results t) v (t_alerts t) (t_daily_stats t) (t_refresh_tokens t).
Definition set_alerts v t := mkTables (t_users t) (t_api_keys t) (t_monitors t) (t_checkins t)
  (t_probe_results t) (t_events t) v (t_daily_stats t) (t_refresh_tokens t).
Definition set_daily_stats v t := mkTables (t_users t) (t_api_keys t) (t_monitors t) (t_checkins t)
  (t_probe_results t) (t_events t) (t_alerts t) v (t_refresh_tokens t).
Definition set_refresh_tokens v t := mkTables (t_users t) (t_api_keys t) (t_monitors t) (t_checkins t)
  (t_probe_results t) (t_events t) (t_alerts t) (t_daily_stats t) v.

(** ** Errors *)

(** The sentinels of store/errors.go. *)
Inductive Sentinel :=
| ErrEmailTaken
| ErrRegistrationClosed
| ErrInvalidCredentials
| ErrInvalidRefreshToken
| ErrRefreshReuse
| ErrNotFound
| ErrForbidden.

Definition sentinel_message (s : Sentinel) : string :=
  match s with
  | ErrEmailTaken => "email already registered"
  | ErrRegistrationClosed => "registration is closed"
  | ErrInvalidCredentials => "invalid email or password"
  | ErrInvalidRefreshToken => "invalid or expired refresh token"
  | ErrRefreshReuse => "refresh token reuse detected"
  | ErrNotFound => "resource not found"
  | ErrForbidden => "forbidden"
  end.

(** A Go [error]: a sentinel, pgx's "no rows", a Postgres error by its
    SQLSTATE, a lost connection, a cancelled context, a
    [schedule.ValidationError], a plain message, an [httpError] or an error
    wrapped by [fmt.Errorf("...: %w", err)]. *)
Inductive error :=
| ESentinel (s : Sentinel)
| ENoRows
| EPg (code : string)
| ELost
| ECanceled
| EValidation (field message : string)
| EMsg (message : string)
| EHttp (err : error) (status : Z)
| EWrap (context : string) (err : error).

(** [newHTTPError]. *)
Definition newHTTPError (err : error) (status : Z) : error := EHttp err status.

(** [errors.Is(err, target)] for the targets the code tests: it follows Unwrap. *)
Fixpoint error_is_no_rows (e : error) : bool :=
  match e with
  | ENoRows => true
  | EHttp e _ | EWrap _ e => error_is_no_rows e
  | _ => false
  end.

Definition sentinel_eqb (a b : Sentinel) : bool :=
  match a, b with
  | ErrEmailTaken, ErrEmailTaken | ErrRegistrationClosed, ErrRegistrationClosed
  | ErrInvalidCredentials, ErrInvalidCredentials | ErrInvalidRefreshToken, ErrInvalidRefreshToken
  | ErrRefreshReuse, ErrRefreshReuse | ErrNotFound, ErrNotFound | ErrForbidden, ErrForbidden => true
  | _, _ => false
  end.

Fixpoint error_is (s : Sentinel) (e : error) : bool :=
  match e with
  | ESentinel s' => sentinel_eqb s s'
  | EHttp e _ | EWrap _ e => error_is s e
  | _ => false
  end.

(** [isUniqueViolation]: SQLSTATE 23505 anywhere in the chain. *)
Fixpoint isUniqueViolation (e : error) : bool :=
  match e with
  | EPg code => String.eqb code "23505"
  | EHttp e _ | EWrap _ e => isUniqueViolation e
  | _ => false
  end.

Definition unique_violation : error := EPg "23505".
Definition foreign_key_violation : error := EPg "23503".
Definition check_violation : error := EPg "23514".
Definition out_of_range : error := EPg "22003".

(** The result of a Go call: a value or an error. *)
Inductive Res (A : Type) := Ok (a : A) | Err (e : error).
Arguments Ok {A} a.
Arguments Err {A} e.

Definition is_ok {A} (r : Res A) : bool := match r with Ok _ => true | Err _ => false end.
