(* ===== verification/Extern.v ===== *)
(** * Extern: the code that is not in the repository

    The operations the program calls in third-party packages and in Postgres
    whose definition is not source under src/: the IANA time-zone database,
    robfig/cron, pgx's UUID text form, bcrypt, and Postgres's ILIKE,
    PERCENTILE_CONT and AVG.  They are arguments of every definition that uses them;
    the laws a property needs are stated apart, in [ExternLaws], as the
    documented behaviour of those packages. *)
From S2P Require Import Prelude GoLib Models.
From Stdlib Require Import DecimalString.
Local Open Scope Z_scope.

(** What robfig/cron's parser does with an expression: a schedule, an error,
    or the panic [safeParseCron] recovers. *)
Inductive CronOutcome :=
| CronOk
| CronErr (message : string)
| CronPanic (message : string).

Class Extern := mkExtern {
  (** [time.LoadLocation(name)] succeeds *)
  tz_known : string -> bool;
  (** [cronParser.Parse(expr)] *)
  cron_parse : string -> CronOutcome;
  (** [sched.Next(t.In(loc))] for the parsed expression and zone *)
  cron_next : string -> string -> Time -> Time;
  (** pgtype.UUID's [Scan] and [String] *)
  uuid_scan : string -> option UUID;
  uuid_string : UUID -> string;
  (** bcrypt: [GenerateFromPassword] with its random salt, and [CompareHashAndPassword] *)
  bcrypt_generate : string -> string -> Res string;
  bcrypt_matches : string -> string -> bool;
  (** Postgres's [a ILIKE b] *)
  pg_ilike : string -> string -> bool;
  (** Postgres's [PERCENTILE_CONT(num/den) WITHIN GROUP (ORDER BY x)::int] over a non-empty group *)
  pg_percentile : Z -> Z -> list Z -> Z;
  (** [PERCENTILE_CONT(num/den)] and [AVG] of a non-empty group as float64
      values, each as the text encoding/json prints for it *)
  pg_percentile_text : Z -> Z -> list Z -> string;
  pg_avg_text : list Z -> string
}.

(** The canonical text of 16 bytes, "%x-%x-%x-%x-%x", and their value. *)
Definition dashed_hex (b : string) : string :=
  let part (i n : nat) := hex_encode (String.substring i n b) in
  part 0%nat 4%nat +:+ "-" +:+ part 4%nat 2%nat +:+ "-" +:+ part 6%nat 2%nat +:+ "-" +:+
  part 8%nat 2%nat +:+ "-" +:+ part 10%nat 6%nat.

Fixpoint bytes_value (acc : N) (b : string) : N :=
  match b with EmptyString => acc | String c r => bytes_value (256 * acc + N_of_ascii c) r end.

(** Documented behaviour the theorems rely on. *)
Class ExternLaws (E : Extern) : Prop := {
  (** pgx: scanning the printed form of a UUID gives it back *)
  uuid_scan_string : forall u, uuid_scan (uuid_string u) = Some u;
  (** pgx: the canonical form of 16 bytes scans to them *)
  uuid_scan_canonical : forall b, String.length b = 16%nat -> uuid_scan (dashed_hex b) = Some (bytes_value 0 b);
  (** bcrypt: a hash matches the password it was made from *)
  bcrypt_correct : forall salt p h, bcrypt_generate salt p = Ok h -> bcrypt_matches h p = true;
  (** robfig/cron: Next returns a later instant, or the zero time when the
      schedule has no activation within five years *)
  cron_next_later : forall e z t, cron_next e z t = zero_time \/ t < cron_next e z t
}.

(** Hexadecimal digits, with dashes ignored. *)
Fixpoint scan_hex (acc : N) (s : string) : option N :=
  match s with
  | EmptyString => Some acc
  | String c r =>
      if Ascii.eqb c "-" then scan_hex acc r
      else let x := N_of_ascii c in
           if ((48 <=? x) && (x <=? 57))%N then scan_hex (16 * acc + (x - 48)) r
           else if ((97 <=? x) && (x <=? 102))%N then scan_hex (16 * acc + (x - 87)) r else None
  end.

(** A concrete instance for the examples: UTC only, cron expressions that
    fire every minute ("* * * * *") or never ("0 0 30 2 *"), UUIDs printed in
    decimal and scanned from that or from the canonical form. *)
Definition demo_extern : Extern := {|
  tz_known := fun z => String.eqb z "UTC";
  cron_parse := fun e =>
    if String.eqb e "* * * * *" || String.eqb e "0 0 30 2 *" then CronOk
    else CronErr "unsupported";
  cron_next := fun e _ t =>
    if String.eqb e "0 0 30 2 *" then zero_time else t - t mod Minute + Minute;
  uuid_scan := fun s => match parse_digits s with Some u => Some u | None => scan_hex 0 s end;
  uuid_string := fun u => FormatInt (Z.of_N u);
  bcrypt_generate := fun salt p => Ok (p +:+ String ":" salt);
  bcrypt_matches := fun h p => match cut_prefix p h with Some (String ":" _) => true | _ => false end;
  pg_ilike := fun a b => str_contains b a;
  pg_percentile := fun num den l => nth (Z.to_nat (num * (Z.of_nat (length l) - 1) / den)) l 0;
  pg_percentile_text := fun num den l => FormatInt (nth (Z.to_nat (num * (Z.of_nat (length l) - 1) / den)) l 0);
  pg_avg_text := fun l => FormatInt (foldr Z.add 0 l / Z.of_nat (length l))
|}.

Lemma scan_hex_digit acc n r : (n < 16)%N -> scan_hex acc (String (hex_digit n) r) = scan_hex (16 * acc + n) r.
Proof.
  intros Hn. destruct n as [|p]; [reflexivity|].
  destruct p as [[[[p|p|]|[p|p|]|]|[[p|p|]|[p|p|]|]|]|[[[p|p|]|[p|p|]|]|[[p|p|]|[p|p|]|]|]|];
    first [reflexivity|exfalso; lia].
Qed.

Lemma scan_hex_encode b : forall acc r, scan_hex acc (hex_encode b +:+ r) = scan_hex (bytes_value acc b) r.
Proof.
  induction b as [|c b IH]; intros acc r; [done|]. cbn [hex_encode bytes_value].
  change (String ?x (String ?y ?z) +:+ r) with (String x (String y (z +:+ r))).
  assert (Hc : (N_of_ascii c < 256)%N) by apply N_ascii_bounded.
  rewrite !scan_hex_digit by (apply N.mod_lt || apply N.Div0.div_lt_upper_bound; done).
  rewrite IH. do 2 f_equal. pose proof (N.div_mod (N_of_ascii c) 16 ltac:(done)). lia.
Qed.

Lemma scan_hex_part acc b r : scan_hex acc (hex_encode b +:+ "-" +:+ r) = scan_hex (bytes_value acc b) r.
Proof. by rewrite scan_hex_encode. Qed.

Lemma scan_hex_encode_nil acc b : scan_hex acc (hex_encode b) = Some (bytes_value acc b).
Proof.
  assert (E : hex_encode b = hex_encode b +:+ "") by (induction (hex_encode b) as [|c r IH]; [done|];
    change (String c r +:+ "") with (String c (r +:+ "")); congruence).
  by rewrite E, scan_hex_encode.
Qed.

Lemma parse_digits_dash a b : parse_digits (a +:+ "-" +:+ b) = None.
Proof.
  assert (E : NilEmpty.uint_of_string (a +:+ "-" +:+ b) = None).
  { induction a as [|c a IH].
    { change ("" +:+ "-" +:+ b) with (String "-" b). cbn. by destruct (NilEmpty.uint_of_string b). }
    change (String c a +:+ ?x) with (String c (a +:+ x)). cbn [NilEmpty.uint_of_string]. rewrite IH.
    by destruct c as [[] [] [] [] [] [] [] []]. }
  unfold parse_digits. rewrite E. by destruct (String.eqb _ _).
Qed.

Lemma demo_extern_laws : ExternLaws demo_extern.
Proof.
  split; cbn [uuid_scan uuid_string cron_next demo_extern].
  - intros [|p]; [done|]. change (FormatInt (Z.of_N (N.pos p))) with (NilEmpty.string_of_uint (Pos.to_uint p)).
    by rewrite parse_digits_pos.
  - intros b Hb. unfold dashed_hex. rewrite parse_digits_dash, !scan_hex_part, scan_hex_encode_nil.
    do 16 (destruct b as [|? b]; [discriminate Hb|]). destruct b; [|discriminate Hb]. reflexivity.
  - intros salt p h [= <-]. cbn. by rewrite cut_prefix_app.
  - intros e z t. case_match; [by left|right].
    pose proof (Z.mod_pos_bound t Minute ltac:(done)). lia.
Qed.
