(* ===== verification/Store.v ===== *)
(** * Store: programs over the database, transactions and faults (store/store.go)

    A store operation is a [Prog]: a tree of atomic actions on the [World],
    one per SQL statement, transaction, Redis command, clock reading or draw
    of random bytes.  [run] executes a program alone; [pool_step] interleaves
    several programs action by action, which is what two requests, or two
    replicas, do.  A statement may fail before it takes effect or lose its
    acknowledgement after it did: the environment's fault schedule says which,
    for each action by its number. *)
From S2P Require Import Prelude GoLib Models.
Local Open Scope Z_scope.

(** ** The world *)

Inductive Fault :=
| FNone      (* the action succeeds *)
| FBefore    (* it fails and changes nothing *)
| FAfter.    (* it takes effect, but its caller sees a lost connection *)

(** What the run does not control, by the number of the action: faults, the
    clock, [gen_random_uuid()] and crypto/rand's bytes. *)
Record Env := mkEnv {
  env_fault : nat -> Fault;
  env_clock : nat -> Time;
  env_uuid : nat -> UUID;
  env_rand : nat -> nat -> ascii
}.

(** [w_txnow] is the start time of the open transaction, which is what
    [now()] means inside it. *)
Record World := mkWorld {
  w_tables : Tables;
  w_seqs : Seqs;
  w_step : nat;
  w_txnow : option Time;
  w_env : Env
}.

Definition set_db (t : Tables) (s : Seqs) (w : World) : World :=
  mkWorld t s (w_step w) (w_txnow w) (w_env w).
Definition tick (w : World) : World :=
  mkWorld (w_tables w) (w_seqs w) (S (w_step w)) (w_txnow w) (w_env w).
Definition set_txnow (o : option Time) (w : World) : World :=
  mkWorld (w_tables w) (w_seqs w) (w_step w) o (w_env w).

Definition cur_fault (w : World) : Fault := env_fault (w_env w) (w_step w).
Definition cur_clock (w : World) : Time := env_clock (w_env w) (w_step w).
Definition cur_uuid (w : World) : UUID := env_uuid (w_env w) (w_step w).

(** [now()] for a statement. *)
Definition sql_now (w : World) : Time := default (cur_clock w) (w_txnow w).

(** ** Programs *)

Inductive Prog (A : Type) : Type :=
| Ret (r : Res A)
| Act {R : Type} (f : World -> Res R * World) (k : Res R -> Prog A).
Arguments Ret {A} r.
Arguments Act {A R} f k.

Fixpoint bind {A B} (p : Prog A) (k : A -> Prog B) : Prog B :=
  match p with
  | Ret (Ok a) => k a
  | Ret (Err e) => Ret (Err e)
  | Act f k' => Act f (fun r => bind (k' r) k)
  end.

(** [p]'s result with its error as a value: Go's [a, err := p]. *)
Fixpoint attempt {A} (p : Prog A) : Prog (Res A) :=
  match p with
  | Ret r => Ret (Ok r)
  | Act f k => Act f (fun r => attempt (k r))
  end.

Definition ret {A} (a : A) : Prog A := Ret (Ok a).
Definition throw {A} (e : error) : Prog A := Ret (Err e).

(** [if err != nil { return ..., g(err) }]. *)
Fixpoint on_err {A} (g : error -> error) (p : Prog A) : Prog A :=
  match p with
  | Ret (Ok a) => Ret (Ok a)
  | Ret (Err e) => Ret (Err (g e))
  | Act f k => Act f (fun r => on_err g (k r))
  end.

Definition wrap {A} (context : string) (p : Prog A) : Prog A := on_err (EWrap context) p.

Fixpoint run {A} (p : Prog A) (w : World) : Res A * World :=
  match p with
  | Ret r => (r, w)
  | Act f k => let '(r, w') := f w in run (k r) w'
  end.

Notation "'let!' x ':=' p 'in' q" := (bind p (fun x => q))
  (at level 10, x pattern, p at level 200, q at level 200) : ping_scope.
Notation "x ;; z" := (bind x (fun _ => z)) : ping_scope.
#[local] Open Scope ping_scope.

(** A Go value that carries an error, inside a program. *)
Definition lift_res {A} (r : Res A) : Prog A := Ret r.

(** The loop [for _, x := range xs { if err := f(x); err != nil { return err } }],
    threading an accumulator. *)
Fixpoint for_range {A B} (f : B -> A -> Prog B) (acc : B) (xs : list A) : Prog B :=
  match xs with
  | [] => ret acc
  | x :: xs' => let! acc' := f acc x in for_range f acc' xs'
  end.

(** [errgroup] with [SetLimit(limit)]: the programs run side by side, at most
    [limit] of them at a time, in the order they were started.  [sched] says
    which of the running ones takes the next action; what it leaves open is
    finished in order.  Errors are the programs' own business. *)
Fixpoint par {A} (limit : nat) (sched : list nat) (ps : list (Prog A)) : Prog unit :=
  match sched with
  | [] => for_range (fun _ p => let! _ := attempt p in ret tt) tt ps
  | i :: sched =>
      match take limit ps !! i with
      | Some (Act f k) => Act f (fun r => par limit sched (<[i := k r]> ps))
      | Some (Ret _) => par limit sched (delete i ps)
      | None => par limit sched ps
      end
  end.

(** ** Actions *)

(** One SQL statement: it sees [now()] and one fresh [gen_random_uuid()]; on an
    error it changes no table (a sequence may have advanced). *)
Definition Sql (R : Type) : Type := Time -> UUID -> Tables * Seqs -> Res R * (Tables * Seqs).

Definition exec {R} (q : Sql R) (w : World) : Res R * World :=
  match cur_fault w with
  | FBefore => (Err ELost, tick w)
  | FNone =>
      let '(r, (t, s)) := q (sql_now w) (cur_uuid w) (w_tables w, w_seqs w) in
      (r, tick (set_db t s w))
  | FAfter =>
      let '(_, (t, s)) := q (sql_now w) (cur_uuid w) (w_tables w, w_seqs w) in
      (Err ELost, tick (set_db t s w))
  end.

Definition stmt {R} (q : Sql R) : Prog R := Act (exec q) Ret.

(** [time.Now()]. *)
Definition clock_exec (w : World) : Res Time * World := (Ok (cur_clock w), tick w).
Definition time_Now : Prog Time := Act clock_exec Ret.

(** [testclock.Now()]: the end-to-end build shifts the clock its workers and
    the ping endpoints read; every other build leaves it alone. *)
Class Clock := clock_offset : Duration.

#[export] Instance production_clock : Clock := 0.

Definition testclock_Now `{Clock} : Prog Time := let! now := time_Now in ret (time_Add now clock_offset).

(** [rand.Read] of [n] bytes; [FBefore] and [FAfter] are the entropy failure. *)
Definition rand_Read (n : nat) : Prog string :=
  Act (fun w => match cur_fault w with
                | FNone => (Ok (String.string_of_list_ascii (env_rand (w_env w) (w_step w) <$> seq 0 n)), tick w)
                | _ => (Err (EMsg "rand"), tick w)
                end) Ret.

(** [ctx.Err()], by action number. *)
Definition ctx_Err (cancelled : nat -> bool) : Prog unit :=
  Act (fun w => (if cancelled (w_step w) then Err ECanceled else Ok tt, tick w)) Ret.

(** [withTx]: begin, run the body on the transaction, commit on success and
    roll back otherwise.  A rollback restores the tables; the sequences keep
    the values the body drew.  A commit that fails before it took effect rolls
    back; one whose acknowledgement is lost has committed. *)
Definition tx_exec {A} (p : Prog A) (w : World) : Res A * World :=
  match cur_fault w with
  | FNone =>
      let '(r, w1) := run p (set_txnow (Some (cur_clock w)) (tick w)) in
      let rollback := set_txnow None (set_db (w_tables w) (w_seqs w1) w1) in
      match r with
      | Err e => (Err e, rollback)
      | Ok a =>
          match cur_fault w1 with
          | FNone => (Ok a, set_txnow None (tick w1))
          | FBefore => (Err (EWrap "store: commit tx" ELost), tick rollback)
          | FAfter => (Err (EWrap "store: commit tx" ELost), set_txnow None (tick w1))
          end
      end
  | _ => (Err (EWrap "store: begin tx" ELost), tick w)
  end.

Definition withTx {A} (p : Prog A) : Prog A := Act (tx_exec p) Ret.

(** ** Interleaving *)

(** One action of thread [i] of the pool. *)
Definition step_thread {A} (p : Prog A) (w : World) : option (Prog A * World) :=
  match p with
  | Ret _ => None
  | Act f k => let '(r, w') := f w in Some (k r, w')
  end.

Inductive pool_step {A} : list (Prog A) * World -> list (Prog A) * World -> Prop :=
| PoolStep ps w i p p' w' :
    ps !! i = Some p -> step_thread p w = Some (p', w') ->
    pool_step (ps, w) (<[i := p']> ps, w').

(** Run the pool along a schedule of thread numbers. *)
Fixpoint run_schedule {A} (sched : list nat) (ps : list (Prog A)) (w : World)
  : list (Prog A) * World :=
  match sched with
  | [] => (ps, w)
  | i :: rest =>
      match p ← ps !! i; step_thread p w with
      | Some (p', w') => run_schedule rest (<[i := p']> ps) w'
      | None => run_schedule rest ps w
      end
  end.

(** ** Running programs *)

(** No action fails from here on. *)
Definition no_faults (w : World) : Prop := forall n, (w_step w <= n)%nat -> env_fault (w_env w) n = FNone.

Lemma run_bind {A B} (p : Prog A) (k : A -> Prog B) w :
  run (bind p k) w = match run p w with
                     | (Ok a, w') => run (k a) w'
                     | (Err e, w') => (Err e, w')
                     end.
Proof.
  revert w. induction p as [[a|e]|R f k' IH]; intros w; simpl; [done..|].
  destruct (f w) as [r w']. apply IH.
Qed.

Lemma run_on_err {A} g (p : Prog A) w :
  run (on_err g p) w = match run p w with
                       | (Ok a, w') => (Ok a, w')
                       | (Err e, w') => (Err (g e), w')
                       end.
Proof.
  revert w. induction p as [[a|e]|R f k' IH]; intros w; simpl; [done..|].
  destruct (f w) as [r w']. apply IH.
Qed.

Lemma run_attempt {A} (p : Prog A) w :
  run (attempt p) w = let '(r, w') := run p w in (Ok r, w').
Proof.
  revert w. induction p as [r|R f k' IH]; intros w; simpl; [done|].
  destruct (f w) as [r w']. apply IH.
Qed.

Lemma run_stmt {R} (q : Sql R) w : run (stmt q) w = exec q w.
Proof. simpl. by destruct (exec q w). Qed.

Lemma run_withTx {A} (p : Prog A) w : run (withTx p) w = tx_exec p w.
Proof. simpl. by destruct (tx_exec p w). Qed.

Lemma run_wrap {A} c (p : Prog A) w :
  run (wrap c p) w = match run p w with
                     | (Ok a, w') => (Ok a, w')
                     | (Err e, w') => (Err (EWrap c e), w')
                     end.
Proof. apply run_on_err. Qed.

(** *** Inversion of a successful run *)

Lemma run_bind_Ok {A B} (p : Prog A) (k : A -> Prog B) w b w' :
  run (bind p k) w = (Ok b, w') ->
  exists a w1, run p w = (Ok a, w1) /\ run (k a) w1 = (Ok b, w').
Proof. rewrite run_bind. destruct (run p w) as [[a|e] w1]; [eauto|done]. Qed.

Lemma run_on_err_Ok {A} g (p : Prog A) w a w' :
  run (on_err g p) w = (Ok a, w') -> run p w = (Ok a, w').
Proof. rewrite run_on_err. destruct (run p w) as [[?|?] ?]; naive_solver. Qed.

Lemma run_ret_Ok {A} (a b : A) w w' : run (ret a) w = (Ok b, w') -> a = b /\ w = w'.
Proof. naive_solver. Qed.

Lemma run_stmt_Ok {R} (q : Sql R) w r w' :
  run (stmt q) w = (Ok r, w') ->
  exists t s, q (sql_now w) (cur_uuid w) (w_tables w, w_seqs w) = (Ok r, (t, s))
              /\ w' = tick (set_db t s w).
Proof.
  rewrite run_stmt. unfold exec. destruct (cur_fault w); [|naive_solver..|].
  - destruct (q _ _ _) as [r' [t s]]. naive_solver.
  - destruct (q _ _ _) as [r' [t s]]. naive_solver.
Qed.

(** *** Frames: what every action leaves alone *)

Lemma exec_frame {R} (q : Sql R) w r w' :
  exec q w = (r, w') ->
  w_env w' = w_env w /\ w_txnow w' = w_txnow w /\ w_step w' = S (w_step w).
Proof.
  unfold exec. destruct (cur_fault w); [destruct (q _ _ _) as [? [? ?]]|..|destruct (q _ _ _) as [? [? ?]]];
    naive_solver.
Qed.

(** *** Atomicity *)

(** A transaction commits its body's effect or leaves the tables alone, under
    every fault schedule; an error with a changed database is the lost
    acknowledgement of a commit. *)
Lemma withTx_cases {A} (p : Prog A) w r w' :
  run (withTx p) w = (r, w') ->
  (exists e, r = Err e /\ w_tables w' = w_tables w) \/
  (exists a w1, run p (set_txnow (Some (cur_clock w)) (tick w)) = (Ok a, w1) /\
     w_tables w' = w_tables w1 /\ w_seqs w' = w_seqs w1 /\
     (r = Ok a \/ r = Err (EWrap "store: commit tx" ELost))).
Proof.
  rewrite run_withTx. unfold tx_exec. destruct (cur_fault w); [|naive_solver..].
  destruct (run p _) as [[a|e] w1] eqn:E; [|naive_solver].
  destruct (cur_fault w1); intros [= <- <-]; naive_solver.
Qed.

(** With no faults a transaction is its body: committed on success, rolled
    back on an error. *)
Lemma run_withTx_ok {A} (p : Prog A) w a w1 :
  cur_fault w = FNone ->
  run p (set_txnow (Some (cur_clock w)) (tick w)) = (Ok a, w1) -> cur_fault w1 = FNone ->
  run (withTx p) w = (Ok a, set_txnow None (tick w1)).
Proof. intros Hf E Hc. rewrite run_withTx. unfold tx_exec. by rewrite Hf, E, Hc. Qed.

Lemma run_withTx_err {A} (p : Prog A) w e w1 :
  cur_fault w = FNone ->
  run p (set_txnow (Some (cur_clock w)) (tick w)) = (Err e, w1) ->
  run (withTx p) w = (Err e, set_txnow None (set_db (w_tables w) (w_seqs w1) w1)).
Proof. intros Hf E. rewrite run_withTx. unfold tx_exec. by rewrite Hf, E. Qed.

(** *** Runs without faults *)

Lemma no_faults_cur w : no_faults w -> cur_fault w = FNone.
Proof. intros H. apply H. lia. Qed.

Lemma no_faults_tick w : no_faults w -> no_faults (tick w).
Proof. intros H n Hn. apply H. simpl in Hn. lia. Qed.

Lemma no_faults_set_db t s w : no_faults w -> no_faults (set_db t s w).
Proof. done. Qed.

Lemma no_faults_set_txnow o w : no_faults w -> no_faults (set_txnow o w).
Proof. done. Qed.

Lemma exec_ok {R} (q : Sql R) w :
  cur_fault w = FNone ->
  exec q w = let '(r, (t, s)) := q (sql_now w) (cur_uuid w) (w_tables w, w_seqs w) in
             (r, tick (set_db t s w)).
Proof. unfold exec. by intros ->. Qed.

Lemma time_Now_ok w : run time_Now w = (Ok (cur_clock w), tick w).
Proof. done. Qed.

(** What [testclock.Now()] says in [w]. *)
Definition cur_testclock `{Clock} (w : World) : Time := time_Add (cur_clock w) clock_offset.

Lemma testclock_Now_ok `{Clock} w : run testclock_Now w = (Ok (cur_testclock w), tick w).
Proof. done. Qed.

Lemma cur_testclock_production w : @cur_testclock production_clock w = cur_clock w.
Proof. apply Z.add_0_r. Qed.

Create HintDb ping discriminated.
#[export] Hint Resolve no_faults_cur no_faults_tick no_faults_set_db no_faults_set_txnow : ping.

(** Evaluate the next action of a run that has no faults. *)
Ltac run_step :=
  first
    [ rewrite run_bind | rewrite run_on_err | rewrite run_wrap | rewrite run_attempt
    | rewrite run_stmt | rewrite time_Now_ok
    | rewrite exec_ok by auto with ping ];
  cbn [w_tables w_seqs w_txnow w_env set_db tick set_txnow sql_now].

(** Invert a run that returned a value: statement by statement. *)
Ltac inv_run H :=
  lazymatch type of H with
  | run (bind _ _) _ = (Ok _, _) =>
      let a := fresh "v" in let w1 := fresh "w" in let H1 := fresh "Hr" in
      apply run_bind_Ok in H as (a & w1 & H1 & H); inv_run H1; inv_run H
  | run (on_err _ _) _ = (Ok _, _) => apply run_on_err_Ok in H; inv_run H
  | run (wrap _ _) _ = (Ok _, _) => apply run_on_err_Ok in H; inv_run H
  | run (ret _) _ = (Ok _, _) => apply run_ret_Ok in H as [<- <-]
  | run (Ret (Ok _)) _ = (Ok _, _) => apply run_ret_Ok in H as [<- <-]
  | run (throw _) _ = (Ok _, _) => discriminate H
  | run (Ret (Err _)) _ = (Ok _, _) => discriminate H
  | _ => idtac
  end.
