(* ===== verification/Queries.v ===== *)
(** * Queries: the SQL statements of package db (db/*.sql.go)

    Each [db_X] is the statement behind [Queries.X]: a function of the
    statement's [now()], a fresh [gen_random_uuid()] and the database.  The
    constraints of db/migrations are part of the statements that can violate
    them (UNIQUE, REFERENCES, CHECK, ON DELETE CASCADE, the range of INTEGER);
    a nullable argument is an [option].  ORDER BY is a stable sort, so rows
    that tie keep their table order. *)
From S2P Require Import Prelude GoLib NetAddr Models Extern Store.
Local Open Scope Z_scope.

(** ** The shapes of a statement *)

(** [:many] without a LIMIT. *)
Definition sql_many {R} (f : Tables -> list R) : Sql (list R) :=
  fun _ _ db => (Ok (f (fst db)), db).

(** [:many] with LIMIT [n]: Postgres refuses a negative limit. *)
Definition sql_page {R} (n : Z) (f : Tables -> list R) : Sql (list R) :=
  fun _ _ db => if n <? 0 then (Err (EPg "2201W"), db) else (Ok (sql_limit n (f (fst db))), db).

(** [:one] of a SELECT. *)
Definition sql_one {R} (f : Tables -> option R) : Sql R :=
  fun _ _ db => match f (fst db) with
                | Some r => (Ok r, db)
                | None => (Err ENoRows, db)
                end.

(** [column = column + 1] on an INTEGER. *)
Definition int4_succ (n : Z) : option Z := if n <? 2147483647 then Some (n + 1) else None.

(** The rows of the keyed tables. *)
Definition monitor_rows (t : Tables) : list Monitor := snd <$> map_to_list (t_monitors t).
Definition token_rows (t : Tables) : list RefreshTokenRow := snd <$> map_to_list (t_refresh_tokens t).
Definition api_key_rows (t : Tables) : list ApiKey := snd <$> map_to_list (t_api_keys t).
Definition user_rows (t : Tables) : list User := snd <$> map_to_list (t_users t).
Definition stat_rows (t : Tables) : list DailyStat := snd <$> map_to_list (t_daily_stats t).

Definition put_monitor (m : Monitor) (t : Tables) : Tables :=
  set_monitors (<[m_id m := m]> (t_monitors t)) t.

(** UPDATE monitors SET ... WHERE id = [id]: no row is no error. *)
Definition sql_update_monitor (id : UUID) (f : Time -> Monitor -> Monitor) : Sql unit :=
  fun now _ db =>
    match t_monitors (fst db) !! id with
    | Some m => (Ok tt, (put_monitor (f now m) (fst db), snd db))
    | None => (Ok tt, db)
    end.

(** UPDATE monitors SET ... WHERE id = [id] AND user_id = [user] RETURNING *. *)
Definition sql_update_owned (id user : UUID) (f : Time -> Monitor -> Monitor) : Sql Monitor :=
  fun now _ db =>
    match t_monitors (fst db) !! id with
    | Some m =>
        if N.eqb (m_user_id m) user then
          let m' := f now m in (Ok m', (put_monitor m' (fst db), snd db))
        else (Err ENoRows, db)
    | None => (Err ENoRows, db)
    end.

(** ** monitors.sql *)

Definition is_due (now : Time) (m : Monitor) : bool :=
  match m_next_deadline m with
  | Some d => (d <? now) && (String.eqb (m_state m) "up" || String.eqb (m_state m) "late")
              && negb (bool_decide (is_Some (m_paused_at m)))
  | None => false
  end.

Definition deadline_le (a b : Monitor) : bool :=
  default 0 (m_next_deadline a) <=? default 0 (m_next_deadline b).

Definition db_ClaimDueMonitors (now : Time) (page_limit : Z) : Sql (list Monitor) :=
  sql_page page_limit (fun t => sort_by deadline_le (List.filter (is_due now) (monitor_rows t))).

Definition is_probe_due (now : Time) (m : Monitor) : bool :=
  match m_next_probe_at m with
  | Some d => (d <? now) && String.eqb (m_kind m) "http"
              && negb (bool_decide (is_Some (m_paused_at m)))
  | None => false
  end.

Definition probe_at_le (a b : Monitor) : bool :=
  default 0 (m_next_probe_at a) <=? default 0 (m_next_probe_at b).

Definition db_ClaimDueProbes (now : Time) (page_limit : Z) : Sql (list Monitor) :=
  sql_page page_limit (fun t => sort_by probe_at_le (List.filter (is_probe_due now) (monitor_rows t))).

Record CreateMonitorParams := mkCreateMonitorParams {
  cm_user_id : UUID;
  cm_kind : string;
  cm_slug : string;
  cm_name : string;
  cm_schedule_kind : option string;
  cm_period_s : option Z;
  cm_cron_expr : option string;
  cm_tz : string;
  cm_grace_s : option Z;
  cm_url : option string;
  cm_method : option string;
  cm_interval_s : option Z;
  cm_timeout_s : option Z;
  cm_fail_threshold : option Z;
  cm_http_config : option string;
  cm_auto_resume : option bool
}.

(** The CHECK constraints of migration 000002 that an INSERT can violate. *)
Definition kind_check (k : string) : bool := String.eqb k "heartbeat" || String.eqb k "http".
Definition schedule_kind_check (o : option string) : bool :=
  match o with None => true | Some k => String.eqb k "period" || String.eqb k "cron" end.
Definition method_check (o : option string) : bool :=
  match o with
  | None => true
  | Some k => String.eqb k "GET" || String.eqb k "POST" || String.eqb k "HEAD"
  end.

Definition db_CreateMonitor (a : CreateMonitorParams) : Sql Monitor :=
  fun now id db =>
    let '(t, s) := db in
    let m := mkMonitor id (cm_user_id a) (cm_kind a) (cm_slug a) (cm_name a) (cm_schedule_kind a)
      (cm_period_s a) (cm_cron_expr a) (if String.eqb (cm_tz a) "" then "UTC" else cm_tz a)
      (cm_grace_s a) (cm_url a) (cm_method a) (cm_interval_s a) (cm_timeout_s a)
      (cm_fail_threshold a) (default "{}" (cm_http_config a)) "new" 0 None None
      (if String.eqb (cm_kind a) "http" then Some now else None) false None now now
      (default true (cm_auto_resume a)) 86400 None in
    if negb (kind_check (cm_kind a) && schedule_kind_check (cm_schedule_kind a)
             && method_check (cm_method a)) then (Err check_violation, db)
    else if bool_decide (is_Some (t_monitors t !! id))
            || existsb (fun m' => String.eqb (m_slug m') (cm_slug a)) (monitor_rows t)
    then (Err unique_violation, db)
    else if negb (bool_decide (is_Some (t_users t !! cm_user_id a)))
    then (Err foreign_key_violation, db)
    else (Ok m, (put_monitor m t, s)).

(** DELETE FROM monitors: the rows that REFERENCE the monitor go with it. *)
Definition cascade_monitor (id : UUID) (t : Tables) : Tables :=
  mkTables (t_users t) (t_api_keys t) (delete id (t_monitors t))
    (List.filter (fun c => negb (N.eqb (c_monitor_id c) id)) (t_checkins t))
    (List.filter (fun p => negb (N.eqb (p_monitor_id p) id)) (t_probe_results t))
    (List.filter (fun e => negb (N.eqb (e_monitor_id e) id)) (t_events t))
    (List.filter (fun a => negb (N.eqb (a_monitor_id a) id)) (t_alerts t))
    (filter (fun kd => kd.1.1 <> id) (t_daily_stats t))
    (t_refresh_tokens t).

Definition db_DeleteMonitor (id user_id : UUID) : Sql Z :=
  fun _ _ db =>
    match t_monitors (fst db) !! id with
    | Some m => if N.eqb (m_user_id m) user_id then (Ok 1, (cascade_monitor id (fst db), snd db))
                else (Ok 0, db)
    | None => (Ok 0, db)
    end.

Definition db_GetMonitorByID (id : UUID) : Sql Monitor := sql_one (fun t => t_monitors t !! id).

Definition monitor_by_slug (slug : string) (t : Tables) : option Monitor :=
  find (fun m => String.eqb (m_slug m) slug) (monitor_rows t).

Definition db_GetMonitorBySlug (slug : string) : Sql Monitor := sql_one (monitor_by_slug slug).

(** FOR UPDATE: the row stays locked until the transaction, one action of the
    model, ends. *)
Definition db_GetMonitorBySlugForUpdate (slug : string) : Sql Monitor := sql_one (monitor_by_slug slug).

Definition created_desc (a b : Monitor) : bool := m_created_at b <=? m_created_at a.

Definition db_ListMonitorsByUser (user_id : UUID) : Sql (list Monitor) :=
  sql_many (fun t => sort_by created_desc
                       (List.filter (fun m => N.eqb (m_user_id m) user_id) (monitor_rows t))).

Record ListMonitorsByUserPageParams := mkListMonitorsByUserPageParams {
  lp_user_id : UUID;
  lp_cursor_created_at : option Time;
  lp_cursor_id : option UUID;
  lp_search : option string;
  lp_kind : option string;
  lp_display_state : option string;
  lp_page_limit : Z
}.

(** A row comparison with a NULL member is NULL, hence not selected, unless
    the earlier member decides it. *)
Definition before_cursor (c : option Time) (i : option UUID) (m : Monitor) : bool :=
  match c with
  | None => true
  | Some c => (m_created_at m <? c)
              || (m_created_at m =? c) && match i with Some i => N.ltb (m_id m) i | None => false end
  end.

Definition matches_display_state (d : option string) (m : Monitor) : bool :=
  match d with
  | None => true
  | Some d =>
      let paused := bool_decide (is_Some (m_paused_at m)) in
      String.eqb d "paused" && paused
      || negb (String.eqb d "paused") && negb paused && String.eqb (m_state m) d
  end.

Definition newest_first (a b : Monitor) : bool :=
  (m_created_at b <? m_created_at a) || (m_created_at a =? m_created_at b) && N.leb (m_id b) (m_id a).

Definition matches_page `{Extern} (a : ListMonitorsByUserPageParams) (m : Monitor) : bool :=
  N.eqb (m_user_id m) (lp_user_id a)
  && before_cursor (lp_cursor_created_at a) (lp_cursor_id a) m
  && match lp_search a with
     | None => true
     | Some s => pg_ilike (m_name m) ("%" +:+ s +:+ "%") || pg_ilike (m_slug m) ("%" +:+ s +:+ "%")
     end
  && match lp_kind a with None => true | Some k => String.eqb (m_kind m) k end
  && matches_display_state (lp_display_state a) m.

Definition db_ListMonitorsByUserPage `{Extern} (a : ListMonitorsByUserPageParams) : Sql (list Monitor) :=
  sql_page (lp_page_limit a)
    (fun t => sort_by newest_first (List.filter (matches_page a) (monitor_rows t))).

Definition db_MarkMonitorDown (id : UUID) : Sql unit :=
  fun now _ db =>
    match t_monitors (fst db) !! id with
    | Some m =>
        match int4_succ (m_fail_streak m) with
        | Some n => (Ok tt, (put_monitor (with_updated_at now (with_fail_streak n
                       (with_next_deadline None (with_state "down" m)))) (fst db), snd db))
        | None => (Err out_of_range, db)
        end
    | None => (Ok tt, db)
    end.

Definition db_MarkMonitorLate (next_deadline : option Time) (id : UUID) : Sql unit :=
  sql_update_monitor id (fun now m =>
    with_updated_at now (with_next_deadline next_deadline (with_state "late" m))).

Definition db_MuteMonitor (id user_id : UUID) : Sql Monitor :=
  sql_update_owned id user_id (fun now m => with_updated_at now (with_alerts_muted true m)).

Definition db_UnmuteMonitor (id user_id : UUID) : Sql Monitor :=
  sql_update_owned id user_id (fun now m => with_updated_at now (with_alerts_muted false m)).

Definition db_PauseMonitor (id user_id : UUID) : Sql Monitor :=
  sql_update_owned id user_id (fun now m => with_updated_at now (with_paused_at (Some now) m)).

Definition db_ResumeMonitor (next_deadline : option Time) (id user_id : UUID) : Sql Monitor :=
  sql_update_owned id user_id (fun now m =>
    with_updated_at now (with_next_deadline next_deadline (with_state "up" (with_paused_at None m)))).

Record UpdateMonitorParams := mkUpdateMonitorParams {
  um_name : option string;
  um_schedule_kind : option string;
  um_period_s : option Z;
  um_cron_expr : option string;
  um_tz : option string;
  um_grace_s : option Z;
  um_url : option string;
  um_method : option string;
  um_interval_s : option Z;
  um_timeout_s : option Z;
  um_fail_threshold : option Z;
  um_http_config : option string;
  um_auto_resume : option bool;
  um_id : UUID;
  um_user_id : UUID
}.

(** COALESCE([new], [old]) on a nullable column. *)
Definition coalesce {A} (new old : option A) : option A :=
  match new with Some _ => new | None => old end.

Definition updated_monitor (a : UpdateMonitorParams) (now : Time) (m : Monitor) : Monitor :=
  mkMonitor (m_id m) (m_user_id m) (m_kind m) (m_slug m)
    (default (m_name m) (um_name a))
    (coalesce (um_schedule_kind a) (m_schedule_kind m))
    (coalesce (um_period_s a) (m_period_s m))
    (coalesce (um_cron_expr a) (m_cron_expr m))
    (default (m_tz m) (um_tz a))
    (coalesce (um_grace_s a) (m_grace_s m))
    (coalesce (um_url a) (m_url m))
    (coalesce (um_method a) (m_method m))
    (coalesce (um_interval_s a) (m_interval_s m))
    (coalesce (um_timeout_s a) (m_timeout_s m))
    (coalesce (um_fail_threshold a) (m_fail_threshold m))
    (default (m_http_config m) (um_http_config a))
    (m_state m) (m_fail_streak m) (m_last_checkin_at m) (m_next_deadline m) (m_next_probe_at m)
    (m_alerts_muted m) (m_paused_at m) (m_created_at m) now
    (default (m_auto_resume m) (um_auto_resume a))
    (m_reminder_every_s m) (m_tls_warned_expires_at m).

Definition db_UpdateMonitor (a : UpdateMonitorParams) : Sql Monitor :=
  fun now u db =>
    match t_monitors (fst db) !! um_id a with
    | Some m =>
        if N.eqb (m_user_id m) (um_user_id a)
           && negb (schedule_kind_check (coalesce (um_schedule_kind a) (m_schedule_kind m))
                    && method_check (coalesce (um_method a) (m_method m)))
        then (Err check_violation, db)
        else sql_update_owned (um_id a) (um_user_id a) (updated_monitor a) now u db
    | None => (Err ENoRows, db)
    end.

Record UpdateMonitorOnCheckinParams := mkUpdateMonitorOnCheckinParams {
  uc_state : string;
  uc_last_checkin_at : option Time;
  uc_next_deadline : option Time;
  uc_fail_streak : Z;
  uc_id : UUID
}.

Definition db_UpdateMonitorOnCheckin (a : UpdateMonitorOnCheckinParams) : Sql unit :=
  sql_update_monitor (uc_id a) (fun now m =>
    with_updated_at now
      (with_paused_at (if m_auto_resume m then None else m_paused_at m)
        (with_fail_streak (uc_fail_streak a)
          (with_next_deadline (uc_next_deadline a)
            (with_last_checkin_at (uc_last_checkin_at a) (with_state (uc_state a) m)))))).

(** ** probe_results.sql *)

Record UpdateMonitorOnProbeParams := mkUpdateMonitorOnProbeParams {
  up_state : string;
  up_fail_streak : Z;
  up_next_probe_at : option Time;
  up_id : UUID
}.

Definition db_UpdateMonitorOnProbe (a : UpdateMonitorOnProbeParams) : Sql unit :=
  sql_update_monitor (up_id a) (fun now m =>
    with_updated_at now (with_next_probe_at (up_next_probe_at a)
      (with_fail_streak (up_fail_streak a) (with_state (up_state a) m)))).

Definition db_SetTLSWarnedExpiry (tls_expires_at : option Time) (id : UUID) : Sql unit :=
  sql_update_monitor id (fun _ m => with_tls_warned_expires_at tls_expires_at m).

Record InsertProbeResultParams := mkInsertProbeResultParams {
  ip_monitor_id : UUID;
  ip_ok : bool;
  ip_http_status : option Z;
  ip_latency_ms : option Z;
  ip_error : option string;
  ip_tls_expires_at : option Time
}.

Definition db_InsertProbeResult (a : InsertProbeResultParams) : Sql ProbeResult :=
  fun now _ db =>
    let '(t, s) := db in
    let id := s_probe_results s + 1 in
    let s' := mkSeqs (s_checkins s) id (s_events s) (s_alerts s) in
    let p := mkProbeResult id (ip_monitor_id a) (ip_ok a) (ip_http_status a) (ip_latency_ms a)
               (ip_error a) (ip_tls_expires_at a) now in
    if bool_decide (is_Some (t_monitors t !! ip_monitor_id a))
    then (Ok p, (set_probe_results (t_probe_results t ++ [p]) t, s'))
    else (Err foreign_key_violation, (t, s')).

(** The log pages: newest id first, below the cursor. *)
Definition log_page {R} (rid : R -> Z) (keep : R -> bool) (cursor : option Z) (rows : list R) : list R :=
  sort_by (fun a b => rid b <=? rid a)
    (List.filter (fun r => keep r && match cursor with None => true | Some c => rid r <? c end) rows).

Definition opt_eqb {A} (eqb : A -> A -> bool) (filter : option A) (x : A) : bool :=
  match filter with None => true | Some f => eqb x f end.

Definition db_ListProbeResultsByMonitor (monitor_id : UUID) (ok : option bool) (cursor_id : option Z)
    (page_limit : Z) : Sql (list ProbeResult) :=
  sql_page page_limit (fun t =>
    log_page p_id (fun p => N.eqb (p_monitor_id p) monitor_id && opt_eqb Bool.eqb ok (p_ok p))
      cursor_id (t_probe_results t)).

Record LatencySeriesByMonitorRow := mkLatencySeriesByMonitorRow {
  lr_bucket_start : Time;
  lr_p50 : string;
  lr_p95 : string;
  lr_avg : string;
  lr_sample_count : Z
}.

(** [to_timestamp(floor(extract(epoch FROM t) / n) * n)]. *)
Definition bucket_start (bucket_seconds : Z) (t : Time) : Time :=
  t / (bucket_seconds * Second) * (bucket_seconds * Second).

Definition latency_rows (monitor_id : UUID) (since : Time) (t : Tables) : list ProbeResult :=
  List.filter (fun p => N.eqb (p_monitor_id p) monitor_id && p_ok p && (since <=? p_created_at p)) (t_probe_results t).

(** The aggregates skip NULL latencies; over none of them they are NULL, which
    does not scan into a float64. *)
Definition latency_group `{Extern} (start : Time) (rows : list ProbeResult) : option LatencySeriesByMonitorRow :=
  match omap p_latency_ms rows with
  | [] => None
  | l => Some (mkLatencySeriesByMonitorRow start (pg_percentile_text 50 100 l) (pg_percentile_text 95 100 l)
                 (pg_avg_text l) (Z.of_nat (length rows)))
  end.

Definition db_LatencySeriesByMonitor `{Extern} (bucket_seconds : Z) (monitor_id : UUID) (since : Time)
    : Sql (list LatencySeriesByMonitorRow) :=
  fun _ _ db =>
    let rows := latency_rows monitor_id since (fst db) in
    match rows with
    | [] => (Ok [], db)
    | _ =>
        if bucket_seconds =? 0 then (Err (EPg "22012"), db) else
        let key p := bucket_start bucket_seconds (p_created_at p) in
        let starts := sort_by Z.leb (remove_dups (key <$> rows)) in
        match mapM (fun b => latency_group b (List.filter (fun p => key p =? b) rows)) starts with
        | Some out => (Ok out, db)
        | None => (Err (EMsg "cannot scan NULL into *float64"), db)
        end
    end.

(** DELETE ... WHERE id IN (SELECT id ... LIMIT n): the first [n] old rows in
    table order (the subquery has no ORDER BY). *)
Definition delete_batch {R} (old : R -> bool) (rid : R -> Z) (n : Z) (rows : list R) : list Z * list R :=
  let ids := rid <$> sql_limit n (List.filter old rows) in
  (ids, List.filter (fun r => negb (bool_decide (rid r ∈ ids))) rows).

Definition db_DeleteOldProbeResultsBatch (cutoff : Time) (batch_limit : Z) : Sql Z :=
  fun _ _ db =>
    if batch_limit <? 0 then (Err (EPg "2201W"), db) else
    let '(ids, rows) := delete_batch (fun p => p_created_at p <? cutoff) p_id batch_limit
                          (t_probe_results (fst db)) in
    (Ok (Z.of_nat (length ids)), (set_probe_results rows (fst db), snd db)).

(** ** checkins.sql *)

Record InsertCheckinParams := mkInsertCheckinParams {
  ic_monitor_id : UUID;
  ic_kind : string;
  ic_source_ip : option Addr;
  ic_user_agent : option string;
  ic_body : option string
}.

Definition checkin_kind_check (k : string) : bool :=
  String.eqb k "success" || String.eqb k "start" || String.eqb k "fail".

Definition db_InsertCheckin (a : InsertCheckinParams) : Sql Checkin :=
  fun now _ db =>
    let '(t, s) := db in
    let id := s_checkins s + 1 in
    let s' := mkSeqs id (s_probe_results s) (s_events s) (s_alerts s) in
    let c := mkCheckin id (ic_monitor_id a) (ic_kind a) (ic_source_ip a) (ic_user_agent a)
               (ic_body a) now in
    if negb (checkin_kind_check (ic_kind a)) then (Err check_violation, (t, s'))
    else if bool_decide (is_Some (t_monitors t !! ic_monitor_id a))
    then (Ok c, (set_checkins (t_checkins t ++ [c]) t, s'))
    else (Err foreign_key_violation, (t, s')).

Definition db_ListCheckinsByMonitorPage (monitor_id : UUID) (cursor_id : option Z) (page_limit : Z)
    : Sql (list Checkin) :=
  sql_page page_limit (fun t =>
    log_page c_id (fun c => N.eqb (c_monitor_id c) monitor_id) cursor_id (t_checkins t)).

Definition db_DeleteOldCheckinsBatch (cutoff : Time) (batch_limit : Z) : Sql Z :=
  fun _ _ db =>
    if batch_limit <? 0 then (Err (EPg "2201W"), db) else
    let '(ids, rows) := delete_batch (fun c => c_created_at c <? cutoff) c_id batch_limit
                          (t_checkins (fst db)) in
    (Ok (Z.of_nat (length ids)), (set_checkins rows (fst db), snd db)).

(** ** events.sql *)

Definition db_InsertEvent (monitor_id : UUID) (type message : string) (meta : option EventMeta)
    : Sql Event :=
  fun now _ db =>
    let '(t, s) := db in
    let id := s_events s + 1 in
    let s' := mkSeqs (s_checkins s) (s_probe_results s) id (s_alerts s) in
    let e := mkEvent id monitor_id type message (default MetaEmpty meta) now in
    if bool_decide (is_Some (t_monitors t !! monitor_id))
    then (Ok e, (set_events (t_events t ++ [e]) t, s'))
    else (Err foreign_key_violation, (t, s')).

Definition db_ListEventsByMonitorPage (monitor_id : UUID) (event_type : option string)
    (cursor_id : option Z) (page_limit : Z) : Sql (list Event) :=
  sql_page page_limit (fun t =>
    log_page e_id (fun e => N.eqb (e_monitor_id e) monitor_id && opt_eqb String.eqb event_type (e_type e))
      cursor_id (t_events t)).

(** The JOIN: events of monitors the user owns. *)
Definition owned_by (t : Tables) (user_id monitor_id : UUID) : bool :=
  match t_monitors t !! monitor_id with Some m => N.eqb (m_user_id m) user_id | None => false end.

Definition db_ListEventsByUserPage (user_id : UUID) (monitor_id : option UUID)
    (event_type : option string) (cursor_id : option Z) (page_limit : Z) : Sql (list Event) :=
  sql_page page_limit (fun t =>
    log_page e_id (fun e => owned_by t user_id (e_monitor_id e)
                            && opt_eqb N.eqb monitor_id (e_monitor_id e)
                            && opt_eqb String.eqb event_type (e_type e))
      cursor_id (t_events t)).

Definition has_pending_alert (t : Tables) (e : Event) : bool :=
  existsb (fun a => (a_event_id a =? e_id e) && String.eqb (a_status a) "pending") (t_alerts t).

(** Deleting an event deletes its alerts (ON DELETE CASCADE). *)
Definition db_DeleteOldEventsBatch (cutoff : Time) (batch_limit : Z) : Sql Z :=
  fun _ _ db =>
    let '(t, s) := db in
    if batch_limit <? 0 then (Err (EPg "2201W"), db) else
    let '(ids, rows) := delete_batch (fun e => (e_created_at e <? cutoff) && negb (has_pending_alert t e))
                          e_id batch_limit (t_events t) in
    (Ok (Z.of_nat (length ids)),
     (set_alerts (List.filter (fun a => negb (bool_decide (a_event_id a ∈ ids))) (t_alerts t))
        (set_events rows t), s)).

(** ** alerts.sql *)

Definition new_alert (id : Z) (monitor_id : UUID) (event_id : Z) (channel : string) (now : Time)
    (is_reminder : bool) : Alert :=
  mkAlert id monitor_id event_id channel "pending" 0 now None now is_reminder.

Definition db_InsertAlert (monitor_id : UUID) (event_id : Z) (channel : string) : Sql Alert :=
  fun now _ db =>
    let '(t, s) := db in
    let id := s_alerts s + 1 in
    let s' := mkSeqs (s_checkins s) (s_probe_results s) (s_events s) id in
    let a := new_alert id monitor_id event_id channel now false in
    if bool_decide (is_Some (t_monitors t !! monitor_id))
       && existsb (fun e => e_id e =? event_id) (t_events t)
    then (Ok a, (set_alerts (t_alerts t ++ [a]) t, s'))
    else (Err foreign_key_violation, (t, s')).

Record ClaimDueAlertsRow := mkClaimDueAlertsRow {
  ar_alert : Alert;
  ar_recipient : string;
  ar_monitor_name : string;
  ar_monitor_slug : string;
  ar_monitor_state : string;
  ar_alerts_muted : bool;
  ar_event_type : string;
  ar_event_message : string;
  ar_event_created_at : Time;
  ar_event_meta : EventMeta
}.

Definition alert_due (now : Time) (a : Alert) : bool :=
  String.eqb (a_status a) "pending" && (a_next_attempt_at a <? now).

(** The three JOINs of one alert. *)
Definition alert_row (t : Tables) (a : Alert) : option ClaimDueAlertsRow :=
  m ← t_monitors t !! a_monitor_id a;
  u ← t_users t !! m_user_id m;
  e ← find (fun e => e_id e =? a_event_id a) (t_events t);
  Some (mkClaimDueAlertsRow a (u_email u) (m_name m) (m_slug m) (m_state m) (m_alerts_muted m)
          (e_type e) (e_message e) (e_created_at e) (e_meta e)).

Definition attempt_le (a b : ClaimDueAlertsRow) : bool :=
  a_next_attempt_at (ar_alert a) <=? a_next_attempt_at (ar_alert b).

Definition db_ClaimDueAlerts (now : Time) (page_limit : Z) : Sql (list ClaimDueAlertsRow) :=
  sql_page page_limit (fun t =>
    sort_by attempt_le (omap (alert_row t) (List.filter (alert_due now) (t_alerts t)))).

(** A row with the greatest [created_at]. *)
Definition latest_event (rows : list Event) : option Event :=
  head (sort_by (fun a b => e_created_at b <=? e_created_at a) rows).

Definition db_LatestDownEventBefore (monitor_id : UUID) (before : Time) : Sql Event :=
  sql_one (fun t => latest_event
    (List.filter (fun e => N.eqb (e_monitor_id e) monitor_id && String.eqb (e_type e) "down"
                           && (e_created_at e <=? before)) (t_events t))).

(** UPDATE alerts SET ... WHERE id = [id], with [attempts = attempts + 1]
    refused at the end of INTEGER. *)
Definition update_alert_rows (id : Z) (f : Alert -> Alert) (rows : list Alert) : list Alert :=
  (fun a => if a_id a =? id then f a else a) <$> rows.

Definition sql_update_alert (id : Z) (bump : bool) (f : Time -> Alert -> Alert) : Sql unit :=
  fun now _ db =>
    let '(t, s) := db in
    if bump && existsb (fun a => (a_id a =? id) && negb (a_attempts a <? 2147483647)) (t_alerts t)
    then (Err out_of_range, db)
    else (Ok tt, (set_alerts (update_alert_rows id (f now) (t_alerts t)) t, s)).

Definition alert_with (status : string) (attempts : Z) (next_attempt_at : Time)
    (sent_at : option Time) (a : Alert) : Alert :=
  mkAlert (a_id a) (a_monitor_id a) (a_event_id a) (a_channel a) status attempts next_attempt_at
    sent_at (a_created_at a) (a_is_reminder a).

Definition db_MarkAlertFailed (id : Z) : Sql unit :=
  sql_update_alert id true (fun _ a =>
    alert_with "failed" (a_attempts a + 1) (a_next_attempt_at a) (a_sent_at a) a).

Definition db_MarkAlertSent (id : Z) : Sql unit :=
  sql_update_alert id true (fun now a =>
    alert_with "sent" (a_attempts a + 1) (a_next_attempt_at a) (Some now) a).

Definition db_RescheduleAlert (id : Z) (next_attempt_at : Time) : Sql unit :=
  sql_update_alert id true (fun _ a =>
    alert_with (a_status a) (a_attempts a + 1) next_attempt_at (a_sent_at a) a).

Definition db_SuppressAlert (id : Z) : Sql unit :=
  sql_update_alert id false (fun _ a =>
    alert_with "sent" (a_attempts a) (a_next_attempt_at a) (a_sent_at a) a).

(** One monitor's reminder: the id of its latest 'down' event, when the WHERE
    clause holds. *)
Definition reminder_due (t : Tables) (now : Time) (m : Monitor) : option Z :=
  if String.eqb (m_state m) "down" && negb (m_alerts_muted m) && (0 <? m_reminder_every_s m)
     && negb (existsb (fun a => N.eqb (a_monitor_id a) (m_id m)
                                && (now - m_reminder_every_s m * Second <? a_created_at a)) (t_alerts t))
  then e_id <$> latest_event (List.filter (fun e => N.eqb (e_monitor_id e) (m_id m)
                                                     && String.eqb (e_type e) "down") (t_events t))
  else None.

(** Numbers the new rows from the sequence. *)
Fixpoint number_alerts (next : Z) (now : Time) (rows : list (UUID * Z)) : list Alert :=
  match rows with
  | [] => []
  | (mid, eid) :: rows' => new_alert next mid eid "default" now true :: number_alerts (next + 1) now rows'
  end.

Definition db_EnqueueDownReminders (now : Time) : Sql (list Alert) :=
  fun sqlnow _ db =>
    let '(t, s) := db in
    let due := omap (fun m => eid ← reminder_due t now m; Some (m_id m, eid)) (monitor_rows t) in
    let rows := number_alerts (s_alerts s + 1) sqlnow due in
    (Ok rows, (set_alerts (t_alerts t ++ rows) t,
               mkSeqs (s_checkins s) (s_probe_results s) (s_events s) (s_alerts s + Z.of_nat (length due)))).

(** ** users.sql *)

Definition db_CountUsers : Sql Z :=
  fun _ _ db => (Ok (Z.of_nat (size (t_users (fst db)))), db).

Definition db_CreateUser (email password_hash : string) : Sql User :=
  fun now id db =>
    let '(t, s) := db in
    let u := mkUser id email password_hash now now in
    if bool_decide (is_Some (t_users t !! id))
       || existsb (fun u' => String.eqb (u_email u') email) (user_rows t)
    then (Err unique_violation, db)
    else (Ok u, (set_users (<[id := u]> (t_users t)) t, s)).

Definition db_GetUserByEmail (email : string) : Sql User :=
  sql_one (fun t => find (fun u => String.eqb (u_email u) email) (user_rows t)).

Definition db_GetUserByID (id : UUID) : Sql User := sql_one (fun t => t_users t !! id).

(** ** apikeys.sql *)

Definition put_api_key (k : ApiKey) (t : Tables) : Tables :=
  set_api_keys (<[k_id k := k]> (t_api_keys t)) t.

Definition db_CreateAPIKey (user_id : UUID) (key_hash label : string) : Sql ApiKey :=
  fun now id db =>
    let '(t, s) := db in
    let k := mkApiKey id user_id key_hash label None None now in
    if bool_decide (is_Some (t_api_keys t !! id))
       || existsb (fun k' => String.eqb (k_key_hash k') key_hash) (api_key_rows t)
    then (Err unique_violation, db)
    else if bool_decide (is_Some (t_users t !! user_id)) then (Ok k, (put_api_key k t, s))
    else (Err foreign_key_violation, db).

Definition live_key_with_hash (key_hash : string) (k : ApiKey) : bool :=
  String.eqb (k_key_hash k) key_hash && negb (bool_decide (is_Some (k_revoked_at k))).

Definition db_GetAPIKeyByHash (key_hash : string) : Sql ApiKey :=
  sql_one (fun t => find (live_key_with_hash key_hash) (api_key_rows t)).

Definition db_ListAPIKeysByUser (user_id : UUID) : Sql (list ApiKey) :=
  sql_many (fun t => sort_by (fun a b => k_created_at b <=? k_created_at a)
                       (List.filter (fun k => N.eqb (k_user_id k) user_id) (api_key_rows t))).

Definition revoke_key (now : Time) (k : ApiKey) : ApiKey :=
  mkApiKey (k_id k) (k_user_id k) (k_key_hash k) (k_label k) (k_last_used_at k) (Some now) (k_created_at k).

Definition db_RevokeAPIKey (id user_id : UUID) : Sql Z :=
  fun now _ db =>
    match t_api_keys (fst db) !! id with
    | Some k =>
        if N.eqb (k_user_id k) user_id && negb (bool_decide (is_Some (k_revoked_at k)))
        then (Ok 1, (put_api_key (revoke_key now k) (fst db), snd db))
        else (Ok 0, db)
    | None => (Ok 0, db)
    end.

Definition touch_key (now : Time) (k : ApiKey) : ApiKey :=
  mkApiKey (k_id k) (k_user_id k) (k_key_hash k) (k_label k) (Some now) (k_revoked_at k) (k_created_at k).

Definition db_TouchAPIKeyLastUsed (id : UUID) : Sql unit :=
  fun now _ db =>
    match t_api_keys (fst db) !! id with
    | Some k => (Ok tt, (put_api_key (touch_key now k) (fst db), snd db))
    | None => (Ok tt, db)
    end.

(** ** refresh_tokens.sql *)

Definition put_token (r : RefreshTokenRow) (t : Tables) : Tables :=
  set_refresh_tokens (<[r_id r := r]> (t_refresh_tokens t)) t.

Definition db_CreateRefreshToken (user_id family_id : UUID) (token_hash : string) (expires_at : Time)
    : Sql RefreshTokenRow :=
  fun now id db =>
    let '(t, s) := db in
    let r := mkRefreshTokenRow id user_id family_id token_hash expires_at None None now in
    if bool_decide (is_Some (t_refresh_tokens t !! id))
       || existsb (fun r' => String.eqb (r_token_hash r') token_hash) (token_rows t)
    then (Err unique_violation, db)
    else if bool_decide (is_Some (t_users t !! user_id)) then (Ok r, (put_token r t, s))
    else (Err foreign_key_violation, db).

Definition db_DeleteExpiredRefreshTokens : Sql unit :=
  fun now _ db =>
    (Ok tt, (set_refresh_tokens (filter (fun ir => ~ r_expires_at ir.2 < now) (t_refresh_tokens (fst db)))
               (fst db), snd db)).

Definition db_GetRefreshTokenByHash (token_hash : string) : Sql RefreshTokenRow :=
  sql_one (fun t => find (fun r => String.eqb (r_token_hash r) token_hash) (token_rows t)).

Definition rotate_token (now : Time) (r : RefreshTokenRow) : RefreshTokenRow :=
  mkRefreshTokenRow (r_id r) (r_user_id r) (r_family_id r) (r_token_hash r) (r_expires_at r) (Some now)
    (r_revoked_at r) (r_created_at r).

Definition revoke_token (now : Time) (r : RefreshTokenRow) : RefreshTokenRow :=
  mkRefreshTokenRow (r_id r) (r_user_id r) (r_family_id r) (r_token_hash r) (r_expires_at r)
    (r_rotated_at r) (Some now) (r_created_at r).

Definition revoke_in_family (now : Time) (family_id : UUID) (r : RefreshTokenRow) : RefreshTokenRow :=
  if N.eqb (r_family_id r) family_id && negb (bool_decide (is_Some (r_revoked_at r)))
  then revoke_token now r else r.

Definition db_RevokeRefreshTokenFamily (family_id : UUID) : Sql unit :=
  fun now _ db =>
    (Ok tt, (set_refresh_tokens (revoke_in_family now family_id <$> t_refresh_tokens (fst db)) (fst db),
             snd db)).

Definition db_RotateRefreshTokenIfUnrotated (id : UUID) : Sql RefreshTokenRow :=
  fun now _ db =>
    match t_refresh_tokens (fst db) !! id with
    | Some r =>
        match r_rotated_at r, r_revoked_at r with
        | None, None => let r' := rotate_token now r in (Ok r', (put_token r' (fst db), snd db))
        | _, _ => (Err ENoRows, db)
        end
    | None => (Err ENoRows, db)
    end.

(** ** daily_stats.sql *)

Definition in_day (day_start day_end t : Time) : bool := (day_start <=? t) && (t <? day_end).

(** COUNT(...)::int: an INTEGER out of range is an error. *)
Definition int4_of_count (n : nat) : option Z :=
  if Z.of_nat n <=? 2147483647 then Some (Z.of_nat n) else None.

(** GROUP BY [key]: the groups in the order their first rows appear. *)
Definition groups {R} (key : R -> UUID) (rows : list R) : list (UUID * list R) :=
  (fun k => (k, List.filter (fun r => N.eqb (key r) k) rows)) <$> remove_dups (key <$> rows).

(** One aggregate row per group; a failed cast fails the statement. *)
Definition aggregate {R A} (key : R -> UUID) (agg : UUID -> list R -> option A) (rows : list R)
    : option (list A) :=
  mapM (fun g => agg g.1 g.2) (groups key rows).

Definition sql_aggregate {A} (f : Tables -> option (list A)) : Sql (list A) :=
  fun _ _ db => match f (fst db) with Some rows => (Ok rows, db) | None => (Err out_of_range, db) end.

Record RollupCheckinCountsRow := mkRollupCheckinCountsRow {
  rc_monitor_id : UUID;
  rc_checkins : Z;
  rc_failures : Z
}.

Definition db_RollupCheckinCounts (day_start day_end : Time) : Sql (list RollupCheckinCountsRow) :=
  sql_aggregate (fun t =>
    aggregate c_monitor_id (fun id rows =>
      n ← int4_of_count (length rows);
      f ← int4_of_count (length (List.filter (fun c => String.eqb (c_kind c) "fail") rows));
      Some (mkRollupCheckinCountsRow id n f))
      (List.filter (fun c => in_day day_start day_end (c_created_at c)) (t_checkins t))).

Record RollupProbeStatsRow := mkRollupProbeStatsRow {
  rp_monitor_id : UUID;
  rp_checkins : Z;
  rp_failures : Z;
  rp_latency_p50 : option Z;
  rp_latency_p95 : option Z
}.

(** PERCENTILE_CONT ignores NULL latencies and is NULL over no row. *)
Definition percentile `{Extern} (num den : Z) (rows : list ProbeResult) : option Z :=
  match omap p_latency_ms (List.filter p_ok rows) with
  | [] => None
  | l => Some (pg_percentile num den l)
  end.

Definition db_RollupProbeStats `{Extern} (day_start day_end : Time) : Sql (list RollupProbeStatsRow) :=
  sql_aggregate (fun t =>
    aggregate p_monitor_id (fun id rows =>
      n ← int4_of_count (length rows);
      f ← int4_of_count (length (List.filter (fun p => negb (p_ok p)) rows));
      Some (mkRollupProbeStatsRow id n f (percentile 50 100 rows) (percentile 95 100 rows)))
      (List.filter (fun p => in_day day_start day_end (p_created_at p)) (t_probe_results t))).

Record RollupDowntimeSecondsRow := mkRollupDowntimeSecondsRow {
  rd_monitor_id : UUID;
  rd_downtime_s : Z
}.

(** A 'down' or 'up' event before the end of the day. *)
Definition is_transition (day_end : Time) (e : Event) : bool :=
  (String.eqb (e_type e) "down" || String.eqb (e_type e) "up") && (e_created_at e <? day_end).

(** The outages of one monitor's transitions, in order: [LEAD()] pairs each
    'down' with the next transition; unless that is an 'up', the outage lasts
    to the end of the day. *)
Fixpoint outages (day_end : Time) (es : list Event) : list (Time * Time) :=
  match es with
  | [] => []
  | e :: es' =>
      (if String.eqb (e_type e) "down" then
         [(e_created_at e,
           match es' with
           | n :: _ => if String.eqb (e_type n) "up" then e_created_at n else day_end
           | [] => day_end
           end)]
       else []) ++ outages day_end es'
  end.

Definition overlaps_day (day_start day_end : Time) (o : Time * Time) : bool :=
  (day_start <? o.2) && (o.1 <? day_end).

(** GREATEST(0, EPOCH of LEAST(resolved, end) - GREATEST(down, start)), in
    nanoseconds. *)
Definition clamp_outage (day_start day_end : Time) (o : Time * Time) : Z :=
  Z.max 0 (Z.min o.2 day_end - Z.max o.1 day_start).

Definition sum_Z (l : list Z) : Z := foldr Z.add 0 l.

(** numeric::int rounds half away from zero; the sum is not negative. *)
Definition round_seconds (ns : Z) : Z := (ns + Second / 2) / Second.

Definition event_time_le (a b : Event) : bool := e_created_at a <=? e_created_at b.

Definition monitor_outages (day_start day_end : Time) (es : list Event) : list (Time * Time) :=
  List.filter (overlaps_day day_start day_end) (outages day_end (sort_by event_time_le es)).

Definition db_RollupDowntimeSeconds (day_end day_start : Time) : Sql (list RollupDowntimeSecondsRow) :=
  sql_aggregate (fun t =>
    rows ← mapM (fun g =>
        match monitor_outages day_start day_end g.2 with
        | [] => Some []
        | os =>
            let s := round_seconds (sum_Z (clamp_outage day_start day_end <$> os)) in
            if s <=? 2147483647 then Some [mkRollupDowntimeSecondsRow g.1 s] else None
        end)
      (groups e_monitor_id (List.filter (is_transition day_end) (t_events t)));
    Some (concat rows)).

Record UpsertDailyStatParams := mkUpsertDailyStatParams {
  ud_monitor_id : UUID;
  ud_day : Time;
  ud_checkins : Z;
  ud_failures : Z;
  ud_downtime_s : Z;
  ud_latency_p50 : option Z;
  ud_latency_p95 : option Z
}.

Definition stat_of_params (a : UpsertDailyStatParams) : DailyStat :=
  mkDailyStat (ud_monitor_id a) (ud_day a) (ud_checkins a) (ud_failures a) (ud_downtime_s a)
    (ud_latency_p50 a) (ud_latency_p95 a).

Definition db_UpsertDailyStat (a : UpsertDailyStatParams) : Sql unit :=
  fun _ _ db =>
    let '(t, s) := db in
    if bool_decide (is_Some (t_monitors t !! ud_monitor_id a))
    then (Ok tt, (set_daily_stats (<[(ud_monitor_id a, ud_day a) := stat_of_params a]> (t_daily_stats t)) t, s))
    else (Err foreign_key_violation, db).

Definition stat_le (a b : DailyStat) : bool :=
  N.ltb (d_monitor_id a) (d_monitor_id b)
  || N.eqb (d_monitor_id a) (d_monitor_id b) && (d_day a <=? d_day b).

Definition db_ListDailyStatsByMonitorIDs (monitor_ids : list UUID) (since : Time) : Sql (list DailyStat) :=
  sql_many (fun t => sort_by stat_le
    (List.filter (fun d => bool_decide (d_monitor_id d ∈ monitor_ids) && (since <=? d_day d)) (stat_rows t))).
