(* ===== verification/Logic.v ===== *)
(** * Logic: reasoning about programs over the database

    Two judgements.  [okay P p Q]: started in a database satisfying [P], if
    [p] returns a value (so no action failed) the final database satisfies
    [Q].  [each_action R p]: whatever fails, every single action of [p] takes
    the database along [R].  The first is for the bodies of transactions, the
    second for whole operations: it survives faults and any interleaving with
    other operations, which is what [pool_invariant] says. *)
From S2P Require Import Prelude GoLib Models Extern Store Queries.
Local Open Scope Z_scope.
Local Open Scope ping_scope.

Definition DB : Type := Tables * Seqs.

Definition w_db (w : World) : DB := (w_tables w, w_seqs w).

(** ** Values *)

Definition okay {A} (P : DB -> Prop) (p : Prog A) (Q : A -> DB -> Prop) : Prop :=
  forall w a w', P (w_db w) -> run p w = (Ok a, w') -> Q a (w_db w').

Lemma okay_ret {A} (P : DB -> Prop) (a : A) Q : (forall d, P d -> Q a d) -> okay P (ret a) Q.
Proof. intros HP w b w' Hw Hr. apply run_ret_Ok in Hr as [<- <-]. by apply HP. Qed.

Lemma okay_err {A} (P : DB -> Prop) e (Q : A -> DB -> Prop) : okay P (Ret (Err e)) Q.
Proof. intros w b w' _ Hr. discriminate Hr. Qed.

Lemma okay_bind {A B} P (p : Prog A) M (k : A -> Prog B) Q :
  okay P p M -> (forall a, okay (M a) (k a) Q) -> okay P (bind p k) Q.
Proof.
  intros Hp Hk w b w' Hw Hr. apply run_bind_Ok in Hr as (a & w1 & H1 & H2).
  eapply Hk; [|exact H2]. by eapply Hp.
Qed.

Lemma okay_on_err {A} P g (p : Prog A) Q : okay P p Q -> okay P (on_err g p) Q.
Proof. intros Hp w a w' Hw Hr%run_on_err_Ok. by eapply Hp. Qed.

Lemma okay_wrap {A} P c (p : Prog A) Q : okay P p Q -> okay P (wrap c p) Q.
Proof. apply okay_on_err. Qed.

Lemma okay_stmt {R} P (q : Sql R) Q :
  (forall now u d r d', P d -> q now u d = (Ok r, d') -> Q r d') -> okay P (stmt q) Q.
Proof.
  intros Hq w r w' Hw Hr. apply run_stmt_Ok in Hr as (t & s & Hr & ->).
  eapply Hq; [|exact Hr]. exact Hw.
Qed.

Lemma okay_conseq {A} P P' (p : Prog A) Q Q' :
  okay P' p Q' -> (forall d, P d -> P' d) -> (forall a d, Q' a d -> Q a d) -> okay P p Q.
Proof. intros Hp HP HQ w a w' Hw Hr. eapply HQ, Hp; [by apply HP|exact Hr]. Qed.

Lemma okay_for_range {A B} I (f : B -> A -> Prog B) (xs : list A) acc :
  (forall acc x, okay I (f acc x) (fun _ => I)) -> okay I (for_range f acc xs) (fun _ => I).
Proof.
  intros Hf. revert acc. induction xs as [|x xs IH]; intros acc; simpl; [by apply okay_ret|].
  eapply okay_bind; [apply Hf|]. intros a. apply IH.
Qed.

(** ** Statements of a fault-free transaction *)

Definition set_w_db (d : DB) (w : World) : World := set_db d.1 d.2 w.

(** A statement inside a fault-free transaction that started at [now]. *)
Definition in_tx (now : Time) (w : World) : Prop := no_faults w /\ w_txnow w = Some now.

Lemma in_tx_stmt {R} (q : Sql R) now w :
  in_tx now w ->
  run (stmt q) w = let '(r, d) := q now (cur_uuid w) (w_db w) in (r, tick (set_w_db d w)).
Proof.
  intros [Hf Ht]. rewrite run_stmt, exec_ok by auto with ping. unfold sql_now. rewrite Ht. simpl.
  unfold w_db. destruct (q _ _ _) as [r [t s]]. done.
Qed.

Lemma in_tx_step now d w : in_tx now w -> in_tx now (tick (set_w_db d w)).
Proof. intros [Hf Ht]. split; [|done]. by apply no_faults_tick, no_faults_set_db. Qed.

Lemma in_tx_tick now w : in_tx now w -> in_tx now (tick w).
Proof. intros [Hf Ht]. split; [|done]. by apply no_faults_tick. Qed.

#[export] Hint Resolve in_tx_step in_tx_tick : ping.

(** The world a transaction's body starts in. *)
Definition tx_start (w : World) : World := set_txnow (Some (cur_clock w)) (tick w).

Lemma in_tx_start w : no_faults w -> in_tx (cur_clock w) (tx_start w).
Proof. intros Hf. split; [|done]. by apply no_faults_set_txnow, no_faults_tick. Qed.

Lemma in_tx_no_faults now w : in_tx now w -> no_faults w.
Proof. by intros []. Qed.

#[export] Hint Resolve in_tx_start in_tx_no_faults : ping.

(** A fault-free transaction: commit on a value, the tables of the start on an
    error. *)
Lemma run_withTx_commit {A} (p : Prog A) w a w1 now :
  no_faults w -> run p (tx_start w) = (Ok a, w1) -> in_tx now w1 ->
  run (withTx p) w = (Ok a, set_txnow None (tick w1)).
Proof. intros Hf Hr Hw1. apply run_withTx_ok; eauto with ping. Qed.

Lemma run_withTx_abort {A} (p : Prog A) w e w1 :
  no_faults w -> run p (tx_start w) = (Err e, w1) ->
  exists w', run (withTx p) w = (Err e, w') /\ w_tables w' = w_tables w.
Proof. intros Hf Hr. eexists. split; [apply run_withTx_err; eauto with ping|done]. Qed.

(** ** Actions *)

Inductive each_action {A} (R : DB -> DB -> Prop) : Prog A -> Prop :=
| each_ret r : each_action R (Ret r)
| each_act {X} (f : World -> Res X * World) k :
    (forall w, R (w_db w) (w_db (snd (f w)))) -> (forall r, each_action R (k r)) ->
    each_action R (Act f k).

Section each_action.
Context (R : DB -> DB -> Prop).

Lemma each_bind {A B} (p : Prog A) (k : A -> Prog B) :
  each_action R p -> (forall a, each_action R (k a)) -> each_action R (bind p k).
Proof.
  induction 1 as [[a|e]|X f k' Hf Hk IH]; intros Hb; simpl; [apply Hb|constructor|].
  constructor; [done|]. intros r. by apply IH.
Qed.

Lemma each_on_err {A} g (p : Prog A) : each_action R p -> each_action R (on_err g p).
Proof. induction 1 as [[a|e]|X f k' Hf Hk IH]; simpl; by constructor. Qed.

Lemma each_wrap {A} c (p : Prog A) : each_action R p -> each_action R (wrap c p).
Proof. apply each_on_err. Qed.

Lemma each_attempt {A} (p : Prog A) : each_action R p -> each_action R (attempt p).
Proof. induction 1 as [r|X f k' Hf Hk IH]; simpl; by constructor. Qed.

Lemma each_ok {A} (a : A) : each_action R (ret a).
Proof. constructor. Qed.

Lemma each_throw {A} e : each_action R (@throw A e).
Proof. constructor. Qed.

Lemma each_for_range {A B} (f : B -> A -> Prog B) xs acc :
  (forall acc x, each_action R (f acc x)) -> each_action R (for_range f acc xs).
Proof.
  intros Hf. revert acc. induction xs as [|x xs IH]; intros acc; simpl; [constructor|].
  apply each_bind; [apply Hf|done].
Qed.

(** A statement, with or without its acknowledgement. *)
Lemma each_stmt {X} (q : Sql X) :
  (forall d, R d d) -> (forall now u d r d', q now u d = (r, d') -> R d d') -> each_action R (stmt q).
Proof.
  intros Hrefl Hq. constructor; [|constructor]. intros w. unfold exec, w_db.
  destruct (cur_fault w).
  - destruct (q _ _ _) as [r [t s]] eqn:E. by apply Hq in E.
  - apply Hrefl.
  - destruct (q _ _ _) as [r [t s]] eqn:E. by apply Hq in E.
Qed.

Lemma each_time_Now : (forall d, R d d) -> each_action R time_Now.
Proof. intros Hr. constructor; [|constructor]. intros w. apply Hr. Qed.

Lemma each_rand_Read n : (forall d, R d d) -> each_action R (rand_Read n).
Proof. intros Hr. constructor; [|constructor]. intros w. destruct (cur_fault w); apply Hr. Qed.
End each_action.

(** *** Sequences only move forward *)

Definition seqs_le (s s' : Seqs) : Prop :=
  s_checkins s <= s_checkins s' /\ s_probe_results s <= s_probe_results s' /\
  s_events s <= s_events s' /\ s_alerts s <= s_alerts s'.

#[export] Instance seqs_le_preorder : PreOrder seqs_le.
Proof. split; [|intros ???]; unfold seqs_le; repeat split; lia. Qed.

Definition advances {A} : Prog A -> Prop := each_action (fun d d' => seqs_le d.2 d'.2).

Lemma advances_run {A} (p : Prog A) : advances p -> forall w, seqs_le (w_seqs w) (w_seqs (snd (run p w))).
Proof.
  induction 1 as [r|X f k Hf Hk IH]; intros w; simpl; [done|].
  specialize (Hf w). destruct (f w) as [r w1]. etrans; [exact Hf|]. apply IH.
Qed.

(** *** Invariants *)

(** A statement keeps [I] on every outcome. *)
Definition keeps (I : DB -> Prop) {X} (q : Sql X) : Prop :=
  forall now u d r d', I d -> q now u d = (r, d') -> I d'.

Definition safe (I : DB -> Prop) {A} : Prog A -> Prop := each_action (fun d d' => I d -> I d').

(** [I] is not hurt by a sequence that ran ahead (a rolled-back transaction). *)
Definition gap_tolerant (I : DB -> Prop) : Prop :=
  forall t s s', I (t, s) -> seqs_le s s' -> I (t, s').

Lemma safe_stmt I {X} (q : Sql X) : keeps I q -> safe I (stmt q).
Proof. intros Hq. apply each_stmt; [done|]. intros now u d r d' E Hd. by eapply Hq. Qed.

(** A statement that only reads keeps everything. *)
Definition reads {X} (q : Sql X) : Prop := forall now u d r d', q now u d = (r, d') -> d' = d.

Lemma reads_keeps I {X} (q : Sql X) : reads q -> keeps I q.
Proof. intros Hq now u d r d' Hd E. by rewrite (Hq _ _ _ _ _ E). Qed.

Lemma reads_one {R} (f : Tables -> option R) : reads (sql_one f).
Proof. intros now u d r d'. unfold sql_one. case_match; by intros [= <- <-]. Qed.
Lemma reads_many {R} (f : Tables -> list R) : reads (sql_many f).
Proof. by intros now u d r d' [= <- <-]. Qed.
Lemma reads_page {R} n (f : Tables -> list R) : reads (sql_page n f).
Proof. intros now u d r d'. unfold sql_page. case_match; by intros [= <- <-]. Qed.
Lemma reads_aggregate {R} (f : Tables -> option (list R)) : reads (sql_aggregate f).
Proof. intros now u d r d'. unfold sql_aggregate. case_match; by intros [= <- <-]. Qed.

Lemma reads_latency `{Extern} n id since : reads (db_LatencySeriesByMonitor n id since).
Proof. intros now u d r d'. unfold db_LatencySeriesByMonitor. repeat case_match; by intros [= <- <-]. Qed.

(** A transaction is safe when its body, run to a value, restores [I]: the
    intermediate states are not seen, and a failure rolls back. *)
Lemma safe_withTx I {A} (p : Prog A) :
  gap_tolerant I -> advances p -> okay I p (fun _ => I) -> safe I (withTx p).
Proof.
  intros Hgap Hadv Hp. constructor; [|constructor]. intros w HI. unfold tx_exec.
  destruct (cur_fault w); [|exact HI..].
  set (w0 := set_txnow _ _). pose proof (advances_run p Hadv w0) as Hs.
  destruct (run p w0) as [[a|e] w1] eqn:E; simpl in Hs.
  - assert (HI1 : I (w_db w1)) by (eapply Hp; [|exact E]; exact HI).
    destruct (cur_fault w1); [exact HI1| |exact HI1].
    eapply Hgap; [exact HI|exact Hs].
  - eapply Hgap; [exact HI|exact Hs].
Qed.

Lemma safe_run I {A} (p : Prog A) : safe I p -> forall w, I (w_db w) -> I (w_db (snd (run p w))).
Proof.
  induction 1 as [r|X f k Hf Hk IH]; intros w HI; simpl; [done|].
  specialize (Hf w HI). destruct (f w) as [r w1]. by apply IH.
Qed.

(** A body that is safe action by action is safe as a transaction. *)
Lemma safe_withTx_safe I {A} (p : Prog A) : gap_tolerant I -> advances p -> safe I p -> safe I (withTx p).
Proof.
  intros Hg Ha Hp. apply safe_withTx; [done..|]. intros w a w' HI Hr. pose proof (safe_run I p Hp w HI) as HI'. by rewrite Hr in HI'.
Qed.

Lemma each_inv {A} R (p : Prog A) :
  each_action R p ->
  match p with
  | Ret _ => True
  | Act f k => (forall w, R (w_db w) (w_db (f w).2)) /\ (forall r, each_action R (k r))
  end.
Proof. by destruct 1. Qed.

Lemma safe_and I J {A} (p : Prog A) : safe I p -> safe J p -> safe (fun d => I d /\ J d) p.
Proof.
  unfold safe. induction p as [r|X f k IH]; intros Hi%each_inv Hj%each_inv; [constructor|]. destruct Hi as [Hi Hik], Hj as [Hj Hjk].
  constructor; [|intros r; by apply IH]. intros w [H1 H2]. split; [by apply Hi|by apply Hj].
Qed.

(** *** Any interleaving of safe programs keeps the invariant *)

Lemma step_thread_safe I {A} (p p' : Prog A) w w' :
  safe I p -> step_thread p w = Some (p', w') -> I (w_db w) -> safe I p' /\ I (w_db w').
Proof.
  intros Hsafe Hs HI. unfold safe in *. destruct Hsafe as [r|X f k Hf Hk]; simpl in Hs; [done|].
  specialize (Hf w HI). destruct (f w) as [r w1]. simplify_eq. by split.
Qed.

Lemma pool_invariant I {A} (c c' : list (Prog A) * World) :
  rtc pool_step c c' -> Forall (safe I) c.1 -> I (w_db c.2) ->
  Forall (safe I) c'.1 /\ I (w_db c'.2).
Proof.
  induction 1 as [|c c1 c' Hstep _ IH]; intros Hs HI; [done|].
  destruct Hstep as [ps w i p p' w' Hi Hp]; simpl in *.
  destruct (step_thread_safe I p p' w w') as [Hp' HI']; [by eapply Forall_lookup_1|done|done|].
  apply IH; [|done]. by apply Forall_insert.
Qed.

(** A schedule is one of the interleavings. *)
Lemma run_schedule_rtc {A} sched : forall (ps : list (Prog A)) w, rtc pool_step (ps, w) (run_schedule sched ps w).
Proof.
  induction sched as [|i rest IH]; intros ps w; simpl; [done|].
  destruct (ps !! i) as [p|] eqn:Hp; simpl; [|apply IH].
  destruct (step_thread p w) as [[p' w']|] eqn:Hs; [|apply IH].
  eapply rtc_l; [by eapply PoolStep|apply IH].
Qed.

(** *** A resource only one thread can take

    [J] is an invariant of the database and [avail] a resource that, once
    taken, never comes back.  A [contender] cannot produce a value that
    satisfies [win] unless one of its own actions takes the resource; after
    that it may do anything that keeps [J] and does not give it back. *)

Definition holds_on (J avail : DB -> Prop) (d d' : DB) : Prop := J d -> J d' /\ (avail d' -> avail d).

#[local] Set Warnings "-register-all".

Inductive contender {A} (J avail : DB -> Prop) (win : A -> Prop) : Prog A -> Prop :=
| contend_ret r : (forall a, r = Ok a -> ~ win a) -> contender J avail win (Ret r)
| contend_act {X} (f : World -> Res X * World) k :
    (forall w r w', f w = (r, w') -> J (w_db w) ->
       J (w_db w') /\ (avail (w_db w') -> avail (w_db w)) /\
       (contender J avail win (k r) \/
        avail (w_db w) /\ ~ avail (w_db w') /\ each_action (holds_on J avail) (k r))) ->
    contender J avail win (Act f k).

Section contender.
Context (J avail : DB -> Prop).

Lemma contender_err {A} (win : A -> Prop) e : contender J avail win (Ret (Err e)).
Proof. by constructor. Qed.

Lemma contender_ret {A} (win : A -> Prop) a : ~ win a -> contender J avail win (ret a).
Proof. intros Hw. constructor. by intros b [= <-]. Qed.

(** Actions that take nothing, then a contender. *)
Lemma contender_bind {A B} (win : B -> Prop) (p : Prog A) (k : A -> Prog B) :
  each_action (holds_on J avail) p -> (forall a, contender J avail win (k a)) -> contender J avail win (bind p k).
Proof.
  intros Hp Hk. induction Hp as [[a|e]|X f k' Hf _ IH]; simpl; [apply Hk|apply contender_err|]. constructor.
  intros w r w' Hw HJ. specialize (Hf w). rewrite Hw in Hf. destruct (Hf HJ) as [HJ' Ha]. split_and!; [done..|].
  left. apply IH.
Qed.

Lemma contender_clock {A} (win : A -> Prop) k :
  (forall t, contender J avail win (k (Ok t))) -> contender J avail win (Act clock_exec k).
Proof. intros Hk. constructor. intros w r w' [= <- <-] HJ. split_and!; [done..|by left]. Qed.

(** A statement whose result decides. *)
Lemma contender_stmt {A X} (win : A -> Prop) (q : Sql X) k :
  (forall now u d r d', J d -> q now u d = (r, d') ->
     J d' /\ (avail d' -> avail d) /\
     (contender J avail win (k r) \/ avail d /\ ~ avail d' /\ each_action (holds_on J avail) (k r))) ->
  contender J avail win (k (Err ELost)) -> contender J avail win (Act (exec q) k).
Proof.
  intros Hq Hlost. constructor. intros w r w' Hw HJ. unfold exec in Hw. destruct (cur_fault w).
  - destruct (q _ _ _) as [r1 [t s]] eqn:E. injection Hw as <- <-. by apply Hq in E.
  - injection Hw as <- <-. split_and!; [done..|by left].
  - destruct (q _ _ _) as [r1 [t s]] eqn:E. injection Hw as <- <-. apply Hq in E as (HJ' & Ha & _); [|done].
    split_and!; [done..|by left].
Qed.

(** At most one thread of a pool of contenders wins. *)
Definition at_most_one {A} (win : A -> Prop) (ps : list (Prog A)) : Prop :=
  forall i j a b, ps !! i = Some (Ret (Ok a)) -> ps !! j = Some (Ret (Ok b)) -> win a -> win b -> i = j.

(** The pool's state: nobody has taken the resource, or thread [i] has. *)
Definition contest {A} (win : A -> Prop) (ps : list (Prog A)) (d : DB) : Prop :=
  J d /\
  (Forall (contender J avail win) ps \/
   ~ avail d /\ exists i, forall j p, ps !! j = Some p ->
     if decide (j = i) then each_action (holds_on J avail) p else contender J avail win p).

Lemma contest_at_most_one {A} (win : A -> Prop) ps d : contest (A:=A) win ps d -> at_most_one win ps.
Proof.
  assert (Hno : forall a, contender J avail win (Ret (Ok a)) -> ~ win a).
  { intros a Hc. inversion Hc; subst. by apply H0. }
  intros [_ [Hall|[_ [i Hi]]]] j k a b Hj Hk Ha Hb.
  - exfalso. eapply Hno; [|exact Ha]. by eapply Forall_lookup_1.
  - apply Hi in Hj, Hk. destruct (decide (j = i)) as [->|]; [|by apply Hno in Hj].
    destruct (decide (k = i)) as [->|]; [done|by apply Hno in Hk].
Qed.

Lemma contender_step {A} (win : A -> Prop) (p p' : Prog A) w w' :
  contender J avail win p -> step_thread p w = Some (p', w') -> J (w_db w) ->
  J (w_db w') /\ (avail (w_db w') -> avail (w_db w)) /\
  (contender J avail win p' \/ avail (w_db w) /\ ~ avail (w_db w') /\ each_action (holds_on J avail) p').
Proof.
  intros Hc Hs HJ. destruct Hc as [r|X f k Hf]; simpl in Hs; [done|].
  destruct (f w) as [r w1] eqn:Ef. simplify_eq. by apply Hf.
Qed.

Lemma each_step {A} R (p p' : Prog A) w w' :
  each_action R p -> step_thread p w = Some (p', w') -> R (w_db w) (w_db w') /\ each_action R p'.
Proof.
  intros Hc Hs. destruct Hc as [r|X f k Hf Hk]; simpl in Hs; [done|].
  specialize (Hf w). destruct (f w) as [r w1] eqn:Ef. simplify_eq. by split.
Qed.

Lemma contest_step {A} (win : A -> Prop) (c c' : list (Prog A) * World) :
  pool_step c c' -> contest win c.1 (w_db c.2) -> contest win c'.1 (w_db c'.2).
Proof.
  intros Hstep [HJ Hst]. destruct Hstep as [ps w i p p' w' Hi Hp]; cbn [fst snd] in *.
  assert (Hlk : forall j q, <[i := p']> ps !! j = Some q -> j = i /\ q = p' \/ j <> i /\ ps !! j = Some q).
  { intros j q. rewrite list_lookup_insert_Some. naive_solver. }
  destruct Hst as [Hall|[Hna [o Ho]]].
  - destruct (contender_step win p p' w w') as (HJ' & Ha & Hcase); [by eapply Forall_lookup_1|done..|].
    split; [done|]. destruct Hcase as [Hc|(_ & Hna & He)].
    + left. by apply Forall_insert.
    + right. split; [done|]. exists i. intros j q [[-> ->]|[Hne Hq]]%Hlk.
      * by rewrite decide_True.
      * rewrite decide_False by done. by eapply Forall_lookup_1.
  - pose proof (Ho i p Hi) as Hthis. destruct (decide (i = o)) as [->|Hne].
    + destruct (each_step _ p p' w w' Hthis Hp) as [HR He]. destruct (HR HJ) as [HJ' Ha].
      split; [done|]. right. split; [tauto|]. exists o. intros j q [[-> ->]|[Hne Hq]]%Hlk.
      * by rewrite decide_True.
      * specialize (Ho j q Hq). by rewrite decide_False in * by done.
    + destruct (contender_step win p p' w w') as (HJ' & Ha & Hcase); [done..|]. split; [done|]. right.
      destruct Hcase as [Hc|(Hav & _)]; [|done]. split; [tauto|]. exists o. intros j q [[-> ->]|[Hne' Hq]]%Hlk.
      * by rewrite decide_False.
      * by apply Ho.
Qed.

Lemma contest_invariant {A} (win : A -> Prop) (c c' : list (Prog A) * World) :
  rtc pool_step c c' -> J (w_db c.2) -> Forall (contender J avail win) c.1 -> at_most_one win c'.1.
Proof.
  intros Hrun HJ Hall. apply (contest_at_most_one win _ (w_db c'.2)).
  assert (Hc : contest win c.1 (w_db c.2)) by (split; [done|by left]). clear HJ Hall.
  induction Hrun as [|c c1 c' Hs _ IH]; [done|]. apply IH. by eapply contest_step.
Qed.
End contender.

(** ** Programs whose continuation depends on what a statement saw

    [guarded J Q p]: every action of [p], from a database satisfying [J],
    keeps [J], and what it returns there is what [p] goes on with; [p]'s result
    satisfies [Q].  Unlike [safe] it can use that a row read under [J] has the
    properties [J] gives it. *)

Inductive guarded {A} (J : DB -> Prop) (Q : Res A -> Prop) : Prog A -> Prop :=
| guarded_ret r : Q r -> guarded J Q (Ret r)
| guarded_act {X} (f : World -> Res X * World) k :
    (forall w, J (w_db w) -> J (w_db (f w).2)) -> (forall w, J (w_db w) -> guarded J Q (k (f w).1)) ->
    guarded J Q (Act f k).

Section guarded.
Context (J : DB -> Prop).

Definition anything {A} (_ : Res A) : Prop := True.

Lemma guarded_conseq {A} (Q Q' : Res A -> Prop) p : guarded J Q p -> (forall r, Q r -> Q' r) -> guarded J Q' p.
Proof. intros Hp HQ. induction Hp; constructor; auto. Qed.

Lemma guarded_any {A} (Q : Res A -> Prop) p : guarded J Q p -> guarded J anything p.
Proof. intros Hp. by eapply guarded_conseq. Qed.

Lemma guarded_safe {A} (p : Prog A) : safe J p -> guarded J anything p.
Proof. induction 1 as [r|X f k Hf _ IH]; constructor; [done|intros w; apply Hf|intros w _; apply IH]. Qed.

Lemma guarded_bind {A B} (Q : Res A -> Prop) (Q' : Res B -> Prop) (p : Prog A) (k : A -> Prog B) :
  guarded J Q p -> (forall a, Q (Ok a) -> guarded J Q' (k a)) -> (forall e, Q (Err e) -> Q' (Err e)) ->
  guarded J Q' (bind p k).
Proof.
  intros Hp Hk He. induction Hp as [[a|e] Hr|X f k' Hf _ IH]; cbn [bind]; [by apply Hk| |by constructor].
  constructor. by apply He.
Qed.

Lemma guarded_attempt {A} (Q : Res A -> Prop) (p : Prog A) :
  guarded J Q p -> guarded J (fun r => exists r0, r = Ok r0 /\ Q r0) (attempt p).
Proof.
  induction 1 as [r Hr|X f k Hf _ IH]; cbn [attempt]; constructor; [by exists r|exact Hf|exact IH].
Qed.

Lemma guarded_on_err {A} (Q : Res A -> Prop) g (p : Prog A) :
  guarded J (fun r => match r with Ok a => Q (Ok a) | Err e => Q (Err (g e)) end) p -> guarded J Q (on_err g p).
Proof. induction 1 as [[a|e] Hr|X f k Hf _ IH]; cbn [on_err]; by constructor. Qed.

(** A statement: it keeps [J], and what it returns under [J]. *)
Lemma guarded_stmt {X} (Q : Res X -> Prop) (q : Sql X) :
  keeps J q -> Q (Err ELost) -> (forall now u d, J d -> Q (fst (q now u d))) -> guarded J Q (stmt q).
Proof.
  intros Hq He HQ. constructor.
  - intros w HJ. unfold exec. destruct (cur_fault w); [|exact HJ|];
      destruct (q _ _ _) as [r [t s]] eqn:E; by eapply (Hq _ _ _ _ _ HJ) in E.
  - intros w HJ. constructor. unfold exec. specialize (HQ (sql_now w) (cur_uuid w) _ HJ). unfold w_db in HQ.
    destruct (cur_fault w); [|done|]; by destruct (q _ _ _) as [r [t s]].
Qed.

Lemma guarded_inv {A} (Q : Res A -> Prop) p :
  guarded J Q p ->
  match p with
  | Ret r => Q r
  | Act f k => (forall w, J (w_db w) -> J (w_db (f w).2)) /\ (forall w, J (w_db w) -> guarded J Q (k (f w).1))
  end.
Proof. by destruct 1. Qed.

Lemma guarded_run {A} (Q : Res A -> Prop) p : guarded J Q p -> forall w r w',
  J (w_db w) -> run p w = (r, w') -> J (w_db w') /\ Q r.
Proof.
  induction 1 as [r Hr|X f k Hf _ IH]; intros w r' w' HJ; cbn [run]; [by intros [= <- <-]|].
  specialize (Hf w HJ). specialize (IH w HJ). destruct (f w) as [x w1]. by apply IH.
Qed.

Lemma guarded_pool {A} (Q : Res A -> Prop) (c c' : list (Prog A) * World) :
  rtc pool_step c c' -> Forall (guarded J Q) c.1 -> J (w_db c.2) -> Forall (guarded J Q) c'.1 /\ J (w_db c'.2).
Proof.
  induction 1 as [|c c1 c' Hstep _ IH]; intros Hs HJ; [done|].
  destruct Hstep as [ps w i p p' w' Hi Hp]; cbn [fst snd] in *.
  assert (Hg : guarded J Q p) by (by eapply Forall_lookup_1). apply guarded_inv in Hg.
  destruct p as [r|X f k]; [done|]. cbn in Hp. destruct (f w) as [x w1] eqn:Ef. simplify_eq.
  destruct Hg as [H1 H2]. specialize (H1 w HJ). specialize (H2 w HJ). rewrite Ef in H1, H2.
  apply IH; [|exact H1]. by apply Forall_insert.
Qed.
End guarded.

#[export] Hint Resolve okay_err okay_on_err okay_wrap each_bind each_on_err each_wrap each_attempt
  each_ok each_throw each_ret each_for_range : ping.

(** ** Faults inside a transaction

    A body that gives up on the first failed statement reaches a value only if
    no statement failed: the same run as without faults. *)

Definition calm_env (e : Env) : Env := mkEnv (fun _ => FNone) (env_clock e) (env_uuid e) (env_rand e).

Definition calm (w : World) : World :=
  mkWorld (w_tables w) (w_seqs w) (w_step w) (w_txnow w) (calm_env (w_env w)).

Lemma calm_no_faults w : no_faults (calm w).
Proof. by intros n _. Qed.

Inductive strict {A} : Prog A -> Prop :=
| strict_ret r : strict (Ret r)
| strict_act {X} (q : Sql X) k :
    (exists e, k (Err ELost) = Ret (Err e)) -> (forall r, strict (k r)) -> strict (Act (exec q) k)
| strict_clock k : (forall r, strict (k r)) -> strict (Act clock_exec k).

Lemma strict_calm {A} (p : Prog A) :
  strict p -> forall w a w1, run p w = (Ok a, w1) -> run p (calm w) = (Ok a, calm w1).
Proof.
  induction 1 as [r|X q k [e He] Hk IH|k Hk IH]; intros w a w1 Hr; simpl in *; [by simplify_eq| |].
  2:{ unfold clock_exec in *. by apply IH in Hr. }
  unfold exec in Hr. destruct (cur_fault w) eqn:Ef.
  - rewrite (exec_ok q (calm w)) by done.
    change (sql_now (calm w)) with (sql_now w). change (cur_uuid (calm w)) with (cur_uuid w).
    change (w_tables (calm w), w_seqs (calm w)) with (w_tables w, w_seqs w).
    destruct (q _ _ _) as [r [t s]]. change (tick (set_db t s (calm w))) with (calm (tick (set_db t s w))).
    by apply IH.
  - rewrite He in Hr. done.
  - destruct (q _ _ _) as [r [t s]]. rewrite He in Hr. done.
Qed.

Lemma strict_stmt {X} (q : Sql X) : strict (stmt q).
Proof. constructor; [by eexists|]. constructor. Qed.

Lemma strict_time_Now : strict time_Now.
Proof. constructor. constructor. Qed.

Lemma strict_ok {A} (a : A) : strict (ret a).
Proof. constructor. Qed.

Lemma strict_on_err {A} g (p : Prog A) : strict p -> strict (on_err g p).
Proof.
  induction 1 as [[a|e]|X q k [e He] Hk IH|k Hk IH]; simpl; try constructor; [|done..].
  rewrite He. by eexists.
Qed.

Lemma strict_bind {A B} (p : Prog A) (k : A -> Prog B) :
  strict p -> (forall a, strict (k a)) -> strict (bind p k).
Proof.
  induction 1 as [[a|e]|X q k' [e He] Hk IH|k' Hk IH]; intros Hb; simpl; [done|constructor| |].
  - constructor; [rewrite He; by eexists|]. intros r. by apply IH.
  - constructor. intros r. by apply IH.
Qed.

Lemma strict_wrap {A} c (p : Prog A) : strict p -> strict (wrap c p).
Proof. apply strict_on_err. Qed.

Lemma strict_for_range {A B} (f : B -> A -> Prog B) xs acc :
  (forall acc x, strict (f acc x)) -> strict (for_range f acc xs).
Proof.
  intros Hf. revert acc. induction xs as [|x xs IH]; intros acc; simpl; [constructor|].
  apply strict_bind; [apply Hf|done].
Qed.

#[export] Hint Resolve strict_ret strict_stmt strict_ok strict_on_err strict_bind strict_wrap
  strict_for_range : ping.

(** Under any faults, a transaction has done nothing and reports an error, or
    has done what it does without faults. *)
Lemma withTx_calm {A} (p : Prog A) w r w' :
  strict p -> run (withTx p) w = (r, w') ->
  (exists e, r = Err e /\ w_tables w' = w_tables w) \/
  (exists a wc, run (withTx p) (calm w) = (Ok a, wc) /\
     w_tables w' = w_tables wc /\ w_seqs w' = w_seqs wc /\
     (r = Ok a \/ r = Err (EWrap "store: commit tx" ELost))).
Proof.
  intros Hp Hr. apply withTx_cases in Hr as [?|(a & w1 & Hrun & Ht & Hs & Hr)]; [by left|right].
  apply strict_calm in Hrun; [|done]. exists a, (set_txnow None (tick (calm w1))).
  split_and!; [|done..]. rewrite run_withTx. unfold tx_exec.
  change (cur_clock (calm w)) with (cur_clock w) in *.
  change (set_txnow (Some (cur_clock w)) (tick (calm w)))
    with (calm (set_txnow (Some (cur_clock w)) (tick w))).
  rewrite Hrun. done.
Qed.

Lemma strict_in_tx {A} (p : Prog A) now :
  strict p -> forall w r w1, in_tx now w -> run p w = (r, w1) -> in_tx now w1.
Proof.
  induction 1 as [r|X q k _ Hk IH|k Hk IH]; intros w r1 w1 Hw Hr; simpl in Hr; [by simplify_eq| |].
  - destruct (exec q w) as [r2 w2] eqn:E. eapply IH; [|exact Hr].
    destruct (exec_frame _ _ _ _ E) as (He & Ht & Hs). destruct Hw as [Hf Hn]. split; [|by rewrite Ht].
    intros n Hle. rewrite He. apply Hf. lia.
  - unfold clock_exec in Hr. eapply IH; [|exact Hr]. by apply in_tx_tick.
Qed.

(** A fault-free transaction, by the run of its body: what a value leaves is
    committed, an error leaves the tables of the start. *)
Lemma run_tx {A} (p : Prog A) w (Q : Res A -> Tables -> Prop) :
  no_faults w -> strict p ->
  (let '(r, w1) := run p (tx_start w) in Q r (match r with Ok _ => w_tables w1 | Err _ => w_tables w end)) ->
  exists r w', run (withTx p) w = (r, w') /\ Q r (w_tables w').
Proof.
  intros Hf Hs HQ. destruct (run p (tx_start w)) as [[a|e] w1] eqn:E.
  - exists (Ok a), (set_txnow None (tick w1)). split; [|exact HQ]. eapply (run_withTx_commit _ _ _ _ (cur_clock w)); [done|exact E|].
    eapply strict_in_tx; [done|by apply in_tx_start|exact E].
  - destruct (run_withTx_abort p w e w1 Hf E) as (w' & Hr & Ht). exists (Err e), w'. by rewrite Ht.
Qed.

Lemma calm_db w : w_tables (calm w) = w_tables w.
Proof. done. Qed.

(** Unfold the definition a term is headed by. *)
Ltac unfold_head p :=
  lazymatch p with
  | ?f _ => unfold_head f
  | _ => unfold p
  end.

(** Programs side by side. *)
Lemma each_par {A} R limit sched : forall ps : list (Prog A), Forall (each_action R) ps -> each_action R (par limit sched ps).
Proof.
  induction sched as [|i sched IH]; intros ps Hps; cbn [par].
  { induction Hps as [|p ps Hp _ IH]; cbn [for_range]; [constructor|]. apply each_bind; [|by intros []].
    apply each_bind; [by apply each_attempt|constructor]. }
  destruct (take limit ps !! i) as [p|] eqn:Hi; [|by apply IH].
  assert (Hp : each_action R p).
  { rewrite lookup_take_Some in Hi. by eapply Forall_lookup_1; [|apply Hi]. }
  destruct Hp as [r|X f k Hf Hk]; [by apply IH, Forall_delete|]. constructor; [done|].
  intros r. apply IH, Forall_insert; [done|apply Hk].
Qed.

(** Programs side by side always come to an end. *)
Lemma run_par_ok {A} limit sched : forall (ps : list (Prog A)) w, exists w', run (par limit sched ps) w = (Ok tt, w').
Proof.
  induction sched as [|i sched IH]; intros ps w; cbn [par].
  { revert w. induction ps as [|p ps IH]; intros w; cbn [for_range]; [by exists w|].
    rewrite run_bind, run_bind, run_attempt. destruct (run p w) as [r w1]. apply IH. }
  destruct (take limit ps !! i) as [[r|X f k]|]; [apply IH| |apply IH].
  cbn [run]. destruct (f w) as [r w1]. apply IH.
Qed.

(** Syntax-directed proofs that a body is strict, or advances the sequences. *)
Ltac solve_strict :=
  repeat lazymatch goal with
  | |- forall _, _ => intros ?
  | |- strict (bind _ _) => apply strict_bind
  | |- strict (wrap _ _) => apply strict_wrap
  | |- strict (on_err _ _) => apply strict_on_err
  | |- strict (stmt _) => apply strict_stmt
  | |- strict (Ret _) => apply strict_ret
  | |- strict time_Now => apply strict_time_Now
  | |- strict (for_range _ _ _) => apply strict_for_range
  | |- strict (let _ := _ in _) => cbv zeta
  | |- strict (match ?x with _ => _ end) => destruct x
  | |- strict ?p => unfold_head p
  end.

(** One syntax-directed step of a proof that a program keeps an invariant;
    [stmts] is for its statements, [txs] for its transactions. *)
Ltac safe_step stmts txs :=
  lazymatch goal with
  | |- forall _, _ => intros ?
  | |- safe _ (bind _ _) => apply each_bind
  | |- safe _ (wrap _ _) => apply each_wrap
  | |- safe _ (on_err _ _) => apply each_on_err
  | |- safe _ (attempt _) => apply each_attempt
  | |- safe _ (stmt _) => apply safe_stmt; stmts
  | |- safe _ (withTx _) => txs
  | |- safe _ (Ret _) => constructor
  | |- safe _ (throw _) => constructor
  | |- safe _ (Act _ Ret) => constructor; [by intros ?|constructor]
  | |- safe _ time_Now => by apply each_time_Now
  | |- safe _ (rand_Read _) => by apply each_rand_Read
  | |- safe _ (for_range _ _ _) => apply each_for_range
  | |- safe _ (let _ := _ in _) => cbv zeta
  | |- safe _ (match ?x with _ => _ end) => destruct x
  | |- safe _ ((match ?x with _ => _ end) _) => destruct x
  | |- safe _ ?p => unfold_head p
  | |- each_action (fun d d' => ?I d -> ?I d') ?p => change (safe I p)
  end.

(** Reduce a goal about a fault-free transaction to its body, with [run_tx]. *)
Ltac start_tx :=
  lazymatch goal with
  | |- ex (fun r => ex (fun w' => run (withTx ?p) ?w = (r, w') /\ @?P r w')) =>
      refine (run_tx p w (fun r t => P r (mkWorld t (w_seqs w) 0 None (w_env w))) _ _ _);
      cbn beta; cbn [w_tables]
  end.

(** ** Programs that leave the world's oracles alone

    Every action moves the count of actions forward and changes neither the
    clock nor the faults of the run. *)

Definition onward (w w' : World) : Prop :=
  w_env w' = w_env w /\ (w_step w <= w_step w')%nat /\ (w_txnow w = None -> w_txnow w' = None).

#[export] Instance onward_preorder : PreOrder onward.
Proof. split; [done|]. intros w1 w2 w3 (E1 & H1 & T1) (E2 & H2 & T2). split_and!; [congruence|lia|auto]. Qed.

Inductive steady {A} : Prog A -> Prop :=
| steady_ret r : steady (Ret r)
| steady_act {X} (f : World -> Res X * World) k :
    (forall w, onward w (f w).2) -> (forall r, steady (k r)) -> steady (Act f k).

Lemma steady_run {A} (p : Prog A) : steady p -> forall w, onward w (run p w).2.
Proof.
  induction 1 as [r|X f k Hf _ IH]; intros w; cbn [run]; [done|].
  specialize (Hf w). destruct (f w) as [r w1]. etrans; [exact Hf|apply IH].
Qed.

Lemma onward_no_faults w w' : onward w w' -> no_faults w -> no_faults w'.
Proof. intros (He & Hs & _) Hf n Hn. rewrite He. apply Hf. lia. Qed.

Lemma steady_bind {A B} (p : Prog A) (k : A -> Prog B) : steady p -> (forall a, steady (k a)) -> steady (bind p k).
Proof.
  intros Hp Hk. induction Hp as [[a|e]|X f k' Hf _ IH]; cbn [bind]; [apply Hk|constructor|by constructor].
Qed.

Lemma steady_on_err {A} g (p : Prog A) : steady p -> steady (on_err g p).
Proof. induction 1 as [[a|e]|X f k Hf _ IH]; cbn [on_err]; by constructor. Qed.

Lemma steady_attempt {A} (p : Prog A) : steady p -> steady (attempt p).
Proof. induction 1 as [r|X f k Hf _ IH]; cbn [attempt]; by constructor. Qed.

Lemma steady_for_range {A B} (f : B -> A -> Prog B) xs : (forall acc x, steady (f acc x)) -> forall acc, steady (for_range f acc xs).
Proof.
  intros Hf. induction xs as [|x xs IH]; intros acc; cbn [for_range]; [constructor|]. by apply steady_bind.
Qed.

Lemma steady_stmt {X} (q : Sql X) : steady (stmt q).
Proof.
  constructor; [|constructor]. intros w. destruct (exec q w) as [r w'] eqn:E. apply exec_frame in E as (He & Ht & Hs).
  split; [done|]. cbn. split; [lia|congruence].
Qed.

Lemma steady_time_Now : steady time_Now.
Proof. constructor; [|constructor]. intros w. split; [done|]. cbn. split; [lia|done]. Qed.

Lemma steady_withTx {A} (p : Prog A) : steady p -> steady (withTx p).
Proof.
  intros Hp. constructor; [|constructor]. intros w. unfold tx_exec.
  pose proof (steady_run p Hp (set_txnow (Some (cur_clock w)) (tick w))) as Hrun.
  destruct (cur_fault w); [|split; cbn; [done|split; [lia|done]]..].
  destruct (run p _) as [[a|e] w1]; destruct Hrun as (He & Hs & _); cbn in He, Hs;
    [destruct (cur_fault w1)|]; (split; [exact He|]); (split; [cbn; lia|done]).
Qed.

Lemma steady_par {A} limit sched : forall ps : list (Prog A), Forall steady ps -> steady (par limit sched ps).
Proof.
  induction sched as [|i sched IH]; intros ps Hps; cbn [par].
  { induction Hps as [|p ps Hp _ IH]; cbn [for_range]; [constructor|].
    apply steady_bind; [|by intros []]. apply steady_bind; [by apply steady_attempt|constructor]. }
  destruct (take limit ps !! i) as [p|] eqn:Hi; [|by apply IH].
  assert (Hp : steady p) by (rewrite lookup_take_Some in Hi; by eapply Forall_lookup_1; [|apply Hi]).
  destruct Hp as [r|X f k Hf Hk]; [by apply IH, Forall_delete|]. constructor; [done|].
  intros r. apply IH, Forall_insert; [done|apply Hk].
Qed.

Ltac solve_steady :=
  repeat first [assumption | lazymatch goal with
  | |- forall _, _ => intros ?
  | |- steady (bind _ _) => apply steady_bind
  | |- steady (wrap _ _) => apply steady_on_err
  | |- steady (on_err _ _) => apply steady_on_err
  | |- steady (attempt _) => apply steady_attempt
  | |- steady (stmt _) => apply steady_stmt
  | |- steady (withTx _) => apply steady_withTx
  | |- steady (Ret _) => constructor
  | |- steady (Act _ Ret) =>
      constructor; [intros ?; repeat case_match; (split; [reflexivity|cbn; split; [lia|done]])|constructor]
  | |- steady time_Now => apply steady_time_Now
  | |- steady (for_range _ _ _) => apply steady_for_range
  | |- steady (let _ := _ in _) => cbv zeta
  | |- steady (match ?x with _ => _ end) => destruct x
  | |- steady ((match ?x with _ => _ end) _) => destruct x
  | |- steady ?p => unfold_head p
  end].
