(* ===== verification/Demo.v ===== *)
(** * Demo: a small concrete database

    The states at which the library's theorems are exhibited: one user with a
    heartbeat monitor (every 15 minutes, 5 minutes of grace), an http monitor
    and an environment without faults whose clock advances a second per
    action. *)
From S2P Require Import Prelude GoLib Models Extern Store Logic.
Local Open Scope Z_scope.

Definition demo_t0 : Time := 1750000000 * Second.

Definition demo_env : Env :=
  mkEnv (fun _ => FNone) (fun n => demo_t0 + Z.of_nat n * Second) (fun n => N.of_nat (1000 + n))
    (fun n i => ascii_of_nat (n + i)).

(** An environment whose action number [k] fails with [f]. *)
Definition faulty_env (k : nat) (f : Fault) : Env :=
  mkEnv (fun n => if Nat.eqb n k then f else FNone) (env_clock demo_env) (env_uuid demo_env)
    (env_rand demo_env).

Definition demo_user : User := mkUser 10 "ops@example.com" "hash" demo_t0 demo_t0.

Definition demo_heartbeat (state : string) (deadline : option Time) : Monitor :=
  mkMonitor 1 10 "heartbeat" "backup" "Nightly backup" (Some "period") (Some 900) None "UTC" (Some 300)
    None None None None None "{}" state 0 None deadline None false None demo_t0 demo_t0 true 86400 None.

Definition demo_http (state : string) (streak : Z) : Monitor :=
  mkMonitor 2 10 "http" "site" "Site" None None None "UTC" None (Some "https://example.com")
    (Some "GET") (Some 60) (Some 10) (Some 2) "{}" state streak None None (Some demo_t0) false None
    demo_t0 demo_t0 true 86400 None.

Definition demo_seqs : Seqs := mkSeqs 0 0 0 0.

Definition demo_tables (ms : list Monitor) : Tables :=
  mkTables {[ 10%N := demo_user ]} ∅ (list_to_map ((fun m => (m_id m, m)) <$> ms)) [] [] [] [] ∅ ∅.

Definition demo_world (env : Env) (ms : list Monitor) : World :=
  mkWorld (demo_tables ms) demo_seqs 0 None env.

Lemma demo_no_faults t s o : no_faults (mkWorld t s 0 o demo_env).
Proof. by intros n _. Qed.

Lemma demo_lookup ms id m : t_monitors (demo_tables ms) !! id = Some m -> m_id m = id /\ m ∈ ms.
Proof.
  intros Hm%elem_of_list_to_map_2. apply list_elem_of_fmap in Hm as (m' & E & Hin). by simplify_eq.
Qed.
