(* ===== verification/Schedule.v ===== *)
(** * Schedule: period, cron and grace arithmetic (package schedule)

    [Config] is schedule.Config; [Validate] is schedule/errors.go,
    [NextOccurrence] and [NextDeadline] schedule/schedule.go, [Describe] and
    its helpers schedule/describe.go.  The tz database and the cron parser are
    the [Extern] operations. *)
From S2P Require Import Prelude GoLib Models Extern.
Local Open Scope Z_scope.

(** [Kind] is a Go string type: any value can arrive, two are valid. *)
Definition KindPeriod : string := "period".
Definition KindCron : string := "cron".

Definition MinPeriod : Duration := Minute.
Definition MaxPeriod : Duration := 365 * 24 * Hour.
Definition MinGrace : Duration := Minute.
Definition MaxGrace : Duration := 30 * 24 * Hour.

Record Config := mkConfig {
  cfg_Kind : string;
  cfg_Period : Duration;
  cfg_CronExpr : string;
  cfg_TZ : string;
  cfg_Grace : Duration
}.

Section schedule.
Context `{Extern}.

(** A panic of the parser becomes an error. *)
Definition safeParseCron (expr : string) : option string :=
  match cron_parse expr with
  | CronOk => None
  | CronErr m => Some m
  | CronPanic m => Some ("invalid cron expression: " +:+ m)
  end.

(** [cfg.Validate()]: [None] is the nil error. *)
Definition Validate (cfg : Config) : option error :=
  if String.eqb (cfg_TZ cfg) "" then Some (EValidation "tz" "timezone is required")
  else if negb (tz_known (cfg_TZ cfg)) then
    Some (EValidation "tz" ("unknown timezone " +:+ Quote (cfg_TZ cfg)))
  else if (cfg_Grace cfg <? MinGrace) || (MaxGrace <? cfg_Grace cfg) then
    Some (EValidation "grace_s" "must be between 1m0s and 720h0m0s")
  else if String.eqb (cfg_Kind cfg) KindPeriod then
    if negb (String.eqb (cfg_CronExpr cfg) "") then
      Some (EValidation "cron_expr" "must be empty for a period schedule")
    else if (cfg_Period cfg <? MinPeriod) || (MaxPeriod <? cfg_Period cfg) then
      Some (EValidation "period_s" "must be between 1m0s and 8760h0m0s")
    else None
  else if String.eqb (cfg_Kind cfg) KindCron then
    if negb (cfg_Period cfg =? 0) then
      Some (EValidation "period_s" "must be zero for a cron schedule")
    else if String.eqb (cfg_CronExpr cfg) "" then
      Some (EValidation "cron_expr" "cron expression is required")
    else if str_contains "=" (cfg_CronExpr cfg) then
      Some (EValidation "cron_expr" "must not contain a timezone prefix; set tz instead")
    else if negb (Nat.eqb (length (str_Fields (cfg_CronExpr cfg))) 5) then
      Some (EValidation "cron_expr" "expected a 5-field cron expression")
    else match safeParseCron (cfg_CronExpr cfg) with
         | Some m => Some (EValidation "cron_expr" m)
         | None => None
         end
  else Some (EValidation "schedule_kind" ("must be " +:+ Quote KindPeriod +:+ " or " +:+ Quote KindCron)).

Definition NextOccurrence (cfg : Config) (lastCheckin now : Time) : Res Time :=
  match Validate cfg with
  | Some e => Err e
  | None =>
      let from := if time_IsZero lastCheckin then now else lastCheckin in
      if String.eqb (cfg_Kind cfg) KindPeriod then Ok (time_Add from (cfg_Period cfg))
      else Ok (cron_next (cfg_CronExpr cfg) (cfg_TZ cfg) from)
  end.

Definition NextDeadline (cfg : Config) (lastCheckin now : Time) : Res Time :=
  match NextOccurrence cfg lastCheckin now with
  | Err e => Err e
  | Ok occ => Ok (time_Add occ (cfg_Grace cfg))
  end.

(** ** Describe *)

Definition describePeriod (d : Duration) : string :=
  if d =? 24 * Hour then "every day"
  else if Z.rem d (24 * Hour) =? 0 then "every " +:+ FormatInt (Z.quot d (24 * Hour)) +:+ " days"
  else if d =? Hour then "every hour"
  else if Z.rem d Hour =? 0 then "every " +:+ FormatInt (Z.quot d Hour) +:+ " hours"
  else if d =? Minute then "every minute"
  else "every " +:+ FormatInt (Z.quot d Minute) +:+ " minutes".

Definition isNumeric (s : string) : bool :=
  str_all (fun r => (48 <=? N_of_ascii r)%N && (N_of_ascii r <=? 57)%N) s && negb (String.eqb s "").

(** [h, _ := strconv.Atoi(s)] on digits: the value, or the largest int when out
    of range. *)
Definition Atoi_or_max (s : string) : Z := default 9223372036854775807 (Atoi s).

(** [None] is the index panic of a field list that is too short. *)
Definition describeCron (expr tz : string) : option string :=
  match str_Fields expr with
  | minute :: hour :: dom :: month :: dow :: _ =>
      if String.eqb dom "*" && String.eqb month "*" && String.eqb dow "*"
         && isNumeric minute && isNumeric hour
      then Some ("every day at " +:+ pad2 (Atoi_or_max hour) +:+ ":" +:+ pad2 (Atoi_or_max minute)
                 +:+ " (" +:+ tz +:+ ")")
      else Some ("on schedule " +:+ Quote expr +:+ " (" +:+ tz +:+ ")")
  | _ => None
  end.

Definition describeDuration (d : Duration) : string :=
  if (Z.rem d (24 * Hour) =? 0) && (24 * Hour <=? d) then
    let days := Z.quot d (24 * Hour) in
    if days =? 1 then "1 day" else FormatInt days +:+ " days"
  else if (Z.rem d Hour =? 0) && (Hour <=? d) then
    let hours := Z.quot d Hour in
    if hours =? 1 then "1 hour" else FormatInt hours +:+ " hours"
  else FormatInt (Z.quot d Minute) +:+ " min".

(** The panic [describeCron] could raise is kept apart from the errors. *)
Definition Describe (cfg : Config) : option (Res string) :=
  match Validate cfg with
  | Some e => Some (Err e)
  | None =>
      schedulePart ← (if String.eqb (cfg_Kind cfg) KindPeriod then Some (describePeriod (cfg_Period cfg))
                      else describeCron (cfg_CronExpr cfg) (cfg_TZ cfg));
      Some (Ok (schedulePart +:+ "; alert if " +:+ describeDuration (cfg_Grace cfg) +:+ " late"))
  end.

(** ** What a valid configuration is *)

Definition valid_tz (tz : string) : Prop := tz <> "" /\ tz_known tz = true.

Definition valid_kind (cfg : Config) : Prop :=
  (cfg_Kind cfg = KindPeriod /\ cfg_CronExpr cfg = "" /\ MinPeriod <= cfg_Period cfg <= MaxPeriod) \/
  (cfg_Kind cfg = KindCron /\ cfg_Period cfg = 0 /\ str_contains "=" (cfg_CronExpr cfg) = false /\
   length (str_Fields (cfg_CronExpr cfg)) = 5%nat /\ cron_parse (cfg_CronExpr cfg) = CronOk).

Definition valid_config (cfg : Config) : Prop :=
  valid_tz (cfg_TZ cfg) /\ MinGrace <= cfg_Grace cfg <= MaxGrace /\ valid_kind cfg.

(** ** Lemmas *)

Lemma valid_config_Validate cfg : valid_config cfg -> Validate cfg = None.
Proof.
  intros ([Htz Hk] & Hg & Hkind). unfold Validate.
  apply String.eqb_neq in Htz. rewrite Htz, Hk. simpl.
  replace ((cfg_Grace cfg <? MinGrace) || (MaxGrace <? cfg_Grace cfg)) with false by (symmetry; lia).
  destruct Hkind as [(-> & -> & Hp)|(-> & -> & Heq & Hlen & Hc)]; simpl.
  - by replace ((cfg_Period cfg <? MinPeriod) || (MaxPeriod <? cfg_Period cfg)) with false by (symmetry; lia).
  - destruct (String.eqb_spec (cfg_CronExpr cfg) "") as [E|_]; [by rewrite E in Hlen|].
    rewrite Heq, Hlen. simpl. unfold safeParseCron. by rewrite Hc.
Qed.

Lemma Validate_valid_config cfg : Validate cfg = None -> valid_config cfg.
Proof.
  unfold Validate. repeat (case_match; try discriminate). all: intros _.
  all: rewrite ?negb_true_iff, ?negb_false_iff, ?orb_false_iff, ?String.eqb_eq, ?String.eqb_neq,
    ?Z.ltb_ge, ?Nat.eqb_eq, ?Z.eqb_eq in *; destruct_and?.
  all: unfold safeParseCron in *; repeat (case_match; try discriminate).
  all: unfold valid_config, valid_tz, valid_kind; naive_solver lia.
Qed.

Lemma NextOccurrence_valid cfg last now t : NextOccurrence cfg last now = Ok t -> valid_config cfg.
Proof. unfold NextOccurrence. destruct (Validate cfg) eqn:E; [done|]. intros _. by apply Validate_valid_config. Qed.

(** *** Reading a description back *)

(** The length of time a description of a period names. *)
Definition read_period (s : string) : option Duration :=
  rest ← cut_prefix "every " s;
  if String.eqb rest "day" then Some (24 * Hour)
  else if String.eqb rest "hour" then Some Hour
  else if String.eqb rest "minute" then Some Minute
  else '(n, unit) ← split_space rest;
       k ← Atoi n;
       if String.eqb unit "days" then Some (k * (24 * Hour))
       else if String.eqb unit "hours" then Some (k * Hour)
       else if String.eqb unit "minutes" then Some (k * Minute)
       else None.

Lemma read_period_units n unit u :
  0 < n <= 9223372036854775807 ->
  (unit = "days" /\ u = 24 * Hour \/ unit = "hours" /\ u = Hour \/ unit = "minutes" /\ u = Minute) ->
  read_period ("every " +:+ FormatInt n +:+ String " " unit) = Some (n * u).
Proof.
  intros Hn Hu. unfold read_period.
  change (cut_prefix "every " ("every " +:+ ?s)) with (Some s). simpl.
  rewrite (split_space_app (FormatInt n) unit) by apply FormatInt_no_space.
  assert (Hne : forall w, no_space w = true -> String.eqb (FormatInt n +:+ String " " unit) w = false).
  { intros w Hw%split_space_None. apply String.eqb_neq. intros <-.
    by rewrite split_space_app in Hw by apply FormatInt_no_space. }
  rewrite !Hne by done. unfold Atoi. simpl. rewrite ParseInt_FormatInt by (unfold is_int64; lia). simpl.
  destruct Hu as [[-> ->]|[[-> ->]|[-> ->]]]; done.
Qed.
End schedule.

(** ** Properties *)

Section properties.
Context `{Extern}.

(** A configuration passes Validate exactly when it has a known time zone,
    a grace period of 1 minute to 30 days, and is either a period schedule of
    1 minute to 365 days without a cron expression or a cron schedule without
    a period whose 5-field expression, free of a TZ= prefix, parses. *)
Lemma Validate_iff cfg : Validate cfg = None <-> valid_config cfg.
Proof. split; [apply Validate_valid_config | apply valid_config_Validate]. Qed.

(** C37. The deadline of a check-in: NextDeadline succeeds exactly on valid
    configurations; for a period schedule it is the last check-in (or now, if
    there is none) plus period plus grace, at least 2 minutes and at most 395
    days away; for a cron schedule it is the next activation plus the grace
    period. *)
Theorem NextDeadline_spec cfg last now :
  match NextDeadline cfg last now with
  | Ok d =>
      valid_config cfg /\
      let from := if time_IsZero last then now else last in
      (cfg_Kind cfg = KindPeriod /\ d = from + cfg_Period cfg + cfg_Grace cfg /\
         2 * Minute <= d - from <= 395 * Day \/
       cfg_Kind cfg = KindCron /\ d = cron_next (cfg_CronExpr cfg) (cfg_TZ cfg) from + cfg_Grace cfg)
  | Err e => ~ valid_config cfg /\ Validate cfg = Some e
  end.
Proof.
  unfold NextDeadline, NextOccurrence. destruct (Validate cfg) as [e|] eqn:E.
  - split; [|done]. intros Hv%valid_config_Validate. congruence.
  - apply Validate_valid_config in E. destruct E as (Htz & Hg & Hk).
    unfold MinGrace, MaxGrace, MinPeriod, MaxPeriod, valid_kind, time_Add in *.
    destruct (String.eqb_spec (cfg_Kind cfg) KindPeriod) as [Ek|Ek]; (split; [done|]); cbv zeta.
    + left. destruct Hk as [(_ & _ & Hp)|(Hk & _)]; [|by rewrite Hk in Ek].
      unfold MinPeriod, MaxPeriod, Day, Hour, Minute, Second in *. split_and!; [done|lia..].
    + right. destruct Hk as [(Hk & _)|(Hk & _)]; done.
Qed.

(** Describe never indexes out of range: on every configuration it returns
    a sentence, when the configuration is valid, or Validate's error. *)
Lemma Describe_total cfg :
  exists r, Describe cfg = Some r /\ (is_ok r = true <-> valid_config cfg).
Proof.
  unfold Describe. destruct (Validate cfg) as [e|] eqn:E.
  { eexists; split; [done|]. split; [done|]. intros Hv%valid_config_Validate. congruence. }
  pose proof (Validate_valid_config _ E) as Hv.
  destruct (String.eqb_spec (cfg_Kind cfg) KindPeriod) as [Ek|Ek]; simpl; [by eexists|].
  assert (Hlen : length (str_Fields (cfg_CronExpr cfg)) = 5%nat).
  { destruct Hv as (_ & _ & [(? & _)|(_ & _ & _ & Hlen & _)]); done. } unfold describeCron.
  destruct (str_Fields (cfg_CronExpr cfg)) as [|f1 [|f2 [|f3 [|f4 [|f5 []]]]]]; try discriminate Hlen.
  case_match; eexists; (split; [done|]); split; done.
Qed.

(** The live preview names the period exactly when it is a whole number of
    minutes: reading the text of a valid period back gives the period, so two
    different whole-minute periods never share a text. *)
Lemma describePeriod_faithful d :
  MinPeriod <= d <= MaxPeriod ->
  (read_period (describePeriod d) = Some d <-> Z.rem d Minute = 0).
Proof.
  unfold MinPeriod, MaxPeriod. intros Hd. unfold describePeriod.
  destruct (Z.eqb_spec d (24 * Hour)) as [->|N1]; [done|].
  rewrite !Z.rem_mod_nonneg, !Z.quot_div_nonneg by (unfold Hour, Minute, Second in *; lia).
  destruct (Z.eqb_spec (d mod (24 * Hour)) 0) as [E2|N2].
  { rewrite (read_period_units _ "days" (24 * Hour));
    [|unfold Hour, Minute, Second in *; Z.to_euclidean_division_equations; lia|naive_solver].
    unfold Hour, Minute, Second in *. split; intros; [|f_equal]; Z.to_euclidean_division_equations; lia. }
  destruct (Z.eqb_spec d Hour) as [->|N3]; [done|].
  destruct (Z.eqb_spec (d mod Hour) 0) as [E4|N4].
  { rewrite (read_period_units _ "hours" Hour);
    [|unfold Hour, Minute, Second in *; Z.to_euclidean_division_equations; lia|naive_solver].
    unfold Hour, Minute, Second in *. split; intros; [|f_equal]; Z.to_euclidean_division_equations; lia. }
  destruct (Z.eqb_spec d Minute) as [->|N5]; [done|].
  rewrite (read_period_units _ "minutes" Minute);
    [|unfold Hour, Minute, Second in *; Z.to_euclidean_division_equations; lia|naive_solver].
  unfold Hour, Minute, Second in *.
  split; intros Hr; [injection Hr as Hr|f_equal]; Z.to_euclidean_division_equations; lia.
Qed.

Lemma describePeriod_faithful_witness :
  MinPeriod <= 15 * Minute <= MaxPeriod /\ read_period (describePeriod (15 * Minute)) = Some (15 * Minute).
Proof.
  split; [by vm_compute|]. apply (describePeriod_faithful (15 * Minute)); by vm_compute.
Defined.
End properties.

Example describePeriod_90s : describePeriod (90 * Second) = "every 1 minutes".
Proof. vm_compute. reflexivity. Qed.
