(* ===== verification/Convert.v ===== *)
(** * Convert: the store's domain types and their conversions

    store/convert.go and the conversion helpers of store/monitor.go,
    store/checkin.go and store/prober.go.  pgtype's [Valid] flag and Go's nil
    pointer are both [None]. *)
From S2P Require Import Prelude GoLib NetAddr Models Extern.
Local Open Scope Z_scope.

Definition textOrNull (s : string) : option string := if String.eqb s "" then None else Some s.

(** [t.String] of a pgtype.Text: the empty string when NULL. *)
Definition text_String (t : option string) : string := default "" t.

Definition parseSourceIP (ip : string) : option Addr :=
  if String.eqb ip "" then None else ParseAddr ip.

(** store.Monitor *)
Record store_Monitor := mk_store_Monitor {
  sm_ID : string;
  sm_UserID : string;
  sm_Kind : string;
  sm_Slug : string;
  sm_Name : string;
  sm_ScheduleKind : string;
  sm_PeriodS : option Z;
  sm_CronExpr : string;
  sm_TZ : string;
  sm_GraceS : option Z;
  sm_URL : string;
  sm_Method : string;
  sm_IntervalS : option Z;
  sm_TimeoutS : option Z;
  sm_FailThreshold : option Z;
  sm_HTTPConfig : string;
  sm_State : string;
  sm_DisplayState : string;
  sm_FailStreak : Z;
  sm_LastCheckinAt : option Time;
  sm_NextDeadline : option Time;
  sm_NextProbeAt : option Time;
  sm_AlertsMuted : bool;
  sm_AutoResume : bool;
  sm_PausedAt : option Time;
  sm_TLSWarnedExpiresAt : option Time;
  sm_CreatedAt : Time;
  sm_UpdatedAt : Time
}.

Section convert.
Context `{Extern}.

Definition pgUUID (s : string) : Res UUID :=
  match uuid_scan s with
  | Some u => Ok u
  | None => Err (EWrap ("store: parse uuid " +:+ Quote s) (EMsg "cannot scan into UUID"))
  end.

(** "" is no filter. *)
Definition optionalUUID (s : string) : Res (option UUID) :=
  if String.eqb s "" then Ok None
  else match pgUUID s with Ok u => Ok (Some u) | Err e => Err e end.

Definition toMonitor (row : Monitor) : store_Monitor :=
  mk_store_Monitor (uuid_string (m_id row)) (uuid_string (m_user_id row)) (m_kind row) (m_slug row)
    (m_name row) (text_String (m_schedule_kind row)) (m_period_s row) (text_String (m_cron_expr row))
    (m_tz row) (m_grace_s row) (text_String (m_url row)) (text_String (m_method row))
    (m_interval_s row) (m_timeout_s row) (m_fail_threshold row) (m_http_config row) (m_state row)
    (if bool_decide (is_Some (m_paused_at row)) then "paused" else m_state row)
    (m_fail_streak row) (m_last_checkin_at row) (m_next_deadline row) (m_next_probe_at row)
    (m_alerts_muted row) (m_auto_resume row) (m_paused_at row) (m_tls_warned_expires_at row)
    (m_created_at row) (m_updated_at row).

(** [parseMonitorIDs]: a malformed id cannot name an owned monitor. *)
Definition parseMonitorIDs (id callerUserID : string) : Res (UUID * UUID) :=
  match pgUUID id, pgUUID callerUserID with
  | Ok i, Ok u => Ok (i, u)
  | _, _ => Err (newHTTPError (ESentinel ErrNotFound) 404)
  end.
End convert.

Lemma pgUUID_string `{ExternLaws} u : pgUUID (uuid_string u) = Ok u.
Proof. unfold pgUUID. by rewrite uuid_scan_string. Qed.
