(* ===== verification/Checkin.v ===== *)
(** * Checkin: the ingest path (store/checkin.go) and its helpers

    [RecordCheckin] applies one ping in one transaction; [recordEvent],
    [recordEventMeta] and [recordTransition] are the writers of the timeline
    and of the alert outbox that the scheduler, the prober and the monitor
    operations share; [nextDeadlineFor] arms a heartbeat monitor. *)
From S2P Require Import Prelude GoLib NetAddr Models Extern Store Queries Logic Demo Schedule Convert.
Local Open Scope Z_scope.
Local Open Scope ping_scope.

(** ** The timeline and the outbox *)

Definition alertChannelDefault : string := "default".

Definition recordEventMeta (monitorID : UUID) (eventType message : string) (meta : option EventMeta)
    : Prog Event :=
  wrap "store: insert event" (stmt (db_InsertEvent monitorID eventType message meta)).

Definition recordEvent (monitorID : UUID) (eventType message : string) : Prog Event :=
  recordEventMeta monitorID eventType message None.

Definition recordTransition (monitorID : UUID) (eventType message : string) : Prog unit :=
  let! event := recordEvent monitorID eventType message in
  let! _ := wrap "store: insert alert"
              (stmt (db_InsertAlert monitorID (e_id event) alertChannelDefault)) in
  ret tt.

(** ** RecordCheckin *)

Definition CheckinSuccess : string := "success".
Definition CheckinStart : string := "start".
Definition CheckinFail : string := "fail".

Record RecordCheckinParams := mkRecordCheckinParams {
  rcp_Slug : string;
  rcp_Kind : string;
  rcp_SourceIP : string;
  rcp_UserAgent : string;
  rcp_Body : string;
  rcp_Now : Time
}.

Record RecordCheckinResult := mkRecordCheckinResult {
  rcr_MonitorID : string;
  rcr_State : string;
  rcr_Transition : string;
  rcr_NextDeadline : option Time
}.

Section checkin.
Context `{Extern}.

Definition scheduleConfig (m : Monitor) : Config :=
  mkConfig (default "" (m_schedule_kind m))
    (match m_period_s m with Some p => seconds p | None => 0 end)
    (default "" (m_cron_expr m))
    (m_tz m)
    (match m_grace_s m with Some g => seconds g | None => 0 end).

Definition nextDeadlineFor (m : Monitor) (now : Time) : Res (option Time) :=
  if negb (String.eqb (m_kind m) "heartbeat") || negb (bool_decide (is_Some (m_schedule_kind m)))
  then Ok None
  else match NextOccurrence (scheduleConfig m) now now with
       | Ok occurrence => Ok (Some occurrence)
       | Err e => Err (EWrap "store: recompute deadline" e)
       end.

Definition applySuccess (m : Monitor) (now : Time) (result : RecordCheckinResult)
    : Prog RecordCheckinResult :=
  let! nextDeadline := lift_res (nextDeadlineFor m now) in
  let! _ := wrap "store: update monitor on success"
              (stmt (db_UpdateMonitorOnCheckin
                 (mkUpdateMonitorOnCheckinParams "up" (Some now) nextDeadline 0 (m_id m)))) in
  if String.eqb (m_state m) "down" then
    let! _ := recordTransition (m_id m) "up" "Monitor recovered" in
    ret (mkRecordCheckinResult (rcr_MonitorID result) "up" "up" nextDeadline)
  else ret (mkRecordCheckinResult (rcr_MonitorID result) "up" (rcr_Transition result) nextDeadline).

Definition applyFail (m : Monitor) (now : Time) (result : RecordCheckinResult)
    : Prog RecordCheckinResult :=
  let! _ := wrap "store: update monitor on fail"
              (stmt (db_UpdateMonitorOnCheckin
                 (mkUpdateMonitorOnCheckinParams "down" (Some now) None
                    (wrap32 (m_fail_streak m + 1)) (m_id m)))) in
  if negb (String.eqb (m_state m) "down") then
    let! _ := recordTransition (m_id m) "down" "Monitor reported failure" in
    ret (mkRecordCheckinResult (rcr_MonitorID result) "down" "down" (rcr_NextDeadline result))
  else ret (mkRecordCheckinResult (rcr_MonitorID result) "down" (rcr_Transition result)
              (rcr_NextDeadline result)).

Definition RecordCheckin (p : RecordCheckinParams) : Prog RecordCheckinResult :=
  withTx (
    let! m := on_err (fun err => if error_is_no_rows err then ESentinel ErrNotFound
                                 else EWrap "store: lookup monitor by slug" err)
                (stmt (db_GetMonitorBySlugForUpdate (rcp_Slug p))) in
    let! _ := wrap "store: insert checkin"
                (stmt (db_InsertCheckin (mkInsertCheckinParams (m_id m) (rcp_Kind p)
                   (parseSourceIP (rcp_SourceIP p)) (textOrNull (rcp_UserAgent p))
                   (textOrNull (rcp_Body p))))) in
    let result := mkRecordCheckinResult (uuid_string (m_id m)) (m_state m) "" None in
    if String.eqb (rcp_Kind p) CheckinStart then ret result
    else if String.eqb (rcp_Kind p) CheckinSuccess then applySuccess m (rcp_Now p) result
    else if String.eqb (rcp_Kind p) CheckinFail then applyFail m (rcp_Now p) result
    else throw (EMsg ("store: unknown checkin kind " +:+ Quote (rcp_Kind p)))).
End checkin.

(** ** Lemmas *)

(** The outbox pair of a transition: the event and its pending alert. *)
Definition transition_event (s : Seqs) (mid : UUID) (type message : string) (now : Time) : Event :=
  mkEvent (s_events s + 1) mid type message MetaEmpty now.

Definition transition_alert (s : Seqs) (mid : UUID) (now : Time) : Alert :=
  new_alert (s_alerts s + 1) mid (s_events s + 1) alertChannelDefault now false.

Definition emit_event (mid : UUID) (type message : string) (now : Time) (d : DB) : DB :=
  (set_events (t_events d.1 ++ [transition_event d.2 mid type message now]) d.1,
   mkSeqs (s_checkins d.2) (s_probe_results d.2) (s_events d.2 + 1) (s_alerts d.2)).

Definition emit_transition (mid : UUID) (type message : string) (now : Time) (d : DB) : DB :=
  (set_alerts (t_alerts d.1 ++ [transition_alert d.2 mid now])
     (set_events (t_events d.1 ++ [transition_event d.2 mid type message now]) d.1),
   mkSeqs (s_checkins d.2) (s_probe_results d.2) (s_events d.2 + 1) (s_alerts d.2 + 1)).

Lemma run_recordEventMeta mid type message meta now w :
  in_tx now w -> is_Some (t_monitors (w_tables w) !! mid) ->
  exists e, run (recordEventMeta mid type message meta) w
            = (Ok e, tick (set_db (set_events (t_events (w_tables w) ++ [e]) (w_tables w))
                             (mkSeqs (s_checkins (w_seqs w)) (s_probe_results (w_seqs w))
                                (s_events (w_seqs w) + 1) (s_alerts (w_seqs w))) w)) /\
            e = mkEvent (s_events (w_seqs w) + 1) mid type message (default MetaEmpty meta) now.
Proof.
  intros Hw Hm. eexists; split; [|done]. unfold recordEventMeta. rewrite run_wrap, (in_tx_stmt _ now) by done.
  unfold db_InsertEvent, w_db. by rewrite bool_decide_true by done.
Qed.

Lemma run_recordEvent mid type message now w :
  in_tx now w -> is_Some (t_monitors (w_tables w) !! mid) ->
  run (recordEvent mid type message) w
  = (Ok (transition_event (w_seqs w) mid type message now),
     tick (set_w_db (emit_event mid type message now (w_db w)) w)).
Proof.
  intros Hw Hm. unfold recordEvent.
  by destruct (run_recordEventMeta mid type message None now w) as (e & Hr & ->).
Qed.

Lemma run_recordTransition mid type message now w :
  in_tx now w -> is_Some (t_monitors (w_tables w) !! mid) ->
  run (recordTransition mid type message) w
  = (Ok tt, tick (tick (set_w_db (emit_transition mid type message now (w_db w)) w))).
Proof.
  intros Hw Hm. unfold recordTransition. rewrite run_bind, (run_recordEvent _ _ _ now) by done.
  rewrite run_bind, run_wrap, (in_tx_stmt _ now) by auto with ping.
  unfold db_InsertAlert. cbn. rewrite bool_decide_true by done.
  rewrite existsb_app. cbn. by rewrite Z.eqb_refl, orb_true_r.
Qed.

(** ** The heartbeat machine RecordCheckin implements *)

(** What a check-in may change of a monitor. *)
Record Heartbeat := mkHeartbeat {
  hb_state : string;
  hb_fail_streak : Z;
  hb_last_checkin : option Time;
  hb_deadline : option Time;
  hb_paused : option Time
}.

Definition heartbeat (m : Monitor) : Heartbeat :=
  mkHeartbeat (m_state m) (m_fail_streak m) (m_last_checkin_at m) (m_next_deadline m) (m_paused_at m).

(** The columns no check-in touches. *)
Definition same_config (m m' : Monitor) : Prop :=
  with_updated_at 0 (with_paused_at None (with_fail_streak 0 (with_next_deadline None
    (with_last_checkin_at None (with_state "" m))))) =
  with_updated_at 0 (with_paused_at None (with_fail_streak 0 (with_next_deadline None
    (with_last_checkin_at None (with_state "" m'))))).

(** One ping, and the transition it makes, if any. *)
Definition heartbeat_step (kind : string) (now : Time) (auto_resume : bool) (deadline : option Time)
    (h : Heartbeat) : Heartbeat * option string :=
  let paused := if auto_resume then None else hb_paused h in
  if String.eqb kind "success" then
    (mkHeartbeat "up" 0 (Some now) deadline paused,
     if String.eqb (hb_state h) "down" then Some "up" else None)
  else if String.eqb kind "fail" then
    (mkHeartbeat "down" (wrap32 (hb_fail_streak h + 1)) (Some now) None paused,
     if String.eqb (hb_state h) "down" then None else Some "down")
  else (h, None).

(** A transition appends one event of its type and one pending alert for it;
    no transition appends nothing. *)
Definition transition_written (mid : UUID) (transition : option string) (t t' : Tables) : Prop :=
  match transition with
  | None => t_events t' = t_events t /\ t_alerts t' = t_alerts t
  | Some ty => exists e a,
      t_events t' = t_events t ++ [e] /\ t_alerts t' = t_alerts t ++ [a] /\
      e_type e = ty /\ e_monitor_id e = mid /\ a_event_id a = e_id e /\ a_monitor_id a = mid /\
      a_status a = "pending" /\ a_attempts a = 0 /\ a_is_reminder a = false
  end.

Definition checkin_recorded (p : RecordCheckinParams) (mid : UUID) (t t' : Tables) : Prop :=
  exists c, t_checkins t' = t_checkins t ++ [c] /\ c_monitor_id c = mid /\ c_kind c = rcp_Kind p /\
    c_source_ip c = parseSourceIP (rcp_SourceIP p) /\ c_user_agent c = textOrNull (rcp_UserAgent p) /\
    c_body c = textOrNull (rcp_Body p).

(** The rows of a table are stored under their own id. *)
Definition keyed_monitors (t : Tables) : Prop :=
  forall id m, t_monitors t !! id = Some m -> m_id m = id.

Lemma monitor_by_slug_Some t slug m :
  keyed_monitors t -> monitor_by_slug slug t = Some m ->
  t_monitors t !! m_id m = Some m /\ m_slug m = slug.
Proof.
  intros Hk Hf. apply find_some in Hf as [Hin Hs]. apply String.eqb_eq in Hs. split; [|done].
  apply list_elem_of_In, list_elem_of_fmap in Hin as ([id m'] & -> & Hin).
  apply elem_of_map_to_list in Hin. simpl in *. by rewrite (Hk _ _ Hin).
Qed.

(** The tables a check-in never touches. *)
Definition other_tables_same (t t' : Tables) : Prop :=
  t_users t' = t_users t /\ t_api_keys t' = t_api_keys t /\ t_probe_results t' = t_probe_results t /\
  t_daily_stats t' = t_daily_stats t /\ t_refresh_tokens t' = t_refresh_tokens t.

Section checkin_facts.
Context `{Extern}.

Definition known_kind (k : string) : Prop := k = CheckinSuccess \/ k = CheckinStart \/ k = CheckinFail.

(** What a check-in of monitor [m] leaves behind. *)
Definition checkin_outcome (p : RecordCheckinParams) (m : Monitor) (r : Res RecordCheckinResult)
    (t t' : Tables) : Prop :=
  exists deadline m' transition,
    (rcp_Kind p = CheckinSuccess -> nextDeadlineFor m (rcp_Now p) = Ok deadline) /\
    heartbeat_step (rcp_Kind p) (rcp_Now p) (m_auto_resume m) deadline (heartbeat m)
      = (heartbeat m', transition) /\
    same_config m m' /\
    r = Ok (mkRecordCheckinResult (uuid_string (m_id m)) (m_state m') (default "" transition)
              (if String.eqb (rcp_Kind p) CheckinSuccess then deadline else None)) /\
    checkin_recorded p (m_id m) t t' /\
    t_monitors t' = <[m_id m := m']> (t_monitors t) /\
    transition_written (m_id m) transition t t' /\ other_tables_same t t'.

(** The row [db_UpdateMonitorOnCheckin] writes. *)
Definition checkin_row (now : Time) (a : UpdateMonitorOnCheckinParams) (m : Monitor) : Monitor :=
  with_updated_at now
    (with_paused_at (if m_auto_resume m then None else m_paused_at m)
      (with_fail_streak (uc_fail_streak a)
        (with_next_deadline (uc_next_deadline a)
          (with_last_checkin_at (uc_last_checkin_at a) (with_state (uc_state a) m))))).

Lemma run_update_checkin c a now w m :
  in_tx now w -> t_monitors (w_tables w) !! uc_id a = Some m ->
  run (wrap c (stmt (db_UpdateMonitorOnCheckin a))) w
  = (Ok tt, tick (set_w_db (put_monitor (checkin_row now a m) (w_tables w), w_seqs w) w)).
Proof.
  intros Hw Hm. rewrite run_wrap, (in_tx_stmt _ now) by done.
  unfold db_UpdateMonitorOnCheckin, sql_update_monitor, w_db. cbn [fst snd]. by rewrite Hm.
Qed.

(** After the ping's row is in: success and failure. *)
Lemma run_applySuccess m now tx w res :
  in_tx tx w -> t_monitors (w_tables w) !! m_id m = Some m ->
  match nextDeadlineFor m now with
  | Err e => run (applySuccess m now res) w = (Err e, w)
  | Ok deadline => exists w' m' tr,
      in_tx tx w' /\
      run (applySuccess m now res) w
      = (Ok (mkRecordCheckinResult (rcr_MonitorID res) (m_state m')
               (default (rcr_Transition res) tr) deadline), w') /\
      heartbeat_step CheckinSuccess now (m_auto_resume m) deadline (heartbeat m) = (heartbeat m', tr) /\
      same_config m m' /\ t_monitors (w_tables w') = <[m_id m := m']> (t_monitors (w_tables w)) /\
      transition_written (m_id m) tr (w_tables w) (w_tables w') /\
      t_checkins (w_tables w') = t_checkins (w_tables w) /\
      other_tables_same (w_tables w) (w_tables w')
  end.
Proof.
  intros Hw Hm. unfold applySuccess. rewrite run_bind.
  destruct (nextDeadlineFor m now) as [dl|e]; [|done]. cbn [run lift_res].
  rewrite run_bind, (run_update_checkin _ _ tx _ m) by done.
  set (a := mkUpdateMonitorOnCheckinParams _ _ _ _ _).
  destruct (String.eqb (m_state m) "down") eqn:Es.
  - rewrite run_bind, (run_recordTransition _ _ _ tx); [|by auto with ping|].
    2:{ cbn. rewrite lookup_insert_eq. by eexists. }
    eexists; exists (checkin_row tx a m), (Some "up"). split; [|split; [done|]]; [by auto with ping|].
    unfold heartbeat_step. cbn. rewrite Es. split_and!; try done. by do 2 eexists.
  - eexists; exists (checkin_row tx a m), None. split; [|split; [done|]]; [by auto with ping|].
    unfold heartbeat_step. cbn. rewrite Es. done.
Qed.

Lemma run_applyFail m now tx w res dl :
  in_tx tx w -> t_monitors (w_tables w) !! m_id m = Some m ->
  exists w' m' tr,
    in_tx tx w' /\
    run (applyFail m now res) w
    = (Ok (mkRecordCheckinResult (rcr_MonitorID res) (m_state m')
             (default (rcr_Transition res) tr) (rcr_NextDeadline res)), w') /\
    heartbeat_step CheckinFail now (m_auto_resume m) dl (heartbeat m) = (heartbeat m', tr) /\
    same_config m m' /\ t_monitors (w_tables w') = <[m_id m := m']> (t_monitors (w_tables w)) /\
    transition_written (m_id m) tr (w_tables w) (w_tables w') /\
    t_checkins (w_tables w') = t_checkins (w_tables w) /\
    other_tables_same (w_tables w) (w_tables w').
Proof.
  intros Hw Hm. unfold applyFail.
  rewrite run_bind, (run_update_checkin _ _ tx _ m) by done.
  set (a := mkUpdateMonitorOnCheckinParams _ _ _ _ _).
  destruct (String.eqb (m_state m) "down") eqn:Es; cbn [negb].
  - eexists; exists (checkin_row tx a m), None. split; [|split; [done|]]; [by auto with ping|].
    unfold heartbeat_step. cbn. rewrite Es. done.
  - rewrite run_bind, (run_recordTransition _ _ _ tx); [|by auto with ping|].
    2:{ cbn. rewrite lookup_insert_eq. by eexists. }
    eexists; exists (checkin_row tx a m), (Some "down"). split; [|split; [done|]]; [by auto with ping|].
    unfold heartbeat_step. cbn. rewrite Es. split_and!; try done. by do 2 eexists.
Qed.

Lemma run_RecordCheckin w p :
  no_faults w -> keyed_monitors (w_tables w) -> known_kind (rcp_Kind p) ->
  exists r w', run (RecordCheckin p) w = (r, w') /\
  match monitor_by_slug (rcp_Slug p) (w_tables w) with
  | None => r = Err (ESentinel ErrNotFound) /\ w_tables w' = w_tables w
  | Some m =>
      (exists e, rcp_Kind p = CheckinSuccess /\ nextDeadlineFor m (rcp_Now p) = Err e /\
         r = Err e /\ w_tables w' = w_tables w) \/
      checkin_outcome p m r (w_tables w) (w_tables w')
  end.
Proof.
  intros Hf Hkeyed Hkind. pose proof (in_tx_start w Hf) as Hw0.
  set (now := cur_clock w) in *. unfold RecordCheckin. set (body := bind _ _).
  enough (Hbody : match monitor_by_slug (rcp_Slug p) (w_tables w) with
                  | None => exists w1, run body (tx_start w) = (Err (ESentinel ErrNotFound), w1)
                  | Some m =>
                      (exists e w1, rcp_Kind p = CheckinSuccess /\ nextDeadlineFor m (rcp_Now p) = Err e /\
                         run body (tx_start w) = (Err e, w1)) \/
                      exists r w1, run body (tx_start w) = (Ok r, w1) /\ in_tx now w1 /\
                        checkin_outcome p m (Ok r) (w_tables w) (w_tables w1)
                  end).
  { destruct (monitor_by_slug _ _) as [m|].
    - destruct Hbody as [(e & w1 & Hk & Hd & Hr)|(r & w1 & Hr & Hw1 & Ho)].
      + destruct (run_withTx_abort _ _ _ _ Hf Hr) as (w' & Hrun & Ht). naive_solver.
      + do 2 eexists. split; [by eapply run_withTx_commit|]. by right.
    - destruct Hbody as [w1 Hr]. destruct (run_withTx_abort _ _ _ _ Hf Hr) as (w' & Hrun & Ht). eauto. }
  unfold body. rewrite run_bind, run_on_err, (in_tx_stmt _ now) by done.
  unfold db_GetMonitorBySlugForUpdate, sql_one. cbn [fst w_db w_tables tx_start set_txnow tick].
  destruct (monitor_by_slug (rcp_Slug p) (w_tables w)) as [m|] eqn:Em; [|by eexists].
  apply monitor_by_slug_Some in Em as [Hm Hslug]; [|done]. set (w1 := tick _).
  assert (Hw1 : in_tx now w1) by (apply in_tx_step, in_tx_start, Hf).
  rewrite run_bind, run_wrap, (in_tx_stmt _ now) by done.
  unfold db_InsertCheckin, w_db. cbn [ic_kind ic_monitor_id w_tables w_seqs w1].
  replace (checkin_kind_check (rcp_Kind p)) with true by (destruct Hkind as [->|[->| ->]]; done). cbn [negb].
  rewrite bool_decide_true by (by eexists). set (c := mkCheckin _ _ _ _ _ _ _).
  set (w2 := tick _). assert (Hw2 : in_tx now w2) by (by apply in_tx_step).
  assert (Hrec : checkin_recorded p (m_id m) (w_tables w) (w_tables w2)) by (by eexists).
  destruct Hkind as [Hk|[Hk|Hk]]; rewrite Hk; cbn [String.eqb Ascii.eqb Bool.eqb].
  - pose proof (run_applySuccess m (rcp_Now p) now w2 (mkRecordCheckinResult (uuid_string (m_id m)) (m_state m) "" None) Hw2 Hm) as Hrun.
    destruct (nextDeadlineFor m (rcp_Now p)) as [dl|e] eqn:Ed; [right|left; eauto].
    destruct Hrun as (w3 & m' & tr & Hw3 & Hrun & Hstep & Hcfg & Hmon & Htr & Hci & Hoth).
    do 2 eexists. split; [exact Hrun|]. split; [done|]. exists dl, m', tr. rewrite Hk, Ed.
    unfold checkin_recorded in *. rewrite Hci. done.
  - right. do 2 eexists. split; [done|]. split; [done|]. exists None, m, None. rewrite Hk.
    split_and!; try done. cbn. by rewrite insert_id.
  - right. destruct (run_applyFail m (rcp_Now p) now w2 (mkRecordCheckinResult (uuid_string (m_id m)) (m_state m) "" None) None Hw2 Hm) as
      (w3 & m' & tr & Hw3 & Hrun & Hstep & Hcfg & Hmon & Htr & Hci & Hoth).
    do 2 eexists. split; [exact Hrun|]. split; [done|]. exists None, m', tr. rewrite Hk.
    unfold checkin_recorded in *. rewrite Hci. done.
Qed.

(** ** Properties *)

(** C6. What one ping does, when no action fails: an unknown slug is
    ErrNotFound and changes nothing; a success whose stored schedule no longer
    validates returns that error and changes nothing; otherwise exactly one
    check-in row is appended and the monitor moves as [heartbeat_step] says,
    with one event and one pending alert exactly when it crosses between down
    and not down.  No other row of any table changes. *)
Theorem RecordCheckin_spec w p :
  no_faults w -> keyed_monitors (w_tables w) -> known_kind (rcp_Kind p) ->
  exists r w', run (RecordCheckin p) w = (r, w') /\
  match monitor_by_slug (rcp_Slug p) (w_tables w) with
  | None => r = Err (ESentinel ErrNotFound) /\ w_tables w' = w_tables w
  | Some m =>
      (exists e, rcp_Kind p = CheckinSuccess /\ nextDeadlineFor m (rcp_Now p) = Err e /\
         r = Err e /\ w_tables w' = w_tables w) \/
      checkin_outcome p m r (w_tables w) (w_tables w')
  end.
Proof. apply run_RecordCheckin. Qed.

(** C21. A ping is atomic under every fault schedule, whatever statement or
    commit fails and wherever the connection is lost: either an error is
    reported and no table changed, or the check-in row, the new state, the
    event and the alert are all there, and the caller sees the result or a
    failed commit. *)
Theorem RecordCheckin_atomic w p r w' :
  keyed_monitors (w_tables w) -> known_kind (rcp_Kind p) ->
  run (RecordCheckin p) w = (r, w') ->
  (exists e, r = Err e /\ w_tables w' = w_tables w) \/
  (exists m res, monitor_by_slug (rcp_Slug p) (w_tables w) = Some m /\
     checkin_outcome p m (Ok res) (w_tables w) (w_tables w') /\
     (r = Ok res \/ r = Err (EWrap "store: commit tx" ELost))).
Proof.
  intros Hk Hkind Hr. unfold RecordCheckin in Hr. apply withTx_calm in Hr; [|solve_strict].
  destruct Hr as [?|(a & wc & Hc & Ht & _ & Hres)]; [by left|right].
  destruct (run_RecordCheckin (calm w) p (calm_no_faults w) Hk Hkind) as (r' & wc' & Hc' & Hcase).
  unfold RecordCheckin in Hc'. rewrite Hc' in Hc. injection Hc as -> ->. rewrite calm_db in Hcase.
  destruct (monitor_by_slug _ _) as [m|]; [|naive_solver].
  destruct Hcase as [(? & _ & _ & ? & _)|Ho]; [done|]. exists m, a. rewrite Ht. done.
Qed.

End checkin_facts.

(** ** The properties at a concrete state: the recovery of a down monitor *)

#[local] Existing Instance demo_extern.

Definition demo_ping : RecordCheckinParams :=
  mkRecordCheckinParams "backup" CheckinSuccess "203.0.113.5" "curl" "" (demo_t0 + Hour).

Definition demo_down : Monitor := demo_heartbeat "down" None.

Lemma demo_keyed ms : keyed_monitors (demo_tables ms).
Proof. intros id m Hm. by apply demo_lookup in Hm as [? _]. Qed.

Lemma RecordCheckin_spec_witness :
  exists r w', run (RecordCheckin demo_ping) (demo_world demo_env [demo_down]) = (r, w') /\
    checkin_outcome demo_ping demo_down r (demo_tables [demo_down]) (w_tables w').
Proof.
  destruct (RecordCheckin_spec (demo_world demo_env [demo_down]) demo_ping) as (r & w' & Hr & Hm).
  - apply demo_no_faults.
  - apply demo_keyed.
  - by left.
  - exists r, w'. split; [exact Hr|].
    replace (monitor_by_slug _ _) with (Some demo_down) in Hm by (vm_compute; reflexivity).
    destruct Hm as [(e & _ & He & _)|Ho]; [vm_compute in He; discriminate He|exact Ho].
Defined.

(** The commit's acknowledgement is lost: the ping is in, the caller sees an error. *)
Lemma RecordCheckin_atomic_witness :
  let w := demo_world (faulty_env 6 FAfter) [demo_down] in
  fst (run (RecordCheckin demo_ping) w) = Err (EWrap "store: commit tx" ELost) /\
  (exists m res, monitor_by_slug "backup" (w_tables w) = Some m /\
     checkin_outcome demo_ping m (Ok res) (w_tables w) (w_tables (snd (run (RecordCheckin demo_ping) w)))).
Proof.
  intros w. split; [vm_compute; reflexivity|].
  destruct (run (RecordCheckin demo_ping) w) as [r w'] eqn:E.
  destruct (RecordCheckin_atomic w demo_ping r w') as [(e & _ & Ht)|(m & res & Hm & Ho & _)].
  - apply demo_keyed.
  - by left.
  - exact E.
  - exfalso. assert (Hw : w_tables w' = w_tables (snd (run (RecordCheckin demo_ping) w))) by (by rewrite E).
    rewrite Hw in Ht. apply (f_equal t_checkins) in Ht. vm_compute in Ht. discriminate Ht.
  - exists m, res. split; [exact Hm|exact Ho].
Defined.
