(* ===== verification/Scheduler.v ===== *)
(** * Scheduler: the deadline evaluator (store/scheduler.go)

    [EvaluateDueMonitors] is one tick: it claims the heartbeat monitors whose
    deadline has passed and moves each one step, up to late or late to down,
    in one transaction. *)
From S2P Require Import Prelude GoLib Models Store Queries Logic Demo Checkin.
Local Open Scope Z_scope.
Local Open Scope ping_scope.

Record EvalResult := mkEvalResult {
  er_Claimed : Z;
  er_ToLate : Z;
  er_ToDown : Z
}.

Definition evaluateOne (res : EvalResult) (m : Monitor) : Prog EvalResult :=
  match m_next_deadline m with
  | None => ret res
  | Some deadline =>
      if String.eqb (m_state m) "up" then
        let grace := seconds (default 0 (m_grace_s m)) in
        let downAt := time_Add deadline grace in
        let! _ := wrap "store: mark monitor late" (stmt (db_MarkMonitorLate (Some downAt) (m_id m))) in
        let! _ := recordEvent (m_id m) "late" "Monitor is late" in
        ret (mkEvalResult (er_Claimed res) (er_ToLate res + 1) (er_ToDown res))
      else if String.eqb (m_state m) "late" then
        let! _ := wrap "store: mark monitor down" (stmt (db_MarkMonitorDown (m_id m))) in
        let! _ := recordTransition (m_id m) "down" "Monitor missed its deadline" in
        ret (mkEvalResult (er_Claimed res) (er_ToLate res) (er_ToDown res + 1))
      else ret res
  end.

Definition EvaluateDueMonitors (now : Time) (limit : Z) : Prog EvalResult :=
  withTx (
    let! rows := wrap "store: claim due monitors" (stmt (db_ClaimDueMonitors now limit)) in
    for_range evaluateOne (mkEvalResult (Z.of_nat (length rows)) 0 0) rows).

(** ** What one tick does *)

(** The monitors a tick claims. *)
Definition claimed_monitors (now : Time) (limit : Z) (t : Tables) : list Monitor :=
  sql_limit limit (sort_by deadline_le (List.filter (is_due now) (monitor_rows t))).

(** The row a claimed monitor ends with. *)
Definition evaluated (txnow : Time) (m : Monitor) : Monitor :=
  if String.eqb (m_state m) "up"
  then with_updated_at txnow (with_next_deadline
         (Some (default 0 (m_next_deadline m) + seconds (default 0 (m_grace_s m)))) (with_state "late" m))
  else with_updated_at txnow (with_fail_streak (m_fail_streak m + 1)
         (with_next_deadline None (with_state "down" m))).

Definition evaluated_event (m : Monitor) : string :=
  if String.eqb (m_state m) "up" then "late" else "down".

Definition goes_down (m : Monitor) : bool := negb (String.eqb (m_state m) "up").

(** The rows a tick appends for a list of claimed monitors. *)
Definition events_written (ms : list Monitor) (es : list Event) : Prop :=
  Forall2 (fun m e => e_monitor_id e = m_id m /\ e_type e = evaluated_event m /\ e_meta e = MetaEmpty) ms es.

Definition alerts_written (txnow : Time) (ms : list Monitor) (es : list Event) (als : list Alert) : Prop :=
  Forall2 (fun me a => a_monitor_id a = m_id me.1 /\ a_event_id a = e_id me.2 /\ a_status a = "pending" /\
                       a_attempts a = 0 /\ a_next_attempt_at a = txnow /\ a_is_reminder a = false)
    (List.filter (fun me => goes_down me.1) (combine ms es)) als.

Definition tick_outcome (txnow : Time) (ms : list Monitor) (t t' : Tables) : Prop :=
  exists es als,
    t_events t' = t_events t ++ es /\ events_written ms es /\
    t_alerts t' = t_alerts t ++ als /\ alerts_written txnow ms es als /\
    t_monitors t' = foldl (fun mm m => <[m_id m := evaluated txnow m]> mm) (t_monitors t) ms /\
    t_checkins t' = t_checkins t /\ other_tables_same t t'.

Definition evaluable (m : Monitor) : Prop :=
  is_Some (m_next_deadline m) /\ (m_state m = "up" \/ m_state m = "late") /\
  m_fail_streak m < 2147483647.

Lemma one_written {A B} (R : A -> B -> Prop) a b : R a b -> Forall2 R [a] [b].
Proof. by repeat constructor. Qed.

Lemma run_evaluateOne now w m res :
  in_tx now w -> t_monitors (w_tables w) !! m_id m = Some m -> evaluable m ->
  exists w' e als,
    run (evaluateOne res m) w
    = (Ok (mkEvalResult (er_Claimed res)
             (er_ToLate res + if goes_down m then 0 else 1)
             (er_ToDown res + if goes_down m then 1 else 0)), w') /\
    in_tx now w' /\
    t_monitors (w_tables w') = <[m_id m := evaluated now m]> (t_monitors (w_tables w)) /\
    t_events (w_tables w') = t_events (w_tables w) ++ [e] /\ events_written [m] [e] /\
    t_alerts (w_tables w') = t_alerts (w_tables w) ++ als /\ alerts_written now [m] [e] als /\
    t_checkins (w_tables w') = t_checkins (w_tables w) /\ other_tables_same (w_tables w) (w_tables w').
Proof.
  intros Hw Hm ([d Hd] & Hst & Hfs). unfold evaluateOne, goes_down, evaluated, alerts_written, goes_down,
    events_written, evaluated_event.
  rewrite Hd. destruct Hst as [Hs|Hs].
  - rewrite Hs. cbn [String.eqb Ascii.eqb Bool.eqb negb].
    rewrite run_bind, run_wrap, (in_tx_stmt _ now) by done.
    unfold db_MarkMonitorLate, sql_update_monitor, w_db. cbn [fst snd]. rewrite Hm.
    rewrite run_bind, (run_recordEvent _ _ _ now); [|by auto with ping|].
    2:{ cbn. rewrite lookup_insert_eq. by eexists. }
    eexists. eexists. exists []. split; [cbn; by rewrite Z.add_0_r|]. split; [by auto with ping|]. cbn.
    rewrite app_nil_r, Hs. cbn. split_and!; try done; by apply Forall2_nil || by apply one_written; cbn; rewrite ?Hs.
  - rewrite Hs. cbn [String.eqb Ascii.eqb Bool.eqb negb].
    rewrite run_bind, run_wrap, (in_tx_stmt _ now) by done.
    unfold db_MarkMonitorDown, int4_succ, w_db. cbn [fst snd]. rewrite Hm.
    replace (m_fail_streak m <? 2147483647) with true by (symmetry; lia).
    rewrite run_bind, (run_recordTransition _ _ _ now); [|by auto with ping|].
    2:{ cbn. rewrite lookup_insert_eq. by eexists. }
    eexists. eexists. eexists. split; [cbn; by rewrite Z.add_0_r|]. split; [by auto with ping|]. cbn.
    rewrite Hs. cbn. split_and!; try done; apply one_written; cbn; by rewrite ?Hs.
Qed.

Lemma other_tables_same_trans t1 t2 t3 :
  other_tables_same t1 t2 -> other_tables_same t2 t3 -> other_tables_same t1 t3.
Proof. unfold other_tables_same. intuition congruence. Qed.

Lemma alerts_written_cons now m e als ms es als' :
  alerts_written now [m] [e] als -> alerts_written now ms es als' ->
  alerts_written now (m :: ms) (e :: es) (als ++ als').
Proof.
  unfold alerts_written. cbn [combine List.filter fst]. destruct (goes_down m).
  - intros H1 H2. apply Forall2_cons_inv_l in H1 as (a & l & Ha & Hl & ->).
    apply Forall2_nil_inv_l in Hl as ->. by constructor.
  - intros ->%Forall2_nil_inv_l. done.
Qed.

Lemma tick_outcome_cons now m ms e als t t1 t2 :
  t_monitors t1 = <[m_id m := evaluated now m]> (t_monitors t) ->
  t_events t1 = t_events t ++ [e] -> events_written [m] [e] ->
  t_alerts t1 = t_alerts t ++ als -> alerts_written now [m] [e] als ->
  t_checkins t1 = t_checkins t -> other_tables_same t t1 ->
  tick_outcome now ms t1 t2 -> tick_outcome now (m :: ms) t t2.
Proof.
  intros Hm He Hev Ha Hal Hc Ho (es & als' & He' & Hev' & Ha' & Hal' & Hm' & Hc' & Ho').
  exists (e :: es), (als ++ als'). rewrite He', Ha', He, Ha, Hm', Hm, Hc', Hc, <- !app_assoc.
  split_and!; try done.
  - constructor; [by inversion Hev|exact Hev'].
  - by apply alerts_written_cons.
  - by eapply other_tables_same_trans.
Qed.

(** The counts of a list of claimed monitors. *)
Definition count_late (ms : list Monitor) : Z := Z.of_nat (length (List.filter (fun m => negb (goes_down m)) ms)).
Definition count_down (ms : list Monitor) : Z := Z.of_nat (length (List.filter goes_down ms)).

Definition claimable (t : Tables) (m : Monitor) : Prop :=
  t_monitors t !! m_id m = Some m /\ evaluable m.

Lemma run_evaluate_all now ms w res :
  in_tx now w -> NoDup (m_id <$> ms) -> Forall (claimable (w_tables w)) ms ->
  exists w',
    run (for_range evaluateOne res ms) w
    = (Ok (mkEvalResult (er_Claimed res) (er_ToLate res + count_late ms) (er_ToDown res + count_down ms)), w') /\
    in_tx now w' /\ tick_outcome now ms (w_tables w) (w_tables w').
Proof.
  revert w res. induction ms as [|m ms IH]; intros w res Hw Hnd Hms; cbn [for_range].
  { exists w. cbn. rewrite !Z.add_0_r. destruct res. split_and!; try done.
    exists [], []. rewrite !app_nil_r. split_and!; try done; by apply Forall2_nil. }
  apply NoDup_cons in Hnd as [Hnin Hnd]. apply Forall_cons in Hms as [[Hm Hev] Hms].
  destruct (run_evaluateOne now w m res Hw Hm Hev) as
    (w1 & e & als & Hrun & Hw1 & Hmon & He & Hew & Ha & Haw & Hc & Ho).
  rewrite run_bind, Hrun.
  edestruct (IH w1) as (w2 & Hrun2 & Hw2 & Hout); [done|done| |].
  { apply Forall_forall. intros m' Hin. rewrite Forall_forall in Hms. destruct (Hms m' Hin) as [Hm' Hev'].
    split; [|done]. rewrite Hmon, lookup_insert_ne; [done|].
    intros Heq. apply Hnin. rewrite Heq. by apply list_elem_of_fmap_2. }
  exists w2. rewrite Hrun2. split; [|split; [done|by eapply tick_outcome_cons]].
  do 2 f_equal. unfold count_late, count_down. cbn [List.filter er_Claimed er_ToLate er_ToDown].
  destruct (goes_down m); cbn [negb length]; f_equal; lia.
Qed.

(** The claim returns stored rows, each once. *)
Lemma NoDup_monitor_ids t : keyed_monitors t -> NoDup (m_id <$> monitor_rows t).
Proof.
  intros Hk. unfold monitor_rows. rewrite <- list_fmap_compose.
  assert (He : (m_id ∘ snd) <$> map_to_list (t_monitors t) = (map_to_list (t_monitors t)).*1).
  { apply list_fmap_ext. intros i [id m] Hi. simpl. apply Hk. apply elem_of_map_to_list.
    by eapply list_elem_of_lookup_2. }
  rewrite He. apply NoDup_fst_map_to_list.
Qed.

Lemma elem_of_monitor_rows t m :
  keyed_monitors t -> m ∈ monitor_rows t <-> t_monitors t !! m_id m = Some m.
Proof.
  intros Hk. unfold monitor_rows. rewrite list_elem_of_fmap. split.
  - intros ([id m'] & -> & Hin%elem_of_map_to_list). simpl in *. by rewrite (Hk _ _ Hin).
  - intros Hm. exists (m_id m, m). split; [done|]. by apply elem_of_map_to_list.
Qed.

Lemma NoDup_filter_bool {A B} (g : A -> B) (f : A -> bool) l :
  NoDup (g <$> l) -> NoDup (g <$> List.filter f l).
Proof.
  induction l as [|x l IH]; cbn; [done|]. intros [Hx Hl]%NoDup_cons. destruct (f x); [|by apply IH].
  cbn. apply NoDup_cons. split; [|by apply IH]. intros Hin. apply Hx.
  apply list_elem_of_fmap in Hin as (y & -> & Hy). apply list_elem_of_fmap_2.
  by apply list_elem_of_In, filter_In in Hy as [Hy%list_elem_of_In _].
Qed.

Lemma sql_limit_sublist {A} n (l : list A) : sql_limit n l `sublist_of` l.
Proof. apply sublist_take. Qed.

Lemma claimed_NoDup now limit t : keyed_monitors t -> NoDup (m_id <$> claimed_monitors now limit t).
Proof.
  intros Hk. eapply sublist_NoDup; [|apply fmap_sublist, sql_limit_sublist].
  rewrite sort_by_perm. by apply NoDup_filter_bool, NoDup_monitor_ids.
Qed.

Lemma elem_of_claimed now limit t m :
  m ∈ claimed_monitors now limit t -> m ∈ monitor_rows t /\ is_due now m = true.
Proof.
  intros Hin. eapply elem_of_sublist in Hin; [|apply sql_limit_sublist].
  apply elem_of_sort_by, list_elem_of_In, filter_In in Hin as [Hin Hd]. by rewrite list_elem_of_In.
Qed.

Lemma is_due_spec now m :
  is_due now m = true ->
  (exists d, m_next_deadline m = Some d /\ d < now) /\ (m_state m = "up" \/ m_state m = "late") /\
  m_paused_at m = None.
Proof.
  unfold is_due. destruct (m_next_deadline m) as [d|]; [|done].
  rewrite !andb_true_iff, orb_true_iff, !String.eqb_eq, negb_true_iff, bool_decide_eq_false.
  intros [[Hd Hs] Hp]. split_and!; [eexists; split; [done|lia]|done|].
  by destruct (m_paused_at m); [destruct Hp; eexists|].
Qed.

Lemma foldl_insert_other f id (ms : list Monitor) (mm : gmap N Monitor) :
  id ∉ m_id <$> ms -> foldl (fun mm m => <[m_id m := f m]> mm) mm ms !! id = mm !! id.
Proof.
  revert mm. induction ms as [|m ms IH]; intros mm Hid; [done|].
  apply not_elem_of_cons in Hid as [Hne Hid]. cbn. rewrite IH by done. by apply lookup_insert_ne.
Qed.

Lemma foldl_insert_in f m (ms : list Monitor) (mm : gmap N Monitor) :
  NoDup (m_id <$> ms) -> m ∈ ms ->
  foldl (fun mm m => <[m_id m := f m]> mm) mm ms !! m_id m = Some (f m).
Proof.
  revert mm. induction ms as [|x ms IH]; intros mm Hnd Hin; [by apply elem_of_nil in Hin|].
  apply NoDup_cons in Hnd as [Hx Hnd]. apply elem_of_cons in Hin as [->|Hin]; cbn; [|by apply IH].
  rewrite foldl_insert_other by done. apply lookup_insert_eq.
Qed.

Lemma claimed_late_down ms : Z.of_nat (length ms) = count_late ms + count_down ms.
Proof.
  unfold count_late, count_down. induction ms as [|m ms IH]; [done|]. cbn [List.filter].
  destruct (goes_down m); cbn [negb length]; lia.
Qed.

(** The state of every monitor after a tick. *)
Definition monitors_ticked (txnow : Time) (ms : list Monitor) (t t' : Tables) : Prop :=
  (forall m, m ∈ ms -> t_monitors t' !! m_id m = Some (evaluated txnow m)) /\
  (forall id, id ∉ m_id <$> ms -> t_monitors t' !! id = t_monitors t !! id).

Lemma tick_outcome_monitors txnow ms t t' :
  NoDup (m_id <$> ms) -> tick_outcome txnow ms t t' -> monitors_ticked txnow ms t t'.
Proof.
  intros Hnd (es & als & _ & _ & _ & _ & Hm & _). split; rewrite Hm.
  - intros m Hin. by apply foldl_insert_in.
  - intros id Hid. by apply foldl_insert_other.
Qed.

Lemma run_EvaluateDueMonitors w now limit :
  no_faults w -> keyed_monitors (w_tables w) -> 0 <= limit ->
  (forall m, m ∈ claimed_monitors now limit (w_tables w) -> m_fail_streak m < 2147483647) ->
  let ms := claimed_monitors now limit (w_tables w) in
  exists w', run (EvaluateDueMonitors now limit) w
    = (Ok (mkEvalResult (count_late ms + count_down ms) (count_late ms) (count_down ms)), w') /\
  no_faults w' /\ tick_outcome (cur_clock w) ms (w_tables w) (w_tables w') /\
  monitors_ticked (cur_clock w) ms (w_tables w) (w_tables w').
Proof.
  intros Hf Hk Hl Hfs ms. pose proof (in_tx_start w Hf) as Hw0. unfold EvaluateDueMonitors.
  set (body := bind _ _).
  enough (Hb : exists w1, run body (tx_start w) = (Ok (mkEvalResult (count_late ms + count_down ms)
             (count_late ms) (count_down ms)), w1) /\ in_tx (cur_clock w) w1 /\
             tick_outcome (cur_clock w) ms (w_tables w) (w_tables w1)).
  { destruct Hb as (w1 & Hrun & Hw1 & Ho). eexists. split; [by eapply run_withTx_commit|].
    split; [by eapply no_faults_set_txnow, no_faults_tick, in_tx_no_faults|]. split; [done|].
    apply tick_outcome_monitors; [by apply claimed_NoDup|done]. }
  unfold body. rewrite run_bind, run_wrap, (in_tx_stmt _ (cur_clock w)) by done.
  unfold db_ClaimDueMonitors, sql_page. replace (limit <? 0) with false by (symmetry; lia).
  cbn [fst w_db w_tables w_seqs tx_start set_txnow tick]. fold (claimed_monitors now limit (w_tables w)). fold ms.
  edestruct (run_evaluate_all (cur_clock w) ms (tick (set_w_db (w_db w) (tx_start w)))
    (mkEvalResult (Z.of_nat (length ms)) 0 0)) as (w1 & Hrun & Hw1 & Ho);
    [by apply in_tx_step, in_tx_start, Hf|by apply claimed_NoDup| |].
  2:{ exists w1. split; [|split; [done|exact Ho]]. rewrite <- claimed_late_down. exact Hrun. }
  apply Forall_forall. intros m Hin. split; [|split_and!].
  - apply elem_of_claimed in Hin as [Hin _]. by apply elem_of_monitor_rows in Hin.
  - apply elem_of_claimed in Hin as [_ Hd%is_due_spec]. destruct Hd as ((d & -> & _) & _). by eexists.
  - by apply elem_of_claimed in Hin as [_ (_ & Hs & _)%is_due_spec].
  - by apply Hfs.
Qed.

(** ** A backlog drains *)

(** The steps a monitor still has to take at [now]: up has two, late one. *)
Definition steps_left (now : Time) (om : option Monitor) : nat :=
  match om with
  | Some m => if is_due now m then if String.eqb (m_state m) "up" then 2 else 1 else 0
  | None => 0
  end.

Definition backlog (now : Time) (ids : list UUID) (t : Tables) : nat :=
  sum_list_with (fun id => steps_left now (t_monitors t !! id)) ids.

Lemma sum_list_with_le {A} (f g : A -> nat) l :
  (forall x, x ∈ l -> (f x <= g x)%nat) -> (sum_list_with f l <= sum_list_with g l)%nat.
Proof.
  induction l as [|x l IH]; intros Hle; cbn; [done|].
  pose proof (Hle x ltac:(left)). assert (forall y, y ∈ l -> (f y <= g y)%nat) by (intros y ?; apply Hle; by right).
  specialize (IH ltac:(done)). lia.
Qed.

Lemma sum_list_with_lt {A} (f g : A -> nat) l x :
  (forall x, x ∈ l -> (f x <= g x)%nat) -> x ∈ l -> (f x < g x)%nat ->
  (sum_list_with f l < sum_list_with g l)%nat.
Proof.
  intros Hle Hx Hlt. induction Hx as [x l|x y l Hx IH]; cbn.
  - assert (sum_list_with f l <= sum_list_with g l)%nat; [|lia].
    apply sum_list_with_le. intros y ?. apply Hle. by right.
  - pose proof (Hle y ltac:(left)). assert (sum_list_with f l < sum_list_with g l)%nat; [|lia].
    apply IH; [|done]. intros z ?. apply Hle. by right.
Qed.

Lemma steps_left_evaluated now txnow m :
  is_due now m = true -> (steps_left now (Some (evaluated txnow m)) < steps_left now (Some m))%nat.
Proof.
  intros Hd. unfold steps_left. rewrite Hd. unfold evaluated.
  destruct (String.eqb (m_state m) "up") eqn:Es; cbn; [|lia]. case_match; cbn; lia.
Qed.

Lemma backlog_decreases now txnow limit ids t t' :
  keyed_monitors t ->
  monitors_ticked txnow (claimed_monitors now limit t) t t' ->
  (forall id, is_Some (t_monitors t !! id) -> id ∈ ids) ->
  claimed_monitors now limit t <> [] -> (backlog now ids t' < backlog now ids t)%nat.
Proof.
  intros Hk [Hin Hout] Hids Hne. set (ms := claimed_monitors now limit t) in *.
  assert (Hstep : forall m, m ∈ ms -> t_monitors t !! m_id m = Some m /\
            (steps_left now (t_monitors t' !! m_id m) < steps_left now (t_monitors t !! m_id m))%nat).
  { intros m Hm. rewrite (Hin m Hm). apply elem_of_claimed in Hm as [Hm Hd].
    apply elem_of_monitor_rows in Hm; [|done]. rewrite Hm. split; [done|]. by apply steps_left_evaluated. }
  destruct ms as [|m ms'] eqn:Ems; [done|]. destruct (Hstep m ltac:(left)) as [Hm Hlt].
  eapply (sum_list_with_lt _ _ _ (m_id m)); [|apply Hids; by eexists|done].
  intros id _. destruct (decide (id ∈ m_id <$> m :: ms')) as [Hid|Hid]; [|by rewrite (Hout id Hid)].
  apply list_elem_of_fmap in Hid as (m' & -> & Hm'). destruct (Hstep m' Hm'). lia.
Qed.

Definition streaks_ok (now : Time) (t : Tables) : Prop :=
  forall id m, t_monitors t !! id = Some m -> is_due now m = true -> m_fail_streak m < 2147483647.

Lemma ticked_keyed now txnow limit t t' :
  keyed_monitors t -> streaks_ok now t -> monitors_ticked txnow (claimed_monitors now limit t) t t' ->
  keyed_monitors t' /\ streaks_ok now t' /\
  (forall id, is_Some (t_monitors t' !! id) <-> is_Some (t_monitors t !! id)).
Proof.
  intros Hk Hs [Hin Hout]. set (ms := claimed_monitors now limit t) in *.
  assert (Hcase : forall id, (exists m, m ∈ ms /\ id = m_id m /\ is_due now m = true /\
             t_monitors t !! id = Some m /\ t_monitors t' !! id = Some (evaluated txnow m)) \/
             t_monitors t' !! id = t_monitors t !! id).
  { intros id. destruct (decide (id ∈ m_id <$> ms)) as [Hid|Hid]; [left|right; by apply Hout].
    apply list_elem_of_fmap in Hid as (m & -> & Hm). exists m. rewrite (Hin m Hm).
    apply elem_of_claimed in Hm as Hm'. destruct Hm' as [Hr Hd]. by apply elem_of_monitor_rows in Hr. }
  split_and!.
  - intros id m' Hm'. destruct (Hcase id) as [(m & _ & -> & _ & _ & He)|He]; rewrite He in Hm'; [|by apply Hk].
    simplify_eq. unfold evaluated. by case_match.
  - intros id m' Hm' Hd'. destruct (Hcase id) as [(m & _ & -> & Hd & Hm & He)|He]; rewrite He in Hm'; [|by eapply Hs].
    simplify_eq. specialize (Hs _ _ Hm Hd). unfold evaluated in *. by case_match.
  - intros id. destruct (Hcase id) as [(m & _ & -> & _ & Hm & ->)| ->]; [|done]. rewrite Hm. split; by eexists.
Qed.

Fixpoint ticks (n : nat) (now : Time) (limit : Z) : Prog unit :=
  match n with
  | O => ret tt
  | S n => let! _ := EvaluateDueMonitors now limit in ticks n now limit
  end.

Lemma nothing_claimed now limit ids t :
  keyed_monitors t -> 0 < limit -> claimed_monitors now limit t = [] -> backlog now ids t = 0%nat.
Proof.
  intros Hk Hl E. unfold backlog.
  assert (Hz : forall id, steps_left now (t_monitors t !! id) = 0%nat).
  { intros id. destruct (t_monitors t !! id) as [m|] eqn:Em; [|done]. unfold steps_left.
    destruct (is_due now m) eqn:Ed; [|done]. exfalso.
    assert (Hin : m ∈ sort_by deadline_le (List.filter (is_due now) (monitor_rows t))).
    { apply elem_of_sort_by, list_elem_of_In, filter_In. split; [|done].
      apply list_elem_of_In, elem_of_monitor_rows; [done|]. by rewrite (Hk _ _ Em). }
    unfold claimed_monitors, sql_limit in E.
    destruct (sort_by _ _) as [|x l]; [by apply elem_of_nil in Hin|].
    destruct (Z.to_nat limit) eqn:El; [lia|done]. }
  induction ids as [|id ids IH]; cbn; [done|]. by rewrite Hz, IH.
Qed.

Lemma run_ticks n : forall w now limit ids,
  no_faults w -> keyed_monitors (w_tables w) -> 0 < limit -> streaks_ok now (w_tables w) ->
  (forall id, is_Some (t_monitors (w_tables w) !! id) -> id ∈ ids) ->
  (backlog now ids (w_tables w) <= n)%nat ->
  exists w', run (ticks n now limit) w = (Ok tt, w') /\ backlog now ids (w_tables w') = 0%nat /\
    (forall id, is_Some (t_monitors (w_tables w') !! id) -> id ∈ ids).
Proof.
  induction n as [|n IH]; intros w now limit ids Hf Hk Hl Hs Hids Hb.
  { exists w. split_and!; [done|lia|done]. }
  cbn [ticks]. destruct (run_EvaluateDueMonitors w now limit) as (w1 & Hrun & Hf1 & Ho & Ht); [done..|lia| |].
  { intros m [Hm Hd]%elem_of_claimed. apply elem_of_monitor_rows in Hm; [|done]. by eapply Hs. }
  rewrite run_bind, Hrun. destruct (ticked_keyed _ _ _ _ _ Hk Hs Ht) as (Hk1 & Hs1 & Hdom).
  apply IH; [done..| |].
  - intros id. rewrite Hdom. apply Hids.
  - destruct (decide (claimed_monitors now limit (w_tables w) = [])) as [E|E].
    + enough (backlog now ids (w_tables w1) = backlog now ids (w_tables w)) as ->.
      { rewrite (nothing_claimed now limit ids) by done. lia. }
      unfold backlog. destruct Ht as [_ Hout]. rewrite E in Hout.
      assert (He : forall id, t_monitors (w_tables w1) !! id = t_monitors (w_tables w) !! id).
      { intros id. apply Hout, not_elem_of_nil. }
      clear -He. induction ids as [|id ids IH]; cbn; [done|]. by rewrite He, IH.
    + pose proof (backlog_decreases _ _ _ _ _ _ Hk Ht Hids E). lia.
Qed.

Lemma backlog_bound now t :
  keyed_monitors t ->
  (backlog now (m_id <$> monitor_rows t) t <= 2 * length (List.filter (is_due now) (monitor_rows t)))%nat.
Proof.
  intros Hk. unfold backlog.
  assert (Hl : forall m, m ∈ monitor_rows t -> t_monitors t !! m_id m = Some m).
  { intros m. by apply elem_of_monitor_rows. }
  revert Hl. induction (monitor_rows t) as [|m l IH]; intros Hl; cbn; [lia|].
  rewrite (Hl m) by left. specialize (IH ltac:(intros ? ?; apply Hl; by right)).
  unfold steps_left at 1. destruct (is_due now m); cbn [length]; [case_match|]; lia.
Qed.

Lemma no_backlog now ids t :
  (forall id, is_Some (t_monitors t !! id) -> id ∈ ids) -> backlog now ids t = 0%nat ->
  forall id m, t_monitors t !! id = Some m -> is_due now m = false.
Proof.
  intros Hids Hb id m Hm. destruct (is_due now m) eqn:Ed; [|done]. exfalso.
  assert (Hpos : (0 < backlog now ids t)%nat); [|lia]. unfold backlog.
  eapply Nat.le_lt_trans; [apply Nat.le_0_l|]. eapply (sum_list_with_lt (fun _ => 0%nat) _ _ id).
  - intros; lia.
  - apply Hids. by eexists.
  - rewrite Hm. unfold steps_left. rewrite Ed. case_match; lia.
Qed.

(** ** Properties *)

(** C7. One scheduler tick without faults: it claims the first [limit]
    monitors past their deadline, up or late and not paused, in deadline
    order; every claimed up monitor becomes late, its deadline moved by its
    grace period, with one late event; every claimed late monitor goes down,
    with no deadline, its streak one higher, one down event and one pending
    alert for that event; no other monitor and no other table changes, and
    the counts returned add up. *)
Theorem EvaluateDueMonitors_spec w now limit :
  no_faults w -> keyed_monitors (w_tables w) -> 0 <= limit ->
  (forall m, m ∈ claimed_monitors now limit (w_tables w) -> m_fail_streak m < 2147483647) ->
  let ms := claimed_monitors now limit (w_tables w) in
  exists w', run (EvaluateDueMonitors now limit) w
    = (Ok (mkEvalResult (count_late ms + count_down ms) (count_late ms) (count_down ms)), w') /\
  tick_outcome (cur_clock w) ms (w_tables w) (w_tables w') /\
  monitors_ticked (cur_clock w) ms (w_tables w) (w_tables w').
Proof.
  intros Hf Hk Hl Hfs ms. destruct (run_EvaluateDueMonitors w now limit Hf Hk Hl Hfs) as (w' & Hr & _ & Ho & Ht).
  by exists w'.
Qed.

(** A backlog drains: with no faults and a positive page size, ticking at
    one instant at most twice per due monitor leaves no monitor due at that
    instant; no deadline is lost and the evaluator cannot spin. *)
Lemma scheduler_drains w now limit n :
  no_faults w -> keyed_monitors (w_tables w) -> 0 < limit -> streaks_ok now (w_tables w) ->
  (2 * length (List.filter (is_due now) (monitor_rows (w_tables w))) <= n)%nat ->
  exists w', run (ticks n now limit) w = (Ok tt, w') /\
    forall id m, t_monitors (w_tables w') !! id = Some m -> is_due now m = false.
Proof.
  intros Hf Hk Hl Hs Hn. pose proof (backlog_bound now _ Hk).
  destruct (run_ticks n w now limit (m_id <$> monitor_rows (w_tables w))) as (w' & Hr & Hb & Hids);
    [done..| |lia|].
  - intros id [m Hm]. rewrite <- (Hk _ _ Hm). apply list_elem_of_fmap_2, elem_of_monitor_rows; [done|].
    by rewrite (Hk _ _ Hm).
  - exists w'. split; [done|]. by eapply no_backlog.
Qed.

(** A tick is atomic under every fault schedule: a crash or failure before
    the commit leaves every table as it was, so the monitors stay due; past
    the commit all of the claimed monitors have moved, each with its event and,
    for those that went down, exactly one pending alert. *)
Lemma EvaluateDueMonitors_atomic w now limit r w' :
  keyed_monitors (w_tables w) -> 0 <= limit ->
  (forall m, m ∈ claimed_monitors now limit (w_tables w) -> m_fail_streak m < 2147483647) ->
  run (EvaluateDueMonitors now limit) w = (r, w') ->
  (exists e, r = Err e /\ w_tables w' = w_tables w) \/
  (tick_outcome (cur_clock w) (claimed_monitors now limit (w_tables w)) (w_tables w) (w_tables w') /\
   (is_ok r = true \/ r = Err (EWrap "store: commit tx" ELost))).
Proof.
  intros Hk Hl Hs Hr. unfold EvaluateDueMonitors in Hr. apply withTx_calm in Hr; [|solve_strict].
  destruct Hr as [?|(a & wc & Hc & Ht & _ & Hres)]; [by left|right].
  destruct (run_EvaluateDueMonitors (calm w) now limit (calm_no_faults w) Hk Hl Hs) as (wc' & Hc' & _ & Ho & _).
  unfold EvaluateDueMonitors in Hc'. rewrite Hc' in Hc. injection Hc as <- ->. rewrite Ht.
  split; [exact Ho|]. by destruct Hres as [->| ->]; [left|right].
Qed.

(** ** The properties at a concrete state *)

Definition demo_late : World :=
  demo_world demo_env [demo_heartbeat "late" (Some demo_t0); demo_http "up" 0].

Lemma EvaluateDueMonitors_spec_witness :
  let ms := claimed_monitors (demo_t0 + 1) 10 (w_tables demo_late) in
  ms = [demo_heartbeat "late" (Some demo_t0)] /\
  exists w', run (EvaluateDueMonitors (demo_t0 + 1) 10) demo_late = (Ok (mkEvalResult 1 0 1), w') /\
    tick_outcome (cur_clock demo_late) ms (w_tables demo_late) (w_tables w').
Proof.
  intros ms. assert (Hms : ms = [demo_heartbeat "late" (Some demo_t0)]) by (vm_compute; reflexivity).
  split; [exact Hms|].
  destruct (EvaluateDueMonitors_spec demo_late (demo_t0 + 1) 10) as (w' & Hr & Ho & _).
  - apply demo_no_faults.
  - apply demo_keyed.
  - lia.
  - intros m Hm. fold ms in Hm. rewrite Hms in Hm. apply list_elem_of_singleton in Hm as ->.
    vm_compute. reflexivity.
  - exists w'. split; [|exact Ho]. rewrite Hr. fold ms. rewrite Hms. reflexivity.
Defined.

Lemma EvaluateDueMonitors_atomic_witness :
  let w := demo_world (faulty_env 4 FBefore) [demo_heartbeat "late" (Some demo_t0); demo_http "up" 0] in
  w_tables (snd (run (EvaluateDueMonitors (demo_t0 + 1) 10) w)) = w_tables w.
Proof.
  intros w. destruct (run (EvaluateDueMonitors (demo_t0 + 1) 10) w) as [r w'] eqn:E.
  destruct (EvaluateDueMonitors_atomic w (demo_t0 + 1) 10 r w') as [(e & _ & Ht)|[_ Hr]].
  - apply demo_keyed.
  - lia.
  - intros m Hm. replace (claimed_monitors _ _ _) with [demo_heartbeat "late" (Some demo_t0)] in Hm
      by (vm_compute; reflexivity).
    apply list_elem_of_singleton in Hm as ->. vm_compute. reflexivity.
  - exact E.
  - exact Ht.
  - exfalso. assert (Hw : r = fst (run (EvaluateDueMonitors (demo_t0 + 1) 10) w)) by (by rewrite E).
    rewrite Hw in Hr. vm_compute in Hr. destruct Hr; discriminate.
Defined.

Lemma scheduler_drains_witness :
  exists w', run (ticks 2 (demo_t0 + 1) 1) demo_late = (Ok tt, w') /\
    forall id m, t_monitors (w_tables w') !! id = Some m -> is_due (demo_t0 + 1) m = false.
Proof.
  apply (scheduler_drains demo_late (demo_t0 + 1) 1 2).
  - apply demo_no_faults.
  - apply demo_keyed.
  - lia.
  - intros id m Hm _. apply demo_lookup in Hm as [_ Hin].
    apply elem_of_cons in Hin as [->|Hin]; [vm_compute; reflexivity|].
    apply list_elem_of_singleton in Hin as ->. vm_compute. reflexivity.
  - vm_compute. repeat constructor.
Defined.
