(* ===== verification/Paging.v ===== *)
(** * Paging: why the cursors of the list endpoints enumerate a table

    Every list operation of the store returns one page and the cursor of the
    next one.  [walk] is the client's loop; [walk_all] shows, for any page
    operation that returns the next [n] rows after its cursor, that the loop
    ends and returns every row once, in order.  [page_rows] is the SQL side:
    filtering by the cursor selects exactly the rows after it. *)
From S2P Require Import Prelude GoLib Models Store Logic.
Local Open Scope Z_scope.
Local Open Scope ping_scope.

(** The client's loop: ask for pages until one has no next cursor. *)
Fixpoint walk {R} (fuel : nat) (page : string -> Prog (list R * string)) (cursor : string) : Prog (list R) :=
  match fuel with
  | O => throw (EMsg "more pages than expected")
  | S fuel' =>
      let! rn := page cursor in
      if String.eqb rn.2 "" then ret rn.1
      else let! rest := walk fuel' page rn.2 in ret (rn.1 ++ rest)
  end.

(** ** Sorting and filtering *)

Section filter.
Context {A : Type}.

Lemma filter_bool_all (f : A -> bool) l : (forall y, y ∈ l -> f y = true) -> List.filter f l = l.
Proof.
  induction l as [|y l IH]; intros Hall; simpl; [done|]. rewrite Hall by set_solver. rewrite IH; [done|].
  intros z Hz. apply Hall. set_solver.
Qed.

Lemma filter_bool_none (f : A -> bool) l : (forall y, y ∈ l -> f y = false) -> List.filter f l = [].
Proof.
  induction l as [|y l IH]; intros Hall; simpl; [done|]. rewrite Hall by set_solver. apply IH.
  intros z Hz. apply Hall. set_solver.
Qed.

Lemma sorted_around (R : A -> A -> Prop) pre x rest :
  StronglySorted R (pre ++ x :: rest) -> (forall y, y ∈ pre -> R y x) /\ (forall y, y ∈ rest -> R x y).
Proof.
  induction pre as [|z pre IH]; simpl; intros Hs; inversion Hs as [|? ? Hs' Hz]; subst.
  - split; [set_solver|]. intros y Hy. rewrite List.Forall_forall in Hz. by apply Hz, list_elem_of_In.
  - destruct (IH Hs') as [H1 H2]. split; [|done]. intros y Hy. assert (y = z \/ y ∈ pre) as [->|Hy'] by set_solver; [|by apply H1].
    rewrite List.Forall_forall in Hz. apply Hz, list_elem_of_In. set_solver.
Qed.

End filter.

Section sort_filter.
Context {A : Type} (le : A -> A -> bool).
Context (le_total : forall x y, le x y = true \/ le y x = true).
Context (le_trans : forall x y z, le x y = true -> le y z = true -> le x z = true).

Lemma StronglySorted_filter_bool (R : A -> A -> Prop) (f : A -> bool) l :
  StronglySorted R l -> StronglySorted R (List.filter f l).
Proof.
  induction 1 as [|x l Hs IH Hx]; simpl; [constructor|]. destruct (f x); [|done]. constructor; [done|].
  rewrite List.Forall_forall in *. intros y Hy%filter_In. apply Hx, Hy.
Qed.

Lemma Permutation_filter_bool (f : A -> bool) (l l' : list A) : l ≡ₚ l' -> List.filter f l ≡ₚ List.filter f l'.
Proof.
  induction 1 as [|x l l' _ IH|x y l|l1 l2 l3 _ IH1 _ IH2]; simpl; [done| | |by etrans].
  - destruct (f x); by rewrite ?IH.
  - destruct (f x), (f y); try done. apply Permutation_swap.
Qed.

Lemma sort_by_filter (f : A -> bool) l :
  (forall x y, x ∈ l -> y ∈ l -> le x y = true -> le y x = true -> x = y) ->
  sort_by le (List.filter f l) = List.filter f (sort_by le l).
Proof using le_total le_trans.
  intros Hanti. apply (StronglySorted_unique_strong (fun a b => le a b = true)).
  - intros x y Hx Hy. rewrite elem_of_sort_by in Hx. apply list_elem_of_In, filter_In in Hx as [Hx _].
    apply list_elem_of_In, filter_In in Hy as [Hy _]. apply list_elem_of_In in Hx, Hy.
    rewrite elem_of_sort_by in Hy. by apply Hanti.
  - by apply sort_by_sorted.
  - apply StronglySorted_filter_bool. by apply sort_by_sorted.
  - rewrite sort_by_perm. symmetry. apply Permutation_filter_bool, sort_by_perm.
Qed.

(** Keeping what comes after [x] in a sorted list drops the list up to [x]. *)
Lemma filter_after (after : A -> bool) pre x rest :
  StronglySorted (fun a b => le a b = true) (pre ++ x :: rest) -> NoDup (pre ++ x :: rest) ->
  (forall y, y ∈ pre ++ x :: rest -> le x y = true -> le y x = true -> x = y) ->
  (forall y, y ∈ pre ++ x :: rest -> after y = negb (le y x)) ->
  List.filter after (pre ++ x :: rest) = rest.
Proof using le_total le_trans.
  intros Hs Hnd Hanti Hafter. rewrite List.filter_app. simpl.
  assert (Hx : le x x = true) by (by destruct (le_total x x)).
  rewrite (Hafter x), Hx by set_solver. simpl.
  destruct (sorted_around _ _ _ _ Hs) as [Hpre Hrest].
  apply NoDup_app in Hnd as (_ & _ & [Hnx _]%NoDup_cons).
  rewrite filter_bool_none, filter_bool_all; [done| |].
  - intros y Hy. rewrite Hafter by set_solver. destruct (le y x) eqn:E; [|done].
    assert (x = y) as <- by (apply Hanti; [set_solver|by apply Hrest|done]). done.
  - intros y Hy. rewrite Hafter by set_solver. by rewrite Hpre.
Qed.

(** The rows of the page after [x]. *)
Lemma page_rows (keep after : A -> bool) rows pre x rest :
  NoDup rows ->
  (forall y z, y ∈ rows -> z ∈ rows -> le y z = true -> le z y = true -> y = z) ->
  (forall y, after y = negb (le y x)) ->
  sort_by le (List.filter keep rows) = pre ++ x :: rest ->
  sort_by le (List.filter (fun r => keep r && after r) rows) = rest.
Proof using le_total le_trans.
  intros Hnd Hanti Hafter Hl.
  assert (Hin : forall y, y ∈ pre ++ x :: rest -> y ∈ rows).
  { intros y. rewrite <- Hl, elem_of_sort_by. intros Hy%list_elem_of_In. apply filter_In in Hy as [Hy _]. by apply list_elem_of_In. }
  assert (Heq : List.filter (fun r => keep r && after r) rows = List.filter after (List.filter keep rows)).
  { clear. induction rows as [|r rows IH]; simpl; [done|]. destruct (keep r); simpl; rewrite IH; done. }
  rewrite Heq, sort_by_filter.
  - rewrite Hl. apply filter_after.
    + rewrite <- Hl. by apply sort_by_sorted.
    + rewrite <- Hl. rewrite sort_by_perm. apply NoDup_ListNoDup, List.NoDup_filter. by apply NoDup_ListNoDup.
    + intros y Hy H1 H2. apply Hanti; [apply Hin; set_solver|by apply Hin|done..].
    + intros y _. apply Hafter.
  - intros y z Hy%list_elem_of_In%filter_In Hz%list_elem_of_In%filter_In. destruct Hy as [Hy _], Hz as [Hz _].
    apply list_elem_of_In in Hy, Hz. by apply Hanti.
Qed.
End sort_filter.

(** ** The loop *)

Section walk.
Context {A R : Type} (rows : list A) (conv : A -> R) (enc : A -> string) (n : nat).
Context (page : string -> Prog (list R * string)) (I : World -> Prop).

(** The cursor after a prefix of the rows. *)
Definition cursor_after (pre : list A) : string := match last pre with Some x => enc x | None => "" end.

Definition next_cursor (shown : list A) : string :=
  if Nat.eqb (length shown) n then cursor_after shown else "".

Context (Hn : (0 < n)%nat) (Henc : forall x, x ∈ rows -> enc x <> "").
Context (Hpage : forall pre rest w, rows = pre ++ rest -> I w ->
  exists w', I w' /\ run (page (cursor_after pre)) w
                     = (Ok (conv <$> take n rest, next_cursor (take n rest)), w')).

Lemma walk_from fuel : forall pre rest w,
  rows = pre ++ rest -> I w -> (length rest < n * fuel)%nat ->
  exists w', I w' /\ run (walk fuel page (cursor_after pre)) w = (Ok (conv <$> rest), w').
Proof using Hn Henc Hpage.
  induction fuel as [|fuel IH]; intros pre rest w Hrows HI Hlen; [lia|].
  cbn [walk]. rewrite run_bind.
  destruct (Hpage pre rest w Hrows HI) as (w1 & HI1 & ->). cbn [fst snd].
  unfold next_cursor. rewrite length_take.
  destruct (Nat.eqb_spec (n `min` length rest) n) as [E|E].
  - destruct (last (take n rest)) as [x|] eqn:El.
    2:{ apply last_None in El. apply (f_equal length) in El. rewrite length_take in El. simpl in El. lia. }
    assert (Hx : x ∈ rows).
    { rewrite Hrows. apply elem_of_app. right. rewrite <- (take_drop n rest). apply elem_of_app. left.
      apply last_Some in El as [l ->]. set_solver. }
    unfold cursor_after at 1. rewrite El. rewrite (proj2 (String.eqb_neq _ _) (Henc x Hx)).
    assert (Hlast : last (pre ++ take n rest) = Some x).
    { rewrite last_app, El. done. }
    destruct (IH (pre ++ take n rest) (drop n rest) w1) as (w2 & HI2 & Hr).
    + by rewrite <- app_assoc, take_drop.
    + done.
    + rewrite length_drop. lia.
    + unfold cursor_after in Hr. rewrite Hlast in Hr. unfold cursor_after. rewrite El.
      rewrite run_bind, Hr. exists w2. split; [done|]. cbn [run ret]. by rewrite <- fmap_app, take_drop.
  - exists w1. split; [done|]. cbn [String.eqb run ret]. rewrite take_ge by lia. done.
Qed.

Lemma walk_all fuel w :
  I w -> (length rows < n * fuel)%nat ->
  exists w', I w' /\ run (walk fuel page "") w = (Ok (conv <$> rows), w').
Proof using Hn Henc Hpage. intros HI Hlen. by apply (walk_from fuel []). Qed.
End walk.
