(* ===== verification/Monitor.v ===== *)
(** * Monitor: monitor CRUD, slugs and the monitor list (store/monitor.go, store/slug.go)

    [CreateMonitor] retries slug collisions, [UpdateMonitor] writes the row and
    its config_change event in one transaction, [ListMonitors] pages by the
    (created_at, id) cursor.  A JSON column's text is taken as it is given. *)
From S2P Require Import Prelude GoLib Calendar Models Extern Store Queries Logic Demo Schedule Convert Checkin Scheduler Paging.
Local Open Scope Z_scope.
Local Open Scope ping_scope.

(** ** Slugs (store/slug.go) *)

Definition slugLen : nat := 16.

(** The bits of a byte, most significant first. *)
Definition byte_bits (c : ascii) : list bool :=
  match c with Ascii a0 a1 a2 a3 a4 a5 a6 a7 => [a7; a6; a5; a4; a3; a2; a1; a0] end.

Fixpoint string_bits (s : string) : list bool :=
  match s with EmptyString => [] | String c r => byte_bits c ++ string_bits r end.

(** The alphabet of base32.StdEncoding: A-Z 2-7. *)
Definition enc32 (a b c d e : bool) : ascii :=
  let i := (16 * N.b2n a + 8 * N.b2n b + 4 * N.b2n c + 2 * N.b2n d + N.b2n e)%N in
  ascii_of_N (if i <? 26 then 65 + i else 24 + i)%N.

(** Unpadded base32 of a bit string; a short final group is filled with zeros. *)
Fixpoint base32_bits (l : list bool) : string :=
  match l with
  | a :: b :: c :: d :: e :: r => String (enc32 a b c d e) (base32_bits r)
  | [a; b; c; d] => String (enc32 a b c d false) ""
  | [a; b; c] => String (enc32 a b c false false) ""
  | [a; b] => String (enc32 a b false false false) ""
  | [a] => String (enc32 a false false false false) ""
  | [] => ""
  end.

(** [base32.StdEncoding.WithPadding(base32.NoPadding).EncodeToString(s)]. *)
Definition base32_encode (s : string) : string := base32_bits (string_bits s).

(** [strings.ToLower] on ASCII text. *)
Definition lower (c : ascii) : ascii :=
  let n := N_of_ascii c in if ((65 <=? n) && (n <=? 90))%N then ascii_of_N (n + 32) else c.

Fixpoint to_lower (s : string) : string :=
  match s with EmptyString => "" | String c r => String (lower c) (to_lower r) end.

Definition slug_of_bytes (buf : string) : string :=
  to_lower (String.substring 0 slugLen (base32_encode buf)).

Definition generateSlug : Prog string :=
  let! buf := wrap "store: generate slug" (rand_Read ((slugLen * 5 + 7) / 8)) in
  ret (slug_of_bytes buf).

(** ** The list cursor *)

Section cursor.
Context `{Extern}.

Definition encodeCursor (createdAt : Time) (id : UUID) : string :=
  b64_encode (FormatRFC3339Nano createdAt +:+ String "|" (uuid_string id)).

(** [strings.SplitN(s, "|", 2)] when it has two parts. *)
Fixpoint cut_bar (s : string) : option (string * string) :=
  match s with
  | EmptyString => None
  | String c r => if Ascii.eqb c "|" then Some ("", r)
                  else '(a, b) ← cut_bar r; Some (String c a, b)
  end.

Definition decodeCursor (cursor : string) : Res (Time * UUID) :=
  match b64_decode cursor with
  | None => Err (EWrap "decode cursor" (EMsg "illegal base64 data"))
  | Some raw =>
      match cut_bar raw with
      | None => Err (EMsg "malformed cursor")
      | Some (ts, ids) =>
          match ParseRFC3339Nano ts with
          | None => Err (EWrap "parse cursor timestamp" (EMsg "parsing time"))
          | Some createdAt =>
              match pgUUID ids with
              | Err e => Err (EWrap "parse cursor id" e)
              | Ok id => Ok (createdAt, id)
              end
          end
      end
  end.
End cursor.

(** ** Operations (store/monitor.go) *)

Definition maxSlugRetries : nat := 5.

Record MonitorPage := mkMonitorPage {
  mp_Monitors : list store_Monitor;
  mp_NextCursor : string
}.

Record ListMonitorsFilter := mkListMonitorsFilter {
  lf_Search : string;
  lf_Kind : string;
  lf_DisplayState : string
}.

Record store_DailyStat := mk_store_DailyStat {
  ds_Day : Time;
  ds_Checkins : Z;
  ds_Failures : Z;
  ds_DowntimeS : Z;
  ds_LatencyP50 : option Z;
  ds_LatencyP95 : option Z
}.

(** store.CreateMonitorParams *)
Record store_CreateMonitorParams := mk_store_CreateMonitorParams {
  scm_UserID : string;
  scm_Kind : string;
  scm_Name : string;
  scm_ScheduleKind : string;
  scm_PeriodS : option Z;
  scm_CronExpr : string;
  scm_TZ : string;
  scm_GraceS : option Z;
  scm_URL : string;
  scm_Method : string;
  scm_IntervalS : option Z;
  scm_TimeoutS : option Z;
  scm_FailThreshold : option Z;
  scm_HTTPConfig : option string;
  scm_AutoResume : option bool
}.

(** store.UpdateMonitorParams *)
Record store_UpdateMonitorParams := mk_store_UpdateMonitorParams {
  sum_Name : string;
  sum_ScheduleKind : string;
  sum_PeriodS : option Z;
  sum_CronExpr : string;
  sum_TZ : string;
  sum_GraceS : option Z;
  sum_URL : string;
  sum_Method : string;
  sum_IntervalS : option Z;
  sum_TimeoutS : option Z;
  sum_FailThreshold : option Z;
  sum_HTTPConfig : option string;
  sum_AutoResume : option bool
}.

(** The names of the fields a PATCH carries; [None] when it carries none. *)
Definition changedFieldsMeta (p : store_UpdateMonitorParams) : option EventMeta :=
  let add (name : string) (changed : bool) := if changed then [name] else [] in
  let set (s : string) := negb (String.eqb s "") in
  let fields :=
    add "name" (set (sum_Name p)) ++
    add "schedule_kind" (set (sum_ScheduleKind p)) ++
    add "period_s" (bool_decide (is_Some (sum_PeriodS p))) ++
    add "cron_expr" (set (sum_CronExpr p)) ++
    add "tz" (set (sum_TZ p)) ++
    add "grace_s" (bool_decide (is_Some (sum_GraceS p))) ++
    add "url" (set (sum_URL p)) ++
    add "method" (set (sum_Method p)) ++
    add "interval_s" (bool_decide (is_Some (sum_IntervalS p))) ++
    add "timeout_s" (bool_decide (is_Some (sum_TimeoutS p))) ++
    add "fail_threshold" (bool_decide (is_Some (sum_FailThreshold p))) ++
    add "http_config" (set (default "" (sum_HTTPConfig p))) ++
    add "auto_resume" (bool_decide (is_Some (sum_AutoResume p))) in
  match fields with [] => None | _ => Some (MetaFields fields) end.

Section monitor.
Context `{Extern}.

Definition create_params (userUUID : UUID) (p : store_CreateMonitorParams) (slug : string)
    : CreateMonitorParams :=
  mkCreateMonitorParams userUUID (scm_Kind p) slug (scm_Name p) (textOrNull (scm_ScheduleKind p))
    (scm_PeriodS p) (textOrNull (scm_CronExpr p)) (scm_TZ p) (scm_GraceS p) (textOrNull (scm_URL p))
    (textOrNull (scm_Method p)) (scm_IntervalS p) (scm_TimeoutS p) (scm_FailThreshold p)
    (scm_HTTPConfig p) (scm_AutoResume p).

(** [for range maxSlugRetries]. *)
Fixpoint create_attempts (n : nat) (userUUID : UUID) (p : store_CreateMonitorParams)
    : Prog store_Monitor :=
  match n with
  | O => throw (EMsg ("store: create monitor: exhausted " +:+ FormatInt (Z.of_nat maxSlugRetries)
                      +:+ " slug retries"))
  | S n' =>
      let! slug := generateSlug in
      let! r := attempt (stmt (db_CreateMonitor (create_params userUUID p slug))) in
      match r with
      | Ok row => ret (toMonitor row)
      | Err err => if negb (isUniqueViolation err) then throw (EWrap "store: create monitor" err)
                   else create_attempts n' userUUID p
      end
  end.

Definition CreateMonitor (p : store_CreateMonitorParams) : Prog store_Monitor :=
  let! userUUID := lift_res (pgUUID (scm_UserID p)) in
  create_attempts maxSlugRetries userUUID p.

Definition not_found : error := newHTTPError (ESentinel ErrNotFound) 404.
Definition forbidden : error := newHTTPError (ESentinel ErrForbidden) 403.
Definition invalid_cursor : error := newHTTPError (EMsg "invalid cursor") 400.

(** [if errors.Is(err, pgx.ErrNoRows) { 404 } else wrap]. *)
Definition no_rows_404 (context : string) (err : error) : error :=
  if error_is_no_rows err then not_found else EWrap context err.

(** An id that does not parse cannot name a row. *)
Definition uuid_or_404 (s : string) : Prog UUID := on_err (fun _ => not_found) (lift_res (pgUUID s)).

Definition GetMonitor (id callerUserID : string) : Prog store_Monitor :=
  let! idUUID := uuid_or_404 id in
  let! row := on_err (no_rows_404 "store: get monitor") (stmt (db_GetMonitorByID idUUID)) in
  if negb (String.eqb (uuid_string (m_user_id row)) callerUserID) then throw forbidden
  else ret (toMonitor row).

(** [rows[len(rows)-1]]: on no rows Go panics. *)
Definition last_row {R} (rows : list R) : Prog R :=
  match last rows with Some r => ret r | None => throw (EMsg "index out of range [-1]") end.

Definition ListMonitors (userID cursor : string) (limit : Z) (filter : ListMonitorsFilter)
    : Prog MonitorPage :=
  let! userUUID := lift_res (pgUUID userID) in
  let! cur := (if String.eqb cursor "" then ret None
               else on_err (fun _ => invalid_cursor)
                      (let! c := lift_res (decodeCursor cursor) in ret (Some c))) in
  let! rows := wrap "store: list monitors"
                 (stmt (db_ListMonitorsByUserPage
                    (mkListMonitorsByUserPageParams userUUID (fst <$> cur) (snd <$> cur)
                       (textOrNull (lf_Search filter)) (textOrNull (lf_Kind filter))
                       (textOrNull (lf_DisplayState filter)) limit))) in
  if Z.of_nat (length rows) =? limit then
    let! l := last_row rows in
    ret (mkMonitorPage (toMonitor <$> rows) (encodeCursor (m_created_at l) (m_id l)))
  else ret (mkMonitorPage (toMonitor <$> rows) "").

Definition update_params (idUUID userUUID : UUID) (p : store_UpdateMonitorParams) : UpdateMonitorParams :=
  mkUpdateMonitorParams (textOrNull (sum_Name p)) (textOrNull (sum_ScheduleKind p)) (sum_PeriodS p)
    (textOrNull (sum_CronExpr p)) (textOrNull (sum_TZ p)) (sum_GraceS p) (textOrNull (sum_URL p))
    (textOrNull (sum_Method p)) (sum_IntervalS p) (sum_TimeoutS p) (sum_FailThreshold p)
    (sum_HTTPConfig p) (sum_AutoResume p) idUUID userUUID.

Definition UpdateMonitor (id callerUserID : string) (p : store_UpdateMonitorParams) : Prog store_Monitor :=
  let! idUUID := uuid_or_404 id in
  let! userUUID := uuid_or_404 callerUserID in
  withTx (
    let! row := on_err (no_rows_404 "store: update monitor")
                  (stmt (db_UpdateMonitor (update_params idUUID userUUID p))) in
    let! _ := (match changedFieldsMeta p with
               | Some meta =>
                   let! _ := recordEventMeta (m_id row) "config_change" "Configuration updated" (Some meta) in
                   ret tt
               | None => ret tt
               end) in
    ret (toMonitor row)).

Definition DeleteMonitor (id callerUserID : string) : Prog unit :=
  let! idUUID := uuid_or_404 id in
  let! userUUID := uuid_or_404 callerUserID in
  let! rowsAffected := wrap "store: delete monitor" (stmt (db_DeleteMonitor idUUID userUUID)) in
  if rowsAffected =? 0 then throw not_found else ret tt.

(** The rows by monitor id, each monitor's rows in the query's order. *)
Definition bucket_stats (rows : list Models.DailyStat) : gmap string (list store_DailyStat) :=
  foldl (fun acc (row : Models.DailyStat) =>
           let mid := uuid_string (d_monitor_id row) in
           <[mid := default [] (acc !! mid) ++
                    [mk_store_DailyStat (d_day row) (d_checkins row) (d_failures row)
                       (d_downtime_s row) (d_latency_p50 row) (d_latency_p95 row)]]> acc) ∅ rows.

(** A DATE parameter carries the day of [since]. *)
Definition ListDailyStats (monitorIDs : list string) (since : Time)
    : Prog (gmap string (list store_DailyStat)) :=
  match monitorIDs with
  | [] => ret ∅
  | _ =>
      let! ids := for_range (fun acc id => let! u := lift_res (pgUUID id) in ret (acc ++ [u])) [] monitorIDs in
      let! rows := wrap "store: list daily stats"
                     (stmt (db_ListDailyStatsByMonitorIDs ids (utc_midnight since))) in
      ret (bucket_stats rows)
  end.
End monitor.

(** ** Slugs *)

Definition slug_char (c : ascii) : bool :=
  let n := N_of_ascii c in ((97 <=? n) && (n <=? 122) || (50 <=? n) && (n <=? 55))%N.

Definition slug_bits (c : ascii) : list bool :=
  let n := N_of_ascii c in
  let i := (if n <? 97 then n - 24 else n - 97)%N in
  [N.testbit i 4; N.testbit i 3; N.testbit i 2; N.testbit i 1; N.testbit i 0].

Lemma slug_bits_enc a b c d e : slug_bits (lower (enc32 a b c d e)) = [a; b; c; d; e].
Proof. by destruct a, b, c, d, e. Qed.

Lemma slug_char_enc a b c d e : slug_char (lower (enc32 a b c d e)) = true.
Proof. by destruct a, b, c, d, e. Qed.

Fixpoint slug_decode (s : string) : list bool :=
  match s with EmptyString => [] | String c r => slug_bits c ++ slug_decode r end.

Lemma length_string_bits s : length (string_bits s) = (8 * String.length s)%nat.
Proof. induction s as [|[] s IH]; simpl in *; [done|]. rewrite IH. lia. Qed.

Lemma byte_bits_inj c c' l l' : byte_bits c ++ l = byte_bits c' ++ l' -> c = c' /\ l = l'.
Proof. destruct c, c'. simpl. intros [=]. by subst. Qed.

Lemma string_bits_inj s s' : string_bits s = string_bits s' -> s = s'.
Proof.
  revert s'. induction s as [|c s IH]; intros [|c' s']; simpl; [done| | |].
  - by destruct c'.
  - by destruct c.
  - intros [-> Hb]%byte_bits_inj. f_equal. by apply IH.
Qed.

Lemma base32_groups k : forall l, length l = (5 * k)%nat ->
  String.length (base32_bits l) = k /\ slug_decode (to_lower (base32_bits l)) = l /\
  str_all slug_char (to_lower (base32_bits l)) = true.
Proof.
  induction k as [|k IH]; intros l Hl; [by destruct l|].
  destruct l as [|a [|b [|c [|d [|e r]]]]]; simpl in Hl; try lia.
  destruct (IH r ltac:(lia)) as (H1 & H2 & H3). cbn [base32_bits String.length to_lower slug_decode str_all].
  rewrite slug_bits_enc, slug_char_enc, H1, H2, H3. done.
Qed.

Lemma substring_whole n s : String.length s = n -> String.substring 0 n s = s.
Proof. intros <-. induction s as [|c s IH]; simpl; [done|]. by rewrite IH. Qed.

Lemma length_to_lower s : String.length (to_lower s) = String.length s.
Proof. induction s; simpl; congruence. Qed.

Lemma slug_of_ten_bytes buf : String.length buf = 10%nat ->
  slug_of_bytes buf = to_lower (base32_bits (string_bits buf)) /\
  String.length (slug_of_bytes buf) = slugLen /\ slug_decode (slug_of_bytes buf) = string_bits buf /\
  str_all slug_char (slug_of_bytes buf) = true.
Proof.
  intros Hl. pose proof (length_string_bits buf) as Hb. rewrite Hl in Hb.
  destruct (base32_groups 16 _ Hb) as (H1 & H2 & H3). unfold slug_of_bytes, base32_encode.
  rewrite (substring_whole slugLen) by done. by rewrite length_to_lower.
Qed.

(** ** The cursor *)

Definition no_bar (s : string) : bool := str_all (fun c => negb (Ascii.eqb c "|")) s.

Lemma cut_bar_app a b : no_bar a = true -> cut_bar (a +:+ String "|" b) = Some (a, b).
Proof.
  unfold no_bar. induction a as [|c a IH]; simpl; [done|].
  rewrite andb_true_iff, negb_true_iff. intros [-> Ha].
  change (cut_bar (a ++ String "|" b)%string) with (cut_bar (a +:+ String "|" b)). by rewrite (IH Ha).
Qed.

Lemma no_bar_digits l r : Forall (fun d => 0 <= d < 10) l -> no_bar (digits_string l r) = no_bar r.
Proof.
  unfold no_bar. induction 1 as [|d l Hd _ IH]; simpl; [done|]. rewrite IH.
  assert (d = 0 \/ d = 1 \/ d = 2 \/ d = 3 \/ d = 4 \/ d = 5 \/ d = 6 \/ d = 7 \/ d = 8 \/ d = 9)
    as [->|[->|[->|[->|[->|[->|[->|[->|[->| ->]]]]]]]]] by lia; reflexivity.
Qed.

Lemma no_bar_cons c r : no_bar (String c r) = negb (Ascii.eqb c "|") && no_bar r.
Proof. done. Qed.

Lemma no_bar_time t : no_bar (FormatRFC3339Nano t) = true.
Proof.
  unfold FormatRFC3339Nano. destruct (civil_of_days _) as [[y m] d].
  repeat (rewrite no_bar_digits by apply digits_of_range; rewrite no_bar_cons; cbn [Ascii.eqb Bool.eqb negb andb]).
  rewrite no_bar_digits by apply digits_of_range.
  unfold format_fraction. destruct (trim_zeros_spec (digits_of 9 (t mod Second))) as [k Hk].
  pose proof (digits_of_range 9 (t mod Second)) as Hr. rewrite Hk in Hr. apply Forall_app in Hr as [Hr _].
  destruct (trim_zeros _) as [|x l]; [done|]. rewrite no_bar_cons, no_bar_digits by done. done.
Qed.

Lemma decode_encode_cursor `{ExternLaws} t id :
  year_0_to_9999 t = true -> decodeCursor (encodeCursor t id) = Ok (t, id).
Proof.
  intros Ht. unfold decodeCursor, encodeCursor. rewrite b64_round_trip, cut_bar_app by apply no_bar_time.
  rewrite RFC3339Nano_round_trip by done. unfold pgUUID. by rewrite uuid_scan_string.
Qed.

(** ** Creation *)

Section create.
Context `{Extern}.

Definition creatable (p : store_CreateMonitorParams) : bool :=
  kind_check (scm_Kind p) && schedule_kind_check (textOrNull (scm_ScheduleKind p))
  && method_check (textOrNull (scm_Method p)).

(** The row a creation inserts. *)
Definition created_row (now : Time) (id user : UUID) (slug : string) (p : store_CreateMonitorParams) : Monitor :=
  mkMonitor id user (scm_Kind p) slug (scm_Name p) (textOrNull (scm_ScheduleKind p)) (scm_PeriodS p)
    (textOrNull (scm_CronExpr p)) (if String.eqb (scm_TZ p) "" then "UTC" else scm_TZ p) (scm_GraceS p)
    (textOrNull (scm_URL p)) (textOrNull (scm_Method p)) (scm_IntervalS p) (scm_TimeoutS p)
    (scm_FailThreshold p) (default "{}" (scm_HTTPConfig p)) "new" 0 None None
    (if String.eqb (scm_Kind p) "http" then Some now else None) false None now now
    (default true (scm_AutoResume p)) 86400 None.

Definition in_use (t : Tables) (id : UUID) (slug : string) : bool :=
  bool_decide (is_Some (t_monitors t !! id))
  || existsb (fun m => String.eqb (m_slug m) slug) (monitor_rows t).

(** The slug and the id the [i]-th attempt from [step] on draws. *)
Definition drawn_slug (e : Env) (step i : nat) : string :=
  slug_of_bytes (String.string_of_list_ascii (env_rand e (step + 2 * i) <$> seq 0 ((slugLen * 5 + 7) / 8))).
Definition drawn_id (e : Env) (step i : nat) : UUID := env_uuid e (S (step + 2 * i)).

(** The draw is taken, and the row it makes when it is free: the instant is that
    of its insertion. *)
Definition draw_taken (w : World) (i : nat) : bool :=
  in_use (w_tables w) (drawn_id (w_env w) (w_step w) i) (drawn_slug (w_env w) (w_step w) i).
Definition drawn_row (p : store_CreateMonitorParams) (user : UUID) (w : World) (i : nat) : Monitor :=
  created_row (env_clock (w_env w) (S (w_step w + 2 * i))) (drawn_id (w_env w) (w_step w) i) user
    (drawn_slug (w_env w) (w_step w) i) p.

(** What [n] attempts return and leave. *)
Definition creation_outcome (n : nat) (p : store_CreateMonitorParams) (user : UUID) (w : World)
    (r : Res store_Monitor) (w' : World) : Prop :=
  (exists i, (i < n)%nat /\ draw_taken w i = false /\ (forall j, (j < i)%nat -> draw_taken w j = true) /\
     r = Ok (toMonitor (drawn_row p user w i)) /\ w_tables w' = put_monitor (drawn_row p user w i) (w_tables w)) \/
  ((forall i, (i < n)%nat -> draw_taken w i = true) /\
     r = Err (EMsg "store: create monitor: exhausted 5 slug retries") /\ w_tables w' = w_tables w).

Lemma drawn_slug_ok e step i :
  String.length (drawn_slug e step i) = slugLen /\ str_all slug_char (drawn_slug e step i) = true.
Proof.
  destruct (slug_of_ten_bytes (String.string_of_list_ascii (env_rand e (step + 2 * i) <$> seq 0 ((slugLen * 5 + 7) / 8))))
    as (_ & H1 & _ & H2); [done|]. done.
Qed.

Lemma run_rand_Read n w :
  cur_fault w = FNone ->
  run (rand_Read n) w
  = (Ok (String.string_of_list_ascii (env_rand (w_env w) (w_step w) <$> seq 0 n)), tick w).
Proof. intros Hf. unfold rand_Read. cbn [run]. by rewrite Hf. Qed.

Lemma db_CreateMonitor_cases p user slug now id t s :
  creatable p = true -> is_Some (t_users t !! user) ->
  db_CreateMonitor (create_params user p slug) now id (t, s) =
  if in_use t id slug then (Err unique_violation, (t, s))
  else (Ok (created_row now id user slug p), (put_monitor (created_row now id user slug p) t, s)).
Proof.
  unfold creatable, in_use, db_CreateMonitor. cbn [cm_kind cm_schedule_kind cm_method cm_slug cm_user_id create_params].
  intros -> Hu. cbn [negb]. destruct (_ || _); [done|]. by rewrite bool_decide_true by done.
Qed.

(** The draws of the attempts after the first are those from two actions later. *)
Lemma draw_taken_later w w1 i :
  w_env w1 = w_env w -> w_tables w1 = w_tables w -> w_step w1 = S (S (w_step w)) -> draw_taken w1 i = draw_taken w (S i).
Proof.
  intros He Ht Hs. unfold draw_taken, drawn_slug, drawn_id. rewrite He, Ht, Hs.
  by replace (w_step w + 2 * S i)%nat with (S (S (w_step w)) + 2 * i)%nat by lia.
Qed.

Lemma drawn_row_later p user w w1 i :
  w_env w1 = w_env w -> w_step w1 = S (S (w_step w)) -> drawn_row p user w1 i = drawn_row p user w (S i).
Proof.
  intros He Hs. unfold drawn_row, drawn_slug, drawn_id. rewrite He, Hs.
  by replace (w_step w + 2 * S i)%nat with (S (S (w_step w)) + 2 * i)%nat by lia.
Qed.

Lemma creation_later n p user w w1 r w' :
  w_env w1 = w_env w -> w_tables w1 = w_tables w -> w_step w1 = S (S (w_step w)) -> draw_taken w 0 = true ->
  creation_outcome n p user w1 r w' -> creation_outcome (S n) p user w r w'.
Proof.
  intros He Ht Hs H0 [(i & Hi & Hfree & Hbefore & Hr & Hw)|(Hall & Hr & Hw)].
  - left. exists (S i). rewrite <- (draw_taken_later w w1), <- (drawn_row_later p user w w1), <- Ht by done.
    split; [lia|]. split; [done|]. split; [|done]. intros [|j] Hj; [done|]. rewrite <- (draw_taken_later w w1) by done. apply Hbefore. lia.
  - right. rewrite <- Ht. split; [|done]. intros [|i] Hi; [done|]. rewrite <- (draw_taken_later w w1) by done. apply Hall. lia.
Qed.

Lemma run_create_attempts n : forall p user w,
  no_faults w -> w_txnow w = None -> creatable p = true -> is_Some (t_users (w_tables w) !! user) ->
  exists r w', run (create_attempts n user p) w = (r, w') /\ creation_outcome n p user w r w'.
Proof.
  induction n as [|n IH]; intros p user w Hf Htx Hp Hu.
  { do 2 eexists. split; [reflexivity|]. right. split; [lia|]. by split. }
  cbn [create_attempts]. rewrite run_bind. unfold generateSlug. rewrite run_bind, run_wrap, run_rand_Read by auto with ping.
  cbn [run ret]. rewrite run_bind, run_attempt, run_stmt, exec_ok by auto with ping.
  cbn [w_tables w_seqs tick]. rewrite db_CreateMonitor_cases by done.
  set (slug := slug_of_bytes _). replace slug with (drawn_slug (w_env w) (w_step w) 0)
    by (unfold drawn_slug; by rewrite Nat.add_0_r).
  replace (cur_uuid (tick w)) with (drawn_id (w_env w) (w_step w) 0) by (unfold drawn_id; by rewrite Nat.add_0_r).
  replace (sql_now (tick w)) with (env_clock (w_env w) (S (w_step w + 2 * 0)))
    by (unfold sql_now; cbn; by rewrite Htx, Nat.add_0_r).
  fold (drawn_row p user w 0) (draw_taken w 0). destruct (draw_taken w 0) eqn:Euse.
  - cbn [isUniqueViolation unique_violation String.eqb Ascii.eqb Bool.eqb negb].
    set (w1 := tick (set_db _ _ _)).
    destruct (IH p user w1) as (r & w' & Hr & Hcase); try done.
    { by apply no_faults_tick, no_faults_set_db, no_faults_tick. }
    exists r, w'. split; [exact Hr|]. by apply (creation_later n p user w w1).
  - do 2 eexists. split; [reflexivity|]. left. exists O. split; [lia|]. split; [done|]. split; [lia|]. by split.
Qed.
End create.

(** ** Updates *)

Section update.
Context `{Extern}.

Definition updatable (p : store_UpdateMonitorParams) (m : Monitor) : bool :=
  schedule_kind_check (coalesce (textOrNull (sum_ScheduleKind p)) (m_schedule_kind m))
  && method_check (coalesce (textOrNull (sum_Method p)) (m_method m)).

(** The events after an update: one more exactly when the PATCH carried a field. *)
Definition change_recorded (id : UUID) (meta : option EventMeta) (t t' : Tables) : Prop :=
  match meta with
  | None => t_events t' = t_events t
  | Some fields => exists e, t_events t' = t_events t ++ [e] /\ e_monitor_id e = id /\
                     e_type e = "config_change" /\ e_meta e = fields
  end.

Definition log_tables_same (t t' : Tables) : Prop :=
  other_tables_same t t' /\ t_checkins t' = t_checkins t /\ t_alerts t' = t_alerts t.

Lemma pgUUID_uuid_or_404 s u w : pgUUID s = Ok u -> run (uuid_or_404 s) w = (Ok u, w).
Proof. unfold uuid_or_404. intros ->. done. Qed.

Lemma run_UpdateMonitor p idS userS id user w :
  no_faults w -> keyed_monitors (w_tables w) -> pgUUID idS = Ok id -> pgUUID userS = Ok user ->
  exists r w', run (UpdateMonitor idS userS p) w = (r, w') /\
  match t_monitors (w_tables w) !! id with
  | Some m =>
      if N.eqb (m_user_id m) user then
        if updatable p m then
          let m' := updated_monitor (update_params id user p) (cur_clock w) m in
          r = Ok (toMonitor m') /\ t_monitors (w_tables w') = <[id := m']> (t_monitors (w_tables w)) /\
          change_recorded id (changedFieldsMeta p) (w_tables w) (w_tables w') /\
          log_tables_same (w_tables w) (w_tables w')
        else r = Err (EWrap "store: update monitor" check_violation) /\ w_tables w' = w_tables w
      else r = Err not_found /\ w_tables w' = w_tables w
  | None => r = Err not_found /\ w_tables w' = w_tables w
  end.
Proof.
  intros Hf Hk Hid Huser. unfold UpdateMonitor.
  rewrite run_bind, (pgUUID_uuid_or_404 _ _ _ Hid), run_bind, (pgUUID_uuid_or_404 _ _ _ Huser).
  start_tx; [done|solve_strict|].
  rewrite run_bind, run_on_err, (in_tx_stmt _ (cur_clock w)) by (by apply in_tx_start).
  change (w_db (tx_start w)) with (w_tables w, w_seqs w).
  unfold db_UpdateMonitor, sql_update_owned. cbn [fst snd um_id um_user_id um_schedule_kind um_method update_params].
  destruct (t_monitors (w_tables w) !! id) as [m|] eqn:Em; [|done].
  destruct (N.eqb (m_user_id m) user) eqn:Eu; cbn [andb]; [|done].
  fold (updatable p m). destruct (updatable p m); cbn [negb]; [|done].
  set (m' := updated_monitor _ _ _). set (w1 := tick _).
  assert (Hm' : m_id m' = id) by (cbn; by apply Hk in Em).
  assert (Hw1 : in_tx (cur_clock w) w1) by (by apply in_tx_step, in_tx_start).
  assert (Hlk : is_Some (t_monitors (w_tables w1) !! m_id m')) by (cbn -[m']; rewrite lookup_insert_eq; by eexists).
  rewrite run_bind. destruct (changedFieldsMeta p) as [meta|] eqn:Ec.
  - rewrite run_bind.
    destruct (run_recordEventMeta (m_id m') "config_change" "Configuration updated" (Some meta) _ w1 Hw1 Hlk)
      as (e & -> & ->). cbn [run ret]. split; [done|]. split; [cbn -[m']; by rewrite Hm'|]. split; [|done].
    eexists. split; [done|]. done.
  - cbn [run ret]. split; [done|]. split; [cbn -[m']; by rewrite Hm'|]. done.
Qed.
End update.

(** ** The list *)

Section list.
Context `{ExternLaws}.

(** The caller's monitors that pass the filter, newest first. *)
Definition listed (user : UUID) (f : ListMonitorsFilter) (m : Monitor) : bool :=
  N.eqb (m_user_id m) user
  && match textOrNull (lf_Search f) with
     | None => true
     | Some s => pg_ilike (m_name m) ("%" +:+ s +:+ "%") || pg_ilike (m_slug m) ("%" +:+ s +:+ "%")
     end
  && opt_eqb String.eqb (textOrNull (lf_Kind f)) (m_kind m)
  && matches_display_state (textOrNull (lf_DisplayState f)) m.

Definition listing (user : UUID) (f : ListMonitorsFilter) (t : Tables) : list Monitor :=
  sort_by newest_first (List.filter (listed user f) (monitor_rows t)).

Definition monitor_cursor (m : Monitor) : string := encodeCursor (m_created_at m) (m_id m).

Definition years_ok (t : Tables) : Prop :=
  forall id m, t_monitors t !! id = Some m -> year_0_to_9999 (m_created_at m) = true.

Lemma newest_total x y : newest_first x y = true \/ newest_first y x = true.
Proof. unfold newest_first. destruct (N.leb_spec (m_id y) (m_id x)), (N.leb_spec (m_id x) (m_id y)); lia. Qed.

Lemma newest_trans x y z : newest_first x y = true -> newest_first y z = true -> newest_first x z = true.
Proof.
  unfold newest_first. rewrite !orb_true_iff, !andb_true_iff, !Z.ltb_lt, !Z.eqb_eq, !N.leb_le. lia.
Qed.

Lemma before_cursor_newest x y :
  before_cursor (Some (m_created_at x)) (Some (m_id x)) y = negb (newest_first y x).
Proof.
  unfold before_cursor, newest_first. apply eq_true_iff_eq.
  rewrite negb_true_iff, !orb_true_iff, !andb_true_iff, orb_false_iff, andb_false_iff.
  rewrite !Z.ltb_lt, Z.ltb_ge, !Z.eqb_eq, Z.eqb_neq, N.ltb_lt, N.leb_gt. lia.
Qed.

Lemma matches_page_listed user f c i limit m :
  matches_page (mkListMonitorsByUserPageParams user c i (textOrNull (lf_Search f)) (textOrNull (lf_Kind f))
    (textOrNull (lf_DisplayState f)) limit) m = listed user f m && before_cursor c i m.
Proof.
  unfold matches_page, listed, opt_eqb. cbn [lp_user_id lp_cursor_created_at lp_cursor_id lp_search lp_kind lp_display_state].
  destruct (N.eqb _ _), (before_cursor c i m); cbn [andb]; by rewrite ?andb_true_r, ?andb_false_r.
Qed.

Lemma encodeCursor_nonempty t id : encodeCursor t id <> "".
Proof.
  unfold encodeCursor. intros Henc. pose proof (b64_round_trip (FormatRFC3339Nano t +:+ String "|" (uuid_string id))) as Hr.
  rewrite Henc in Hr. injection Hr as Hr. pose proof (cut_bar_app _ (uuid_string id) (no_bar_time t)) as Hc.
  by rewrite <- Hr in Hc.
Qed.

Definition static_db (t : Tables) (w : World) : Prop := no_faults w /\ w_tables w = t.

Context (t : Tables) (Hk : keyed_monitors t) (Hy : years_ok t).

Lemma listing_in user f m : m ∈ listing user f t -> t_monitors t !! m_id m = Some m.
Proof using Hk.
  unfold listing. rewrite elem_of_sort_by. intros [Hm _]%list_elem_of_In%filter_In.
  apply list_elem_of_In, elem_of_monitor_rows in Hm; done.
Qed.

Lemma listing_after user f pre x rest :
  listing user f t = pre ++ x :: rest ->
  sort_by newest_first (List.filter (fun m => listed user f m
     && before_cursor (Some (m_created_at x)) (Some (m_id x)) m) (monitor_rows t)) = rest.
Proof using Hk.
  intros Hl. apply (page_rows newest_first newest_total newest_trans (listed user f) _ (monitor_rows t) pre x rest).
  - eapply NoDup_fmap_1. by apply NoDup_monitor_ids.
  - intros y z Hy' Hz H1 H2. apply elem_of_monitor_rows in Hy', Hz; [|done..].
    unfold newest_first in H1, H2. rewrite orb_true_iff, andb_true_iff, Z.ltb_lt, Z.eqb_eq, N.leb_le in H1, H2.
    assert (m_id y = m_id z) as Eid by lia. congruence.
  - intros y. apply before_cursor_newest.
  - exact Hl.
Qed.

Definition mp_page (p : MonitorPage) : list store_Monitor * string := (mp_Monitors p, mp_NextCursor p).

(** One page of the caller's list, as the client's loop sees it. *)
Definition list_page (userS : string) (limit : Z) (f : ListMonitorsFilter) (cursor : string)
    : Prog (list store_Monitor * string) :=
  let! p := ListMonitors userS cursor limit f in ret (mp_page p).

Lemma run_list_page userS user limit f pre rest w :
  pgUUID userS = Ok user -> 0 < limit -> listing user f t = pre ++ rest -> static_db t w ->
  exists w', static_db t w' /\
    run (list_page userS limit f (cursor_after monitor_cursor pre)) w
    = (Ok (toMonitor <$> take (Z.to_nat limit) rest,
           next_cursor monitor_cursor (Z.to_nat limit) (take (Z.to_nat limit) rest)), w').
Proof using Hk Hy H.
  intros Hu Hlim Hl [Hf Ht]. unfold list_page, ListMonitors. rewrite Hu, !run_bind. cbn [lift_res run].
  set (cur := match last pre with Some x => Some (m_created_at x, m_id x) | None => None end).
  assert (Hcur : run (if String.eqb (cursor_after monitor_cursor pre) "" then ret None
      else on_err (fun _ => invalid_cursor)
             (let! c := lift_res (decodeCursor (cursor_after monitor_cursor pre)) in ret (Some c))) w = (Ok cur, w)).
  { unfold cursor_after, cur. destruct (last pre) as [x|] eqn:El; [|done]. unfold monitor_cursor.
    rewrite (proj2 (String.eqb_neq _ _) (encodeCursor_nonempty _ _)), decode_encode_cursor; [done|].
    eapply Hy, (listing_in user f). rewrite Hl. apply last_Some in El as [l ->]. set_solver. }
  rewrite run_bind, Hcur, run_bind, run_wrap, run_stmt, exec_ok by auto with ping.
  unfold db_ListMonitorsByUserPage, sql_page. cbn [lp_page_limit fst].
  rewrite (proj2 (Z.ltb_ge _ _)) by lia. rewrite Ht.
  rewrite (List.filter_ext _ _ (matches_page_listed user f (fst <$> cur) (snd <$> cur) limit)).
  assert (Hrows : sort_by newest_first (List.filter (fun m => listed user f m && before_cursor (fst <$> cur) (snd <$> cur) m)
                    (monitor_rows t)) = rest).
  { unfold cur. destruct (last pre) as [x|] eqn:El; cbn [fmap option_fmap option_map].
    - apply last_Some in El as [pre' ->]. rewrite <- app_assoc in Hl. by apply (listing_after user f pre').
    - apply last_None in El as ->. cbn in Hl. rewrite <- Hl. unfold listing. f_equal.
      apply List.filter_ext. intros m. apply andb_true_r. }
  rewrite Hrows. set (w' := tick _). unfold sql_limit. set (shown := take (Z.to_nat limit) rest).
  exists w'. split; [split; [by apply no_faults_tick, no_faults_set_db|done]|].
  unfold next_cursor, cursor_after, last_row.
  destruct (Z.eqb_spec (Z.of_nat (length shown)) limit) as [Elen|Elen].
  - rewrite (proj2 (Nat.eqb_eq _ _)) by lia. rewrite run_bind.
    destruct (last shown) as [x|] eqn:El; [done|]. apply last_None in El. rewrite El in Elen. simpl in Elen. lia.
  - by rewrite (proj2 (Nat.eqb_neq _ _)) by lia.
Qed.
End list.

(** ** Properties *)

Section properties.
Context `{Extern}.

(** Slugs: ten random bytes make a slug of sixteen characters, all in
    a-z and 2-7, and two different draws never make the same slug, so no
    entropy is lost. *)
Lemma slug_spec buf buf' :
  String.length buf = 10%nat -> String.length buf' = 10%nat ->
  String.length (slug_of_bytes buf) = slugLen /\ str_all slug_char (slug_of_bytes buf) = true /\
  (slug_of_bytes buf = slug_of_bytes buf' -> buf = buf').
Proof.
  intros Hb Hb'. destruct (slug_of_ten_bytes buf Hb) as (_ & H1 & H2 & H3).
  destruct (slug_of_ten_bytes buf' Hb') as (_ & _ & H2' & _). split_and!; [done..|].
  intros Es. apply string_bits_inj. by rewrite <- H2, <- H2', Es.
Qed.

(** C25. Creation, outside a transaction and when no action fails: five times
    a slug and an id are drawn until no monitor has either; the first pair that
    is free becomes those of a new row in state "new" with the requested
    columns, created at the instant of its insertion, an http monitor due for a
    probe at once, and nothing else changes; exactly when all five draws are
    taken is there an error, and then nothing changed. *)
Theorem CreateMonitor_spec p user w :
  no_faults w -> w_txnow w = None -> creatable p = true ->
  pgUUID (scm_UserID p) = Ok user -> is_Some (t_users (w_tables w) !! user) ->
  exists r w', run (CreateMonitor p) w = (r, w') /\
  ((exists i, (i < maxSlugRetries)%nat /\ draw_taken w i = false /\ (forall j, (j < i)%nat -> draw_taken w j = true) /\
     r = Ok (toMonitor (drawn_row p user w i)) /\ w_tables w' = put_monitor (drawn_row p user w i) (w_tables w)) \/
   ((forall i, (i < maxSlugRetries)%nat -> draw_taken w i = true) /\
     r = Err (EMsg "store: create monitor: exhausted 5 slug retries") /\ w_tables w' = w_tables w)).
Proof.
  intros Hf Htx Hp Hu Hex. unfold CreateMonitor. rewrite Hu. exact (run_create_attempts maxSlugRetries p user w Hf Htx Hp Hex).
Qed.

(** What a PATCH does to a column: [col] is the row's new value. *)
Definition text_patched (new old col : string) : Prop :=
  (new = "" -> col = old) /\ (new <> "" -> col = new).
Definition nullable_patched (new : string) (old col : option string) : Prop :=
  (new = "" -> col = old) /\ (new <> "" -> col = Some new).
Definition value_patched {A} (new : option A) (old col : option A) : Prop :=
  (new = None -> col = old) /\ (forall v, new = Some v -> col = Some v).
Definition stored_patched {A} (new : option A) (old col : A) : Prop :=
  (new = None -> col = old) /\ (forall v, new = Some v -> col = v).

(** The row after a PATCH at [now]: every settable column has the value the PATCH
    carries for it, or the old one; the others are the old ones. *)
Record patched (p : store_UpdateMonitorParams) (now : Time) (m m' : Monitor) : Prop := {
  pt_name : text_patched (sum_Name p) (m_name m) (m_name m');
  pt_schedule_kind : nullable_patched (sum_ScheduleKind p) (m_schedule_kind m) (m_schedule_kind m');
  pt_period_s : value_patched (sum_PeriodS p) (m_period_s m) (m_period_s m');
  pt_cron_expr : nullable_patched (sum_CronExpr p) (m_cron_expr m) (m_cron_expr m');
  pt_tz : text_patched (sum_TZ p) (m_tz m) (m_tz m');
  pt_grace_s : value_patched (sum_GraceS p) (m_grace_s m) (m_grace_s m');
  pt_url : nullable_patched (sum_URL p) (m_url m) (m_url m');
  pt_method : nullable_patched (sum_Method p) (m_method m) (m_method m');
  pt_interval_s : value_patched (sum_IntervalS p) (m_interval_s m) (m_interval_s m');
  pt_timeout_s : value_patched (sum_TimeoutS p) (m_timeout_s m) (m_timeout_s m');
  pt_fail_threshold : value_patched (sum_FailThreshold p) (m_fail_threshold m) (m_fail_threshold m');
  pt_http_config : stored_patched (sum_HTTPConfig p) (m_http_config m) (m_http_config m');
  pt_auto_resume : stored_patched (sum_AutoResume p) (m_auto_resume m) (m_auto_resume m');
  pt_updated_at : m_updated_at m' = now;
  pt_identity : (m_id m', m_user_id m', m_kind m', m_slug m', m_created_at m')
                = (m_id m, m_user_id m, m_kind m, m_slug m, m_created_at m);
  pt_watch : (m_state m', m_fail_streak m', m_last_checkin_at m', m_next_deadline m', m_next_probe_at m')
             = (m_state m, m_fail_streak m, m_last_checkin_at m, m_next_deadline m, m_next_probe_at m);
  pt_flags : (m_alerts_muted m', m_paused_at m', m_reminder_every_s m', m_tls_warned_expires_at m')
             = (m_alerts_muted m, m_paused_at m, m_reminder_every_s m, m_tls_warned_expires_at m)
}.

(** The fields a PATCH carries, by their names in the API. *)
Inductive carries (p : store_UpdateMonitorParams) : string -> Prop :=
| carries_name : sum_Name p <> "" -> carries p "name"
| carries_schedule_kind : sum_ScheduleKind p <> "" -> carries p "schedule_kind"
| carries_period_s v : sum_PeriodS p = Some v -> carries p "period_s"
| carries_cron_expr : sum_CronExpr p <> "" -> carries p "cron_expr"
| carries_tz : sum_TZ p <> "" -> carries p "tz"
| carries_grace_s v : sum_GraceS p = Some v -> carries p "grace_s"
| carries_url : sum_URL p <> "" -> carries p "url"
| carries_method : sum_Method p <> "" -> carries p "method"
| carries_interval_s v : sum_IntervalS p = Some v -> carries p "interval_s"
| carries_timeout_s v : sum_TimeoutS p = Some v -> carries p "timeout_s"
| carries_fail_threshold v : sum_FailThreshold p = Some v -> carries p "fail_threshold"
| carries_http_config v : sum_HTTPConfig p = Some v -> carries p "http_config"
| carries_auto_resume v : sum_AutoResume p = Some v -> carries p "auto_resume".

(** The timeline after a PATCH of [id]: one more event that names the carried
    fields, each once, or nothing when none is carried. *)
Definition patch_recorded (p : store_UpdateMonitorParams) (id : UUID) (t t' : Tables) : Prop :=
  (t_events t' = t_events t /\ forall f, ~ carries p f) \/
  exists e fields, t_events t' = t_events t ++ [e] /\ e_monitor_id e = id /\ e_type e = "config_change" /\
    e_meta e = MetaFields fields /\ fields <> [] /\ NoDup fields /\ forall f, f ∈ fields <-> carries p f.

Lemma updated_monitor_patched p id user now m : patched p now m (updated_monitor (update_params id user p) now m).
Proof.
  assert (Htext : forall new old, text_patched new old (default old (textOrNull new))).
  { intros new old. unfold text_patched, textOrNull. by destruct (String.eqb_spec new ""). }
  assert (Hnull : forall new old, nullable_patched new old (coalesce (textOrNull new) old)).
  { intros new old. unfold nullable_patched, textOrNull. by destruct (String.eqb_spec new ""). }
  assert (Hvalue : forall A (new old : option A), value_patched new old (coalesce new old)).
  { intros A [v|] old; (split; [done|]); [intros v' [= <-]|]; done. }
  assert (Hstored : forall A (new : option A) (old : A), stored_patched new old (default old new)).
  { intros A [v|] old; (split; [done|]); [intros v' [= <-]|]; done. }
  by split.
Qed.

(** The names [changedFieldsMeta] collects, from pairs of a name and whether it
    was carried. *)
Lemma flagged_names (l : list (string * bool)) f :
  f ∈ concat ((fun '(name, changed) => if changed : bool then [name] else []) <$> l) <-> (f, true) ∈ l.
Proof.
  induction l as [|[n [|]] l IH]; cbn; [by rewrite !elem_of_nil| |]; rewrite ?elem_of_cons, IH; naive_solver.
Qed.

Lemma flagged_names_nodup (l : list (string * bool)) :
  NoDup l.*1 -> NoDup (concat ((fun '(name, changed) => if changed : bool then [name] else []) <$> l)).
Proof.
  induction l as [|[n [|]] l IH]; cbn; [done| |]; intros [Hn Hl]%NoDup_cons; [|by apply IH].
  apply NoDup_cons. split; [|by apply IH]. intros Hin%flagged_names. apply Hn. apply list_elem_of_fmap. by exists (n, true).
Qed.

Lemma change_recorded_patch p id t t' :
  sum_HTTPConfig p <> Some "" -> change_recorded id (changedFieldsMeta p) t t' -> patch_recorded p id t t'.
Proof.
  intros Hcfg. unfold changedFieldsMeta. cbv zeta.
  set (set_ := fun s : string => negb (String.eqb s "")).
  set (pairs := [("name", set_ (sum_Name p)); ("schedule_kind", set_ (sum_ScheduleKind p));
    ("period_s", bool_decide (is_Some (sum_PeriodS p))); ("cron_expr", set_ (sum_CronExpr p)); ("tz", set_ (sum_TZ p));
    ("grace_s", bool_decide (is_Some (sum_GraceS p))); ("url", set_ (sum_URL p)); ("method", set_ (sum_Method p));
    ("interval_s", bool_decide (is_Some (sum_IntervalS p))); ("timeout_s", bool_decide (is_Some (sum_TimeoutS p)));
    ("fail_threshold", bool_decide (is_Some (sum_FailThreshold p))); ("http_config", set_ (default "" (sum_HTTPConfig p)));
    ("auto_resume", bool_decide (is_Some (sum_AutoResume p)))]).
  assert (Hset : forall s, set_ s = true <-> s <> "") by (intros s; unfold set_; by rewrite negb_true_iff, String.eqb_neq).
  assert (Hcarried : forall f, (f, true) ∈ pairs <-> carries p f).
  { intros f. split.
    - unfold pairs. rewrite !elem_of_cons, elem_of_nil.
      intros H0. repeat destruct H0 as [[= -> Hf]|H0]; try done; symmetry in Hf;
        first [apply Hset in Hf | apply bool_decide_eq_true in Hf as [v Hf]]; try by econstructor.
      destruct (sum_HTTPConfig p) as [c|] eqn:Ec; [by eapply carries_http_config|done].
    - assert (Hat : forall i f b, pairs !! i = Some (f, b) -> b = true -> (f, true) ∈ pairs).
      { intros i f' b Hi ->. by eapply list_elem_of_lookup_2. }
      assert (Hsome : forall A (o : option A) v, o = Some v -> bool_decide (is_Some o) = true) by (by intros A o v ->).
      intros Hf. destruct Hf as [Hs|Hs|v Hs|Hs|Hs|v Hs|Hs|Hs|v Hs|v Hs|v Hs|v Hs|v Hs];
        [apply (Hat 0%nat) with (1 := eq_refl)|apply (Hat 1%nat) with (1 := eq_refl)|apply (Hat 2%nat) with (1 := eq_refl)
        |apply (Hat 3%nat) with (1 := eq_refl)|apply (Hat 4%nat) with (1 := eq_refl)|apply (Hat 5%nat) with (1 := eq_refl)
        |apply (Hat 6%nat) with (1 := eq_refl)|apply (Hat 7%nat) with (1 := eq_refl)|apply (Hat 8%nat) with (1 := eq_refl)
        |apply (Hat 9%nat) with (1 := eq_refl)|apply (Hat 10%nat) with (1 := eq_refl)|apply (Hat 11%nat) with (1 := eq_refl)
        |apply (Hat 12%nat) with (1 := eq_refl)];
        first [by apply Hset | by eapply Hsome | apply Hset; rewrite Hs; intros Hv; apply Hcfg; cbn in Hv; by rewrite Hs, Hv]. }
  set (fields := concat ((fun '(name, changed) => if changed : bool then [name] else []) <$> pairs)).
  assert (Hfields : forall f, f ∈ fields <-> carries p f) by (intros f; by rewrite <- Hcarried, <- flagged_names).
  assert (Hnd : NoDup fields). { apply flagged_names_nodup. unfold pairs. cbn [fmap list_fmap fst]. apply (bool_decide_eq_true_1 _). vm_compute. reflexivity. }
  match goal with |- change_recorded _ (match ?l with [] => None | _ => _ end) _ _ -> _ =>
    replace l with fields by (unfold fields, pairs; cbn [fmap list_fmap concat]; by rewrite !app_nil_r) end.
  unfold patch_recorded. destruct fields as [|f0 fields]; cbn [change_recorded].
  - intros Ht. left. split; [exact Ht|]. intros f Hf%Hfields. by apply elem_of_nil in Hf.
  - intros (e & Ht & Hid & Hty & Hm). right. exists e, (f0 :: fields). by split_and!.
Qed.

(** C26. An update, when no action fails and the PATCH carries no empty
    http_config: a foreign or unknown id is a 404 and changes nothing.  For an
    own monitor, the new row has the value the PATCH carries in each column it
    carries, the old one in the others, and the instant in updated_at; it is
    stored, returned, and, exactly when a field is carried, accompanied by one
    config_change event naming each carried field once.  When its schedule kind or method
    violates the CHECK of the column, the answer is that error and nothing
    changes. *)
Theorem UpdateMonitor_spec p idS userS id user w :
  no_faults w -> keyed_monitors (w_tables w) -> pgUUID idS = Ok id -> pgUUID userS = Ok user -> sum_HTTPConfig p <> Some "" ->
  exists r w', run (UpdateMonitor idS userS p) w = (r, w') /\
  match t_monitors (w_tables w) !! id with
  | Some m =>
      if N.eqb (m_user_id m) user then
        exists m', patched p (cur_clock w) m m' /\
        if schedule_kind_check (m_schedule_kind m') && method_check (m_method m') then
          r = Ok (toMonitor m') /\ t_monitors (w_tables w') = <[id := m']> (t_monitors (w_tables w)) /\
          patch_recorded p id (w_tables w) (w_tables w') /\
          log_tables_same (w_tables w) (w_tables w')
        else r = Err (EWrap "store: update monitor" check_violation) /\ w_tables w' = w_tables w
      else r = Err not_found /\ w_tables w' = w_tables w
  | None => r = Err not_found /\ w_tables w' = w_tables w
  end.
Proof.
  intros Hf Hk Hid Hu Hcfg. destruct (run_UpdateMonitor p idS userS id user w Hf Hk Hid Hu) as (r & w' & Hr & Ho).
  exists r, w'. split; [exact Hr|]. destruct (t_monitors (w_tables w) !! id) as [m|]; [|exact Ho].
  destruct (N.eqb _ _); [|exact Ho]. exists (updated_monitor (update_params id user p) (cur_clock w) m).
  split; [apply updated_monitor_patched|]. change (schedule_kind_check _ && method_check _) with (updatable p m).
  destruct (updatable p m); [|exact Ho]. destruct Ho as (-> & Hm & He & Hl). split; [done|]. split; [exact Hm|].
  split; [by apply change_recorded_patch|exact Hl].
Qed.
End properties.

(** C27. The (created_at, id) cursor enumerates a user's monitors: following
    NextCursor from the first page until it is empty returns every monitor
    that passes the filter exactly once, newest first, for every page size,
    and the timestamps survive the trip through the cursor to the
    nanosecond. *)
Theorem ListMonitors_enumerates `{ExternLaws} userS user limit f w fuel :
  no_faults w -> keyed_monitors (w_tables w) -> years_ok (w_tables w) ->
  pgUUID userS = Ok user -> 0 < limit ->
  (length (listing user f (w_tables w)) < Z.to_nat limit * fuel)%nat ->
  exists w', run (walk fuel (list_page userS limit f) "") w
             = (Ok (toMonitor <$> listing user f (w_tables w)), w') /\ w_tables w' = w_tables w.
Proof.
  intros Hf Hk Hy Hu Hlim Hfuel.
  destruct (walk_all (listing user f (w_tables w)) toMonitor monitor_cursor (Z.to_nat limit)
              (list_page userS limit f) (static_db (w_tables w))) with (fuel := fuel) (w := w) as (w' & [_ Ht] & Hr).
  - lia.
  - intros m _. apply encodeCursor_nonempty.
  - intros pre rest w1 Hl Hst. by apply (run_list_page _ Hk Hy userS user).
  - done.
  - done.
  - by exists w'.
Qed.

(** ** At concrete inputs *)

#[local] Existing Instance demo_extern.

Definition demo_create : store_CreateMonitorParams :=
  mk_store_CreateMonitorParams "10" "heartbeat" "Nightly" "period" (Some 900) "" "UTC" (Some 300) "" ""
    None None None None None.

Lemma slug_spec_witness :
  let a := "aaaaaaaaaa" in let b := "aaaaaaaaab" in
  String.length (slug_of_bytes a) = slugLen /\ slug_of_bytes a <> slug_of_bytes b.
Proof.
  intros a b. destruct (slug_spec a b) as (H1 & _ & H2); [reflexivity|reflexivity|].
  split; [exact H1|]. intros Es. apply H2 in Es. discriminate Es.
Defined.

Lemma CreateMonitor_spec_witness :
  exists r w', run (CreateMonitor demo_create) (demo_world demo_env []) = (r, w') /\ is_ok r = true /\
    w_tables w' <> w_tables (demo_world demo_env []).
Proof.
  destruct (CreateMonitor_spec demo_create 10%N (demo_world demo_env []))
    as (r & w' & Hr & [(i & _ & _ & _ & -> & Ht)|(Hall & _)]).
  - apply demo_no_faults.
  - reflexivity.
  - reflexivity.
  - vm_compute. reflexivity.
  - by eexists.
  - eexists _, w'. split; [exact Hr|]. split; [reflexivity|]. rewrite Ht.
    intros E%(f_equal t_monitors). apply (f_equal size) in E. cbn -[size] in E.
    rewrite map_size_insert_None in E by reflexivity. vm_compute in E. discriminate E.
  - specialize (Hall O ltac:(unfold maxSlugRetries; lia)). vm_compute in Hall. discriminate Hall.
Defined.

(** A PATCH that switches a period schedule to cron. *)
Definition switch_to_cron : store_UpdateMonitorParams :=
  mk_store_UpdateMonitorParams "" "cron" None "* * * * *" "" None "" "" None None None None None.

Lemma UpdateMonitor_spec_witness :
  exists r w', run (UpdateMonitor "1" "10" switch_to_cron) (demo_world demo_env [demo_heartbeat "up" None]) = (r, w') /\
    is_ok r = true /\ patch_recorded switch_to_cron 1 (demo_tables [demo_heartbeat "up" None]) (w_tables w').
Proof.
  destruct (UpdateMonitor_spec switch_to_cron "1" "10" 1%N 10%N (demo_world demo_env [demo_heartbeat "up" None]))
    as (r & w' & Hr & Hm).
  - apply demo_no_faults.
  - apply demo_keyed.
  - vm_compute. reflexivity.
  - vm_compute. reflexivity.
  - discriminate.
  - exists r, w'. split; [exact Hr|].
    replace (t_monitors (w_tables (demo_world demo_env [demo_heartbeat "up" None])) !! 1%N)
      with (Some (demo_heartbeat "up" None)) in Hm by (vm_compute; reflexivity).
    destruct Hm as (m' & Hp & Hm). destruct (pt_schedule_kind _ _ _ _ Hp) as [_ Hkind].
    destruct (pt_method _ _ _ _ Hp) as [Hmethod _]. rewrite Hkind, Hmethod in Hm by (discriminate || reflexivity).
    destruct Hm as (-> & _ & Hc & _). split; [reflexivity|exact Hc].
Defined.

(** The stored period survives the switch, so the stored schedule no longer
    validates and the next successful ping of the monitor is an error. *)
Example switch_to_cron_breaks_pings :
  let w := demo_world demo_env [demo_heartbeat "up" None] in
  let '(r1, w1) := run (UpdateMonitor "1" "10" switch_to_cron) w in
  let '(r2, w2) := run (RecordCheckin (mkRecordCheckinParams "backup" CheckinSuccess "" "" "" demo_t0)) w1 in
  is_ok r1 = true /\ is_ok r2 = false /\ t_checkins (w_tables w2) = [].
Proof. vm_compute. repeat split. Qed.

Lemma ListMonitors_enumerates_witness :
  let w := demo_world demo_env [demo_heartbeat "up" None; demo_http "up" 0] in
  exists w', run (walk 3 (list_page "10" 1 (mkListMonitorsFilter "" "" "")) "") w
             = (Ok (toMonitor <$> [demo_http "up" 0; demo_heartbeat "up" None]), w').
Proof.
  intros w.
  destruct (@ListMonitors_enumerates demo_extern demo_extern_laws "10" 10%N 1 (mkListMonitorsFilter "" "" "") w 3)
    as (w' & Hr & _).
  - apply demo_no_faults.
  - apply demo_keyed.
  - intros id m [_ Hm]%demo_lookup. assert (m = demo_heartbeat "up" None \/ m = demo_http "up" 0) as [-> | ->] by set_solver;
      vm_compute; reflexivity.
  - vm_compute. reflexivity.
  - reflexivity.
  - vm_compute. lia.
  - exists w'. rewrite Hr. f_equal.
Defined.
