(* ===== verification/Feeds.v ===== *)
(** * Feeds: monitor flags, the timeline and the logs (store/events.go, store/checkin.go, store/prober.go)

    Pause, mute, unmute and resume write a flag and its event in one
    transaction; the event feeds, the check-in log and the probe log are pages
    keyed by a BIGSERIAL id. *)
From S2P Require Import Prelude GoLib NetAddr Calendar Models Extern Store Queries Logic Demo Schedule Convert Checkin Scheduler Paging Monitor.
Local Open Scope Z_scope.
Local Open Scope ping_scope.

(** ** The id cursor *)

Definition encodeIDCursor (id : Z) : string := b64_encode (FormatInt id).

Definition decodeIDCursor (cursor : string) : Res (option Z) :=
  if String.eqb cursor "" then Ok None
  else match b64_decode cursor with
       | None => Err (EMsg "illegal base64 data")
       | Some raw => match ParseInt lim64 raw with
                     | None => Err (EMsg "invalid syntax")
                     | Some id => Ok (Some id)
                     end
       end.

(** ** Domain rows *)

Record store_Event := mk_store_Event {
  se_ID : Z;
  se_MonitorID : string;
  se_Type : string;
  se_Message : string;
  se_Meta : EventMeta;
  se_CreatedAt : Time
}.

Record store_Checkin := mk_store_Checkin {
  sc_ID : Z;
  sc_MonitorID : string;
  sc_Kind : string;
  sc_SourceIP : option string;
  sc_UserAgent : option string;
  sc_Body : option string;
  sc_CreatedAt : Time
}.

Record store_ProbeResult := mk_store_ProbeResult {
  sp_ID : Z;
  sp_MonitorID : string;
  sp_OK : bool;
  sp_HTTPStatus : option Z;
  sp_LatencyMS : option Z;
  sp_Error : string;
  sp_TLSExpiresAt : option Time;
  sp_CreatedAt : Time
}.

(** EventPage, CheckinPage and ProbeResultPage: the rows and NextCursor. *)
Definition Page (R : Type) : Type := list R * string.

Section feeds.
Context `{Extern}.

Definition event_of_row (r : Models.Event) : store_Event :=
  mk_store_Event (e_id r) (uuid_string (e_monitor_id r)) (e_type r) (e_message r) (e_meta r) (e_created_at r).

Definition sourceIPString (addr : option Addr) : option string := addr_String <$> addr.

Definition checkin_of_row (r : Models.Checkin) : store_Checkin :=
  mk_store_Checkin (c_id r) (uuid_string (c_monitor_id r)) (c_kind r) (sourceIPString (c_source_ip r))
    (c_user_agent r) (c_body r) (c_created_at r).

Definition probe_of_row (r : Models.ProbeResult) : store_ProbeResult :=
  mk_store_ProbeResult (p_id r) (uuid_string (p_monitor_id r)) (p_ok r) (p_http_status r) (p_latency_ms r)
    (text_String (p_error r)) (p_tls_expires_at r) (p_created_at r).

(** A full page names its last id; a full page of no rows panics. *)
Definition id_page {A R} (rid : A -> Z) (conv : A -> R) (rows : list A) (limit : Z) : Prog (Page R) :=
  if Z.of_nat (length rows) =? limit then
    let! l := last_row rows in ret (conv <$> rows, encodeIDCursor (rid l))
  else ret (conv <$> rows, "").

Definition toEventPage (rows : list Models.Event) (limit : Z) : Prog (Page store_Event) :=
  id_page e_id event_of_row rows limit.

Definition toCheckinPage (rows : list Models.Checkin) (limit : Z) : Prog (Page store_Checkin) :=
  id_page c_id checkin_of_row rows limit.

Definition toProbeResultPage (rows : list Models.ProbeResult) (limit : Z) : Prog (Page store_ProbeResult) :=
  id_page p_id probe_of_row rows limit.

(** ** The feeds *)

Definition cursor_or_400 (cursor : string) : Prog (option Z) :=
  on_err (fun _ => invalid_cursor) (lift_res (decodeIDCursor cursor)).

Definition ListEventsByUser (userID monitorID eventType cursor : string) (limit : Z) : Prog (Page store_Event) :=
  let! userUUID := uuid_or_404 userID in
  match optionalUUID monitorID with
  | Err _ => ret ([], "")
  | Ok monitorUUID =>
      let! cursorID := cursor_or_400 cursor in
      let! rows := wrap "store: list events by user"
                     (stmt (db_ListEventsByUserPage userUUID monitorUUID (textOrNull eventType) cursorID limit)) in
      toEventPage rows limit
  end.

Definition ListEventsByMonitor (monitorID eventType cursor : string) (limit : Z) : Prog (Page store_Event) :=
  let! monitorUUID := uuid_or_404 monitorID in
  let! cursorID := cursor_or_400 cursor in
  let! rows := wrap "store: list events by monitor"
                 (stmt (db_ListEventsByMonitorPage monitorUUID (textOrNull eventType) cursorID limit)) in
  toEventPage rows limit.

Definition ListCheckinsByMonitor (monitorID cursor : string) (limit : Z) : Prog (Page store_Checkin) :=
  let! monitorUUID := uuid_or_404 monitorID in
  let! cursorID := cursor_or_400 cursor in
  let! rows := wrap "store: list checkins by monitor"
                 (stmt (db_ListCheckinsByMonitorPage monitorUUID cursorID limit)) in
  toCheckinPage rows limit.

Definition outcomeFilter (outcome : string) : option bool :=
  if String.eqb outcome "success" then Some true
  else if String.eqb outcome "fail" then Some false else None.

Definition ListProbeResultsByMonitor (monitorID outcome cursor : string) (limit : Z)
    : Prog (Page store_ProbeResult) :=
  let! monitorUUID := uuid_or_404 monitorID in
  let! cursorID := cursor_or_400 cursor in
  let! rows := wrap "store: list probe results by monitor"
                 (stmt (db_ListProbeResultsByMonitor monitorUUID (outcomeFilter outcome) cursorID limit)) in
  toProbeResultPage rows limit.

(** ** The latency chart (store/prober.go) *)

Record LatencyBucket := mkLatencyBucket {
  lb_BucketStart : Time;
  lb_P50 : string;
  lb_P95 : string;
  lb_Avg : string;
  lb_SampleCount : Z
}.

Definition latency_bucket_of_row (r : LatencySeriesByMonitorRow) : LatencyBucket :=
  mkLatencyBucket (lr_bucket_start r) (lr_p50 r) (lr_p95 r) (lr_avg r) (lr_sample_count r).

Definition LatencySeriesByMonitor (monitorID : string) (since : Time) (bucketSeconds : Z) : Prog (list LatencyBucket) :=
  let! monitorUUID := uuid_or_404 monitorID in
  let! rows := wrap "store: latency series by monitor" (stmt (db_LatencySeriesByMonitor bucketSeconds monitorUUID since)) in
  ret (map latency_bucket_of_row rows).

(** ** Flags *)

Definition flagMonitor (id callerUserID : string) (update : UUID -> UUID -> Sql Monitor)
    (eventType message : string) : Prog store_Monitor :=
  let! ids := lift_res (parseMonitorIDs id callerUserID) in
  withTx (
    let! row := on_err (no_rows_404 ("store: flag monitor (" +:+ eventType +:+ ")"))
                  (stmt (update ids.1 ids.2)) in
    let! _ := recordEvent (m_id row) eventType message in
    ret (toMonitor row)).

Definition PauseMonitor (id callerUserID : string) : Prog store_Monitor :=
  flagMonitor id callerUserID db_PauseMonitor "pause" "Monitor paused".

Definition MuteMonitor (id callerUserID : string) : Prog store_Monitor :=
  flagMonitor id callerUserID db_MuteMonitor "mute" "Alerts muted".

Definition UnmuteMonitor (id callerUserID : string) : Prog store_Monitor :=
  flagMonitor id callerUserID db_UnmuteMonitor "unmute" "Alerts unmuted".

Definition ResumeMonitor (id callerUserID : string) (now : Time) : Prog store_Monitor :=
  let! ids := lift_res (parseMonitorIDs id callerUserID) in
  withTx (
    let! m := on_err (no_rows_404 "store: resume: load monitor") (stmt (db_GetMonitorByID ids.1)) in
    let! nextDeadline := lift_res (nextDeadlineFor m now) in
    let! row := on_err (no_rows_404 "store: resume monitor")
                  (stmt (db_ResumeMonitor nextDeadline ids.1 ids.2)) in
    let! _ := recordEvent (m_id row) "resume" "Monitor resumed" in
    ret (toMonitor row)).
End feeds.

(** ** The id-keyed pages *)

Lemma b64_encode_nonempty s : s <> "" -> b64_encode s <> "".
Proof. intros Hs E. pose proof (b64_round_trip s) as H. rewrite E in H. by injection H. Qed.

Lemma encodeIDCursor_nonempty z : is_int64 z -> encodeIDCursor z <> "".
Proof.
  intros Hz. apply b64_encode_nonempty. intros E. pose proof (ParseInt_FormatInt z Hz) as H. by rewrite E in H.
Qed.

Lemma decode_encode_id z : is_int64 z -> decodeIDCursor (encodeIDCursor z) = Ok (Some z).
Proof.
  intros Hz. unfold decodeIDCursor. rewrite (proj2 (String.eqb_neq _ _) (encodeIDCursor_nonempty z Hz)).
  unfold encodeIDCursor. by rewrite b64_round_trip, ParseInt_FormatInt.
Qed.

Section id_pages.
Context {A R : Type} (rid : A -> Z) (conv : A -> R) (keep : Tables -> A -> bool) (table : Tables -> list A).
Context (t : Tables) (limit : Z) (context : string).

Definition desc (a b : A) : bool := rid b <=? rid a.

(** The rows of the feed, newest first. *)
Definition feed_rows : list A := sort_by desc (List.filter (keep t) (table t)).

Definition feed_page (cursor : string) : Prog (Page R) :=
  let! cursorID := cursor_or_400 cursor in
  let! rows := wrap context (stmt (sql_page limit (fun t => log_page rid (keep t) cursorID (table t)))) in
  id_page rid conv rows limit.

(** The state the client pages through: nothing fails and nothing is written. *)
Definition quiescent (w : World) : Prop := no_faults w /\ w_tables w = t.

Context (Hlim : 0 < limit) (Hids : NoDup (rid <$> table t)) (H64 : Forall (fun r => is_int64 (rid r)) (table t)).

Lemma rid_inj x y : x ∈ table t -> y ∈ table t -> rid x = rid y -> x = y.
Proof using Hids.
  clear H64 Hlim. revert Hids. generalize (table t). induction l as [|z l IH]; [set_solver|].
  cbn. intros [Hn Hnd]%NoDup_cons Hx Hy E. assert (Hf : forall v, v ∈ l -> rid v <> rid z).
  { intros v Hv Ev. apply Hn. rewrite <- Ev. by apply list_elem_of_fmap_2. }
  assert (Cx : x = z \/ x ∈ l) by set_solver. assert (Cy : y = z \/ y ∈ l) by set_solver.
  destruct Cx as [->|Cx], Cy as [->|Cy]; [done| | |by apply IH]; exfalso; by eapply Hf.
Qed.

Lemma desc_total x y : desc x y = true \/ desc y x = true.
Proof. unfold desc. lia. Qed.

Lemma desc_trans x y z : desc x y = true -> desc y z = true -> desc x z = true.
Proof. unfold desc. lia. Qed.

(** What the query returns after the rows [pre]. *)
Lemma rows_after pre rest :
  feed_rows = pre ++ rest ->
  log_page rid (keep t) (rid <$> last pre) (table t) = rest.
Proof using Hids Hlim.
  intros Hl. unfold log_page. destruct (last pre) as [x|] eqn:El; cbn [fmap option_fmap option_map].
  - apply last_Some in El as [pre' ->]. rewrite <- app_assoc in Hl. cbn in Hl.
    apply (page_rows desc desc_total desc_trans (keep t) (fun r => rid r <? rid x) (table t) pre' x rest).
    + by eapply NoDup_fmap_1.
    + intros y z Hy Hz. unfold desc. intros. apply rid_inj; [done..|lia].
    + intros y. unfold desc. lia.
    + exact Hl.
  - apply last_None in El as ->. cbn in Hl. rewrite <- Hl. unfold feed_rows. f_equal.
    apply List.filter_ext. intros r. apply andb_true_r.
Qed.

Lemma feed_row_int64 r : r ∈ feed_rows -> is_int64 (rid r).
Proof using H64.
  unfold feed_rows. rewrite elem_of_sort_by. intros [Hr _]%list_elem_of_In%filter_In.
  rewrite Forall_forall in H64. by apply H64, list_elem_of_In.
Qed.

Lemma feed_page_run pre rest w :
  feed_rows = pre ++ rest -> quiescent w ->
  exists w', quiescent w' /\
    run (feed_page (cursor_after (fun r => encodeIDCursor (rid r)) pre)) w
    = (Ok (conv <$> take (Z.to_nat limit) rest,
           next_cursor (fun r => encodeIDCursor (rid r)) (Z.to_nat limit) (take (Z.to_nat limit) rest)), w').
Proof using Hids Hlim H64.
  intros Hl [Hf Ht]. unfold feed_page. rewrite run_bind. unfold cursor_or_400. rewrite run_on_err.
  assert (Hdec : decodeIDCursor (cursor_after (fun r => encodeIDCursor (rid r)) pre) = Ok (rid <$> last pre)).
  { unfold cursor_after. destruct (last pre) as [x|] eqn:El; [|done]. cbn. apply decode_encode_id.
    apply last_Some in El as [pre' ->]. apply feed_row_int64. rewrite Hl. set_solver. }
  rewrite Hdec. cbn [lift_res run]. rewrite run_bind, run_wrap, run_stmt, exec_ok by auto with ping.
  unfold sql_page. rewrite (proj2 (Z.ltb_ge _ _)) by lia. cbn [fst]. rewrite Ht, (rows_after pre rest Hl).
  set (w' := tick _). unfold sql_limit, id_page. exists w'. split.
  { split; [by apply no_faults_tick, no_faults_set_db|done]. }
  unfold next_cursor, cursor_after, last_row. set (shown := take (Z.to_nat limit) rest).
  destruct (Z.eqb_spec (Z.of_nat (length shown)) limit) as [E|E].
  - rewrite (proj2 (Nat.eqb_eq _ _)) by lia. rewrite run_bind.
    destruct (last shown) as [x|] eqn:El; [done|]. apply last_None in El. rewrite El in E. simpl in E. lia.
  - by rewrite (proj2 (Nat.eqb_neq _ _)) by lia.
Qed.

Lemma feed_walk fuel w :
  quiescent w -> (length feed_rows < Z.to_nat limit * fuel)%nat ->
  exists w', quiescent w' /\ run (walk fuel feed_page "") w = (Ok (conv <$> feed_rows), w').
Proof using Hids Hlim H64.
  intros Hq Hfuel. apply (walk_all feed_rows conv (fun r => encodeIDCursor (rid r)) (Z.to_nat limit) feed_page quiescent).
  - lia.
  - intros r Hr. by apply encodeIDCursor_nonempty, feed_row_int64.
  - intros pre rest w' Hl Hq'. by apply feed_page_run.
  - done.
  - done.
Qed.
End id_pages.

Section feed_facts.
Context `{Extern}.

(** The ids of the three logs are distinct BIGINTs. *)
Definition serial_ids (t : Tables) : Prop :=
  (NoDup (e_id <$> t_events t) /\ Forall (fun r => is_int64 (e_id r)) (t_events t)) /\
  (NoDup (c_id <$> t_checkins t) /\ Forall (fun r => is_int64 (c_id r)) (t_checkins t)) /\
  (NoDup (p_id <$> t_probe_results t) /\ Forall (fun r => is_int64 (p_id r)) (t_probe_results t)).

(** What the two filters of the feeds select: no event type is all of them, and a
    type that no event has selects nothing; an outcome other than "success"
    and "fail" is all of them. *)
Definition of_type (ty : string) (e : Models.Event) : bool := String.eqb ty "" || String.eqb (e_type e) ty.
Definition of_outcome (outcome : string) (p : Models.ProbeResult) : bool :=
  if String.eqb outcome "success" then p_ok p else if String.eqb outcome "fail" then negb (p_ok p) else true.

Lemma of_type_sql ty e : opt_eqb String.eqb (textOrNull ty) (e_type e) = of_type ty e.
Proof. unfold of_type, textOrNull. destruct (String.eqb_spec ty ""); cbn; [done|]. by rewrite String.eqb_sym. Qed.

Lemma of_outcome_sql outcome p : opt_eqb Bool.eqb (outcomeFilter outcome) (p_ok p) = of_outcome outcome p.
Proof. unfold of_outcome, outcomeFilter. repeat case_match; by destruct (p_ok p). Qed.

Lemma feed_rows_ext {A} (rid : A -> Z) (keep keep' : Tables -> A -> bool) table t :
  (forall r, keep t r = keep' t r) -> feed_rows rid keep table t = feed_rows rid keep' table t.
Proof. intros Hk. unfold feed_rows. f_equal. by apply List.filter_ext. Qed.

Definition monitor_events (id : UUID) (ty : string) (t : Tables) : list Models.Event :=
  feed_rows e_id (fun _ e => N.eqb (e_monitor_id e) id && of_type ty e) t_events t.

Definition user_events (user : UUID) (mon : option UUID) (ty : string) (t : Tables) : list Models.Event :=
  feed_rows e_id (fun t e => owned_by t user (e_monitor_id e) && opt_eqb N.eqb mon (e_monitor_id e)
                           && of_type ty e) t_events t.

Definition monitor_checkins (id : UUID) (t : Tables) : list Models.Checkin :=
  feed_rows c_id (fun _ c => N.eqb (c_monitor_id c) id) t_checkins t.

Definition monitor_probes (id : UUID) (outcome : string) (t : Tables) : list Models.ProbeResult :=
  feed_rows p_id (fun _ p => N.eqb (p_monitor_id p) id && of_outcome outcome p) t_probe_results t.

(** The walk of [page] from the first page returns [rows], in that order, and
    leaves the database as it was. *)
Definition walks {R} (page : string -> Prog (Page R)) (rows : list R) (limit : Z) (w : World) : Prop :=
  forall fuel, (length rows < Z.to_nat limit * fuel)%nat ->
  exists w', run (walk fuel page "") w = (Ok rows, w') /\ w_tables w' = w_tables w.

(** The one-table feeds: the row's owner is a column. *)
Lemma feed_walks {A R} (rid : A -> Z) (conv : A -> R) keep table limit context w :
  no_faults w -> 0 < limit -> NoDup (rid <$> table (w_tables w)) ->
  Forall (fun r => is_int64 (rid r)) (table (w_tables w)) ->
  walks (feed_page rid conv keep table limit context) (conv <$> feed_rows rid keep table (w_tables w)) limit w.
Proof.
  intros Hf Hlim Hnd H64 fuel Hfuel. rewrite length_fmap in Hfuel.
  destruct (feed_walk rid conv keep table (w_tables w) limit context Hlim Hnd H64 fuel w) as (w' & [_ Ht] & Hr);
    [done|done|]. by exists w'.
Qed.

(** C28. The cursors of the four feeds enumerate them: starting without a cursor
    and following NextCursor until it is empty, a client that asks for [limit]
    rows at a time gets every matching row exactly once, newest first, however
    the rows fall on pages (a last page that is exactly full costs one more,
    empty, page).  An event feed asked for a type has only the events of that
    type, none when no event is of it; a probe feed asked for "success" or
    "fail" has only those probes, and asked for any other outcome it has all
    of them. *)
Theorem feeds_enumerate w idS id userS user mon monS ty outcome limit :
  no_faults w -> serial_ids (w_tables w) -> 0 < limit ->
  pgUUID idS = Ok id -> pgUUID userS = Ok user -> optionalUUID monS = Ok mon ->
  let t := w_tables w in
  walks (fun c => ListEventsByMonitor idS ty c limit) (event_of_row <$> monitor_events id ty t) limit w /\
  walks (fun c => ListEventsByUser userS monS ty c limit) (event_of_row <$> user_events user mon ty t) limit w /\
  walks (fun c => ListCheckinsByMonitor idS c limit) (checkin_of_row <$> monitor_checkins id t) limit w /\
  walks (fun c => ListProbeResultsByMonitor idS outcome c limit)
    (probe_of_row <$> monitor_probes id outcome t) limit w.
Proof.
  intros Hf ([He1 He2] & [Hc1 Hc2] & [Hp1 Hp2]) Hlim Hid Huser Hmon t.
  unfold ListEventsByMonitor, ListEventsByUser, ListCheckinsByMonitor, ListProbeResultsByMonitor, uuid_or_404.
  rewrite Hid, Huser, Hmon. unfold monitor_events, user_events, monitor_probes.
  split_and!; [erewrite feed_rows_ext|erewrite feed_rows_ext| |erewrite feed_rows_ext];
    try (by apply feed_walks); intros r; cbn beta; by rewrite <- ?of_type_sql, <- ?of_outcome_sql.
Qed.

End feed_facts.

(** ** Flags *)

Inductive FlagOp :=
| OpPause
| OpMute
| OpUnmute
| OpResume (at_ : Time).

Section flag_facts.
Context `{Extern}.

Definition flag_prog (op : FlagOp) : string -> string -> Prog store_Monitor :=
  match op with
  | OpPause => PauseMonitor
  | OpMute => MuteMonitor
  | OpUnmute => UnmuteMonitor
  | OpResume at_ => fun id user => ResumeMonitor id user at_
  end.

Definition flag_event (op : FlagOp) : string :=
  match op with OpPause => "pause" | OpMute => "mute" | OpUnmute => "unmute" | OpResume _ => "resume" end.

(** The deadline a resume arms. *)
Definition flag_deadline (op : FlagOp) (m : Monitor) : Res (option Time) :=
  match op with OpResume at_ => nextDeadlineFor m at_ | _ => Ok None end.

(** The columns each operation writes. *)
Definition flagged (op : FlagOp) (now : Time) (deadline : option Time) (m : Monitor) : Monitor :=
  with_updated_at now
    match op with
    | OpPause => with_paused_at (Some now) m
    | OpMute => with_alerts_muted true m
    | OpUnmute => with_alerts_muted false m
    | OpResume _ => with_next_deadline deadline (with_state "up" (with_paused_at None m))
    end.

(** What one flag operation on monitor [id] by [user] returns and leaves. *)
Definition flag_outcome (op : FlagOp) (id user : UUID) (now : Time) (t : Tables) (r : Res store_Monitor)
    (t' : Tables) : Prop :=
  match t_monitors t !! id with
  | None => r = Err not_found /\ t' = t
  | Some m =>
      match flag_deadline op m with
      | Err e => r = Err e /\ t' = t
      | Ok deadline =>
          if N.eqb (m_user_id m) user then
            let m' := flagged op now deadline m in
            r = Ok (toMonitor m') /\ t_monitors t' = <[id := m']> (t_monitors t) /\ log_tables_same t t' /\
            exists e, t_events t' = t_events t ++ [e] /\ e_monitor_id e = id /\ e_type e = flag_event op
          else r = Err not_found /\ t' = t
      end
  end.

Lemma run_owned_update context id user f type message now w m :
  in_tx now w -> keyed_monitors (w_tables w) -> t_monitors (w_tables w) !! id = Some m ->
  (forall m, m_id (f now m) = m_id m) ->
  (let '(r, w1) := run (let! row := on_err (no_rows_404 context) (stmt (sql_update_owned id user f)) in
                        let! _ := recordEvent (m_id row) type message in ret (toMonitor row)) w in
   if N.eqb (m_user_id m) user then
     r = Ok (toMonitor (f now m)) /\ t_monitors (w_tables w1) = <[id := f now m]> (t_monitors (w_tables w)) /\
     log_tables_same (w_tables w) (w_tables w1) /\
     exists e, t_events (w_tables w1) = t_events (w_tables w) ++ [e] /\ e_monitor_id e = id /\ e_type e = type
   else r = Err not_found).
Proof.
  intros Hw Hk Hm Hf. assert (Hid : m_id m = id) by (by apply Hk in Hm).
  rewrite run_bind, run_on_err, (in_tx_stmt _ now) by done. unfold sql_update_owned, w_db. cbn [fst].
  rewrite Hm. destruct (N.eqb (m_user_id m) user); [|done]. rewrite run_bind.
  rewrite (run_recordEvent _ _ _ now); [|by apply in_tx_step|].
  2:{ cbn. rewrite Hf, lookup_insert_eq. by eexists. }
  cbn. rewrite !Hf, Hid. split_and!; try done. by eexists.
Qed.

Lemma run_flag op idS userS id user w :
  no_faults w -> keyed_monitors (w_tables w) -> parseMonitorIDs idS userS = Ok (id, user) ->
  exists r w', run (flag_prog op idS userS) w = (r, w') /\
    flag_outcome op id user (cur_clock w) (w_tables w) r (w_tables w').
Proof.
  intros Hf Hk Hids. pose proof (in_tx_start w Hf) as Hw.
  assert (Hmissing : forall context f type message, t_monitors (w_tables w) !! id = None ->
    run (let! row := on_err (no_rows_404 context) (stmt (sql_update_owned id user f)) in
         let! _ := recordEvent (m_id row) type message in ret (toMonitor row)) (tx_start w)
    = (Err not_found, tick (set_w_db (w_tables w, w_seqs w) (tx_start w)))).
  { intros context f type message Hm. rewrite run_bind, run_on_err, (in_tx_stmt _ _ _ Hw).
    unfold sql_update_owned, w_db. cbn [fst w_tables tx_start set_txnow tick]. by rewrite Hm. }
  destruct op; unfold flag_prog, PauseMonitor, MuteMonitor, UnmuteMonitor, ResumeMonitor, flagMonitor; rewrite Hids;
    cbn [lift_res bind fst snd].
  1-3: start_tx; [done|solve_strict|]; unfold flag_outcome; cbn [flag_deadline];
    unfold db_PauseMonitor, db_MuteMonitor, db_UnmuteMonitor;
    destruct (t_monitors (w_tables w) !! id) as [m|] eqn:Hm; [|by rewrite Hmissing];
    match goal with |- context [on_err (no_rows_404 ?c) (stmt (sql_update_owned _ _ ?f))] =>
      match goal with |- context [recordEvent _ ?ty ?msg] =>
        pose proof (run_owned_update c id user f ty msg (cur_clock w) (tx_start w) m Hw Hk Hm (fun _ => eq_refl)) as Ho
      end end;
    destruct (run _ _) as [r w1]; destruct (N.eqb (m_user_id m) user);
    [destruct Ho as (-> & Ho); by split|by subst r].
  start_tx; [done|solve_strict|]. unfold flag_outcome. rewrite run_bind, run_on_err, (in_tx_stmt _ _ _ Hw).
  unfold db_GetMonitorByID, sql_one, w_db. cbn [fst w_tables tx_start set_txnow tick].
  destruct (t_monitors (w_tables w) !! id) as [m|] eqn:Hm; [|done]. cbn [lift_res bind flag_deadline].
  destruct (nextDeadlineFor m at_) as [dl|e]; [|done]. unfold db_ResumeMonitor.
  match goal with |- context [on_err (no_rows_404 ?c) (stmt (sql_update_owned _ _ ?f))] =>
    match goal with |- context [run _ ?w0] =>
      pose proof (run_owned_update c id user f "resume" "Monitor resumed" (cur_clock w) w0 m
                    (in_tx_step _ _ _ Hw) Hk Hm (fun _ => eq_refl)) as Ho
    end end.
  destruct (run _ _) as [r w1]; destruct (N.eqb (m_user_id m) user);
    [destruct Ho as (-> & Ho); by split|by subst r].
Qed.
End flag_facts.

(** ** Properties *)

#[local] Existing Instance demo_extern.

(** In the store alone, a foreign monitor whose schedule does not validate is
    that error and not the 404 the comment of ResumeMonitor promises. *)
Example foreign_resume_names_the_schedule :
  let '(_, w) := run (UpdateMonitor "1" "10" switch_to_cron) (demo_world demo_env [demo_heartbeat "up" None]) in
  fst (run (PauseMonitor "1" "11") w) = Err not_found /\
  match fst (run (ResumeMonitor "1" "11" demo_t0) w) with Err e => e <> not_found | Ok _ => False end.
Proof. vm_compute. split; [reflexivity|discriminate]. Qed.

(** Resuming a down monitor ends the outage in the state but not in the
    timeline: no 'up' event is written, so the next failure makes a second
    'down' event in a row. *)
Example resume_ends_no_outage :
  let w := demo_world demo_env [demo_heartbeat "up" None] in
  let fail := RecordCheckin (mkRecordCheckinParams "backup" CheckinFail "" "" "" demo_t0) in
  let p := let! _ := fail in let! _ := ResumeMonitor "1" "10" demo_t0 in fail in
  e_type <$> t_events (w_tables (snd (run p w))) = ["down"; "resume"; "down"].
Proof. vm_compute. reflexivity. Qed.

(** Two successful probes in one five-minute bucket, one in the next; the
    failure, the other monitor and the probe before the window do not count. *)
Example latency_buckets :
  let probe id mid ok ms at_ := mkProbeResult id mid ok (Some 200) ms None None at_ in
  let w := mkWorld (set_probe_results
      [probe 1 2%N true (Some 90) (demo_t0 - Hour); probe 2 2%N true (Some 10) demo_t0; probe 3 2%N true (Some 30) (demo_t0 + Minute);
       probe 4 2%N false None (demo_t0 + Minute); probe 5 1%N true (Some 70) demo_t0; probe 6 2%N true (Some 50) (demo_t0 + 6 * Minute)]
      (demo_tables [demo_http "up" 0])) demo_seqs 0 None demo_env in
  match fst (run (LatencySeriesByMonitor "2" (demo_t0 - Minute) 300) w) with
  | Ok bs => (fun b => (lb_BucketStart b - demo_t0, lb_Avg b, lb_SampleCount b)) <$> bs
             = [(-100 * Second, "20"%string, 2); (200 * Second, "50"%string, 1)]
  | Err _ => False
  end.
Proof. vm_compute. reflexivity. Qed.

(** An outcome that is neither "success" nor "fail" filters nothing out. *)
Example unknown_outcome_is_no_filter : outcomeFilter "failed" = outcomeFilter "".
Proof. reflexivity. Qed.

Lemma feeds_enumerate_witness :
  let w := mkWorld (set_events [mkEvent 1 1 "down" "" MetaEmpty demo_t0; mkEvent 2 1 "up" "" MetaEmpty demo_t0]
             (demo_tables [demo_heartbeat "up" None])) (mkSeqs 0 0 2 0) 0 None demo_env in
  exists w', run (walk 3 (fun c => ListEventsByMonitor "1" "" c 1) "") w
             = (Ok (event_of_row <$> [mkEvent 2 1 "up" "" MetaEmpty demo_t0; mkEvent 1 1 "down" "" MetaEmpty demo_t0]), w').
Proof.
  intros w. destruct (feeds_enumerate w "1" 1%N "10" 10%N None "" "" "" 1) as (Hev & _).
  - intros n _. reflexivity.
  - repeat split; try apply NoDup_nil_2; try apply List.Forall_nil.
    + cbn. apply NoDup_cons. split; [set_solver|apply NoDup_singleton].
    + repeat apply List.Forall_cons; try apply List.Forall_nil; vm_compute; split; discriminate.
  - reflexivity.
  - vm_compute. reflexivity.
  - vm_compute. reflexivity.
  - reflexivity.
  - destruct (Hev 3%nat) as (w' & Hr & _); [vm_compute; lia|]. exists w'. rewrite Hr. f_equal.
Defined.
