(* ===== verification/Ownership.v ===== *)
(** * Ownership: what one user's requests can do to another user's monitors

    Every monitor operation a request can name (create, update, delete, pause,
    mute, unmute, resume) runs on behalf of a caller.  [isolation] says that no
    number of them, interleaved action by action in any order and under any
    faults, changes a monitor of somebody else, its events, its check-ins, its
    probe results or its alerts. *)
From S2P Require Import Prelude GoLib Models Extern Store Queries Logic Demo Schedule Convert Checkin Scheduler Monitor Feeds.
Local Open Scope Z_scope.
Local Open Scope ping_scope.

Section ownership.
Context `{Extern}.

(** A monitor operation and the caller it runs for. *)
Inductive MonitorOp :=
| OpCreate (p : store_CreateMonitorParams)
| OpUpdate (id caller : string) (p : store_UpdateMonitorParams)
| OpDelete (id caller : string)
| OpFlag (op : FlagOp) (id caller : string).

Definition op_caller (o : MonitorOp) : string :=
  match o with OpCreate p => scm_UserID p | OpUpdate _ c _ | OpDelete _ c | OpFlag _ _ c => c end.

Definition op_prog (o : MonitorOp) : Prog unit :=
  match o with
  | OpCreate p => let! _ := CreateMonitor p in ret tt
  | OpUpdate id caller p => let! _ := UpdateMonitor id caller p in ret tt
  | OpDelete id caller => DeleteMonitor id caller
  | OpFlag op id caller => let! _ := flag_prog op id caller in ret tt
  end.

(** The log rows of one monitor. *)
Definition events_of (id : UUID) (t : Tables) := List.filter (fun e => N.eqb (e_monitor_id e) id) (t_events t).
Definition checkins_of (id : UUID) (t : Tables) := List.filter (fun c => N.eqb (c_monitor_id c) id) (t_checkins t).
Definition probes_of (id : UUID) (t : Tables) := List.filter (fun p => N.eqb (p_monitor_id p) id) (t_probe_results t).
Definition alerts_of (id : UUID) (t : Tables) := List.filter (fun a => N.eqb (a_monitor_id a) id) (t_alerts t).

(** [victim]'s monitors and everything logged about them are as in [t0]. *)
Definition untouched (victim : UUID) (t0 t : Tables) : Prop :=
  keyed_monitors t /\
  (forall id m, m_user_id m = victim -> (t_monitors t !! id = Some m <-> t_monitors t0 !! id = Some m)) /\
  (forall id m, t_monitors t0 !! id = Some m -> m_user_id m = victim ->
     events_of id t = events_of id t0 /\ checkins_of id t = checkins_of id t0 /\
     probes_of id t = probes_of id t0 /\ alerts_of id t = alerts_of id t0).

(** [victim]'s API keys are as in [t0], too. *)
Definition keyed_keys (t : Tables) : Prop := forall i k, t_api_keys t !! i = Some k -> k_id k = i.

Definition keys_untouched (victim : UUID) (t0 t : Tables) : Prop :=
  keyed_keys t /\ forall i k, k_user_id k = victim -> (t_api_keys t !! i = Some k <-> t_api_keys t0 !! i = Some k).

(** A monitor that is somebody else's. *)
Definition other_monitor (victim id : UUID) (t : Tables) : Prop :=
  exists m, t_monitors t !! id = Some m /\ m_user_id m <> victim.

Context (victim : UUID) (t0 : Tables).

Definition kept (d : DB) : Prop := untouched victim t0 d.1 /\ keys_untouched victim t0 d.1.

Definition kept_row (row : Monitor) (d : DB) : Prop := kept d /\ other_monitor victim (m_id row) d.1.

Lemma filter_other {A} (mid : A -> UUID) id id' (l : list A) :
  id <> id' ->
  List.filter (fun x => N.eqb (mid x) id') (List.filter (fun x => negb (N.eqb (mid x) id)) l)
  = List.filter (fun x => N.eqb (mid x) id') l.
Proof.
  intros Hne. induction l as [|x l IH]; simpl; [done|].
  destruct (N.eqb_spec (mid x) id) as [->|]; simpl.
  - by rewrite (proj2 (N.eqb_neq _ _) Hne).
  - by rewrite IH.
Qed.

(** Writing a row of another user. *)
Lemma untouched_put t m :
  untouched victim t0 t -> m_user_id m <> victim ->
  (forall m0, t_monitors t !! m_id m = Some m0 -> m_user_id m0 <> victim) ->
  untouched victim t0 (put_monitor m t).
Proof.
  intros (Hk & Hm & Hlog) Hu Hold. split_and!.
  - intros id m'. cbn. destruct (decide (m_id m = id)) as [<-|Hne];
      [rewrite lookup_insert_eq; by intros [= <-]|rewrite lookup_insert_ne by done; apply Hk].
  - intros id m' Hv. rewrite <- Hm by done. cbn. destruct (decide (m_id m = id)) as [<-|Hne];
      [rewrite lookup_insert_eq|by rewrite lookup_insert_ne by done].
    split; [intros [= <-]; congruence|]. intros Hl. exfalso. by apply (Hold m').
  - exact Hlog.
Qed.

Lemma untouched_not_victim t id m :
  untouched victim t0 t -> other_monitor victim id t ->
  t_monitors t0 !! id = Some m -> m_user_id m <> victim.
Proof.
  intros (_ & Hm & _) (m' & Hl & Hu) H0 Hv. apply Hm in H0; [|done]. congruence.
Qed.

(** Appending log rows of another user's monitor. *)
Lemma untouched_events t e :
  untouched victim t0 t -> other_monitor victim (e_monitor_id e) t ->
  untouched victim t0 (set_events (t_events t ++ [e]) t).
Proof.
  intros Ht Ho. pose proof (untouched_not_victim t (e_monitor_id e)) as Hnv.
  destruct Ht as (Hk & Hm & Hlog). split_and!; [done..|]. intros id m Hl Hv.
  destruct (Hlog id m Hl Hv) as (He & Hrest). split; [|done]. rewrite <- He.
  unfold events_of. cbn. rewrite List.filter_app. cbn.
  destruct (N.eqb_spec (e_monitor_id e) id) as [<-|]; [|by rewrite app_nil_r].
  exfalso. by eapply Hnv.
Qed.

Lemma untouched_cascade t id :
  untouched victim t0 t -> other_monitor victim id t -> untouched victim t0 (cascade_monitor id t).
Proof.
  intros Ht Ho. pose proof (untouched_not_victim t id) as Hnv. destruct Ht as (Hk & Hm & Hlog). split_and!.
  - intros id' m. cbn. intros Hl%lookup_delete_Some. by apply Hk, Hl.
  - intros id' m Hv. rewrite <- Hm by done. cbn. rewrite lookup_delete_Some. split; [by intros []|].
    intros Hl. split; [|done]. intros <-. destruct Ho as (m' & Hl' & Hu). congruence.
  - intros id' m Hl Hv. destruct (Hlog id' m Hl Hv) as (<- & <- & <- & <-).
    assert (Hne : id <> id') by (intros ->; eapply Hnv; done).
    unfold events_of, checkins_of, probes_of, alerts_of. cbn. by rewrite !filter_other.
Qed.

(** ** Statements *)

Lemma kept_update_owned id user f now u d r d' :
  user <> victim -> (forall n m, m_id (f n m) = m_id m /\ m_user_id (f n m) = m_user_id m) ->
  kept d -> sql_update_owned id user f now u d = (r, d') ->
  kept d' /\ forall row, r = Ok row -> kept_row row d'.
Proof.
  intros Hu Hf Hd. unfold sql_update_owned. destruct (t_monitors d.1 !! id) as [m|] eqn:Hm; [|by intros [= <- <-]].
  destruct (N.eqb_spec (m_user_id m) user) as [Hmu|]; [|by intros [= <- <-]]. intros [= <- <-].
  destruct (Hf now m) as [Hi Hui].
  assert (Hk : kept (put_monitor (f now m) d.1, d.2)).
  { destruct Hd as [Hd Hkeys]. split; [|exact Hkeys]. apply untouched_put; [exact Hd|congruence|]. intros m0 Hm0.
    assert (m_id m = id) as Em by (destruct Hd as (Hk & _); by apply Hk in Hm).
    rewrite Hi, Em in Hm0. congruence. }
  split; [done|]. intros row [= <-]. split; [done|]. exists (f now m). cbn. rewrite lookup_insert_eq.
  split; [done|congruence].
Qed.

Lemma kept_insert_event mid ty msg meta now u d r d' :
  kept d -> other_monitor victim mid d.1 -> db_InsertEvent mid ty msg meta now u d = (r, d') -> kept d'.
Proof.
  intros Hd Ho. unfold db_InsertEvent. destruct d as [t s]. case_bool_decide; intros [= <- <-]; [|done].
  destruct Hd as [Hd Hkeys]. split; [|exact Hkeys]. by apply untouched_events.
Qed.

Lemma okay_recordEventMeta row ty msg meta :
  okay (kept_row row) (recordEventMeta (m_id row) ty msg meta) (fun _ => kept).
Proof.
  apply okay_wrap, okay_stmt. intros now u d r d' [Hd Ho] Hq. by eapply kept_insert_event.
Qed.

(** The update of an owned row, its event, and nothing else. *)
Lemma okay_owned {A} (g : error -> error) q (k : Monitor -> Prog A) :
  (forall now u d r d', kept d -> q now u d = (r, d') -> kept d' /\ forall row, r = Ok row -> kept_row row d') ->
  (forall row, okay (kept_row row) (k row) (fun _ => kept)) ->
  okay kept (let! row := on_err g (stmt q) in k row) (fun _ => kept).
Proof.
  intros Hq Hk. eapply okay_bind; [|exact Hk]. apply okay_on_err, okay_stmt.
  intros now u d r d' Hd E. destruct (Hq _ _ _ _ _ Hd E) as [_ Hrow]. by apply Hrow.
Qed.

Lemma kept_gap : gap_tolerant kept.
Proof. by intros t s s'. Qed.
(** ** Operations *)

Lemma db_CreateMonitor_kept a now u d r d' :
  cm_user_id a <> victim -> kept d -> db_CreateMonitor a now u d = (r, d') -> kept d'.
Proof.
  intros Hu Hd. unfold db_CreateMonitor. destruct d as [t s]. case_match; [by intros [= <- <-]|].
  case_match eqn:Ef; [by intros [= <- <-]|]. case_match; [by intros [= <- <-]|]. intros [= <- <-].
  apply orb_false_iff in Ef as [Ef _]. apply bool_decide_eq_false in Ef.
  destruct Hd as [Hd Hkeys]. split; [|exact Hkeys]. apply untouched_put; [exact Hd|done|]. intros m0 Hm0. exfalso. apply Ef. by eexists.
Qed.

Lemma safe_create_attempts n user p : user <> victim -> safe kept (create_attempts n user p).
Proof.
  intros Hu. induction n as [|n IH]; cbn [create_attempts]; [constructor|]. apply each_bind.
  { apply each_bind; [|constructor]. apply each_wrap, each_rand_Read. done. }
  intros slug. apply each_bind.
  { apply each_attempt, safe_stmt. intros now u d r d' Hd Hq. by eapply db_CreateMonitor_kept in Hq. }
  intros [row|err]; [constructor|]. by destruct (negb _); [constructor|].
Qed.

Lemma db_UpdateMonitor_kept a now u d r d' :
  um_user_id a <> victim -> kept d -> db_UpdateMonitor a now u d = (r, d') ->
  kept d' /\ forall row, r = Ok row -> kept_row row d'.
Proof.
  intros Hu Hd. unfold db_UpdateMonitor.
  destruct (t_monitors d.1 !! um_id a); [|by intros [= <- <-]].
  destruct (_ && _); [by intros [= <- <-]|]. by apply kept_update_owned.
Qed.

Lemma db_DeleteMonitor_kept id user now u d r d' :
  user <> victim -> kept d -> db_DeleteMonitor id user now u d = (r, d') -> kept d'.
Proof.
  intros Hu Hd. unfold db_DeleteMonitor. destruct (t_monitors d.1 !! id) as [m|] eqn:Hm; [|by intros [= <- <-]].
  destruct (N.eqb_spec (m_user_id m) user) as [E|]; intros [= <- <-]; [|done].
  destruct Hd as [Hd Hkeys]. split; [|exact Hkeys]. apply untouched_cascade; [exact Hd|]. exists m. split; [done|congruence].
Qed.

Lemma advances_transaction {A B} (g : error -> error) (q : Sql A) (k : A -> Prog B) :
  (forall now u d r d', q now u d = (r, d') -> seqs_le d.2 d'.2) -> (forall a, advances (k a)) ->
  advances (let! row := on_err g (stmt q) in k row).
Proof.
  intros Hq Hk. apply each_bind; [|exact Hk]. apply each_on_err, each_stmt; [done|]. intros. by eapply Hq.
Qed.

Lemma advances_recordEventMeta mid ty msg meta : advances (recordEventMeta mid ty msg meta).
Proof.
  apply each_wrap, each_stmt; [done|]. intros now u [t s] r d'. unfold db_InsertEvent.
  case_bool_decide; intros [= <- <-]; cbn; unfold seqs_le; cbn; lia.
Qed.

Lemma update_owned_seqs id user f now u d r d' : sql_update_owned id user f now u d = (r, d') -> seqs_le d.2 d'.2.
Proof. unfold sql_update_owned. repeat case_match; intros [= <- <-]; done. Qed.

Lemma safe_owned {A} (g : error -> error) q (k : Monitor -> Prog A) :
  (forall now u d r d', kept d -> q now u d = (r, d') -> kept d' /\ forall row, r = Ok row -> kept_row row d') ->
  (forall now u d r d', q now u d = (r, d') -> seqs_le d.2 d'.2) ->
  (forall row, okay (kept_row row) (k row) (fun _ => kept)) -> (forall row, advances (k row)) ->
  safe kept (withTx (let! row := on_err g (stmt q) in k row)).
Proof.
  intros Hq Hs Hk Ha. apply safe_withTx; [apply kept_gap|by apply advances_transaction|by apply okay_owned].
Qed.

Lemma safe_UpdateMonitor id caller p user :
  pgUUID caller = Ok user -> user <> victim -> safe kept (UpdateMonitor id caller p).
Proof.
  intros Hc Hu. unfold UpdateMonitor, uuid_or_404. rewrite Hc. destruct (pgUUID id) as [i|e]; [|constructor].
  cbn [lift_res on_err bind]. apply safe_owned.
  - intros now u d r d'. by apply db_UpdateMonitor_kept.
  - intros now u d r d'. unfold db_UpdateMonitor. destruct (_ !! _); [|by intros [= <- <-]].
    destruct (_ && _); [by intros [= <- <-]|apply update_owned_seqs].
  - intros row. destruct (changedFieldsMeta p) as [meta|].
    + apply okay_bind with (M := fun _ => kept); [|intros ?; by apply okay_ret].
      eapply okay_bind; [apply okay_recordEventMeta|]. intros ?. by apply okay_ret.
    + apply okay_bind with (M := fun _ => kept); [|intros ?; by apply okay_ret].
      apply okay_ret. by intros d [].
  - intros row. destruct (changedFieldsMeta p) as [meta|]; [|constructor].
    apply each_bind; [|constructor]. apply each_bind; [apply advances_recordEventMeta|]. constructor.
Qed.

Lemma safe_flag op id caller user :
  pgUUID caller = Ok user -> user <> victim -> safe kept (flag_prog op id caller).
Proof.
  intros Hc Hu.
  assert (Hk : forall row ty msg, okay (kept_row row)
    (let! _ := recordEvent (m_id row) ty msg in ret (toMonitor row)) (fun _ => kept)).
  { intros row ty msg. eapply okay_bind; [apply okay_recordEventMeta|]. intros ?. by apply okay_ret. }
  assert (Ha : forall row ty msg, advances (let! _ := recordEvent (m_id row) ty msg in ret (toMonitor row))).
  { intros row ty msg. apply each_bind; [apply advances_recordEventMeta|]. constructor. }
  assert (Hids : parseMonitorIDs id caller = match pgUUID id with Ok i => Ok (i, user) | Err _ => Err not_found end).
  { unfold parseMonitorIDs. rewrite Hc. by destruct (pgUUID id). }
  destruct op; unfold flag_prog, PauseMonitor, MuteMonitor, UnmuteMonitor, ResumeMonitor, flagMonitor; rewrite Hids;
    (destruct (pgUUID id) as [i|e]; [|constructor]); cbn [lift_res bind fst snd].
  1-3: apply safe_owned; [|intros now u d r d'; apply update_owned_seqs|intros row; apply Hk|intros row; apply Ha];
    intros now u d r d'; by apply kept_update_owned.
  apply safe_withTx; [apply kept_gap| |].
  - apply each_bind; [apply each_on_err, each_stmt; [done|]|].
    { intros now u d r d'. unfold db_GetMonitorByID, sql_one. case_match; by intros [= <- <-]. }
    intros m. destruct (nextDeadlineFor m at_) as [dl|e]; [|constructor]. cbn [lift_res bind].
    apply advances_transaction; [intros now u d r d'; apply update_owned_seqs|intros row; apply Ha].
  - apply okay_bind with (M := fun _ => kept).
    { apply okay_on_err, okay_stmt. intros now u d r d' Hd. unfold db_GetMonitorByID, sql_one.
      case_match; by intros [= <- <-]. }
    intros m. destruct (nextDeadlineFor m at_) as [dl|e]; [|apply okay_err]. cbn [lift_res bind].
    apply okay_owned; [|intros row; apply Hk]. intros now u d r d'. by apply kept_update_owned.
Qed.

Lemma safe_op o user : pgUUID (op_caller o) = Ok user -> user <> victim -> safe kept (op_prog o).
Proof.
  intros Hc Hu. destruct o as [p|id caller p|id caller|op id caller]; cbn [op_prog op_caller] in *.
  - apply each_bind; [|constructor]. unfold CreateMonitor. rewrite Hc. by apply safe_create_attempts.
  - apply each_bind; [|constructor]. by eapply safe_UpdateMonitor.
  - unfold DeleteMonitor, uuid_or_404. rewrite Hc. destruct (pgUUID id) as [i|e]; [|constructor].
    cbn [lift_res on_err bind]. apply each_bind; [|intros n; by destruct (_ =? _); constructor].
    apply each_wrap, safe_stmt. intros now u d r d' Hd Hq. by eapply db_DeleteMonitor_kept in Hq.
  - apply each_bind; [|constructor]. by eapply safe_flag.
Qed.
End ownership.

(** ** Isolation of the store's operations

    Take any set of monitor operations, none of them on behalf of [victim],
    start them in any order and interleave their statements and transactions
    in any way, with any of them failing or losing its acknowledgement: the
    victim's monitors and API keys, and every event, check-in, probe result and
    alert about them, stay exactly as they were.  [Access] lifts this to the
    requests of the API. *)

Lemma kept_refl victim t s : keyed_monitors t -> keyed_keys t -> kept victim t (t, s).
Proof. intros Hm Hk. split; split_and!; done. Qed.

Lemma isolation `{Extern} victim ops w ps' w' :
  keyed_monitors (w_tables w) -> keyed_keys (w_tables w) ->
  Forall (fun o => exists user, pgUUID (op_caller o) = Ok user /\ user <> victim) ops ->
  rtc pool_step (op_prog <$> ops, w) (ps', w') ->
  untouched victim (w_tables w) (w_tables w') /\ keys_untouched victim (w_tables w) (w_tables w').
Proof.
  intros Hk Hkk Hops Hrun.
  apply (pool_invariant (kept victim (w_tables w))) in Hrun as [_ Hkept]; [exact Hkept| |].
  - cbn. apply Forall_fmap. eapply Forall_impl; [exact Hops|]. intros o (user & Hc & Hu). by eapply safe_op.
  - by apply kept_refl.
Qed.
