(* ===== verification/Session.v ===== *)
(** * Session: refresh tokens (store/session.go)

    Login starts a family of refresh tokens; a refresh rotates the presented
    token and issues the next one of its family; presenting a rotated token
    again revokes the family.  The steps of a refresh are separate statements,
    so refreshes race: [single_use] is about every interleaving of them. *)
From S2P Require Import Prelude GoLib Sha256 Models Extern Store Queries Logic Demo Convert Monitor.
Local Open Scope Z_scope.
Local Open Scope ping_scope.

Record RefreshToken := mkRefreshToken {
  rt_PlainToken : string;
  rt_FamilyID : string;
  rt_ExpiresAt : Time
}.

Definition hashToken (token : string) : string := hex_encode (sha256 token).

Definition newRandomToken : Prog string :=
  let! b := rand_Read 32 in ret (hex_encode b).

(** [b[6] = (b[6] & 0x0f) | 0x40; b[8] = (b[8] & 0x3f) | 0x80]. *)
Definition set_version (i : nat) (c : ascii) : ascii :=
  let n := N_of_ascii c in
  if Nat.eqb i 6 then ascii_of_N (N.lor (N.land n 0x0f) 0x40)
  else if Nat.eqb i 8 then ascii_of_N (N.lor (N.land n 0x3f) 0x80) else c.

Fixpoint map_index (f : nat -> ascii -> ascii) (i : nat) (s : string) : string :=
  match s with EmptyString => "" | String c r => String (f i c) (map_index f (S i) r) end.

Definition newRandomUUID : Prog string :=
  let! b := rand_Read 16 in ret (dashed_hex (map_index set_version 0 b)).

Definition invalid_refresh : error := newHTTPError (ESentinel ErrInvalidRefreshToken) 401.
Definition refresh_reuse : error := newHTTPError (ESentinel ErrRefreshReuse) 401.

Section session.
Context `{Extern}.

Definition issueInFamily (userID familyID : string) (ttl : Duration) : Prog RefreshToken :=
  let! plain := wrap "store: generate refresh token" newRandomToken in
  let! now := time_Now in
  let expiresAt := time_Add now ttl in
  let! userUUID := lift_res (pgUUID userID) in
  let! familyUUID := lift_res (pgUUID familyID) in
  let! _ := wrap "store: create refresh token"
              (stmt (db_CreateRefreshToken userUUID familyUUID (hashToken plain) expiresAt)) in
  ret (mkRefreshToken plain familyID expiresAt).

Definition IssueRefreshToken (userID : string) (ttl : Duration) : Prog RefreshToken :=
  let! familyID := wrap "store: generate family id" newRandomUUID in
  issueInFamily userID familyID ttl.

(** Revoke the family, then report the reuse. *)
Definition revoke_and_report {A} (context : string) (familyID : UUID) : Prog A :=
  let! _ := wrap context (stmt (db_RevokeRefreshTokenFamily familyID)) in throw refresh_reuse.

Definition RotateRefreshToken (plainToken : string) (ttl : Duration) : Prog (RefreshToken * string) :=
  let! row := on_err (fun err => if error_is_no_rows err then invalid_refresh
                                 else EWrap "store: get refresh token" err)
                (stmt (db_GetRefreshTokenByHash (hashToken plainToken))) in
  if bool_decide (is_Some (r_revoked_at row)) then throw invalid_refresh
  else if bool_decide (is_Some (r_rotated_at row)) then
    revoke_and_report "store: revoke family on reuse" (r_family_id row)
  else
    let! now := time_Now in
    if r_expires_at row <? now then throw invalid_refresh
    else
      let! rotated := attempt (stmt (db_RotateRefreshTokenIfUnrotated (r_id row))) in
      match rotated with
      | Err err =>
          if error_is_no_rows err then revoke_and_report "store: revoke family on race" (r_family_id row)
          else throw (EWrap "store: mark rotated" err)
      | Ok rotated =>
          let userID := uuid_string (r_user_id rotated) in
          let! next := issueInFamily userID (uuid_string (r_family_id rotated)) ttl in
          ret (next, userID)
      end.

Definition RevokeFamilyByToken (plainToken : string) : Prog unit :=
  let! row := attempt (stmt (db_GetRefreshTokenByHash (hashToken plainToken))) in
  match row with
  | Err err => if error_is_no_rows err then ret tt
               else throw (EWrap "store: get refresh token for logout" err)
  | Ok row => wrap "store: revoke family on logout" (stmt (db_RevokeRefreshTokenFamily (r_family_id row)))
  end.
End session.

(** ** The requests of the session endpoints *)

Inductive SessionOp :=
| OpLogin (userID : string) (ttl : Duration)
| OpRefresh (token : string) (ttl : Duration)
| OpLogout (token : string).

(** The plain token a request presented and had accepted, if it is a refresh
    that succeeded. *)
Definition session_prog `{Extern} (o : SessionOp) : Prog (option string) :=
  match o with
  | OpLogin userID ttl => let! _ := IssueRefreshToken userID ttl in ret None
  | OpRefresh token ttl => let! _ := RotateRefreshToken token ttl in ret (Some token)
  | OpLogout token => let! _ := RevokeFamilyByToken token in ret None
  end.

(** ** Tokens *)

(** Rows are stored under their id and no two have the same hash: UNIQUE. *)
Definition tokens_ok (t : Tables) : Prop :=
  (forall i r, t_refresh_tokens t !! i = Some r -> r_id r = i) /\
  (forall i j r r', t_refresh_tokens t !! i = Some r -> t_refresh_tokens t !! j = Some r' ->
     r_token_hash r = r_token_hash r' -> i = j).

Lemma elem_of_token_rows t r : tokens_ok t -> r ∈ token_rows t <-> t_refresh_tokens t !! r_id r = Some r.
Proof.
  intros [Hk _]. unfold token_rows. rewrite list_elem_of_fmap. split.
  - intros ([i r'] & -> & Hin%elem_of_map_to_list). simpl in *. by rewrite (Hk _ _ Hin).
  - intros Hr. exists (r_id r, r). split; [done|]. by apply elem_of_map_to_list.
Qed.

(** The row of a token. *)
Definition token_row (hash : string) (t : Tables) : option RefreshTokenRow :=
  find (fun r => String.eqb (r_token_hash r) hash) (token_rows t).

Lemma token_row_Some t hash r :
  tokens_ok t -> token_row hash t = Some r <-> t_refresh_tokens t !! r_id r = Some r /\ r_token_hash r = hash.
Proof.
  intros Hok. unfold token_row. split.
  - intros [Hin Hh]%find_some. apply String.eqb_eq in Hh. split; [|done].
    by apply elem_of_token_rows, list_elem_of_In.
  - intros [Hr Hh]. destruct (find _ _) as [r'|] eqn:Ef.
    + apply find_some in Ef as [Hin Hh']. apply String.eqb_eq in Hh'.
      apply list_elem_of_In, elem_of_token_rows in Hin; [|done].
      destruct Hok as [_ Hu]. rewrite (Hu _ _ _ _ Hin Hr) in Hin by congruence. congruence.
    + exfalso. apply elem_of_token_rows in Hr; [|done]. apply list_elem_of_In in Hr.
      apply (find_none _ _ Ef), String.eqb_neq in Hr. done.
Qed.

(** [create] keeps the table well formed; rotating and revoking change no hash. *)
Lemma tokens_ok_put t r :
  tokens_ok t ->
  (forall i r', t_refresh_tokens t !! i = Some r' -> r_token_hash r' = r_token_hash r -> i = r_id r) ->
  tokens_ok (put_token r t).
Proof.
  intros [Hk Hu] Hr. unfold tokens_ok, put_token. cbn. split.
  - intros i r'. destruct (decide (r_id r = i)) as [<-|]; [rewrite lookup_insert_eq; by intros [= ->]|].
    rewrite lookup_insert_ne by done. apply Hk.
  - intros i j x y. destruct (decide (r_id r = i)) as [<-|], (decide (r_id r = j)) as [<-|];
      rewrite ?lookup_insert_eq, ?lookup_insert_ne by done; [done| | |by apply Hu].
    + intros [= <-] Hy E. symmetry. eapply Hr; [exact Hy|congruence].
    + intros Hx [= <-] E. eapply Hr; [exact Hx|congruence].
Qed.

(** ** Racing for one token *)

Section race.
Context `{Extern} (plain : string) (i0 : UUID).

(** The token's row is there, under a hash of its own. *)
Definition token_present (d : DB) : Prop :=
  tokens_ok d.1 /\ exists r, t_refresh_tokens d.1 !! i0 = Some r /\ r_token_hash r = hashToken plain.

(** It has not been rotated. *)
Definition unrotated (d : DB) : Prop :=
  exists r, t_refresh_tokens d.1 !! i0 = Some r /\ r_rotated_at r = None.

Local Abbreviation token_step := (holds_on token_present unrotated).

Lemma step_same d d' : d.1 = d'.1 -> token_step d d'.
Proof. unfold holds_on, token_present, unrotated. intros ->. tauto. Qed.

Lemma step_Get hash now u d r d' : db_GetRefreshTokenByHash hash now u d = (r, d') -> token_step d d'.
Proof. unfold db_GetRefreshTokenByHash, sql_one. case_match; intros [= <- <-]; by apply step_same. Qed.

(** Rewriting a row in place without touching its hash. *)
Lemma step_put r r' t s :
  t_refresh_tokens t !! r_id r = Some r -> r_id r' = r_id r -> r_token_hash r' = r_token_hash r ->
  (r_rotated_at r' = None -> r_rotated_at r = None) -> token_step (t, s) (put_token r' t, s).
Proof.
  intros Hr Hid Hh Hrot [Hok (x & Hx & Hxh)]. cbn in *. split.
  - split.
    + apply tokens_ok_put; [done|]. intros j y Hy E. rewrite Hid. destruct Hok as [_ Hu].
      eapply Hu; [exact Hy|exact Hr|congruence].
    + cbn. rewrite Hid. destruct (decide (r_id r = i0)) as [<-|Hne].
      * rewrite lookup_insert_eq. exists r'. split; [done|congruence].
      * rewrite lookup_insert_ne by done. eauto.
  - intros (y & Hy & Hyr). cbn in Hy. rewrite Hid in Hy. unfold unrotated. cbn.
    destruct (decide (r_id r = i0)) as [<-|Hne].
    + rewrite lookup_insert_eq in Hy. simplify_eq. eauto.
    + rewrite lookup_insert_ne in Hy by done. eauto.
Qed.

Lemma step_Rotate id now u d r d' : db_RotateRefreshTokenIfUnrotated id now u d = (r, d') -> token_step d d'.
Proof.
  unfold db_RotateRefreshTokenIfUnrotated. destruct (t_refresh_tokens d.1 !! id) as [x|] eqn:Hx.
  - destruct (r_rotated_at x) eqn:E1, (r_revoked_at x) eqn:E2; intros [= <- <-]; try by apply step_same.
    intros HJ. destruct d as [t s]. assert (r_id x = id) as Hid by (destruct HJ as ([Hk _] & _); by apply Hk in Hx).
    apply (step_put x); cbn; try done. by rewrite Hid.
  - intros [= <- <-]. by apply step_same.
Qed.

Lemma step_Revoke fam now u d r d' : db_RevokeRefreshTokenFamily fam now u d = (r, d') -> token_step d d'.
Proof.
  unfold db_RevokeRefreshTokenFamily. intros [= <- <-].
  assert (Hf : forall x, r_id (revoke_in_family now fam x) = r_id x /\
    r_token_hash (revoke_in_family now fam x) = r_token_hash x /\
    r_rotated_at (revoke_in_family now fam x) = r_rotated_at x).
  { intros x. unfold revoke_in_family. by case_match. }
  intros [[Hk Hu] (x & Hx & Hh)]. cbn. split.
  - split; [split|].
    + intros i y. cbn. rewrite lookup_fmap, fmap_Some. intros (z & Hz & ->). rewrite (proj1 (Hf z)). by apply Hk.
    + intros i j y z. cbn. rewrite !lookup_fmap, !fmap_Some. intros (y' & Hy & ->) (z' & Hz & ->).
      rewrite !(proj1 (proj2 (Hf _))). by eapply Hu.
    + exists (revoke_in_family now fam x). cbn. rewrite lookup_fmap, Hx. split; [done|].
      by rewrite (proj1 (proj2 (Hf x))).
  - unfold unrotated. cbn. intros (y & Hy & Hyr). rewrite lookup_fmap, Hx in Hy. cbn in Hy. injection Hy as <-.
    exists x. split; [done|]. by rewrite (proj2 (proj2 (Hf x))) in Hyr.
Qed.

Lemma db_CreateRefreshToken_Ok user fam hash exp now u t s :
  match db_CreateRefreshToken user fam hash exp now u (t, s) with
  | (Ok r, d') => r = mkRefreshTokenRow u user fam hash exp None None now /\ d' = (put_token r t, s) /\
                  t_refresh_tokens t !! u = None /\ token_row hash t = None
  | (Err _, d') => d' = (t, s)
  end.
Proof.
  unfold db_CreateRefreshToken. destruct (bool_decide (is_Some (t_refresh_tokens t !! u))) eqn:Eid; cbn [orb]; [done|].
  destruct (existsb _ _) eqn:Eh; [done|]. destruct (bool_decide (is_Some (t_users t !! user))); [|done].
  split_and!; [done..| |].
  - apply bool_decide_eq_false in Eid. by destruct (t_refresh_tokens t !! u); [destruct Eid; eexists|].
  - unfold token_row. destruct (find _ _) as [r|] eqn:Ef; [|done]. exfalso. apply find_some in Ef.
    enough (existsb (fun r' => String.eqb (r_token_hash r') hash) (token_rows t) = true) by congruence.
    apply existsb_exists. eauto.
Qed.

Lemma step_Create user fam hash exp now u d r d' :
  db_CreateRefreshToken user fam hash exp now u d = (r, d') -> token_step d d'.
Proof.
  intros Hq. destruct d as [t s]. pose proof (db_CreateRefreshToken_Ok user fam hash exp now u t s) as Hc.
  rewrite Hq in Hc. destruct r as [r|e]; [|subst; by apply step_same].
  destruct Hc as (-> & -> & Hfresh & Hnone). intros [Hok (x & Hx & Hxh)]. cbn in Hx.
  assert (Hne : u <> i0) by congruence. split.
  - split.
    + apply tokens_ok_put; [done|]. intros j y Hy E. exfalso. cbn in E.
      assert (Hj : r_id y = j) by (destruct Hok as [Hk _]; by apply Hk). subst j.
      rewrite (proj2 (token_row_Some t hash y Hok)) in Hnone; [done|by split].
    + exists x. cbn. by rewrite lookup_insert_ne.
  - unfold unrotated. cbn. rewrite lookup_insert_ne by done. tauto.
Qed.

Lemma each_token_stmt {X} (q : Sql X) :
  (forall now u d r d', q now u d = (r, d') -> token_step d d') -> each_action token_step (stmt q).
Proof. intros Hq. apply each_stmt; [intros d; by apply step_same|]. intros. by eapply Hq. Qed.

Lemma each_issue user fam ttl : each_action token_step (issueInFamily user fam ttl).
Proof.
  assert (Hsame : forall d, token_step d d) by (intros d; by apply step_same).
  apply each_bind; [apply each_wrap, each_bind; [by apply each_rand_Read|constructor]|]. intros tok.
  apply each_bind; [by apply each_time_Now|]. intros now. cbv zeta.
  destruct (pgUUID user) as [u|]; [|constructor]. destruct (pgUUID fam) as [f|]; [|constructor].
  cbn [lift_res bind]. apply each_bind; [|constructor]. apply each_wrap, each_token_stmt. intros. by eapply step_Create.
Qed.

Lemma each_revoke {A} c fam : each_action token_step (revoke_and_report (A:=A) c fam).
Proof. apply each_bind; [|constructor]. apply each_wrap, each_token_stmt. intros. by eapply step_Revoke. Qed.

Lemma each_Rotate tok ttl : each_action token_step (RotateRefreshToken tok ttl).
Proof.
  apply each_bind; [apply each_on_err, each_token_stmt; intros; by eapply step_Get|]. intros row.
  destruct (bool_decide _); [constructor|]. destruct (bool_decide _); [apply each_revoke|].
  apply each_bind; [apply each_time_Now; intros d; by apply step_same|]. intros now.
  destruct (_ <? _); [constructor|].
  apply each_bind; [apply each_attempt, each_token_stmt; intros; by eapply step_Rotate|].
  intros [r|e]; [|destruct (error_is_no_rows e); [apply each_revoke|constructor]]. cbv zeta.
  apply each_bind; [apply each_issue|constructor].
Qed.

(** What the programs of this section win with. *)
Definition won (a : option string) : Prop := a = Some plain.

Lemma contender_report {A} (k : A -> Prog (option string)) c fam :
  contender token_present unrotated won (bind (revoke_and_report c fam) k).
Proof.
  unfold revoke_and_report. apply contender_stmt.
  - intros now u d r d' HJ Hq. destruct (step_Revoke _ _ _ _ _ _ Hq HJ) as [HJ' Ha]. split_and!; [done..|].
    left. destruct r; apply contender_err.
  - apply contender_err.
Qed.

(** A refresh of the token contends for it. *)
Lemma contender_refresh ttl :
  contender token_present unrotated won (session_prog (OpRefresh plain ttl)).
Proof.
  cbn [session_prog]. unfold RotateRefreshToken. apply contender_stmt; [|apply contender_err].
  intros now u d r d' HJ Hq. destruct (step_Get _ _ _ _ _ _ Hq HJ) as [HJ' Ha]. split_and!; [done..|]. left.
  unfold db_GetRefreshTokenByHash, sql_one in Hq.
  destruct (find _ (token_rows d.1)) as [row|] eqn:Ef; injection Hq as <- <-; [|apply contender_err].
  assert (Hid : r_id row = i0).
  { destruct HJ as [Hok (x & Hx & Hxh)]. apply (token_row_Some _ _ _ Hok) in Ef as [Hr Hh].
    destruct Hok as [_ Hu]. eapply Hu; [exact Hr|exact Hx|congruence]. }
  cbn [on_err bind]. destruct (bool_decide _); [apply contender_err|].
  destruct (bool_decide _); [apply contender_report|].
  apply contender_clock. intros now'. cbn [bind]. destruct (_ <? now'); [apply contender_err|].
  apply contender_stmt; [|apply contender_err]. intros now2 u2 d2 r2 d2' HJ2 Hq2.
  destruct (step_Rotate _ _ _ _ _ _ Hq2 HJ2) as [HJ2' Ha2]. split_and!; [done..|].
  destruct r2 as [rotated|e].
  - right. rewrite Hid in Hq2. unfold db_RotateRefreshTokenIfUnrotated in Hq2.
    destruct (t_refresh_tokens d2.1 !! i0) as [x|] eqn:Hx; [|done].
    destruct (r_rotated_at x) eqn:E1, (r_revoked_at x) eqn:E2; try done. injection Hq2 as <- <-.
    assert (Hxid : r_id x = i0) by (destruct HJ2 as ([Hk _] & _); by apply Hk in Hx).
    split_and!; [by exists x| |].
    + intros (y & Hy & Hyr). cbn in Hy. rewrite Hxid, lookup_insert_eq in Hy. injection Hy as <-. done.
    + cbn [attempt bind]. apply each_bind; [|constructor]. apply each_bind; [apply each_issue|constructor].
  - left. cbn [attempt bind]. destruct (error_is_no_rows e); [apply contender_report|apply contender_err].
Qed.

Lemma contender_op o : contender token_present unrotated won (session_prog o).
Proof.
  destruct o as [user ttl|tok ttl|tok]; [| |].
  - apply contender_bind; [|intros a; by apply contender_ret].
    apply each_bind; [|intros fam; apply each_issue].
    apply each_wrap, each_bind; [|constructor]. apply each_rand_Read. intros d. by apply step_same.
  - destruct (decide (tok = plain)) as [->|Hne]; [apply contender_refresh|].
    apply contender_bind; [apply each_Rotate|]. intros a. apply contender_ret. unfold won. congruence.
  - apply contender_bind; [|intros a; by apply contender_ret].
    apply each_bind; [apply each_attempt, each_token_stmt; intros; by eapply step_Get|].
    intros [row|e]; [|destruct (error_is_no_rows e); constructor].
    apply each_wrap, each_token_stmt. intros. by eapply step_Revoke.
Qed.
End race.

(** ** A refresh alone *)

Section refresh.
Context `{HE : ExternLaws}.

(** A fresh token of a family: live, and stored under an id and a hash nothing used. *)
Definition issued (user fam : UUID) (family : string) (expires : Time) (t : Tables) (tok : RefreshToken)
    (row : RefreshTokenRow) : Prop :=
  rt_FamilyID tok = family /\ rt_ExpiresAt tok = expires /\ r_expires_at row = expires /\
  r_token_hash row = hashToken (rt_PlainToken tok) /\ r_user_id row = user /\ r_family_id row = fam /\
  r_rotated_at row = None /\ r_revoked_at row = None /\
  t_refresh_tokens t !! r_id row = None /\ token_row (hashToken (rt_PlainToken tok)) t = None.

(** A first token: a family of its own. *)
Lemma run_newRandomUUID w : no_faults w -> exists family fam, run newRandomUUID w = (Ok family, tick w) /\ pgUUID family = Ok fam.
Proof using HE.
  intros Hf. unfold newRandomUUID. rewrite run_bind, run_rand_Read by auto with ping. cbn [run ret].
  do 2 eexists. split; [reflexivity|]. unfold pgUUID. rewrite uuid_scan_canonical; [reflexivity|].
  set (s := String.string_of_list_ascii _). assert (Hs : String.length s = 16%nat) by reflexivity.
  assert (Hm : forall i t, String.length (map_index set_version i t) = String.length t)
    by (intros i t; revert i; induction t as [|c t IH]; intros i; cbn; [done|by rewrite IH]).
  by rewrite Hm.
Qed.

(** The token that is drawn at an action. *)
Definition drawn_token (env : Env) (n : nat) : string :=
  hex_encode (String.string_of_list_ascii (env_rand env n <$> seq 0 32)).

(** A row has the id or the hash of the token already. *)
Definition token_taken (id : UUID) (plain : string) (t : Tables) : Prop :=
  is_Some (t_refresh_tokens t !! id) \/ is_Some (token_row (hashToken plain) t).

Lemma token_taken_spec id plain t :
  bool_decide (is_Some (t_refresh_tokens t !! id))
    || existsb (fun r => String.eqb (r_token_hash r) (hashToken plain)) (token_rows t) = true ->
  token_taken id plain t.
Proof using.
  intros [Hid%bool_decide_eq_true|Hh]%orb_true_iff; [by left|right]. unfold token_row.
  apply existsb_exists in Hh as (r & Hin & Hr). destruct (find _ _) as [r'|] eqn:Ef; [by eexists|].
  by rewrite (find_none _ _ Ef r Hin) in Hr.
Qed.

Lemma run_issue user fam family ttl w :
  no_faults w -> pgUUID family = Ok fam -> is_Some (t_users (w_tables w) !! user) ->
  let plain := drawn_token (w_env w) (w_step w) in
  exists r w', run (issueInFamily (uuid_string user) family ttl) w = (r, w') /\
  ((exists tok row, r = Ok tok /\ rt_PlainToken tok = plain /\
      issued user fam family (env_clock (w_env w) (S (w_step w)) + ttl) (w_tables w) tok row /\
      w_tables w' = put_token row (w_tables w)) \/
   (exists e, r = Err e /\ isUniqueViolation e = true /\
      token_taken (env_uuid (w_env w) (2 + w_step w)) plain (w_tables w) /\ w_tables w' = w_tables w)).
Proof using HE.
  intros Hf Hfam Hu plain0. unfold issueInFamily. rewrite run_bind, run_wrap. unfold newRandomToken.
  rewrite run_bind, run_rand_Read by auto with ping. cbn [run ret]. rewrite run_bind, time_Now_ok. cbv beta iota zeta.
  rewrite pgUUID_string, Hfam. cbn [lift_res bind]. rewrite run_bind, run_wrap, run_stmt, exec_ok by auto with ping.
  cbn [w_tables w_seqs tick]. set (plain := hex_encode _). change plain0 with plain. set (exp := time_Add _ _).
  pose proof (db_CreateRefreshToken_Ok user fam (hashToken plain) exp (sql_now (tick (tick w)))
                (cur_uuid (tick (tick w))) (w_tables w) (w_seqs w)) as Hq.
  assert (Herr : forall e, (db_CreateRefreshToken user fam (hashToken plain) exp (sql_now (tick (tick w)))
                (cur_uuid (tick (tick w))) (w_tables w, w_seqs w)).1 = Err e ->
                isUniqueViolation e = true /\ token_taken (cur_uuid (tick (tick w))) plain (w_tables w)).
  { intros e. unfold db_CreateRefreshToken. destruct (_ || _) eqn:Et; [|by rewrite bool_decide_true by done].
    intros [= <-]. split; [done|by apply token_taken_spec]. }
  destruct (db_CreateRefreshToken _ _ _ _ _ _ _) as [[row|e] [t' s']].
  - destruct Hq as (-> & [= -> ->] & Hid & Hhash). do 2 eexists. split; [reflexivity|]. left.
    do 2 eexists. split; [reflexivity|]. split; [reflexivity|]. split; [|reflexivity]. by unfold issued.
  - injection Hq as -> ->. do 2 eexists. split; [reflexivity|]. right. exists (EWrap "store: create refresh token" e).
    destruct (Herr e eq_refl) as [He Ht]. by split_and!.
Qed.

(** The tokens after a family is revoked. *)
Definition family_revoked (now : Time) (fam : UUID) (t t' : Tables) : Prop :=
  t' = set_refresh_tokens (revoke_in_family now fam <$> t_refresh_tokens t) t.

Definition users_exist (t : Tables) : Prop :=
  forall i r, t_refresh_tokens t !! i = Some r -> is_Some (t_users t !! r_user_id r).

(** What a refresh returns and leaves.  Its actions are numbered: it reads the
    token at 0, then either revokes the family at 1 or reads the clock at 1,
    rotates at 2, draws the next token at 3, reads the clock for its expiry at 4
    and inserts it at 5. *)
Definition refresh_outcome (plain : string) (ttl : Duration) (w : World) (r : Res (RefreshToken * string))
    (t' : Tables) : Prop :=
  let t := w_tables w in
  let clock k := env_clock (w_env w) (k + w_step w) in
  match token_row (hashToken plain) t with
  | None => r = Err invalid_refresh /\ t' = t
  | Some row =>
      if bool_decide (is_Some (r_revoked_at row)) then r = Err invalid_refresh /\ t' = t
      else if bool_decide (is_Some (r_rotated_at row)) then
        r = Err refresh_reuse /\ family_revoked (clock 1%nat) (r_family_id row) t t'
      else if r_expires_at row <? clock 1%nat then r = Err invalid_refresh /\ t' = t
      else
        let t1 := put_token (rotate_token (clock 2%nat) row) t in
        let next := drawn_token (w_env w) (3 + w_step w) in
        (exists tok new, r = Ok (tok, uuid_string (r_user_id row)) /\ rt_PlainToken tok = next /\
           issued (r_user_id row) (r_family_id row) (uuid_string (r_family_id row)) (clock 4%nat + ttl) t1 tok new /\
           t' = put_token new t1) \/
        (exists e, r = Err e /\ isUniqueViolation e = true /\
           token_taken (env_uuid (w_env w) (5 + w_step w)) next t1 /\ t' = t1)
  end.

Lemma run_report {A} c fam w :
  no_faults w -> exists w', run (revoke_and_report (A:=A) c fam) w = (Err refresh_reuse, w') /\
    family_revoked (sql_now w) fam (w_tables w) (w_tables w').
Proof using.
  intros Hf. unfold revoke_and_report. rewrite run_bind, run_wrap, run_stmt, exec_ok by auto with ping. cbn.
  eexists. by split.
Qed.

Lemma run_Rotate plain ttl w :
  no_faults w -> w_txnow w = None -> tokens_ok (w_tables w) -> users_exist (w_tables w) ->
  exists r w', run (RotateRefreshToken plain ttl) w = (r, w') /\ refresh_outcome plain ttl w r (w_tables w').
Proof using HE.
  intros Hf Htx Hok Hus. unfold RotateRefreshToken, refresh_outcome.
  rewrite run_bind, run_on_err, run_stmt, exec_ok by auto with ping.
  unfold db_GetRefreshTokenByHash, sql_one. cbn [fst]. fold (token_row (hashToken plain) (w_tables w)).
  destruct (token_row (hashToken plain) (w_tables w)) as [row|] eqn:Erow; [|by do 2 eexists].
  set (w1 := tick (set_db (w_tables w) (w_seqs w) w)). assert (Hf1 : no_faults w1) by (subst w1; auto with ping).
  pose proof Erow as Hrow. apply token_row_Some in Hrow as [Hlk _]; [|done].
  destruct (bool_decide (is_Some (r_revoked_at row))) eqn:Ev; [by do 2 eexists|].
  destruct (bool_decide (is_Some (r_rotated_at row))) eqn:Er.
  { destruct (run_report (A:=RefreshToken * string) "store: revoke family on reuse" (r_family_id row) w1 Hf1)
      as (w' & -> & Hfam). do 2 eexists. split; [done|]. split; [done|]. unfold sql_now in Hfam. subst w1. cbn in Hfam.
    by rewrite Htx in Hfam. }
  rewrite run_bind, time_Now_ok. cbv beta iota. change (cur_clock w1) with (env_clock (w_env w) (1 + w_step w)).
  destruct (_ <? _); [by do 2 eexists|].
  rewrite run_bind, run_attempt, run_stmt, exec_ok by (subst w1; auto with ping).
  unfold db_RotateRefreshTokenIfUnrotated. cbn [fst snd w_tables w_seqs tick set_db w1]. rewrite Hlk.
  apply bool_decide_eq_false in Ev, Er.
  destruct (r_rotated_at row) eqn:E1; [destruct Er; by eexists|].
  destruct (r_revoked_at row) eqn:E2; [destruct Ev; by eexists|].
  replace (sql_now _) with (env_clock (w_env w) (2 + w_step w)) by (unfold sql_now; cbn; by rewrite Htx).
  set (now := env_clock _ _). set (t1 := put_token (rotate_token now row) (w_tables w)). set (w2 := tick _).
  rewrite run_bind. cbn [r_user_id r_family_id rotate_token].
  destruct (run_issue (r_user_id row) (r_family_id row) (uuid_string (r_family_id row)) ttl w2) as (r & w' & -> & Hcase).
  { subst w2. auto with ping. }
  { apply pgUUID_string. }
  { by apply (Hus (r_id row)). }
  destruct Hcase as [(tok & new & -> & Hp & Hiss & Ht)|(e & -> & Hu & Htk & Ht)].
  - do 2 eexists. split; [reflexivity|]. left. do 2 eexists. split; [reflexivity|]. by split_and!.
  - do 2 eexists. split; [reflexivity|]. right. by exists e.
Qed.
End refresh.

(** ** Properties *)

(** C20. One refresh, outside a transaction and when no action fails: an
    unknown, revoked or expired token is ErrInvalidRefreshToken and nothing
    changes; a token that was already rotated is ErrRefreshReuse and every
    token of its family is revoked; otherwise the token is marked rotated and
    one live token of the same user and family is added, the one drawn then,
    with a hash nothing else has, which expires ttl after the clock reading
    that follows the draw (only when its id or hash is taken is there an error
    instead, and the rotation alone stays). *)
Theorem RotateRefreshToken_spec `{HE : ExternLaws} plain ttl w :
  no_faults w -> w_txnow w = None -> tokens_ok (w_tables w) -> users_exist (w_tables w) ->
  exists r w', run (RotateRefreshToken plain ttl) w = (r, w') /\ refresh_outcome plain ttl w r (w_tables w').
Proof. apply run_Rotate. Qed.

(** C19. A refresh token is accepted at most once: however many refreshes of it
    run at the same time as each other and as logins, logouts and refreshes of
    other tokens, in whatever order their statements interleave and whichever
    of them fail or lose their acknowledgement, at most one of them returns a
    new session. *)
Theorem single_use `{Extern} plain row ops w ps' w' :
  tokens_ok (w_tables w) -> token_row (hashToken plain) (w_tables w) = Some row ->
  rtc pool_step (session_prog <$> ops, w) (ps', w') ->
  forall i j, ps' !! i = Some (ret (Some plain)) -> ps' !! j = Some (ret (Some plain)) -> i = j.
Proof.
  intros Hok Hrow Hrun i j Hi Hj. apply (token_row_Some _ _ _ Hok) in Hrow as [Hlk Hh].
  apply (contest_invariant (token_present plain (r_id row)) (unrotated (r_id row)) (won plain)) in Hrun.
  - by eapply (Hrun i j).
  - split; [done|]. by exists row.
  - apply Forall_fmap, List.Forall_forall. intros o _. apply contender_op.
Qed.

#[local] Existing Instance demo_extern.

Definition demo_token : RefreshTokenRow :=
  mkRefreshTokenRow 77 10 5 (hashToken "token") (demo_t0 + Day) None None demo_t0.

Definition demo_session : World :=
  mkWorld (put_token demo_token (demo_tables [])) demo_seqs 0 None demo_env.

Lemma demo_tokens_lookup i r :
  t_refresh_tokens (put_token demo_token (demo_tables [])) !! i = Some r -> i = 77%N /\ r = demo_token.
Proof.
  cbn [t_refresh_tokens put_token set_refresh_tokens demo_tables]. rewrite lookup_insert_Some, lookup_empty.
  intros [[<- <-]|[_ ?]]; done.
Qed.

Lemma demo_tokens_ok : tokens_ok (w_tables demo_session).
Proof.
  split.
  - by intros i r [-> ->]%demo_tokens_lookup.
  - by intros i j r r' [-> ->]%demo_tokens_lookup [-> ->]%demo_tokens_lookup.
Qed.

Lemma RotateRefreshToken_spec_witness :
  exists r w', run (RotateRefreshToken "token" Day) demo_session = (r, w') /\ is_ok r = true /\
    refresh_outcome "token" Day demo_session r (w_tables w').
Proof.
  destruct (@RotateRefreshToken_spec demo_extern demo_extern_laws "token" Day demo_session) as (r & w' & Hr & Ho).
  - intros n _. reflexivity.
  - reflexivity.
  - exact demo_tokens_ok.
  - intros i r [-> ->]%demo_tokens_lookup. vm_compute. by eexists.
  - exists r, w'. split; [exact Hr|]. split; [|exact Ho].
    replace r with (fst (run (RotateRefreshToken "token" Day) demo_session)) by (by rewrite Hr).
    vm_compute. reflexivity.
Defined.

(** Two refreshes of one token: the second to read it loses. *)
Lemma single_use_witness :
  let ops := [OpRefresh "token" Day; OpRefresh "token" Day] in
  let ps := fst (run_schedule [0; 1; 0; 1; 0; 1; 0; 1; 0; 0]%nat (session_prog <$> ops) demo_session) in
  ps !! 0%nat = Some (ret (Some "token")) /\ ps !! 1%nat <> Some (ret (Some "token")).
Proof.
  intros ops ps. split; [vm_compute; reflexivity|]. intros H1.
  enough (0 = 1)%nat by discriminate.
  eapply (single_use "token" demo_token ops demo_session ps
            (snd (run_schedule [0; 1; 0; 1; 0; 1; 0; 1; 0; 0]%nat (session_prog <$> ops) demo_session))).
  - exact demo_tokens_ok.
  - vm_compute. reflexivity.
  - unfold ps. rewrite <- surjective_pairing. apply run_schedule_rtc.
  - vm_compute. reflexivity.
  - exact H1.
Defined.

(** The family's revocation does not reach a token that is issued after it: a
    replay detected between the rotation and the insertion of the next token
    revokes the family, and the token issued then is live all the same. *)
Example late_token_survives_revocation :
  let ops := [OpRefresh "token" Day; OpRefresh "token" Day] in
  let '(ps, w) := run_schedule [0; 0; 0; 1; 1; 0; 0; 0]%nat (session_prog <$> ops) demo_session in
  ps !! 0%nat = Some (ret (Some "token")) /\ ps !! 1%nat = Some (Ret (Err refresh_reuse)) /\
  (fun r => (r_family_id r, bool_decide (is_Some (r_revoked_at r)))) <$> token_rows (w_tables w)
    ≡ₚ [(5%N, true); (5%N, false)].
Proof. vm_compute. repeat split. apply Permutation_swap || reflexivity. Qed.
