(* ===== verification/User.v ===== *)
(** * User: accounts and API keys (store/user.go, store/apikey.go)

    Registration, login, and API keys: both the password and the key are kept
    as hashes only (bcrypt, a parameter, and SHA-256).  Lower-casing covers
    ASCII letters. *)
From S2P Require Import Prelude GoLib Sha256 Models Extern Store Queries Logic Demo Convert Monitor Session.
Local Open Scope Z_scope.
Local Open Scope ping_scope.

Record AuthUser := mkAuthUser { au_ID : string; au_Email : string }.

(** store.APIKey, CreatedAPIKey and AuthenticatedAPIKey *)
Record APIKey := mkAPIKey {
  ak_ID : string;
  ak_UserID : string;
  ak_Label : string;
  ak_LastUsedAt : option Time;
  ak_RevokedAt : option Time;
  ak_CreatedAt : Time
}.

Record CreatedAPIKey := mkCreatedAPIKey { cak_Key : APIKey; cak_PlainKey : string }.

Record AuthenticatedAPIKey := mkAuthenticatedAPIKey { aak_UserID : string; aak_KeyID : string }.

(** [strings.TrimSpace]. *)
Fixpoint trim_left (skip : nat) (s : string) : string :=
  match s with
  | EmptyString => ""
  | String c r =>
      match skip with
      | S k => trim_left k r
      | O => match space_width s with O => s | S k => trim_left k r end
      end
  end.

Fixpoint trim_right (s : string) : string :=
  match s with
  | EmptyString => ""
  | String c r => if String.eqb (trim_left 0 s) "" then "" else String c (trim_right r)
  end.

Definition TrimSpace (s : string) : string := trim_right (trim_left 0 s).

Definition normalizeEmail (email : string) : string := to_lower (TrimSpace email).

Section user.
Context `{Extern}.

(** [bcrypt.GenerateFromPassword] draws its own salt. *)
Definition bcrypt_GenerateFromPassword (password : string) : Prog string :=
  let! salt := rand_Read 16 in lift_res (bcrypt_generate salt password).

Definition Register (email password : string) (registrationOpen : bool) : Prog AuthUser :=
  if negb registrationOpen then throw (newHTTPError (ESentinel ErrRegistrationClosed) 403)
  else
    let email := normalizeEmail email in
    let! hash := wrap "store: hash password" (bcrypt_GenerateFromPassword password) in
    let! u := on_err (fun err => if isUniqueViolation err then newHTTPError (ESentinel ErrEmailTaken) 409
                                 else EWrap "store: create user" err)
                (stmt (db_CreateUser email hash)) in
    ret (mkAuthUser (uuid_string (u_id u)) (u_email u)).

Definition UserEmailByID (userID : string) : Prog string :=
  let! id := uuid_or_404 userID in
  let! u := on_err (no_rows_404 "store: get user by id") (stmt (db_GetUserByID id)) in
  ret (u_email u).

Definition invalid_credentials : error := newHTTPError (ESentinel ErrInvalidCredentials) 401.

(** The comparison against [dummyHash] for an unknown email only takes time. *)
Definition Authenticate (email password : string) : Prog AuthUser :=
  let email := normalizeEmail email in
  let! u := on_err (fun err => if error_is_no_rows err then invalid_credentials
                               else EWrap "store: get user by email" err)
              (stmt (db_GetUserByEmail email)) in
  if negb (bcrypt_matches (u_password_hash u) password) then throw invalid_credentials
  else ret (mkAuthUser (uuid_string (u_id u)) (u_email u)).

(** ** API keys *)

Definition apiKeyPrefix : string := "pk_".

Definition newAPIKeyToken : Prog string :=
  let! b := rand_Read 32 in ret (apiKeyPrefix +:+ hex_encode b).

Definition toAPIKey (row : ApiKey) : APIKey :=
  mkAPIKey (uuid_string (k_id row)) (uuid_string (k_user_id row)) (k_label row) (k_last_used_at row)
    (k_revoked_at row) (k_created_at row).

Definition CreateAPIKey (userID label : string) : Prog CreatedAPIKey :=
  let! userUUID := lift_res (pgUUID userID) in
  let! plain := wrap "store: generate api key" newAPIKeyToken in
  let! row := wrap "store: create api key" (stmt (db_CreateAPIKey userUUID (hashToken plain) label)) in
  ret (mkCreatedAPIKey (toAPIKey row) plain).

Definition ListAPIKeys (userID : string) : Prog (list APIKey) :=
  let! userUUID := lift_res (pgUUID userID) in
  let! rows := wrap "store: list api keys" (stmt (db_ListAPIKeysByUser userUUID)) in
  ret (map toAPIKey rows).

Definition RevokeAPIKey (id callerUserID : string) : Prog unit :=
  let! idUUID := uuid_or_404 id in
  let! userUUID := uuid_or_404 callerUserID in
  let! rowsAffected := wrap "store: revoke api key" (stmt (db_RevokeAPIKey idUUID userUUID)) in
  if rowsAffected =? 0 then throw not_found else ret tt.

Definition invalid_api_key : error := newHTTPError (EMsg "invalid or revoked api key") 401.

Definition AuthenticateAPIKey (plainKey : string) : Prog AuthenticatedAPIKey :=
  let! row := on_err (fun err => if error_is_no_rows err then invalid_api_key
                                 else EWrap "store: get api key by hash" err)
                (stmt (db_GetAPIKeyByHash (hashToken plainKey))) in
  let! _ := wrap "store: touch api key last used" (stmt (db_TouchAPIKeyLastUsed (k_id row))) in
  ret (mkAuthenticatedAPIKey (uuid_string (k_user_id row)) (uuid_string (k_id row))).
End user.

(** ** Tables *)

(** Rows under their id; emails, and key hashes, are UNIQUE. *)
Definition users_ok (t : Tables) : Prop :=
  (forall i u, t_users t !! i = Some u -> u_id u = i) /\
  (forall i j u u', t_users t !! i = Some u -> t_users t !! j = Some u' -> u_email u = u_email u' -> i = j).

Definition keys_ok (t : Tables) : Prop :=
  (forall i k, t_api_keys t !! i = Some k -> k_id k = i) /\
  (forall i j k k', t_api_keys t !! i = Some k -> t_api_keys t !! j = Some k' ->
     k_key_hash k = k_key_hash k' -> i = j).

(** Looking a row of a map up by a column is looking it up by its id. *)
Lemma find_row {R} (rid : R -> N) (f : R -> bool) (m : gmap N R) r :
  (forall i x, m !! i = Some x -> rid x = i) ->
  (forall i j x y, m !! i = Some x -> m !! j = Some y -> f x = true -> f y = true -> i = j) ->
  find f (snd <$> map_to_list m) = Some r <-> m !! rid r = Some r /\ f r = true.
Proof.
  intros Hk Hu.
  assert (Hin : forall x, In x (snd <$> map_to_list m) <-> m !! rid x = Some x).
  { intros x. rewrite <- list_elem_of_In, list_elem_of_fmap. split.
    - intros ([i y] & -> & Hy%elem_of_map_to_list). cbn in *. by rewrite (Hk _ _ Hy).
    - intros Hx. exists (rid x, x). split; [done|]. by apply elem_of_map_to_list. }
  split.
  - intros [Hr Hf]%find_some. by rewrite <- Hin.
  - intros [Hr Hf]. destruct (find f _) as [r'|] eqn:E.
    + apply find_some in E as [Hr' Hf']. apply Hin in Hr'.
      rewrite (Hu _ _ _ _ Hr' Hr Hf' Hf) in Hr'. congruence.
    + apply Hin in Hr. apply (find_none _ _ E) in Hr. congruence.
Qed.

Definition user_by_email (email : string) (t : Tables) : option User :=
  find (fun u => String.eqb (u_email u) email) (user_rows t).

Definition live_key (plain : string) (t : Tables) : option ApiKey :=
  find (live_key_with_hash (hashToken plain)) (api_key_rows t).

Lemma user_by_email_Some t email u :
  users_ok t -> user_by_email email t = Some u <-> t_users t !! u_id u = Some u /\ u_email u = email.
Proof.
  intros [Hk Hu]. unfold user_by_email, user_rows. rewrite (find_row u_id); [by rewrite String.eqb_eq|done|].
  intros i j x y Hx Hy Ex%String.eqb_eq Ey%String.eqb_eq. eapply Hu; [exact Hx|exact Hy|congruence].
Qed.

Lemma live_key_Some t plain k :
  keys_ok t -> live_key plain t = Some k <->
  t_api_keys t !! k_id k = Some k /\ k_key_hash k = hashToken plain /\ k_revoked_at k = None.
Proof.
  intros [Hk Hu]. unfold live_key, api_key_rows. rewrite (find_row k_id); [|done|].
  - unfold live_key_with_hash. rewrite andb_true_iff, String.eqb_eq, negb_true_iff, bool_decide_eq_false.
    rewrite <- eq_None_not_Some. done.
  - unfold live_key_with_hash. intros i j x y Hx Hy [Ex%String.eqb_eq _]%andb_true_iff [Ey%String.eqb_eq _]%andb_true_iff.
    eapply Hu; [exact Hx|exact Hy|congruence].
Qed.

Section user_facts.
Context `{HE : ExternLaws}.

(** What a login returns. *)
Definition login_result (email password : string) (t : Tables) : Res AuthUser :=
  match user_by_email (normalizeEmail email) t with
  | Some u => if bcrypt_matches (u_password_hash u) password
              then Ok (mkAuthUser (uuid_string (u_id u)) (u_email u)) else Err invalid_credentials
  | None => Err invalid_credentials
  end.

Lemma run_Authenticate email password w :
  no_faults w -> exists w', run (Authenticate email password) w = (login_result email password (w_tables w), w') /\
    w_tables w' = w_tables w.
Proof using.
  intros Hf. unfold Authenticate, login_result. rewrite run_bind, run_on_err, run_stmt, exec_ok by auto with ping.
  unfold db_GetUserByEmail, sql_one. cbn [fst]. fold (user_by_email (normalizeEmail email) (w_tables w)).
  destruct (user_by_email _ _) as [u|]; [|by eexists].
  destruct (bcrypt_matches _ _); cbn; by eexists.
Qed.

Lemma no_hash_no_user email t : users_ok t ->
  existsb (fun u => String.eqb (u_email u) email) (user_rows t) = bool_decide (is_Some (user_by_email email t)).
Proof using.
  intros _. unfold user_by_email. destruct (existsb _ _) eqn:Hex; symmetry.
  - apply existsb_exists in Hex as (u & Hu & Hm). apply bool_decide_eq_true.
    destruct (find _ _) eqn:Ef; [by eexists|]. by apply (find_none _ _ Ef) in Hu; rewrite Hm in Hu.
  - apply bool_decide_eq_false. intros [u Hu%find_some].
    enough (existsb (fun u => String.eqb (u_email u) email) (user_rows t) = true) by congruence.
    apply existsb_exists. eauto.
Qed.

(** An account that was not there is, and nothing else changed. *)
Definition registered (email password : string) (u : User) (w w' : World) : Prop :=
  u_email u = normalizeEmail email /\ bcrypt_matches (u_password_hash u) password = true /\
  t_users (w_tables w) !! u_id u = None /\ user_by_email (u_email u) (w_tables w) = None /\
  w_tables w' = set_users (<[u_id u := u]> (t_users (w_tables w))) (w_tables w).

Lemma run_Register email password w :
  no_faults w -> users_ok (w_tables w) ->
  exists r w', run (Register email password true) w = (r, w') /\ no_faults w' /\
  ((exists e, r = Err e /\ w_tables w' = w_tables w /\
      (is_Some (user_by_email (normalizeEmail email) (w_tables w)) -> 
         e = newHTTPError (ESentinel ErrEmailTaken) 409 \/ exists e', e = EWrap "store: hash password" e')) \/
   (exists u, r = Ok (mkAuthUser (uuid_string (u_id u)) (u_email u)) /\ registered email password u w w')).
Proof using HE.
  intros Hf Hok. unfold Register. cbn [negb]. rewrite run_bind, run_wrap. unfold bcrypt_GenerateFromPassword.
  rewrite run_bind, run_rand_Read by auto with ping. set (salt := String.string_of_list_ascii _). cbn [run lift_res].
  destruct (bcrypt_generate salt password) as [hash|e] eqn:Eh.
  2:{ do 2 eexists. split; [reflexivity|]. split; [auto with ping|]. left. eexists. split; [done|]. split; [done|].
      intros _. right. by eexists. }
  rewrite run_bind, run_on_err, run_stmt, exec_ok by auto with ping. cbn [w_tables w_seqs tick].
  unfold db_CreateUser. rewrite no_hash_no_user by done.
  destruct (bool_decide (is_Some (t_users (w_tables w) !! cur_uuid (tick w)))) eqn:Eid; cbn [orb].
  { do 2 eexists. split; [reflexivity|]. split; [auto with ping|]. left. eexists. split; [done|]. split; [done|]. by left. }
  destruct (bool_decide (is_Some (user_by_email (normalizeEmail email) (w_tables w)))) eqn:Eem.
  { do 2 eexists. split; [reflexivity|]. split; [auto with ping|]. left. eexists. split; [done|]. split; [done|]. by left. }
  apply bool_decide_eq_false in Eid, Eem. rewrite <- eq_None_not_Some in Eid, Eem.
  do 2 eexists. split; [reflexivity|]. split; [auto with ping|]. right.
  exists (mkUser (cur_uuid (tick w)) (normalizeEmail email) hash (sql_now (tick w)) (sql_now (tick w))).
  split; [done|]. split_and!; try done. cbn. by eapply bcrypt_correct.
Qed.

Lemma registered_login email email' password u w w' :
  users_ok (w_tables w) -> registered email password u w w' -> normalizeEmail email' = normalizeEmail email ->
  login_result email' password (w_tables w') = Ok (mkAuthUser (uuid_string (u_id u)) (u_email u)).
Proof using.
  intros [Hk Hu] (He & Hb & Hid & Hem & Ht) Hn. unfold login_result. rewrite Hn, Ht.
  assert (Hok' : users_ok (set_users (<[u_id u := u]> (t_users (w_tables w))) (w_tables w))).
  { assert (Hne : forall i v, t_users (w_tables w) !! i = Some v -> u_email v <> u_email u).
    { intros i v Hv Hemail. assert (Hid' : u_id v = i) by (by apply Hk).
      rewrite (proj2 (user_by_email_Some (w_tables w) (u_email u) v (conj Hk Hu))) in Hem; [done|].
      by rewrite Hid'. }
    split.
    - intros i v. cbn. rewrite lookup_insert_Some. intros [[<- <-]|[_ Hv]]; [done|by apply Hk].
    - intros i j v v'. cbn. rewrite !lookup_insert_Some.
      intros [[<- <-]|[Hi Hv]] [[<- <-]|[Hj Hv']] Hemail; [done| | |by eapply Hu]; exfalso; by eapply Hne. }
  rewrite (proj2 (user_by_email_Some _ (normalizeEmail email) u Hok')); [by rewrite Hb|].
  split; [|done]. cbn. by rewrite lookup_insert_eq.
Qed.
End user_facts.

(** Stamping or revoking a key keeps the table well formed. *)
Lemma keys_ok_put t k k' :
  keys_ok t -> t_api_keys t !! k_id k = Some k -> k_id k' = k_id k -> k_key_hash k' = k_key_hash k ->
  keys_ok (put_api_key k' t).
Proof.
  intros [Hkk Hu] Hk Hid Hh. split.
  - intros i x. cbn. rewrite lookup_insert_Some. intros [[<- <-]|[_ Hx]]; [done|by apply Hkk].
  - intros i j x y. cbn. rewrite !lookup_insert_Some, Hid.
    intros [[<- <-]|[Hi Hx]] [[<- <-]|[Hj Hy]] Heq; [done| | |by eapply Hu].
    + eapply Hu; [exact Hk|exact Hy|congruence].
    + eapply Hu; [exact Hx|exact Hk|congruence].
Qed.

Lemma run_AuthenticateAPIKey `{Extern} plain w :
  no_faults w -> keys_ok (w_tables w) ->
  exists r w', run (AuthenticateAPIKey plain) w = (r, w') /\
  match live_key plain (w_tables w) with
  | None => r = Err invalid_api_key /\ w_tables w' = w_tables w
  | Some k => r = Ok (mkAuthenticatedAPIKey (uuid_string (k_user_id k)) (uuid_string (k_id k))) /\
      exists now, w_tables w' = put_api_key (touch_key now k) (w_tables w)
  end.
Proof.
  intros Hf Hok. unfold AuthenticateAPIKey. rewrite run_bind, run_on_err, run_stmt, exec_ok by auto with ping.
  unfold db_GetAPIKeyByHash, sql_one. cbn [fst]. fold (live_key plain (w_tables w)).
  destruct (live_key plain (w_tables w)) as [k|] eqn:Ek; [|by do 2 eexists].
  apply live_key_Some in Ek as (Hk & _); [|done].
  rewrite run_bind, run_wrap, run_stmt, exec_ok by auto with ping. unfold db_TouchAPIKeyLastUsed.
  cbn [fst snd w_tables w_seqs tick set_db]. rewrite Hk. do 2 eexists. split; [reflexivity|]. split; [done|]. by eexists.
Qed.

(** The owner's revocation of a live key. *)
Lemma run_RevokeAPIKey `{Extern} idS userS k w :
  no_faults w -> t_api_keys (w_tables w) !! k_id k = Some k -> k_revoked_at k = None ->
  pgUUID idS = Ok (k_id k) -> pgUUID userS = Ok (k_user_id k) ->
  exists now w', run (RevokeAPIKey idS userS) w = (Ok tt, w') /\ no_faults w' /\
    w_tables w' = put_api_key (revoke_key now k) (w_tables w).
Proof.
  intros Hf Hk Hrev Hid Hus. unfold RevokeAPIKey, uuid_or_404. rewrite Hid, Hus. cbn [lift_res on_err bind].
  rewrite run_bind, run_wrap, run_stmt, exec_ok by auto with ping. unfold db_RevokeAPIKey. cbn [fst snd].
  rewrite Hk, Hrev, N.eqb_refl, bool_decide_false by (by intros []). cbn [andb negb].
  do 2 eexists. split; [reflexivity|]. split; [auto with ping|done].
Qed.

Lemma live_key_revoked t plain k now :
  keys_ok t -> live_key plain t = Some k -> live_key plain (put_api_key (revoke_key now k) t) = None.
Proof.
  intros Hok Hl. pose proof Hl as (Hk & Hh & _)%live_key_Some; [|done].
  assert (Hok' : keys_ok (put_api_key (revoke_key now k) t)) by (by eapply keys_ok_put).
  destruct (live_key plain (put_api_key (revoke_key now k) t)) as [x|] eqn:Ex; [|done]. exfalso.
  apply live_key_Some in Ex as (Hx & Hxh & Hxr); [|done].
  destruct Hok' as [_ Hu]. assert (Hid : k_id x = k_id k).
  { eapply Hu; [exact Hx|cbn; by rewrite lookup_insert_eq|]. by rewrite Hxh. }
  rewrite Hid in Hx. cbn in Hx. rewrite lookup_insert_eq in Hx. by injection Hx as <-.
Qed.

(** ** Properties *)

(** A registration and the logins after it, when no action fails.  With
    registration closed, or an email already used under any spelling of case
    and surrounding space, or a password bcrypt refuses, there is an error
    and nothing changes.  Otherwise one account with the normalized email is
    added, and a login with the same password and any spelling of that email
    returns that account. *)
Lemma register_then_login `{HE : ExternLaws} email password registrationOpen w :
  no_faults w -> users_ok (w_tables w) ->
  exists r w', run (Register email password registrationOpen) w = (r, w') /\
  ((exists e, r = Err e /\ w_tables w' = w_tables w /\
      (registrationOpen = false -> e = newHTTPError (ESentinel ErrRegistrationClosed) 403)) \/
   (exists u, r = Ok (mkAuthUser (uuid_string (u_id u)) (u_email u)) /\ registered email password u w w' /\
      forall email', normalizeEmail email' = normalizeEmail email ->
        fst (run (Authenticate email' password) w') = r)).
Proof.
  intros Hf Hok. destruct registrationOpen.
  - destruct (run_Register email password w Hf Hok) as (r & w' & Hr & Hf' & [(e & -> & Ht & _)|(u & -> & Hreg)]).
    + exists (Err e), w'. split; [done|]. left. by exists e.
    + exists (Ok (mkAuthUser (uuid_string (u_id u)) (u_email u))), w'. split; [done|]. right. exists u.
      split; [done|]. split; [done|]. intros email' Hn. destruct (run_Authenticate email' password w' Hf') as (w2 & -> & _).
      cbn. by eapply registered_login.
  - do 2 eexists. split; [reflexivity|]. left. by eexists.
Qed.

(** API keys.  A key authenticates exactly while a row with its SHA-256
    hash is there and not revoked: then the result is the row's owner and id
    and the only change is that row's last_used_at; otherwise the answer is a
    401 and nothing changes.  Once its owner has revoked it, no use of it
    succeeds. *)
Lemma api_key_spec `{Extern} plain w :
  no_faults w -> keys_ok (w_tables w) ->
  exists r w', run (AuthenticateAPIKey plain) w = (r, w') /\
  match live_key plain (w_tables w) with
  | None => r = Err invalid_api_key /\ w_tables w' = w_tables w
  | Some k =>
      r = Ok (mkAuthenticatedAPIKey (uuid_string (k_user_id k)) (uuid_string (k_id k))) /\
      (exists now, w_tables w' = put_api_key (touch_key now k) (w_tables w)) /\
      forall idS userS, pgUUID idS = Ok (k_id k) -> pgUUID userS = Ok (k_user_id k) ->
        exists w2, run (RevokeAPIKey idS userS) w = (Ok tt, w2) /\
          fst (run (AuthenticateAPIKey plain) w2) = Err invalid_api_key
  end.
Proof.
  intros Hf Hok. destruct (run_AuthenticateAPIKey plain w Hf Hok) as (r & w' & Hr & Hm). exists r, w'. split; [done|].
  destruct (live_key plain (w_tables w)) as [k|] eqn:Ek; [|done]. destruct Hm as [-> Hnow].
  split; [done|]. split; [done|]. intros idS userS Hid Hus.
  pose proof Ek as (Hk & Hh & Hrev)%live_key_Some; [|done].
  destruct (run_RevokeAPIKey idS userS k w) as (now & w2 & Hrun & Hf2 & Ht2); [done..|]. exists w2. split; [done|].
  destruct (run_AuthenticateAPIKey plain w2) as (r2 & w3 & -> & Hm2); [done| |].
  - rewrite Ht2. by eapply keys_ok_put.
  - rewrite Ht2, (live_key_revoked _ _ _ _ Hok Ek) in Hm2. by destruct Hm2 as [-> _].
Qed.

#[local] Existing Instance demo_extern.

Lemma register_then_login_witness :
  exists r w', run (Register " Ann@Example.com " "secret" true) (demo_world demo_env []) = (r, w') /\
    is_ok r = true /\ fst (run (Authenticate "ann@example.com" "secret") w') = r /\
    is_ok (fst (run (Authenticate "ann@example.com" "wrong") w')) = false.
Proof.
  destruct (@register_then_login demo_extern demo_extern_laws " Ann@Example.com " "secret" true (demo_world demo_env []))
    as (r & w' & Hr & Hcase).
  - apply demo_no_faults.
  - split.
    + intros i u. cbn. rewrite lookup_singleton_Some. by intros [<- <-].
    + intros i j u u'. cbn. rewrite !lookup_singleton_Some. by intros [<- _] [<- _].
  - assert (Hrun : (r, w') = run (Register " Ann@Example.com " "secret" true) (demo_world demo_env [])) by (by rewrite Hr).
    exists r, w'. split; [exact Hr|].
    assert (Hok : is_ok r = true) by (apply (f_equal fst) in Hrun; cbn [fst] in Hrun; rewrite Hrun; vm_compute; reflexivity).
    split; [exact Hok|]. destruct Hcase as [(e & -> & _)|(u & -> & _ & Hlog)]; [discriminate Hok|].
    split; [apply Hlog; vm_compute; reflexivity|].
    apply (f_equal snd) in Hrun. cbn [snd] in Hrun. rewrite Hrun. vm_compute. reflexivity.
Defined.

Definition demo_key : ApiKey := mkApiKey 3 10 (hashToken "pk_key") "ci" None None demo_t0.

Lemma api_key_spec_witness :
  let w := mkWorld (put_api_key demo_key (demo_tables [])) demo_seqs 0 None demo_env in
  exists w', run (AuthenticateAPIKey "pk_key") w = (Ok (mkAuthenticatedAPIKey "10" "3"), w').
Proof.
  intros w. destruct (api_key_spec "pk_key" w) as (r & w' & Hr & Hm).
  - intros n _. reflexivity.
  - split.
    + intros i k. cbn [t_api_keys put_api_key set_api_keys w w_tables demo_tables].
      rewrite lookup_insert_Some, lookup_empty. by intros [[<- <-]|[_ ?]].
    + intros i j k k'. cbn [t_api_keys put_api_key set_api_keys w w_tables demo_tables].
      rewrite !lookup_insert_Some, !lookup_empty. by intros [[<- _]|[_ ?]] [[<- _]|[_ ?]].
  - replace (live_key "pk_key" (w_tables w)) with (Some demo_key) in Hm by (vm_compute; reflexivity).
    destruct Hm as (-> & _). exists w'. exact Hr.
Defined.
