(* ===== verification/RateLimit.v ===== *)
(** * RateLimit: the fixed-window counter (store/ratelimit.go)

    [Allow] is INCR, then EXPIRE for the first request of a window, then TTL
    for a refused one.  Redis is not in the repository: [Redis] is the
    interface of the three commands, [RedisLaws] their documented behaviour
    (EXPIRE and TTL work in whole seconds), and the gmap at the end an instance that satisfies it. *)
From S2P Require Import Prelude GoLib Models Store.
Local Open Scope Z_scope.

(** ** The interface *)

(** The commands, each at an instant; a TTL is negative when the key has no
    expiry or is not there.  [redis_get] is the specification's view of a key
    at an instant: its value and when it expires. *)
Class Redis (St : Type) := {
  redis_incr : Time -> string -> St -> Z * St;
  redis_expire : Time -> string -> Duration -> St -> St;
  redis_ttl : Time -> string -> St -> Duration;
  redis_get : Time -> string -> St -> option (Z * option Time)
}.

(** Has the expiry passed? *)
Definition alive (now : Time) (v : Z * option Time) : bool :=
  match v.2 with Some e => now <? e | None => true end.

Definition at_time (now : Time) (v : option (Z * option Time)) : option (Z * option Time) :=
  match v with Some v => if alive now v then Some v else None | None => None end.

(** A whole number of seconds, not negative, within a second of the time from
    [t] to [e]. *)
Definition seconds_left (e t : Time) (ttl : Duration) : Prop :=
  0 <= ttl /\ ttl mod Second = 0 /\ Z.abs (ttl - (e - t)) < Second.

Class RedisLaws (St : Type) `{Redis St} : Prop := {
  (** time only makes keys expire *)
  redis_get_later : forall t t' k s, t <= t' -> redis_get t' k s = at_time t' (redis_get t k s);
  (** INCR counts from a missing key's 0 and keeps the expiry *)
  redis_incr_get : forall t k s,
    let '(n, s') := redis_incr t k s in
    match redis_get t k s with
    | Some (v, e) => n = v + 1 /\ redis_get t k s' = Some (v + 1, e)
    | None => n = 1 /\ redis_get t k s' = Some (1, None)
    end;
  (** EXPIRE of an existing key sets when it goes; it takes whole seconds *)
  redis_expire_get : forall t k d s v e,
    0 < d -> d mod Second = 0 -> redis_get t k s = Some (v, e) -> redis_get t k (redis_expire t k d s) = Some (v, Some (t + d));
  (** TTL is the time that is left, to within a second, as a whole number of
      them: it may be 0 for a key that is about to go *)
  redis_ttl_get : forall t k s v e, redis_get t k s = Some (v, Some e) -> seconds_left e t (redis_ttl t k s);
  (** a command on one key leaves the others alone *)
  redis_incr_other : forall t k k' s, k' <> k -> redis_get t k' (redis_incr t k s).2 = redis_get t k' s;
  redis_expire_other : forall t k k' d s, k' <> k -> redis_get t k' (redis_expire t k d s) = redis_get t k' s
}.

(** ** Allow *)

(** The outcome of a call: allowed, retryAfter and the error's context. *)
Definition AllowResult : Type := bool * Duration * option string.

(** When the three commands of a call run and how they fail. *)
Record Call := mkCall {
  call_incr : Time * Fault;
  call_expire : Time * Fault;
  call_ttl : Time * Fault
}.

Section allow.
Context {St : Type} `{Redis St}.

(** [store.Allow]; [redis = None] is the nil client. *)
Definition Allow (c : Call) (key : string) (limit : Z) (window : Duration) (redis : option St)
    : AllowResult * option St :=
  match redis with
  | None => ((true, 0, None), None)
  | Some s =>
      let '(count, s1) := redis_incr (call_incr c).1 key s in
      match (call_incr c).2 with
      | FBefore => ((true, 0, Some "store: rate limit incr"), Some s)
      | FAfter => ((true, 0, Some "store: rate limit incr"), Some s1)
      | FNone =>
          let after_expire (s2 : St) :=
            if limit <? count then
              let ttl := redis_ttl (call_ttl c).1 key s2 in
              let ttl := match (call_ttl c).2 with
                         | FNone => if ttl <? 0 then window else ttl
                         | _ => window
                         end in
              ((false, ttl, None), Some s2)
            else ((true, 0, None), Some s2) in
          if count =? 1 then
            let s2 := redis_expire (call_expire c).1 key window s1 in
            match (call_expire c).2 with
            | FNone => after_expire s2
            | FBefore => ((true, 0, Some "store: rate limit expire"), Some s1)
            | FAfter => ((true, 0, Some "store: rate limit expire"), Some s2)
            end
          else after_expire s1
      end
  end.

(** A sequence of calls on one key. *)
Fixpoint allow_all (cs : list Call) (key : string) (limit : Z) (window : Duration) (redis : option St)
    : list AllowResult * option St :=
  match cs with
  | [] => ([], redis)
  | c :: cs' =>
      let '(r, redis') := Allow c key limit window redis in
      let '(rs, redis'') := allow_all cs' key limit window redis' in
      (r :: rs, redis'')
  end.
End allow.

(** ** One window *)

(** Calls whose commands succeed, one after another from [t0] on and before [t1]. *)
Inductive calls_within (t0 t1 : Time) : list Call -> Prop :=
| within_nil : calls_within t0 t1 []
| within_cons c cs :
    (call_incr c).2 = FNone -> (call_expire c).2 = FNone -> (call_ttl c).2 = FNone ->
    t0 <= (call_incr c).1 -> (call_incr c).1 <= (call_expire c).1 ->
    (call_expire c).1 <= (call_ttl c).1 -> (call_ttl c).1 < t1 ->
    calls_within (call_ttl c).1 t1 cs -> calls_within t0 t1 (c :: cs).

(** The answers to [cs] of a window that has counted [n] requests and ends at
    [e]: the first [limit - n] are allowed, the others are refused with the
    seconds that are left when they ask. *)
Fixpoint window_answers (n limit : Z) (e : Time) (cs : list Call) (rs : list AllowResult) : Prop :=
  match cs, rs with
  | [], [] => True
  | c :: cs, r :: rs =>
      (if n <? limit then r = (true, 0, None)
       else exists ttl, r = (false, ttl, None) /\ seconds_left e (call_ttl c).1 ttl) /\
      window_answers (n + 1) limit e cs rs
  | _, _ => False
  end.

Section window.
Context {St : Type} `{RedisLaws St}.

Lemma get_later t t' k s v e :
  redis_get t k s = Some (v, Some e) -> t <= t' -> t' < e -> redis_get t' k s = Some (v, Some e).
Proof.
  intros Hg Ht He. rewrite (redis_get_later t t' k s Ht), Hg. cbn. unfold alive. cbn. by rewrite (proj2 (Z.ltb_lt _ _)).
Qed.

(** Inside a window whose key counts [n >= 1]. *)
Lemma allow_counted key limit window e cs : forall t n s,
  1 <= n -> redis_get t key s = Some (n, Some e) -> calls_within t e cs ->
  exists rs s', allow_all cs key limit window (Some s) = (rs, Some s') /\ window_answers n limit e cs rs.
Proof.
  induction cs as [|c cs IH]; intros t n s Hn Hg Hc; [by exists [], s|].
  inversion Hc as [|c' cs' F1 F2 F3 T0 T1 T2 T3 Hcs]; subst. cbn [allow_all Allow].
  assert (Hg1 : redis_get (call_incr c).1 key s = Some (n, Some e)) by (by eapply get_later; [exact Hg|..]; lia).
  pose proof (redis_incr_get (call_incr c).1 key s) as Hi.
  destruct (redis_incr (call_incr c).1 key s) as [count s1]. rewrite Hg1 in Hi. destruct Hi as [-> Hg2].
  rewrite F1. rewrite (proj2 (Z.eqb_neq (n + 1) 1)) by lia.
  assert (Hg3 : redis_get (call_ttl c).1 key s1 = Some (n + 1, Some e)) by (eapply get_later; [exact Hg2|lia|lia]).
  destruct (IH (call_ttl c).1 (n + 1) s1) as (rs & s' & Hrest & Hrs); [lia|done|done|].
  pose proof (redis_ttl_get _ _ _ _ _ Hg3) as Httl.
  rewrite F3, (proj2 (Z.ltb_ge (redis_ttl _ _ _) 0)) by apply Httl.
  destruct (Z.ltb_spec limit (n + 1)), (Z.ltb_spec n limit); try lia; rewrite Hrest; do 2 eexists; (split; [reflexivity|]);
    cbn [window_answers]; (split; [|exact Hrs]); rewrite ?(proj2 (Z.ltb_lt n limit)), ?(proj2 (Z.ltb_ge n limit)) by lia;
    [by eexists|done].
Qed.
End window.

(** ** Properties *)

(** C30. One window of the limiter, for any Redis that behaves as documented and
    when no command fails: if the key is not there, the first request opens a
    window that ends [window], whole seconds, after its EXPIRE, and of the requests until then
    exactly the first [limit] are allowed; every later one is refused and told
    a whole number of seconds within one second of what is left of the window,
    which can be 0 just before its end. *)
Theorem window_admits_limit {St : Type} `{RedisLaws St} c cs key limit window s :
  0 < window -> window mod Second = 0 -> redis_get (call_incr c).1 key s = None ->
  let e := (call_expire c).1 + window in
  calls_within (call_incr c).1 e (c :: cs) ->
  exists rs s', allow_all (c :: cs) key limit window (Some s) = (rs, Some s') /\ window_answers 0 limit e (c :: cs) rs.
Proof.
  intros Hw Hs Hg e Hc.
  inversion Hc as [|c' cs' F1 F2 F3 T0 T1 T2 T3 Hcs]; subst. cbn [allow_all Allow].
  pose proof (redis_incr_get (call_incr c).1 key s) as Hi.
  destruct (redis_incr (call_incr c).1 key s) as [count s1]. rewrite Hg in Hi. destruct Hi as [-> Hg1].
  rewrite F1, F2. cbn [Z.eqb Pos.eqb].
  assert (Hg2 : redis_get (call_expire c).1 key s1 = Some (1, None)).
  { rewrite (redis_get_later _ _ _ _ T1), Hg1. done. }
  pose proof (redis_expire_get _ _ window _ _ _ Hw Hs Hg2) as Hg3. fold e in Hg3.
  set (s2 := redis_expire _ _ _ _) in *.
  assert (Hg4 : redis_get (call_ttl c).1 key s2 = Some (1, Some e)) by (eapply get_later; [exact Hg3|lia|lia]).
  destruct (allow_counted key limit window e cs (call_ttl c).1 1 s2) as (rs & s' & Hrest & Hrs); [lia|done|done|].
  pose proof (redis_ttl_get _ _ _ _ _ Hg4) as Httl.
  rewrite F3, (proj2 (Z.ltb_ge (redis_ttl _ _ _) 0)) by apply Httl.
  destruct (Z.ltb_spec limit 1), (Z.ltb_spec 0 limit); try lia; rewrite Hrest; do 2 eexists; (split; [reflexivity|]);
    cbn [window_answers]; (split; [|exact Hrs]); rewrite ?(proj2 (Z.ltb_lt 0 limit)), ?(proj2 (Z.ltb_ge 0 limit)) by lia;
    [by eexists|done].
Qed.

(** The limiter fails open, in the words of its comment, for INCR and
    EXPIRE: when either fails, before or after it took effect, the request is
    allowed and the error is reported; a refused request never reports an
    error, and when its TTL cannot be read it is told the whole window. *)
Lemma Allow_fails_open {St : Type} `{RedisLaws St} c key limit window redis allowed retry err redis' :
  Allow c key limit window redis = ((allowed, retry, err), redis') ->
  (err <> None -> allowed = true) /\ ((call_incr c).2 <> FNone -> allowed = true) /\
  (allowed = false -> err = None /\ ((call_ttl c).2 <> FNone -> retry = window)) /\
  (redis = None -> allowed = true).
Proof.
  unfold Allow. destruct redis as [s|]; [|naive_solver].
  destruct (redis_incr _ _ _) as [count s1]. destruct (call_incr c) as [? []]; cbn [fst snd]; try naive_solver.
  destruct (count =? 1); [destruct (call_expire c) as [? []]; cbn [fst snd]; try naive_solver|];
    destruct (limit <? count); intros Heq; simplify_eq; split_and!; try done; destruct (call_ttl c) as [? []]; done.
Qed.

(** ** An instance *)

(** Keys with their value and expiry; an expired key is as good as missing. *)
#[export] Instance map_redis : Redis (gmap string (Z * option Time)) := {
  redis_get t k s := at_time t (s !! k);
  redis_incr t k s := match at_time t (s !! k) with
                      | Some (v, e) => (v + 1, <[k := (v + 1, e)]> s)
                      | None => (1, <[k := (1, None)]> s)
                      end;
  redis_expire t k d s := match at_time t (s !! k) with
                          | Some (v, _) => <[k := (v, Some (t + d))]> s
                          | None => s
                          end;
  redis_ttl t k s := match at_time t (s !! k) with
                     | Some (_, Some e) => Z.max 0 ((e - t + Second / 2) / Second) * Second
                     | Some (_, None) => -1
                     | None => -2
                     end
}.

#[export] Instance map_redis_laws : RedisLaws (gmap string (Z * option Time)).
Proof.
  split; cbn [redis_get redis_incr redis_expire redis_ttl map_redis].
  - intros t t' k s Ht. destruct (s !! k) as [[v [e|]]|]; [|done..]. cbn. unfold alive. cbn.
    destruct (Z.ltb_spec t e), (Z.ltb_spec t' e); cbn; unfold alive; cbn; try done; [by rewrite (proj2 (Z.ltb_lt t' e))| |lia].
    by rewrite (proj2 (Z.ltb_ge t' e)).
  - intros t k s. destruct (at_time t (s !! k)) as [[v e]|] eqn:Ea; cbn; rewrite lookup_insert_eq; [|done].
    split; [done|]. destruct (s !! k) as [w|]; [|done]. cbn in Ea. destruct (alive t w) eqn:Ew; [|done].
    injection Ea as ->. cbn. unfold alive in *. cbn in *. by rewrite Ew.
  - intros t k d s v e Hd _ Hg. rewrite Hg. rewrite lookup_insert_eq. cbn. unfold alive. cbn.
    by rewrite (proj2 (Z.ltb_lt _ _)) by lia.
  - intros t k s v e Hg. rewrite Hg. destruct (s !! k) as [[v0 [e0|]]|]; cbn in Hg; [|done..]. unfold alive in Hg. cbn in Hg.
    destruct (Z.ltb_spec t e0) as [Hlt|]; [|done]. injection Hg as <- <-. unfold seconds_left, Second.
    rewrite Z.mod_mul by lia. pose proof (Z.div_mod (e0 - t + 1000000000 / 2) 1000000000 ltac:(lia)).
    pose proof (Z.mod_pos_bound (e0 - t + 1000000000 / 2) 1000000000 ltac:(lia)).
    change (1000000000 / 2) with 500000000 in *. lia.
  - intros t k k' s Hne. destruct (at_time t (s !! k)) as [[v e]|]; cbn; by rewrite lookup_insert_ne.
  - intros t k k' d s Hne. destruct (at_time t (s !! k)) as [[v e]|]; [|done]. by rewrite lookup_insert_ne.
Qed.

Definition ok_call (t : Time) : Call := mkCall (t, FNone) (t, FNone) (t, FNone).

Lemma window_admits_limit_witness :
  exists rs, (allow_all (ok_call 0 :: (ok_call <$> [1; 2; 3 * Second])) "rate:login:ip" 2 Minute (Some ∅)).1 = rs /\
    window_answers 0 2 Minute (ok_call 0 :: (ok_call <$> [1; 2; 3 * Second])) rs /\ rs.*1.*1 = [true; true; false; false].
Proof.
  destruct (window_admits_limit (St := gmap string (Z * option Time)) (ok_call 0) (ok_call <$> [1; 2; 3 * Second])
              "rate:login:ip" 2 Minute ∅) as (rs & s' & Hr & Hrs).
  - reflexivity.
  - reflexivity.
  - vm_compute. reflexivity.
  - cbn [fmap list_fmap]. repeat (constructor; [by vm_compute..|]). constructor.
  - exists rs. rewrite Hr. split; [reflexivity|]. split; [exact Hrs|].
    apply (f_equal fst) in Hr. cbn [fst] in Hr. rewrite <- Hr. vm_compute. reflexivity.
Defined.

(** A refusal in the last half second of a window is told to retry after 0
    seconds, and the retry is refused. *)
Example told_to_retry_at_once :
  (allow_all [ok_call 0; ok_call (Minute - 2); ok_call (Minute - 1)] "rate:ping:ip" 1 Minute (Some (∅ : gmap string (Z * option Time)))).1
  = [(true, 0, None); (false, 0, None); (false, 0, None)].
Proof. vm_compute. reflexivity. Qed.

Lemma Allow_fails_open_witness :
  let c := mkCall (0, FAfter) (0, FNone) (0, FNone) in
  (Allow c "rate:login:ip" 0 60 (Some (∅ : gmap string (Z * option Time)))).1.1.1 = true.
Proof.
  intros c. destruct (Allow c "rate:login:ip" 0 60 (Some (∅ : gmap string (Z * option Time))))
    as [[[allowed retry] err] redis'] eqn:Hr.
  destruct (Allow_fails_open _ _ _ _ _ _ _ _ _ Hr) as (_ & H & _). apply H. vm_compute. discriminate.
Defined.

(** A failed EXPIRE leaves a key without expiry, and no later call gives it
    one: once its count passes the limit the client is refused for good, here
    ten years later. *)
Example lost_expire_blocks_for_good :
  let c0 := mkCall (0, FNone) (0, FBefore) (0, FNone) in
  let later := ok_call <$> [1; 2; 3650 * Day] in
  (allow_all (c0 :: later) "rate:login:ip" 2 (15 * Minute) (Some (∅ : gmap string (Z * option Time)))).1
  = [(true, 0, Some "store: rate limit expire"); (true, 0, None); (false, 15 * Minute, None);
     (false, 15 * Minute, None)].
Proof. vm_compute. reflexivity. Qed.
