(* ===== verification/Rollup.v ===== *)
(** * Rollup: daily statistics and retention (store/rollup.go, worker/rollup)

    [RollupDay] folds one UTC day into daily_stats, one upsert per monitor;
    [PruneOldData] drains the three logs in batches.  Neither is a
    transaction. *)
From S2P Require Import Prelude GoLib Models Extern Store Queries Logic Demo Convert Checkin Scheduler Paging.
Local Open Scope Z_scope.
Local Open Scope ping_scope.

Definition pruneBatchLimit : Z := 5000.

Record PruneResult := mkPruneResult { pr_Checkins : Z; pr_ProbeResults : Z; pr_Events : Z }.

(** The local [stat] of RollupDay. *)
Record stat := mkstat {
  st_checkins : Z;
  st_failures : Z;
  st_latencyP50 : option Z;
  st_latencyP95 : option Z;
  st_downtimeS : Z
}.

Definition zero_stat : stat := mkstat 0 0 None None 0.

Section rollup.
Context `{Extern}.

(** Go's iteration over [byMonitor] is in no particular order. *)
Context (map_order : list (UUID * stat) -> list (UUID * stat)).

Definition merge_checkins (acc : gmap UUID stat) (r : RollupCheckinCountsRow) : gmap UUID stat :=
  let st := default zero_stat (acc !! rc_monitor_id r) in
  <[rc_monitor_id r := mkstat (rc_checkins r) (rc_failures r) (st_latencyP50 st) (st_latencyP95 st) (st_downtimeS st)]> acc.

Definition merge_probes (acc : gmap UUID stat) (r : RollupProbeStatsRow) : gmap UUID stat :=
  let st := default zero_stat (acc !! rp_monitor_id r) in
  <[rp_monitor_id r := mkstat (rp_checkins r) (rp_failures r) (rp_latency_p50 r) (rp_latency_p95 r) (st_downtimeS st)]> acc.

Definition merge_downtime (acc : gmap UUID stat) (r : RollupDowntimeSecondsRow) : gmap UUID stat :=
  let st := default zero_stat (acc !! rd_monitor_id r) in
  <[rd_monitor_id r := mkstat (st_checkins st) (st_failures st) (st_latencyP50 st) (st_latencyP95 st) (rd_downtime_s r)]> acc.

(** The map that is upserted. *)
Definition by_monitor (cs : list RollupCheckinCountsRow) (ps : list RollupProbeStatsRow)
    (ds : list RollupDowntimeSecondsRow) : gmap UUID stat :=
  foldl merge_downtime (foldl merge_probes (foldl merge_checkins ∅ cs) ps) ds.

Definition upsert_params (day : Time) (ist : UUID * stat) : UpsertDailyStatParams :=
  let st := ist.2 in
  mkUpsertDailyStatParams ist.1 day (st_checkins st) (st_failures st) (st_downtimeS st) (st_latencyP50 st)
    (st_latencyP95 st).

Definition RollupDay (day : Time) : Prog Z :=
  let dayStart := utc_midnight day in
  let dayEnd := time_Add dayStart (24 * Hour) in
  let! checkinRows := wrap "store: rollup checkin counts" (stmt (db_RollupCheckinCounts dayStart dayEnd)) in
  let! probeRows := wrap "store: rollup probe stats" (stmt (db_RollupProbeStats dayStart dayEnd)) in
  let! downtimeRows := wrap "store: rollup downtime seconds" (stmt (db_RollupDowntimeSeconds dayEnd dayStart)) in
  let byMonitor := by_monitor checkinRows probeRows downtimeRows in
  let! _ := for_range (fun _ ist => wrap "store: upsert daily stat"
                                      (stmt (db_UpsertDailyStat (upsert_params dayStart ist))))
              tt (map_order (map_to_list byMonitor)) in
  ret (Z.of_nat (size byMonitor)).

(** The loop ends when a batch is not full; [fuel] bounds the batches. *)
Fixpoint drainBatches (fuel : nat) (cancelled : nat -> bool) (deleteBatch : Prog Z) (total : Z) : Prog Z :=
  match fuel with
  | O => throw (EMsg "more batches than expected")
  | S fuel' =>
      let! _ := ctx_Err cancelled in
      let! n := deleteBatch in
      let total := wrap64 (total + n) in
      if n <? pruneBatchLimit then ret total else drainBatches fuel' cancelled deleteBatch total
  end.

Definition PruneOldData (fuel : nat) (cancelled : nat -> bool) (cutoff : Time) : Prog PruneResult :=
  let! checkins := wrap "store: prune checkins"
    (drainBatches fuel cancelled (stmt (db_DeleteOldCheckinsBatch cutoff pruneBatchLimit)) 0) in
  let! probeResults := wrap "store: prune probe results"
    (drainBatches fuel cancelled (stmt (db_DeleteOldProbeResultsBatch cutoff pruneBatchLimit)) 0) in
  let! events := wrap "store: prune events"
    (drainBatches fuel cancelled (stmt (db_DeleteOldEventsBatch cutoff pruneBatchLimit)) 0) in
  ret (mkPruneResult checkins probeResults events).

(** ** The job (worker/rollup/rollup.go) *)

Definition DefaultRetentionDays : Z := 90.

Definition retention (days : Z) : Z := if days <=? 0 then DefaultRetentionDays else days.

(** One tick, from the last day it rolled up to the next such day: [AddDate]
    on a UTC midnight moves by whole days. *)
Definition rollup_tick (fuel : nat) (cancelled : nat -> bool) (retentionDays : Z) (lastRolledDate : option Time)
    : Prog (option Time) :=
  let! now := time_Now in
  let today := time_Truncate now (24 * Hour) in
  let yesterday := time_Add today (- Day) in
  let! last := (if bool_decide (lastRolledDate = Some yesterday) then ret lastRolledDate
                else let! res := attempt (RollupDay yesterday) in
                     match res with Ok _ => ret (Some yesterday) | Err _ => ret lastRolledDate end) in
  let cutoff := time_Add today (- (retention retentionDays * Day)) in
  let! _ := attempt (PruneOldData fuel cancelled cutoff) in
  ret last.
End rollup.

(** ** Batches *)

Section batch.
Context {R : Type} (old : R -> bool) (rid : R -> Z).

Definition not_old (r : R) : bool := negb (old r).

Lemma NoDup_rid_filter (f : R -> bool) rows : NoDup (rid <$> rows) -> NoDup (rid <$> List.filter f rows).
Proof. apply NoDup_filter_bool. Qed.

(** Dropping the ids of a prefix drops the prefix. *)
Lemma filter_ids_drop n l :
  NoDup (rid <$> l) -> List.filter (fun r => negb (bool_decide (rid r ∈ rid <$> take n l))) l = drop n l.
Proof.
  intros Hnd. pose proof (take_drop n l) as Hl. set (gone := take n l) in *.
  rewrite <- Hl at 1. rewrite List.filter_app.
  rewrite filter_bool_none, filter_bool_all; [done| |].
  - intros r Hr. rewrite bool_decide_false; [done|]. intros Hin.
    rewrite <- Hl, fmap_app in Hnd. apply NoDup_app in Hnd as (_ & Hdisj & _).
    apply (Hdisj _ Hin). by apply list_elem_of_fmap_2.
  - intros r Hr. by rewrite bool_decide_true by (by apply list_elem_of_fmap_2).
Qed.

Lemma filter_filter_comm (f g : R -> bool) l : List.filter f (List.filter g l) = List.filter g (List.filter f l).
Proof. induction l as [|r l IH]; simpl; [done|]. destruct (f r) eqn:Ef, (g r) eqn:Eg; simpl; rewrite ?Ef, ?Eg, IH; done. Qed.

Lemma rid_unique rows x y : NoDup (rid <$> rows) -> x ∈ rows -> y ∈ rows -> rid x = rid y -> x = y.
Proof.
  induction rows as [|z rows IH]; [set_solver|]. cbn. intros [Hn Hnd]%NoDup_cons Hx Hy Heq.
  assert (Hf : forall v, v ∈ rows -> rid v <> rid z).
  { intros v Hv Ev. apply Hn. rewrite <- Ev. by apply list_elem_of_fmap_2. }
  apply elem_of_cons in Hx as [->|Hx], Hy as [->|Hy]; [done| | |by apply IH]; exfalso; by eapply Hf.
Qed.

(** One batch removes the first [n] old rows, reports how many, and leaves
    every other row. *)
Lemma delete_batch_spec n rows :
  NoDup (rid <$> rows) -> 0 <= n ->
  let '(ids, rows') := delete_batch old rid n rows in
  Z.of_nat (length ids) = Z.min n (Z.of_nat (length (List.filter old rows))) /\
  List.filter not_old rows' = List.filter not_old rows /\
  List.filter old rows' = drop (Z.to_nat n) (List.filter old rows) /\
  NoDup (rid <$> rows') /\ (forall r, r ∈ rows -> rid r ∈ ids -> old r = true) /\
  (forall r, r ∈ rows' <-> r ∈ rows /\ rid r ∉ ids).
Proof.
  intros Hnd Hn. unfold delete_batch, sql_limit. set (l := List.filter old rows). set (ids := rid <$> take (Z.to_nat n) l).
  assert (Hold : forall r, r ∈ rows -> rid r ∈ ids -> old r = true).
  { intros r Hr Hin. apply list_elem_of_fmap in Hin as (x & Hx & Hin). apply elem_of_take in Hin as (i & Hl & _).
    apply list_elem_of_lookup_2, list_elem_of_In, filter_In in Hl as [Hxr Ho]. apply list_elem_of_In in Hxr.
    by rewrite (rid_unique rows r x). }
  split_and!.
  - unfold ids. rewrite length_fmap, length_take. lia.
  - rewrite filter_filter_comm. apply filter_bool_all. intros r Hr.
    apply list_elem_of_In, filter_In in Hr as [Hr Hno]. apply list_elem_of_In in Hr.
    rewrite bool_decide_false; [done|]. intros Hin. apply Hold in Hin; [|done]. unfold not_old in Hno. by rewrite Hin in Hno.
  - rewrite filter_filter_comm. apply filter_ids_drop. by apply NoDup_rid_filter.
  - by apply NoDup_rid_filter.
  - done.
  - intros r. rewrite (list_elem_of_In _ r), filter_In, negb_true_iff, bool_decide_eq_false.
    by rewrite <- (list_elem_of_In rows r).
Qed.
End batch.

(** ** Draining *)

Lemma run_ctx_Err cancelled w : (forall n, cancelled n = false) -> run (ctx_Err cancelled) w = (Ok tt, tick w).
Proof. intros Hc. unfold ctx_Err. cbn [run]. by rewrite Hc. Qed.

Section drain.
Context (q : Sql Z) (inv : Tables -> Prop) (left : Tables -> nat) (final : Tables -> Tables).
Context (Hq : forall now u t s, inv t -> exists t',
  q now u (t, s) = (Ok (Z.min pruneBatchLimit (Z.of_nat (left t))), (t', s)) /\ inv t' /\
  left t' = (left t - Z.to_nat pruneBatchLimit)%nat /\ final t' = final t).
Context (Hfinal : forall t, inv t -> left t = O -> final t = t).

Lemma run_drain cancelled fuel : forall total w,
  (forall n, cancelled n = false) -> no_faults w -> inv (w_tables w) ->
  Z.of_nat (left (w_tables w)) < pruneBatchLimit * Z.of_nat fuel ->
  0 <= total -> is_int64 (total + Z.of_nat (left (w_tables w))) ->
  exists w', run (drainBatches fuel cancelled (stmt q) total) w
             = (Ok (total + Z.of_nat (left (w_tables w))), w') /\
    no_faults w' /\ w_tables w' = final (w_tables w).
Proof using Hq Hfinal.
  induction fuel as [|fuel IH]; intros total w Hc Hf Hinv Hfuel Htot H64; [lia|]. cbn [drainBatches].
  rewrite run_bind, run_ctx_Err by done. rewrite run_bind, run_stmt, exec_ok by auto with ping.
  cbn [w_tables w_seqs tick].
  destruct (Hq (sql_now (tick w)) (cur_uuid (tick w)) (w_tables w) (w_seqs w) Hinv) as (t' & -> & Hinv' & Hleft & Hfin).
  unfold pruneBatchLimit in *. set (k := left (w_tables w)) in *. cbv zeta. set (w1 := tick _).
  rewrite wrap64_id by (unfold is_int64 in *; lia).
  destruct (Z.ltb_spec (Z.min 5000 (Z.of_nat k)) 5000) as [Hlt|Hge].
  - exists w1. split; [cbn; do 2 f_equal; lia|]. split; [subst w1; auto with ping|].
    cbn. rewrite <- Hfin. symmetry. apply Hfinal; [done|]. lia.
  - destruct (IH (total + Z.min 5000 (Z.of_nat k)) w1) as (w' & Hr & Hf' & Ht); try done;
      cbn [w_tables w1 tick set_db]; rewrite ?Hleft; try lia.
    + subst w1. auto with ping.
    + unfold is_int64 in *. lia.
    + exists w'. rewrite Hr. cbn [w_tables w1 tick set_db]. rewrite Hleft. split; [do 2 f_equal; lia|].
      split; [done|]. rewrite Ht. exact Hfin.
Qed.
End drain.

(** ** The three logs *)

Definition checkin_old (cutoff : Time) (c : Checkin) : bool := c_created_at c <? cutoff.
Definition probe_old (cutoff : Time) (p : ProbeResult) : bool := p_created_at p <? cutoff.
Definition event_old (cutoff : Time) (t : Tables) (e : Event) : bool :=
  (e_created_at e <? cutoff) && negb (has_pending_alert t e).

Definition prune_checkins (cutoff : Time) (t : Tables) : Tables :=
  set_checkins (List.filter (not_old (checkin_old cutoff)) (t_checkins t)) t.
Definition prune_probes (cutoff : Time) (t : Tables) : Tables :=
  set_probe_results (List.filter (not_old (probe_old cutoff)) (t_probe_results t)) t.

(** The events that go take their alerts with them. *)
Definition removed_events (cutoff : Time) (t : Tables) : list Z :=
  e_id <$> List.filter (event_old cutoff t) (t_events t).
Definition prune_events (cutoff : Time) (t : Tables) : Tables :=
  set_alerts (List.filter (fun a => negb (bool_decide (a_event_id a ∈ removed_events cutoff t))) (t_alerts t))
    (set_events (List.filter (not_old (event_old cutoff t)) (t_events t)) t).

Lemma filter_not_old_all {R} (old : R -> bool) l : length (List.filter old l) = O -> List.filter (not_old old) l = l.
Proof.
  intros Hl%length_zero_iff_nil. apply filter_bool_all. intros r Hr. unfold not_old.
  destruct (old r) eqn:Eo; [|done]. apply list_elem_of_In in Hr.
  assert (In r (List.filter old l)) by (by apply filter_In). by rewrite Hl in *.
Qed.

Lemma step_checkins cutoff now u t s :
  NoDup (c_id <$> t_checkins t) -> exists t',
  db_DeleteOldCheckinsBatch cutoff pruneBatchLimit now u (t, s)
  = (Ok (Z.min pruneBatchLimit (Z.of_nat (length (List.filter (checkin_old cutoff) (t_checkins t))))), (t', s)) /\
  NoDup (c_id <$> t_checkins t') /\
  length (List.filter (checkin_old cutoff) (t_checkins t'))
    = (length (List.filter (checkin_old cutoff) (t_checkins t)) - Z.to_nat pruneBatchLimit)%nat /\
  prune_checkins cutoff t' = prune_checkins cutoff t.
Proof.
  intros Hnd. unfold db_DeleteOldCheckinsBatch. cbn [fst snd].
  pose proof (delete_batch_spec (checkin_old cutoff) c_id pruneBatchLimit (t_checkins t) Hnd ltac:(done)) as Hb.
  unfold checkin_old in *. destruct (delete_batch _ _ _ _) as [ids rows]. destruct Hb as (Hn & Hno & Hold & Hnd' & _).
  exists (set_checkins rows t). cbn. rewrite Hn. split; [done|]. split; [done|].
  split; [by rewrite Hold, length_drop|]. unfold prune_checkins, checkin_old. cbn. by rewrite Hno.
Qed.

Lemma step_probes cutoff now u t s :
  NoDup (p_id <$> t_probe_results t) -> exists t',
  db_DeleteOldProbeResultsBatch cutoff pruneBatchLimit now u (t, s)
  = (Ok (Z.min pruneBatchLimit (Z.of_nat (length (List.filter (probe_old cutoff) (t_probe_results t))))), (t', s)) /\
  NoDup (p_id <$> t_probe_results t') /\
  length (List.filter (probe_old cutoff) (t_probe_results t'))
    = (length (List.filter (probe_old cutoff) (t_probe_results t)) - Z.to_nat pruneBatchLimit)%nat /\
  prune_probes cutoff t' = prune_probes cutoff t.
Proof.
  intros Hnd. unfold db_DeleteOldProbeResultsBatch. cbn [fst snd].
  pose proof (delete_batch_spec (probe_old cutoff) p_id pruneBatchLimit (t_probe_results t) Hnd ltac:(done)) as Hb.
  unfold probe_old in *. destruct (delete_batch _ _ _ _) as [ids rows]. destruct Hb as (Hn & Hno & Hold & Hnd' & _).
  exists (set_probe_results rows t). cbn. rewrite Hn. split; [done|]. split; [done|].
  split; [by rewrite Hold, length_drop|]. unfold prune_probes, probe_old. cbn. by rewrite Hno.
Qed.

(** Deleting other events' alerts does not change what is pending for [e]. *)
Lemma has_pending_after t t' (ids : list Z) e :
  t_alerts t' = List.filter (fun a => negb (bool_decide (a_event_id a ∈ ids))) (t_alerts t) -> e_id e ∉ ids ->
  has_pending_alert t' e = has_pending_alert t e.
Proof.
  unfold has_pending_alert. intros -> He. induction (t_alerts t) as [|a l IH]; cbn; [done|].
  case_bool_decide as Ha; cbn; rewrite IH; [|done].
  rewrite (proj2 (Z.eqb_neq (a_event_id a) (e_id e))); [done|]. intros Heq. by rewrite Heq in Ha.
Qed.

Lemma filter_and {R} (f g : R -> bool) l : List.filter f (List.filter g l) = List.filter (fun r => g r && f r) l.
Proof. induction l as [|r l IH]; simpl; [done|]. destruct (g r); simpl; [destruct (f r)|]; by rewrite IH. Qed.

Lemma filter_ext_in_elem {R} (f g : R -> bool) l : (forall r, r ∈ l -> f r = g r) -> List.filter f l = List.filter g l.
Proof. intros Hfg. apply List.filter_ext_in. intros r Hr. by apply Hfg, list_elem_of_In. Qed.

Lemma step_events cutoff now u t s :
  NoDup (e_id <$> t_events t) -> exists t',
  db_DeleteOldEventsBatch cutoff pruneBatchLimit now u (t, s)
  = (Ok (Z.min pruneBatchLimit (Z.of_nat (length (removed_events cutoff t)))), (t', s)) /\
  NoDup (e_id <$> t_events t') /\
  length (removed_events cutoff t') = (length (removed_events cutoff t) - Z.to_nat pruneBatchLimit)%nat /\
  prune_events cutoff t' = prune_events cutoff t.
Proof.
  intros Hnd. unfold db_DeleteOldEventsBatch. cbn [fst snd].
  pose proof (delete_batch_spec (event_old cutoff t) e_id pruneBatchLimit (t_events t) Hnd ltac:(done)) as Hb.
  unfold event_old in Hb at 1. fold (event_old cutoff t) in Hb.
  change (fun e => (e_created_at e <? cutoff) && negb (has_pending_alert t e)) with (event_old cutoff t) in *.
  destruct (delete_batch (event_old cutoff t) e_id pruneBatchLimit (t_events t)) as [ids rows] eqn:Ed.
  destruct Hb as (Hn & Hno & Hold & Hnd' & _ & Hin).
  set (t' := set_alerts _ _). exists t'.
  assert (Hext : forall e, e ∈ rows -> event_old cutoff t' e = event_old cutoff t e).
  { intros e [_ He]%Hin. unfold event_old. f_equal. f_equal. by apply (has_pending_after t t' ids). }
  assert (Hold' : List.filter (event_old cutoff t') rows = drop (Z.to_nat pruneBatchLimit) (List.filter (event_old cutoff t) (t_events t))).
  { rewrite <- Hold. by apply filter_ext_in_elem. }
  assert (Hrem : removed_events cutoff t' = drop (Z.to_nat pruneBatchLimit) (removed_events cutoff t)).
  { unfold removed_events. cbn [t_events t' set_alerts set_events]. by rewrite Hold', fmap_drop. }
  assert (Hids : ids = take (Z.to_nat pruneBatchLimit) (removed_events cutoff t)).
  { unfold delete_batch in Ed. injection Ed as <- _. unfold sql_limit, removed_events. by rewrite fmap_take. }
  unfold removed_events at 1. rewrite length_fmap, Hn. split; [done|]. split; [done|].
  split; [by rewrite Hrem, length_drop|]. unfold prune_events. rewrite Hrem.
  assert (Hal : List.filter (fun a => negb (bool_decide (a_event_id a ∈ drop (Z.to_nat pruneBatchLimit) (removed_events cutoff t))))
                  (List.filter (fun a => negb (bool_decide (a_event_id a ∈ ids))) (t_alerts t))
                = List.filter (fun a => negb (bool_decide (a_event_id a ∈ removed_events cutoff t))) (t_alerts t)).
  { rewrite Hids, filter_and. apply List.filter_ext. intros a. set (l := removed_events cutoff t).
    rewrite <- negb_orb, <- bool_decide_or. f_equal. apply bool_decide_ext. rewrite <- elem_of_app.
    by rewrite take_drop. }
  assert (Hev : List.filter (not_old (event_old cutoff t')) rows = List.filter (not_old (event_old cutoff t)) (t_events t)).
  { rewrite <- Hno. apply filter_ext_in_elem. intros e He. unfold not_old. by rewrite Hext. }
  change (t_events t') with rows.
  change (t_alerts t') with (List.filter (fun a => negb (bool_decide (a_event_id a ∈ ids))) (t_alerts t)).
  by rewrite Hal, Hev.
Qed.

(** ** The three passes together *)

Definition log_ids_distinct (t : Tables) : Prop :=
  NoDup (c_id <$> t_checkins t) /\ NoDup (p_id <$> t_probe_results t) /\ NoDup (e_id <$> t_events t).

(** Fewer rows than [fuel] batches hold, and a count that fits. *)
Definition enough_fuel (fuel n : nat) : Prop :=
  Z.of_nat n < pruneBatchLimit * Z.of_nat fuel /\ is_int64 (Z.of_nat n).

Definition old_counts (cutoff : Time) (t : Tables) : nat * nat * nat :=
  (length (List.filter (checkin_old cutoff) (t_checkins t)),
   length (List.filter (probe_old cutoff) (t_probe_results t)),
   length (removed_events cutoff t)).

Lemma run_PruneOldData fuel cancelled cutoff w :
  (forall n, cancelled n = false) -> no_faults w -> log_ids_distinct (w_tables w) ->
  let '(nc, np, ne) := old_counts cutoff (w_tables w) in
  enough_fuel fuel nc -> enough_fuel fuel np -> enough_fuel fuel ne ->
  exists w', run (PruneOldData fuel cancelled cutoff) w
             = (Ok (mkPruneResult (Z.of_nat nc) (Z.of_nat np) (Z.of_nat ne)), w') /\
    w_tables w' = prune_events cutoff (prune_probes cutoff (prune_checkins cutoff (w_tables w))).
Proof.
  intros Hc Hf (Hdc & Hdp & Hde). unfold old_counts. intros [Hfc H64c] [Hfp H64p] [Hfe H64e]. unfold PruneOldData.
  rewrite run_bind, run_wrap.
  destruct (run_drain (db_DeleteOldCheckinsBatch cutoff pruneBatchLimit) (fun t => NoDup (c_id <$> t_checkins t))
    (fun t => length (List.filter (checkin_old cutoff) (t_checkins t))) (prune_checkins cutoff))
    with (cancelled := cancelled) (fuel := fuel) (total := 0) (w := w) as (w1 & -> & Hf1 & Ht1); try done; [| |].
  { intros. by apply step_checkins. }
  { intros t _ Hl. unfold prune_checkins. rewrite filter_not_old_all by done. by destruct t. }
  rewrite run_bind, run_wrap.
  destruct (run_drain (db_DeleteOldProbeResultsBatch cutoff pruneBatchLimit) (fun t => NoDup (p_id <$> t_probe_results t))
    (fun t => length (List.filter (probe_old cutoff) (t_probe_results t))) (prune_probes cutoff))
    with (cancelled := cancelled) (fuel := fuel) (total := 0) (w := w1) as (w2 & -> & Hf2 & Ht2); try done;
    try (by rewrite Ht1).
  { intros. by apply step_probes. }
  { intros t _ Hl. unfold prune_probes. rewrite filter_not_old_all by done. by destruct t. }
  rewrite run_bind, run_wrap.
  destruct (run_drain (db_DeleteOldEventsBatch cutoff pruneBatchLimit) (fun t => NoDup (e_id <$> t_events t))
    (fun t => length (removed_events cutoff t)) (prune_events cutoff))
    with (cancelled := cancelled) (fuel := fuel) (total := 0) (w := w2) as (w3 & -> & Hf3 & Ht3); try done;
    try (by rewrite Ht2, Ht1).
  { intros. by apply step_events. }
  { intros t _ Hl. unfold prune_events. unfold removed_events in Hl. rewrite length_fmap in Hl.
    rewrite filter_not_old_all by done. apply length_zero_iff_nil in Hl. unfold removed_events. rewrite Hl.
    rewrite filter_bool_all by (intros a _; by rewrite bool_decide_false by (apply not_elem_of_nil)). by destruct t. }
  eexists. split; [cbn [run ret]; rewrite Ht2, Ht1; reflexivity|]. by rewrite Ht3, Ht2, Ht1.
Qed.

(** ** The statistics of a day *)

Section rollup_facts.
Context `{Extern} (map_order : list (UUID * stat) -> list (UUID * stat)).
Context (Hperm : forall l, map_order l ≡ₚ l).

(** Upserting a list of statistics with distinct monitors. *)
Definition upserted (day : Time) (l : list (UUID * stat)) (t : Tables) : Tables :=
  set_daily_stats (foldl (fun m ist => <[(ist.1, day) := stat_of_params (upsert_params day ist)]> m) (t_daily_stats t) l) t.

Lemma run_upserts day l : forall w,
  no_faults w -> (forall i st, (i, st) ∈ l -> is_Some (t_monitors (w_tables w) !! i)) ->
  exists w', run (for_range (fun _ ist => wrap "store: upsert daily stat" (stmt (db_UpsertDailyStat (upsert_params day ist))))
               tt l) w = (Ok tt, w') /\ no_faults w' /\ w_tables w' = upserted day l (w_tables w).
Proof.
  induction l as [|[i st] l IH]; intros w Hf Hfk; cbn [for_range].
  - exists w. split_and!; [done..|]. unfold upserted. by destruct (w_tables w).
  - rewrite run_bind, run_wrap, run_stmt, exec_ok by auto with ping. unfold db_UpsertDailyStat.
    cbn [ud_monitor_id upsert_params fst]. rewrite bool_decide_true by (apply (Hfk i st); set_solver).
    set (w1 := tick _). destruct (IH w1) as (w' & Hr & Hf' & Ht); [subst w1; auto with ping| |].
    + intros j st' Hin. apply (Hfk j st'). set_solver.
    + exists w'. split_and!; [done..|]. rewrite Ht. done.
Qed.

Lemma upserted_lookup day l t i d :
  NoDup l.*1 -> t_daily_stats (upserted day l t) !! (i, d) =
  if decide (d = day) then
    match (list_to_map l : gmap UUID stat) !! i with
    | Some st => Some (stat_of_params (upsert_params day (i, st)))
    | None => t_daily_stats t !! (i, d)
    end
  else t_daily_stats t !! (i, d).
Proof.
  unfold upserted. cbn [t_daily_stats set_daily_stats]. generalize (t_daily_stats t).
  induction l as [|[j st] l IH]; intros m Hnd; cbn [foldl list_to_map foldr]; [rewrite lookup_empty; by case_decide|].
  cbn in Hnd. apply NoDup_cons in Hnd as [Hj Hnd]. rewrite IH by done. cbn [list_to_map foldr fst snd].
  destruct (decide (d = day)) as [->|Hd]; [|by rewrite lookup_insert_ne by congruence].
  destruct (decide (i = j)) as [->|Hij].
  - rewrite lookup_insert_eq. apply not_elem_of_list_to_map in Hj. by rewrite Hj, lookup_insert_eq.
  - rewrite (lookup_insert_ne (list_to_map l)), (lookup_insert_ne m) by congruence. done.
Qed.

(** The rows' monitors exist: REFERENCES. *)
Definition logs_owned (t : Tables) : Prop :=
  Forall (fun c => is_Some (t_monitors t !! c_monitor_id c)) (t_checkins t) /\
  Forall (fun p => is_Some (t_monitors t !! p_monitor_id p)) (t_probe_results t) /\
  Forall (fun e => is_Some (t_monitors t !! e_monitor_id e)) (t_events t).

Lemma foldl_merge_lookup {R} (key : R -> UUID) (upd : R -> stat -> stat) (rows : list R) :
  NoDup (key <$> rows) -> forall acc i,
  foldl (fun (acc : gmap UUID stat) r => <[key r := upd r (default zero_stat (acc !! key r))]> acc) acc rows !! i =
  match find (fun r => N.eqb (key r) i) rows with
  | Some r => Some (upd r (default zero_stat (acc !! i)))
  | None => acc !! i
  end.
Proof.
  induction rows as [|r rows IH]; intros Hnd acc i; cbn [foldl find]; [done|].
  cbn in Hnd. apply NoDup_cons in Hnd as [Hr Hnd]. rewrite IH by done.
  destruct (N.eqb_spec (key r) i) as [<-|Hne].
  - destruct (find _ rows) as [r'|] eqn:Ef; [|by rewrite lookup_insert_eq].
    exfalso. apply Hr. apply find_some in Ef as [Hin Hk%N.eqb_eq]. rewrite <- Hk.
    by apply list_elem_of_fmap_2, list_elem_of_In.
  - by rewrite lookup_insert_ne.
Qed.

(** Grouping: one row at most per key. *)
Lemma mapM_rows {A} (f : UUID -> option A) (ks : list UUID) :
  (forall k, k ∈ ks -> is_Some (f k)) -> mapM f ks = Some (omap f ks).
Proof.
  induction ks as [|k ks IH]; intros Hf; cbn; [done|]. destruct (Hf k) as [a ->]; [set_solver|]. cbn.
  rewrite IH by set_solver. done.
Qed.

Lemma mapM_row_lists {A} (f : UUID -> option (list A)) (row : UUID -> option A) (ks : list UUID) :
  (forall k, k ∈ ks -> f k = Some (option_list (row k))) ->
  exists rows, mapM f ks = Some rows /\ concat rows = omap row ks.
Proof.
  induction ks as [|k ks IH]; intros Hf; cbn; [by exists []|]. rewrite Hf by set_solver. cbn.
  destruct IH as (rows & -> & Hc); [set_solver|]. eexists. split; [done|]. cbn. rewrite Hc. by destruct (row k).
Qed.

Lemma mapM_fmap_compose {A B C} (h : B -> option C) (g : A -> B) (ks : list A) : mapM h (g <$> ks) = mapM (h ∘ g) ks.
Proof. induction ks as [|k ks IH]; cbn; [done|]. by rewrite IH. Qed.

Section keyed_rows.
Context {A : Type} (row : UUID -> option A) (akey : A -> UUID).
Context (Hkey : forall i a, row i = Some a -> akey a = i).

Lemma keyed_rows_keys (ks : list UUID) j : j ∈ akey <$> omap row ks -> j ∈ ks.
Proof using Hkey.
  intros (a & -> & (k & Hk & Hr)%list_elem_of_omap)%list_elem_of_fmap. by rewrite (Hkey _ _ Hr).
Qed.

Lemma keyed_rows_NoDup (ks : list UUID) : NoDup ks -> NoDup (akey <$> omap row ks).
Proof using Hkey.
  induction ks as [|k ks IH]; intros Hnd; cbn; [constructor|]. apply NoDup_cons in Hnd as [Hk Hnd].
  destruct (row k) as [a|] eqn:Er; [|by apply IH]. cbn. apply NoDup_cons. split; [|by apply IH].
  rewrite (Hkey _ _ Er). intros Hin. by apply Hk, keyed_rows_keys.
Qed.

Lemma keyed_rows_find (ks : list UUID) i :
  find (fun a => N.eqb (akey a) i) (omap row ks) = if bool_decide (i ∈ ks) then row i else None.
Proof using Hkey.
  induction ks as [|k ks IH]; cbn [omap list_omap find]; [done|].
  destruct (decide (i = k)) as [->|Hne].
  - rewrite bool_decide_true by (apply elem_of_cons; by left). destruct (row k) as [a|] eqn:Er; cbn [find].
    + by rewrite (Hkey _ _ Er), N.eqb_refl.
    + rewrite IH. by case_bool_decide.
  - replace (bool_decide (i ∈ k :: ks)) with (bool_decide (i ∈ ks))
      by (apply bool_decide_ext; rewrite elem_of_cons; naive_solver).
    destruct (row k) as [a|] eqn:Er; cbn [find]; [|done].
    rewrite (Hkey _ _ Er). by destruct (N.eqb_spec k i); [congruence|].
Qed.
End keyed_rows.

(** The keys of a grouping are those with some row. *)
Lemma group_keys {R} (key : R -> UUID) rows i :
  i ∈ remove_dups (key <$> rows) <-> List.filter (fun r => N.eqb (key r) i) rows <> [].
Proof.
  rewrite elem_of_remove_dups. split.
  - intros (r & -> & Hr)%list_elem_of_fmap Hnil.
    assert (In r (List.filter (fun r' => N.eqb (key r') (key r)) rows)) as Hin
      by (apply filter_In; rewrite N.eqb_refl; split; [by apply list_elem_of_In|done]).
    by rewrite Hnil in Hin.
  - destruct (List.filter _ rows) as [|r l] eqn:El; [done|]. intros _.
    assert (In r (r :: l)) as Hin by (by left). rewrite <- El in Hin. apply filter_In in Hin as [Hr Hk%N.eqb_eq].
    rewrite <- Hk. by apply list_elem_of_fmap_2, list_elem_of_In.
Qed.

(** What each query says of monitor [i], and what the day's statistic is. *)
Definition day_checkins (ds de : Time) (t : Tables) (i : UUID) : list Checkin :=
  List.filter (fun c => N.eqb (c_monitor_id c) i) (List.filter (fun c => in_day ds de (c_created_at c)) (t_checkins t)).
Definition day_probes (ds de : Time) (t : Tables) (i : UUID) : list ProbeResult :=
  List.filter (fun p => N.eqb (p_monitor_id p) i)
    (List.filter (fun p => in_day ds de (p_created_at p)) (t_probe_results t)).
Definition day_transitions (de : Time) (t : Tables) (i : UUID) : list Event :=
  List.filter (fun e => N.eqb (e_monitor_id e) i) (List.filter (is_transition de) (t_events t)).
Definition day_outages (ds de : Time) (t : Tables) (i : UUID) : list (Time * Time) :=
  monitor_outages ds de (day_transitions de t i).
Definition downtime_seconds (ds de : Time) (t : Tables) (i : UUID) : Z :=
  round_seconds (sum_Z (clamp_outage ds de <$> day_outages ds de t i)).

Definition rollup_checkin_row ds de t i : option RollupCheckinCountsRow :=
  match day_checkins ds de t i with
  | [] => None
  | l => Some (mkRollupCheckinCountsRow i (Z.of_nat (length l))
                 (Z.of_nat (length (List.filter (fun c => String.eqb (c_kind c) "fail") l))))
  end.
Definition rollup_probe_row ds de t i : option RollupProbeStatsRow :=
  match day_probes ds de t i with
  | [] => None
  | l => Some (mkRollupProbeStatsRow i (Z.of_nat (length l)) (Z.of_nat (length (List.filter (fun p => negb (p_ok p)) l)))
                 (percentile 50 100 l) (percentile 95 100 l))
  end.
Definition rollup_downtime_row ds de t i : option RollupDowntimeSecondsRow :=
  match day_outages ds de t i with [] => None | _ => Some (mkRollupDowntimeSecondsRow i (downtime_seconds ds de t i)) end.

Definition day_fits (ds de : Time) (t : Tables) : Prop :=
  forall i, Z.of_nat (length (day_checkins ds de t i)) <= 2147483647 /\
            Z.of_nat (length (day_probes ds de t i)) <= 2147483647 /\
            downtime_seconds ds de t i <= 2147483647.

Lemma filter_length_le {R} (f : R -> bool) l : (length (List.filter f l) <= length l)%nat.
Proof. induction l as [|r l IH]; cbn; [done|]. destruct (f r); cbn; lia. Qed.

Lemma int4_of_count_ok n : Z.of_nat n <= 2147483647 -> int4_of_count n = Some (Z.of_nat n).
Proof. intros Hn. unfold int4_of_count. by rewrite (proj2 (Z.leb_le _ _)). Qed.

Lemma omap_ext_elem {A} (f g : UUID -> option A) (ks : list UUID) : (forall k, k ∈ ks -> f k = g k) -> omap f ks = omap g ks.
Proof.
  induction ks as [|k ks IH]; intros Hfg; cbn; [done|]. rewrite Hfg by set_solver. rewrite IH by set_solver. done.
Qed.

(** A query answers with the rows of the monitors in its keys. *)
Definition answers {A} (akey : A -> UUID) (row : UUID -> option A) (rows : list A) : Prop :=
  NoDup (akey <$> rows) /\ forall i, find (fun a => N.eqb (akey a) i) rows = row i.

Lemma keyed_answers {A} (akey : A -> UUID) (row : UUID -> option A) (ks : list UUID) :
  NoDup ks -> (forall i a, row i = Some a -> akey a = i /\ i ∈ ks) -> answers akey row (omap row ks).
Proof.
  intros Hnd Hrow. split; [by apply keyed_rows_NoDup; [intros i a Hi; apply (Hrow i a)|]|]. intros i.
  rewrite keyed_rows_find by (intros j a Hj; apply (Hrow j a Hj)). case_bool_decide as Hi; [done|].
  destruct (row i) as [a|] eqn:Er; [|done]. by destruct (Hrow _ _ Er).
Qed.

Lemma aggregate_answers {R A} (key : R -> UUID) (agg : UUID -> list R -> option A) (akey : A -> UUID) (l : list R)
    (row : UUID -> option A) :
  (forall i, match List.filter (fun r => N.eqb (key r) i) l with
             | [] => row i = None
             | g => exists a, agg i g = Some a /\ row i = Some a /\ akey a = i
             end) ->
  exists rows, aggregate key agg l = Some rows /\ answers akey row rows.
Proof.
  intros Hagg. unfold aggregate, groups. rewrite mapM_fmap_compose. set (ks := remove_dups _).
  assert (Hks : forall k, k ∈ ks -> exists a, agg k (List.filter (fun r => N.eqb (key r) k) l) = Some a /\ row k = Some a).
  { intros k Hk%group_keys. specialize (Hagg k). destruct (List.filter _ l); [done|]. naive_solver. }
  rewrite mapM_rows by (intros k (a & Ha & _)%Hks; cbn; rewrite Ha; eauto).
  eexists. split; [reflexivity|]. rewrite (omap_ext_elem _ row) by (intros k (a & Ha & Hr)%Hks; cbn; by rewrite Ha, Hr).
  apply keyed_answers; [apply NoDup_remove_dups|]. intros i a Ha. specialize (Hagg i). unfold ks. rewrite group_keys.
  destruct (List.filter _ l); naive_solver.
Qed.

Lemma groups_answers {R A} (key : R -> UUID) (f : UUID * list R -> option (list A)) (akey : A -> UUID) (l : list R)
    (row : UUID -> option A) :
  (forall i, f (i, List.filter (fun r => N.eqb (key r) i) l) = Some (option_list (row i))) ->
  (forall i, List.filter (fun r => N.eqb (key r) i) l = [] -> row i = None) ->
  (forall i a, row i = Some a -> akey a = i) ->
  exists rows, mapM f (groups key l) = Some rows /\ answers akey row (concat rows).
Proof.
  intros Hf Hnil Hkey. unfold groups. rewrite mapM_fmap_compose.
  destruct (mapM_row_lists (f ∘ (fun k => (k, List.filter (fun r => N.eqb (key r) k) l))) row
    (remove_dups (key <$> l))) as (rows & Hm & Hc); [intros k _; apply Hf|].
  exists rows. split; [exact Hm|]. rewrite Hc. apply keyed_answers; [apply NoDup_remove_dups|].
  intros i a Ha. split; [by apply Hkey|]. rewrite group_keys. intros Hl%Hnil. congruence.
Qed.

Lemma run_counts ds de t now u s : day_fits ds de t ->
  exists rows, db_RollupCheckinCounts ds de now u (t, s) = (Ok rows, (t, s)) /\
               answers rc_monitor_id (rollup_checkin_row ds de t) rows.
Proof.
  intros Hfit. unfold db_RollupCheckinCounts, sql_aggregate. cbn [fst].
  match goal with |- context [aggregate ?key ?agg ?l] =>
    destruct (aggregate_answers key agg rc_monitor_id l (rollup_checkin_row ds de t)) as (rows & -> & Ha) end;
    [|by exists rows].
  intros i. cbv beta. change (List.filter (fun r => N.eqb (c_monitor_id r) i) _) with (day_checkins ds de t i).
  destruct (Hfit i) as (Hc & _). unfold rollup_checkin_row. destruct (day_checkins ds de t i) as [|c l]; [done|].
  pose proof (filter_length_le (fun c => String.eqb (c_kind c) "fail") (c :: l)).
  rewrite !int4_of_count_ok by lia. eexists. by split_and!.
Qed.

Lemma run_probe_stats ds de t now u s : day_fits ds de t ->
  exists rows, db_RollupProbeStats ds de now u (t, s) = (Ok rows, (t, s)) /\
               answers rp_monitor_id (rollup_probe_row ds de t) rows.
Proof.
  intros Hfit. unfold db_RollupProbeStats, sql_aggregate. cbn [fst].
  match goal with |- context [aggregate ?key ?agg ?l] =>
    destruct (aggregate_answers key agg rp_monitor_id l (rollup_probe_row ds de t)) as (rows & -> & Ha) end;
    [|by exists rows].
  intros i. cbv beta. change (List.filter (fun r => N.eqb (p_monitor_id r) i) _) with (day_probes ds de t i).
  destruct (Hfit i) as (_ & Hc & _). unfold rollup_probe_row. destruct (day_probes ds de t i) as [|c l]; [done|].
  pose proof (filter_length_le (fun p => negb (p_ok p)) (c :: l)).
  rewrite !int4_of_count_ok by lia. eexists. by split_and!.
Qed.

Lemma run_downtimes ds de t now u s : day_fits ds de t ->
  exists rows, db_RollupDowntimeSeconds de ds now u (t, s) = (Ok rows, (t, s)) /\
               answers rd_monitor_id (rollup_downtime_row ds de t) rows.
Proof.
  intros Hfit. unfold db_RollupDowntimeSeconds, sql_aggregate. cbn [fst].
  match goal with |- context [mapM ?f (groups ?key ?l)] =>
    destruct (groups_answers key f rd_monitor_id l (rollup_downtime_row ds de t)) as (rows & -> & Ha) end;
    [| | |by exists (concat rows)].
  - intros i. cbn [fst snd]. change (List.filter (fun r => N.eqb (e_monitor_id r) i) _) with (day_transitions de t i).
    change (monitor_outages ds de (day_transitions de t i)) with (day_outages ds de t i).
    destruct (Hfit i) as (_ & _ & Hc). unfold rollup_downtime_row, downtime_seconds in *.
    destruct (day_outages ds de t i) as [|o l]; [done|]. by rewrite (proj2 (Z.leb_le _ _)).
  - intros i Hi. unfold rollup_downtime_row, day_outages. change (day_transitions de t i = []) in Hi. by rewrite Hi.
  - intros i a Ha. unfold rollup_downtime_row in Ha. destruct (day_outages _ _ _ _); by simplify_eq.
Qed.

(** The statistic of monitor [i] for the day: none without activity; probes,
    where there are any, give the counts and the latencies. *)
Definition day_stat (ds de : Time) (t : Tables) (i : UUID) : option stat :=
  match day_checkins ds de t i, day_probes ds de t i, day_outages ds de t i with
  | [], [], [] => None
  | cs, ps, _ =>
      Some (mkstat
        (match ps with [] => Z.of_nat (length cs) | _ => Z.of_nat (length ps) end)
        (match ps with
         | [] => Z.of_nat (length (List.filter (fun c => String.eqb (c_kind c) "fail") cs))
         | _ => Z.of_nat (length (List.filter (fun p => negb (p_ok p)) ps))
         end)
        (percentile 50 100 ps) (percentile 95 100 ps) (downtime_seconds ds de t i))
  end.

Lemma by_monitor_lookup ds de t cs ps os i :
  answers rc_monitor_id (rollup_checkin_row ds de t) cs -> answers rp_monitor_id (rollup_probe_row ds de t) ps ->
  answers rd_monitor_id (rollup_downtime_row ds de t) os -> by_monitor cs ps os !! i = day_stat ds de t i.
Proof.
  intros [Hcn Hcf] [Hpn Hpf] [Hdn Hdf]. unfold by_monitor.
  etransitivity; [exact (foldl_merge_lookup rd_monitor_id
    (fun r st => mkstat (st_checkins st) (st_failures st) (st_latencyP50 st) (st_latencyP95 st) (rd_downtime_s r)) os Hdn _ i)|].
  rewrite Hdf.
  assert (Hp : foldl merge_probes (foldl merge_checkins ∅ cs) ps !! i = _)
    by exact (foldl_merge_lookup rp_monitor_id
      (fun r st => mkstat (rp_checkins r) (rp_failures r) (rp_latency_p50 r) (rp_latency_p95 r) (st_downtimeS st)) ps Hpn _ i).
  assert (Hc : foldl merge_checkins ∅ cs !! i = _)
    by exact (foldl_merge_lookup rc_monitor_id
      (fun r st => mkstat (rc_checkins r) (rc_failures r) (st_latencyP50 st) (st_latencyP95 st) (st_downtimeS st)) cs Hcn _ i).
  rewrite Hp, Hc, Hcf, Hpf, lookup_empty. unfold rollup_checkin_row, rollup_probe_row, rollup_downtime_row, day_stat.
  assert (H0 : day_outages ds de t i = [] -> downtime_seconds ds de t i = 0)
    by (unfold downtime_seconds; by intros ->).
  destruct (day_checkins ds de t i), (day_probes ds de t i), (day_outages ds de t i); cbn -[length];
    try rewrite H0 by done; done.
Qed.

Lemma day_stat_owned ds de t i st : logs_owned t -> day_stat ds de t i = Some st -> is_Some (t_monitors t !! i).
Proof.
  intros (Hc & Hp & He). rewrite Forall_forall in Hc. rewrite Forall_forall in Hp. rewrite Forall_forall in He.
  assert (Hkeep : forall {R} (f g : R -> bool) l x l', List.filter f (List.filter g l) = x :: l' -> x ∈ l /\ f x = true).
  { intros R f g l x l' Hl. assert (In x (List.filter f (List.filter g l))) as [[Hx _]%filter_In Hf]%filter_In
      by (rewrite Hl; by left). split; [by apply list_elem_of_In|done]. }
  unfold day_stat. destruct (day_checkins ds de t i) eqn:Ec.
  - destruct (day_probes ds de t i) eqn:Ep.
    + unfold day_outages. destruct (day_transitions de t i) eqn:Et; [done|].
      apply Hkeep in Et as [Hx Hi%N.eqb_eq]. intros _. rewrite <- Hi. by apply He.
    + apply Hkeep in Ep as [Hx Hi%N.eqb_eq]. intros _. rewrite <- Hi. by apply Hp.
  - apply Hkeep in Ec as [Hx Hi%N.eqb_eq]. intros _. rewrite <- Hi. by apply Hc.
Qed.

(** daily_stats after the rollup of [day]. *)
Definition rolled_up (day : Time) (m : gmap UUID stat) (t t' : Tables) : Prop :=
  exists stats, t' = set_daily_stats stats t /\
  forall i d, stats !! (i, d) =
    if decide (d = day) then
      match m !! i with
      | Some st => Some (stat_of_params (upsert_params day (i, st)))
      | None => t_daily_stats t !! (i, d)
      end
    else t_daily_stats t !! (i, d).

Lemma run_RollupDay day w :
  let ds := utc_midnight day in
  let de := ds + Day in
  no_faults w -> logs_owned (w_tables w) -> day_fits ds de (w_tables w) ->
  exists m w', run (RollupDay map_order day) w = (Ok (Z.of_nat (size m)), w') /\ no_faults w' /\
    (forall i, m !! i = day_stat ds de (w_tables w) i) /\ rolled_up ds m (w_tables w) (w_tables w').
Proof using Hperm.
  intros ds de Hf Hown Hfit. unfold RollupDay. fold ds. change (time_Add ds (24 * Hour)) with de.
  cbv zeta. rewrite run_bind, run_wrap, run_stmt, exec_ok by auto with ping.
  destruct (run_counts ds de (w_tables w) (sql_now w) (cur_uuid w) (w_seqs w) Hfit) as (cs & -> & Hc).
  set (w1 := tick _). assert (Hf1 : no_faults w1) by (subst w1; auto with ping).
  rewrite run_bind, run_wrap, run_stmt, exec_ok by auto with ping.
  change (w_tables w1) with (w_tables w). 
  destruct (run_probe_stats ds de (w_tables w) (sql_now w1) (cur_uuid w1) (w_seqs w1) Hfit) as (ps & -> & Hp).
  set (w2 := tick _). assert (Hf2 : no_faults w2) by (subst w2; auto with ping).
  rewrite run_bind, run_wrap, run_stmt, exec_ok by auto with ping.
  change (w_tables w2) with (w_tables w).
  destruct (run_downtimes ds de (w_tables w) (sql_now w2) (cur_uuid w2) (w_seqs w2) Hfit) as (os & -> & Hd).
  set (w3 := tick _). assert (Hf3 : no_faults w3) by (subst w3; auto with ping). set (m := by_monitor cs ps os).
  assert (Hm : forall i, m !! i = day_stat ds de (w_tables w) i) by (intros i; by apply by_monitor_lookup).
  rewrite run_bind. destruct (run_upserts ds (map_order (map_to_list m)) w3) as (w' & -> & Hf' & Ht').
  { done. }
  { intros i st Hin. rewrite Hperm in Hin. apply elem_of_map_to_list in Hin. rewrite Hm in Hin.
    by eapply day_stat_owned. }
  exists m, w'. split_and!; [done..|]. rewrite Ht'. change (w_tables w3) with (w_tables w).
  assert (Hnd : NoDup (map_order (map_to_list m)).*1) by (rewrite Hperm; apply NoDup_fst_map_to_list).
  eexists. split; [reflexivity|]. intros i d.
  etransitivity; [exact (upserted_lookup ds _ (w_tables w) i d Hnd)|].
  assert (Hl : (list_to_map (map_order (map_to_list m)) : gmap UUID stat) = m).
  { rewrite (list_to_map_proper _ (map_to_list m)) by done. apply list_to_map_to_list. }
  by rewrite Hl.
Qed.
End rollup_facts.

(** C34. For the UTC day of [day], [RollupDay] writes one daily_stats row for
    each monitor with activity that day, however Go iterates over its map:
    the counts and percentiles of its probes, or the counts of its check-ins
    if it has no probe, and the seconds it was down.  It reports how many rows
    it wrote, changes nothing else, keeps the other rows, and running it again
    changes nothing: a re-run replaces, it does not accumulate. *)
Theorem RollupDay_spec `{Extern} (map_order : list (UUID * stat) -> list (UUID * stat))
    (Hperm : forall l, map_order l ≡ₚ l) (day : Time) (w : World) :
  let ds := utc_midnight day in
  let de := ds + Day in
  no_faults w -> logs_owned (w_tables w) -> day_fits ds de (w_tables w) ->
  exists m w', run (RollupDay map_order day) w = (Ok (Z.of_nat (size m)), w') /\
    (forall i, m !! i = day_stat ds de (w_tables w) i) /\
    rolled_up ds m (w_tables w) (w_tables w') /\
    forall w2, no_faults w2 -> w_tables w2 = w_tables w' ->
      exists w3, run (RollupDay map_order day) w2 = (Ok (Z.of_nat (size m)), w3) /\ w_tables w3 = w_tables w'.
Proof.
  intros ds de Hf Hown Hfit. destruct (run_RollupDay map_order Hperm day w Hf Hown Hfit) as (m & w' & Hr & _ & Hm & Hup).
  exists m, w'. do 3 (split; [done|]). destruct Hup as (stats & Ht' & Hstats). intros w2 Hf2 Ht2.
  destruct (run_RollupDay map_order Hperm day w2 Hf2) as (m2 & w3 & Hr3 & _ & Hm2 & stats2 & Ht3 & Hstats2);
    [by rewrite Ht2, Ht'..|].
  assert (Hmm : m2 = m).
  { apply map_eq. intros i. rewrite Hm2, Hm, Ht2, Ht'. done. }
  subst m2. assert (Hs : stats2 = stats).
  { apply map_eq. intros [i d]. rewrite Hstats2, Ht2, Ht'. cbn [t_daily_stats set_daily_stats]. rewrite Hstats.
    case_decide; [|done]. by destruct (m !! i). }
  exists w3. split; [done|]. by rewrite Ht3, Ht2, Ht', Hs.
Qed.

Definition outage_event (id : Z) (type : string) (at' : Time) : Event :=
  mkEvent id 1 type type MetaEmpty at'.

(** Down twice in a day: 30 minutes, then from 23:00 on. *)
Definition demo_rollup_tables : Tables :=
  let d := utc_midnight demo_t0 in
  set_events [outage_event 1 "down" (d + Hour); outage_event 2 "up" (d + 90 * Minute); outage_event 3 "down" (d + 23 * Hour)]
    (demo_tables [demo_heartbeat "down" None]).

Example demo_downtime :
  let d := utc_midnight demo_t0 in
  downtime_seconds d (d + Day) demo_rollup_tables 1 = 5400 /\
  downtime_seconds (d + Day) (d + 2 * Day) demo_rollup_tables 1 = 86400.
Proof. split; vm_compute; reflexivity. Qed.

Lemma RollupDay_spec_witness :
  exists (m : gmap UUID stat) w', run (@RollupDay demo_extern id demo_t0) (mkWorld demo_rollup_tables demo_seqs 0 None demo_env)
    = (Ok (Z.of_nat (size m)), w') /\ size m = 1%nat.
Proof.
  pose (d := utc_midnight demo_t0).
  assert (Hfit : day_fits d (d + Day) demo_rollup_tables).
  { intros i. split_and!; [vm_compute; discriminate..|].
    unfold downtime_seconds, day_outages, day_transitions. destruct (decide (i = 1%N)) as [->|Hi]; [vm_compute; discriminate|].
    rewrite filter_bool_none; [vm_compute; discriminate|]. intros e He. apply list_elem_of_In, filter_In in He as [He _].
    apply list_elem_of_In in He.
    destruct (N.eqb_spec (e_monitor_id e) i) as [<-|]; [|done]. exfalso. apply Hi.
    repeat (apply elem_of_cons in He as [->|He]; [reflexivity|]). by apply not_elem_of_nil in He. }
  assert (Hown : logs_owned demo_rollup_tables).
  { split_and!; [constructor..|]. apply Forall_forall. intros e He.
    repeat (apply elem_of_cons in He as [->|He]; [vm_compute; eauto|]). by apply not_elem_of_nil in He. }
  destruct (@RollupDay_spec demo_extern id (fun l => reflexivity l) demo_t0
    (mkWorld demo_rollup_tables demo_seqs 0 None demo_env) (demo_no_faults _ _ _) Hown Hfit)
    as (m & w' & Hr & Hm & _).
  exists m, w'. split; [exact Hr|]. apply Nat2Z.inj.
  assert (Hv : fst (run (@RollupDay demo_extern id demo_t0) (mkWorld demo_rollup_tables demo_seqs 0 None demo_env)) = Ok 1)
    by (vm_compute; reflexivity).
  rewrite Hr in Hv. cbn [fst] in Hv. by injection Hv.
Defined.

(** ** Downtime *)

(** Consecutive transitions differ. *)
Fixpoint alternating (es : list Event) : Prop :=
  match es with
  | e :: ((n :: _) as es') => e_type e <> e_type n /\ alternating es'
  | _ => True
  end.

Lemma clamp_outage_nonneg ds de o : 0 <= clamp_outage ds de o.
Proof. unfold clamp_outage. lia. Qed.

Lemma sum_clamp_nonneg ds de l : 0 <= sum_Z (clamp_outage ds de <$> l).
Proof. induction l as [|o l IH]; cbn; [done|]. fold (sum_Z (clamp_outage ds de <$> l)). pose proof (clamp_outage_nonneg ds de o). lia. Qed.

Lemma sum_clamp_filter ds de f l :
  sum_Z (clamp_outage ds de <$> List.filter f l) <= sum_Z (clamp_outage ds de <$> l).
Proof.
  induction l as [|o l IH]; cbn; [done|]. pose proof (clamp_outage_nonneg ds de o).
  unfold sum_Z in *. destruct (f o); cbn; lia.
Qed.

(** Disjoint outages after [lo] fit between [lo] and the end of the day. *)
Lemma alternating_outages ds de es : forall lo,
  Forall (fun e => e_type e = "down" \/ e_type e = "up")%string es -> alternating es ->
  StronglySorted (fun a b => event_time_le a b = true) es -> Forall (fun e => lo <= e_created_at e) es ->
  sum_Z (clamp_outage ds de <$> outages de es) <= Z.max 0 (de - Z.max lo ds).
Proof.
  induction es as [|e es IH]; intros lo Ht Halt Hs Hlo; [cbn; lia|].
  apply Forall_cons in Ht as [Hte Ht]. apply StronglySorted_inv in Hs as [Hs Hle]. apply Forall_cons in Hlo as [Hloe Hlo].
  assert (Halt' : alternating es) by (destruct es; [done|]; apply Halt).
  assert (Hrest : sum_Z (clamp_outage ds de <$> outages de es)
                  <= Z.max 0 (de - Z.max (match es with n :: _ => e_created_at n | [] => de end) ds)).
  { destruct es as [|n es']; [cbn; lia|]. apply IH; [done..|].
    apply StronglySorted_inv in Hs as [_ Hle']. constructor; [done|].
    eapply Forall_impl; [exact Hle'|]. unfold event_time_le. intros x Hx. lia. }
  assert (Hn : match es with n :: _ => e_created_at e <= e_created_at n | [] => True end).
  { destruct es as [|n es']; [done|]. apply Forall_cons in Hle as [Hle _]. unfold event_time_le in Hle. lia. }
  cbn [outages]. destruct (String.eqb_spec (e_type e) "down") as [Hd|Hd].
  - cbn [app fmap list_fmap]. destruct es as [|n es'].
    + cbn. unfold clamp_outage. cbn. lia.
    + destruct Halt as [Hne _]. apply Forall_cons in Ht as [[Hnt|Hnt] _]; [congruence|]. rewrite Hnt in *. cbn [String.eqb].
      cbn -[outages Z.max clamp_outage]. fold (sum_Z (clamp_outage ds de <$> outages de (n :: es'))).
      unfold clamp_outage at 1. cbn [fst snd]. lia.
  - cbn [app]. destruct es as [|n es']; [cbn; lia|]. lia.
Qed.

Lemma StronglySorted_from_head es :
  StronglySorted (fun a b => event_time_le a b = true) es ->
  Forall (fun e => match es with h :: _ => e_created_at h <= e_created_at e | [] => True end) es.
Proof.
  intros Hs. destruct es as [|h es]; [constructor|]. apply StronglySorted_inv in Hs as [_ Hle].
  constructor; [lia|]. eapply Forall_impl; [exact Hle|]. unfold event_time_le. intros x Hx. lia.
Qed.

(** C36. A monitor whose transitions alternate between 'down' and 'up' is down
    for between 0 and 86,400 seconds of a day, so the INTEGER column holds
    it; and an outage across midnight is split: its time in two adjacent days
    is its time in both together. *)
Theorem downtime_bounded (ds : Time) (t : Tables) (i : UUID) :
  let de := ds + Day in
  alternating (sort_by event_time_le (day_transitions de t i)) ->
  0 <= downtime_seconds ds de t i <= 86400 /\
  forall o, o.1 <= o.2 ->
    clamp_outage ds de o + clamp_outage de (de + Day) o = clamp_outage ds (de + Day) o.
Proof.
  intros de Halt. split; [|intros o Ho; unfold clamp_outage, de, Day; lia].
  unfold downtime_seconds, day_outages, monitor_outages. set (es := sort_by _ _) in *.
  pose proof (sum_clamp_nonneg ds de (List.filter (overlaps_day ds de) (outages de es))) as H0.
  pose proof (sum_clamp_filter ds de (overlaps_day ds de) (outages de es)) as H1.
  assert (Hs : StronglySorted (fun a b => event_time_le a b = true) es).
  { apply sort_by_sorted; unfold event_time_le; intros; lia. }
  assert (H2 : sum_Z (clamp_outage ds de <$> outages de es) <= Day).
  { etransitivity; [apply (alternating_outages ds de es (match es with h :: _ => e_created_at h | [] => 0 end)); try done|].
    - apply Forall_forall. intros e He. unfold es in He. rewrite elem_of_sort_by in He.
      apply list_elem_of_In, filter_In in He as [[_ He]%filter_In _]. unfold is_transition in He.
      apply andb_true_iff in He as [[He|He]%orb_true_iff _]; apply String.eqb_eq in He; auto.
    - pose proof (StronglySorted_from_head es Hs) as Hh. by destruct es.
    - assert (0 <= Day) by done. unfold de. lia. }
  unfold round_seconds. change Second with 1000000000. change (1000000000 / 2) with 500000000.
  change Day with 86400000000000 in H2.
  generalize dependent (sum_Z (clamp_outage ds de <$> List.filter (overlaps_day ds de) (outages de es))).
  intros n Hn0 Hn1. split; [apply Z.div_pos; lia|].
  apply Z.lt_succ_r, Z.div_lt_upper_bound; lia.
Qed.

Lemma downtime_bounded_witness :
  let ds := utc_midnight demo_t0 in
  alternating (sort_by event_time_le (day_transitions (ds + Day) demo_rollup_tables 1)) /\
  0 <= downtime_seconds ds (ds + Day) demo_rollup_tables 1 <= 86400.
Proof.
  intros ds.
  assert (Halt : alternating (sort_by event_time_le (day_transitions (ds + Day) demo_rollup_tables 1)))
    by (vm_compute; split_and!; done).
  split; [exact Halt|]. apply (downtime_bounded ds demo_rollup_tables 1 Halt).
Defined.

(** Two 'down' events without an 'up' between them count twice: a day of
    172,800 seconds. *)
Example two_downs_count_twice :
  let d := utc_midnight demo_t0 in
  downtime_seconds d (d + Day)
    (set_events [outage_event 1 "down" (d - 2 * Hour); outage_event 2 "down" (d - Hour)]
      (demo_tables [demo_heartbeat "down" None])) 1 = 172800.
Proof. vm_compute. reflexivity. Qed.

(** ** Retention *)

Definition alert_pending (a : Alert) : bool := String.eqb (a_status a) "pending".

(** What retention promises of the tables. *)
Definition pruned (cutoff : Time) (t t' : Tables) : Prop :=
  t_checkins t' = List.filter (fun c => cutoff <=? c_created_at c) (t_checkins t) /\
  t_probe_results t' = List.filter (fun p => cutoff <=? p_created_at p) (t_probe_results t) /\
  t_events t' = List.filter (fun e => (cutoff <=? e_created_at e) || has_pending_alert t e) (t_events t) /\
  (forall a, a ∈ t_alerts t' -> a ∈ t_alerts t) /\
  (forall a, a ∈ t_alerts t -> alert_pending a = true -> a ∈ t_alerts t') /\
  (forall a, a ∈ t_alerts t' -> a_event_id a ∈ e_id <$> t_events t -> a_event_id a ∈ e_id <$> t_events t') /\
  t' = mkTables (t_users t) (t_api_keys t) (t_monitors t) (t_checkins t') (t_probe_results t') (t_events t')
         (t_alerts t') (t_daily_stats t) (t_refresh_tokens t).

Lemma removed_not_pending cutoff t a :
  a ∈ t_alerts t -> alert_pending a = true -> a_event_id a ∉ removed_events cutoff t.
Proof.
  intros Ha Hp (e & He & Hin)%list_elem_of_fmap. apply list_elem_of_In, filter_In in Hin as [_ Hold].
  unfold event_old in Hold. apply andb_true_iff in Hold as [_ Hn%negb_true_iff].
  assert (has_pending_alert t e = true); [|congruence].
  apply existsb_exists. exists a. split; [by apply list_elem_of_In|]. unfold alert_pending in Hp.
  by rewrite Hp, andb_true_r, He, Z.eqb_refl.
Qed.

Lemma not_old_keeps {R} (old keep : R -> bool) l :
  (forall r, negb (old r) = keep r) -> List.filter (not_old old) l = List.filter keep l.
Proof. intros Hk. apply List.filter_ext. intros r. apply Hk. Qed.

Lemma prune_all_spec cutoff t :
  pruned cutoff t (prune_events cutoff (prune_probes cutoff (prune_checkins cutoff t))).
Proof.
  set (t1 := prune_probes cutoff (prune_checkins cutoff t)).
  assert (Hr : removed_events cutoff t1 = removed_events cutoff t) by done.
  unfold prune_events. rewrite Hr. split_and!; cbn [t_checkins t_probe_results t_events t_alerts set_alerts set_events].
  - apply not_old_keeps. intros c. unfold checkin_old. by rewrite Z.leb_antisym.
  - apply not_old_keeps. intros p. unfold probe_old. by rewrite Z.leb_antisym.
  - apply not_old_keeps. intros e. unfold event_old. by rewrite negb_andb, negb_involutive, Z.leb_antisym.
  - intros a [Ha _]%list_elem_of_In%filter_In. by apply list_elem_of_In.
  - intros a Ha Hp. apply list_elem_of_In, filter_In. split; [by apply list_elem_of_In|].
    apply negb_true_iff, bool_decide_eq_false. by apply removed_not_pending.
  - intros a [_ Hn%negb_true_iff%bool_decide_eq_false]%list_elem_of_In%filter_In (e & He & Hin)%list_elem_of_fmap.
    rewrite He in *. apply list_elem_of_fmap_2, list_elem_of_In, filter_In. split; [by apply list_elem_of_In|].
    unfold not_old. apply negb_true_iff. destruct (event_old cutoff t1 e) eqn:Eo; [|done]. exfalso. apply Hn.
    apply list_elem_of_fmap_2, list_elem_of_In, filter_In. split; [by apply list_elem_of_In|done].
  - done.
Qed.

(** C35. With fuel for the batches the logs need, the retention pass ends,
    reports how many rows of each log it deleted, and leaves the check-ins and
    probe results of the cutoff or later, the events of the cutoff or later or
    with a pending alert, no alert without its event, every pending alert, and
    every other table as it was. *)
Theorem PruneOldData_spec (fuel : nat) (cancelled : nat -> bool) (cutoff : Time) (w : World) :
  let '(nc, np, ne) := old_counts cutoff (w_tables w) in
  (forall n, cancelled n = false) -> no_faults w -> log_ids_distinct (w_tables w) ->
  enough_fuel fuel nc -> enough_fuel fuel np -> enough_fuel fuel ne ->
  exists w', run (PruneOldData fuel cancelled cutoff) w
             = (Ok (mkPruneResult (Z.of_nat nc) (Z.of_nat np) (Z.of_nat ne)), w') /\
    pruned cutoff (w_tables w) (w_tables w').
Proof.
  pose proof (run_PruneOldData fuel cancelled cutoff w) as Hrun. destruct (old_counts _ _) as [[nc np] ne].
  intros Hc Hf Hd Hnc Hnp Hne. destruct (Hrun Hc Hf Hd Hnc Hnp Hne) as (w' & Hr & Ht).
  exists w'. split; [done|]. rewrite Ht. apply prune_all_spec.
Qed.

(** A monitor that has been down for longer than the retention. *)
Definition long_outage_world : World :=
  mkWorld (set_events [outage_event 1 "down" (demo_t0 - 100 * Day); outage_event 2 "mute" (demo_t0 - Day)]
             (demo_tables [demo_heartbeat "down" None])) demo_seqs 0 None demo_env.

Lemma PruneOldData_spec_witness :
  exists w', run (PruneOldData 1 (fun _ => false) (demo_t0 - 90 * Day)) long_outage_world
             = (Ok (mkPruneResult 0 0 1), w') /\
    pruned (demo_t0 - 90 * Day) (w_tables long_outage_world) (w_tables w').
Proof.
  apply (PruneOldData_spec 1 (fun _ => false) (demo_t0 - 90 * Day) long_outage_world);
    [done|apply demo_no_faults| |by split; vm_compute..].
  split_and!; [constructor..|]. apply (bool_decide_unpack _). vm_compute. exact I.
Defined.

(** Retention forgets an outage that outlasts it: the 'down' event goes, and
    with it the downtime of the days to come and the reminders, although the
    monitor is still down. *)
Example retention_forgets_outage :
  let w' := snd (run (PruneOldData 1 (fun _ => false) (demo_t0 - 90 * Day)) long_outage_world) in
  let d := utc_midnight demo_t0 in
  downtime_seconds d (d + Day) (w_tables long_outage_world) 1 = 86400 /\
  downtime_seconds d (d + Day) (w_tables w') 1 = 0 /\
  reminder_due (w_tables long_outage_world) demo_t0 (demo_heartbeat "down" None) = Some 1 /\
  reminder_due (w_tables w') demo_t0 (demo_heartbeat "down" None) = None.
Proof. split_and!; vm_compute; reflexivity. Qed.
