(* ===== verification/Prober.v ===== *)
(** * Prober: probe outcomes, confirmation and certificate warnings (store/prober.go) *)
From S2P Require Import Prelude GoLib Models Extern Store Queries Logic Demo Convert Checkin.
Local Open Scope Z_scope.
Local Open Scope ping_scope.

Record ProbeOutcome := mkProbeOutcome {
  po_MonitorID : string;
  po_OK : bool;
  po_HTTPStatus : option Z;
  po_LatencyMS : option Z;
  po_Error : string;
  po_TLSExpiresAt : option Time;
  po_FailThreshold : Z;
  po_PriorState : string;
  po_PriorFailStreak : Z;
  po_PriorTLSWarnedExpiresAt : option Time;
  po_NextProbeAt : Time;
  po_Now : Time
}.

Record RecordProbeResultResult := mkRecordProbeResultResult {
  rpr_State : string;
  rpr_Transition : string
}.

Definition tlsWarningWindow : Duration := 14 * 24 * Hour.

(** The confirmation rule: the new state and streak. *)
Definition nextProbeState (o : ProbeOutcome) : string * Z :=
  if po_OK o then ("up", 0)
  else
    let failStreak := wrap32 (po_PriorFailStreak o + 1) in
    let threshold := if po_FailThreshold o <=? 0 then 2 else po_FailThreshold o in
    if threshold <=? failStreak then ("down", failStreak)
    else if String.eqb (po_PriorState o) "" then ("up", failStreak)
    else (po_PriorState o, failStreak).

Definition probeFailureMessage (o : ProbeOutcome) : string :=
  if String.eqb (po_Error o) "" then "Monitor failed its probe"
  else "Monitor failed its probe: " +:+ po_Error o.

(** Same certificate: equal expiries at second precision. *)
Definition same_certificate (prior : option Time) (expires : Time) : bool :=
  match prior with
  | Some w => time_Truncate w Second =? time_Truncate expires Second
  | None => false
  end.

Definition maybeWarnTLSExpiry (monitorID : UUID) (o : ProbeOutcome) : Prog unit :=
  match po_TLSExpiresAt o with
  | None => ret tt
  | Some expires =>
      let! now := (if time_IsZero (po_Now o) then time_Now else ret (po_Now o)) in
      if tlsWarningWindow <? time_Sub expires now then ret tt
      else if same_certificate (po_PriorTLSWarnedExpiresAt o) expires then ret tt
      else if negb (year_0_to_9999 expires) then
        throw (EWrap "store: marshal tls_expiry meta" (EMsg "Time.MarshalJSON: year outside of range [0,9999]"))
      else
        let! event := recordEventMeta monitorID "tls_expiry"
                        ("TLS certificate expires " +:+ FormatRFC3339 expires) (Some (MetaTLS expires)) in
        let! _ := wrap "store: insert tls_expiry alert"
                    (stmt (db_InsertAlert monitorID (e_id event) alertChannelDefault)) in
        let! _ := wrap "store: set tls warned expiry"
                    (stmt (db_SetTLSWarnedExpiry (Some expires) monitorID)) in
        ret tt
  end.

Section prober.
Context `{Extern}.

Definition prober_ClaimDueProbes (now : Time) (limit : Z) : Prog (list store_Monitor) :=
  let! rows := wrap "store: claim due probes" (stmt (db_ClaimDueProbes now limit)) in
  ret (toMonitor <$> rows).

Definition RecordProbeResult (o : ProbeOutcome) : Prog RecordProbeResultResult :=
  withTx (
    let! monitorID := lift_res (pgUUID (po_MonitorID o)) in
    let! _ := wrap "store: insert probe result"
                (stmt (db_InsertProbeResult (mkInsertProbeResultParams monitorID (po_OK o)
                   (po_HTTPStatus o) (po_LatencyMS o) (textOrNull (po_Error o)) (po_TLSExpiresAt o)))) in
    let '(newState, newFailStreak) := nextProbeState o in
    let! _ := wrap "store: update monitor on probe"
                (stmt (db_UpdateMonitorOnProbe
                   (mkUpdateMonitorOnProbeParams newState newFailStreak (Some (po_NextProbeAt o)) monitorID))) in
    let! transition :=
      (if String.eqb newState "down" && negb (String.eqb (po_PriorState o) "down") then
         let! _ := recordTransition monitorID "down" (probeFailureMessage o) in ret "down"
       else if String.eqb newState "up" && String.eqb (po_PriorState o) "down" then
         let! _ := recordTransition monitorID "up" "Monitor recovered" in ret "up"
       else ret "") in
    let! _ := maybeWarnTLSExpiry monitorID o in
    ret (mkRecordProbeResultResult newState transition)).

(** ** What a probe leaves behind *)

(** The transition of a probe against the state its claim saw. *)
Definition probe_transition (o : ProbeOutcome) : option string :=
  if String.eqb (nextProbeState o).1 "down" && negb (String.eqb (po_PriorState o) "down") then Some "down"
  else if String.eqb (nextProbeState o).1 "up" && String.eqb (po_PriorState o) "down" then Some "up"
  else None.

(** A certificate that expires within 14 days and was not warned about. *)
Definition tls_warning (o : ProbeOutcome) : option Time :=
  match po_TLSExpiresAt o with
  | Some expires =>
      if (time_Sub expires (po_Now o) <=? tlsWarningWindow)
         && negb (same_certificate (po_PriorTLSWarnedExpiresAt o) expires)
      then Some expires else None
  | None => None
  end.

(** The event types an outcome writes, each with one pending alert. *)
Definition probe_events (o : ProbeOutcome) : list string :=
  match probe_transition o with Some ty => [ty] | None => [] end ++
  match tls_warning o with Some _ => ["tls_expiry"] | None => [] end.

Definition outbox_written (mid : UUID) (types : list string) (t t' : Tables) : Prop :=
  exists es als,
    t_events t' = t_events t ++ es /\ t_alerts t' = t_alerts t ++ als /\
    Forall2 (fun ty e => e_type e = ty /\ e_monitor_id e = mid) types es /\
    Forall2 (fun e a => a_event_id a = e_id e /\ a_monitor_id a = mid /\ a_status a = "pending" /\
                        a_attempts a = 0 /\ a_is_reminder a = false) es als.

Definition probed_row (txnow : Time) (o : ProbeOutcome) (m : Monitor) : Monitor :=
  let m' := with_updated_at txnow (with_next_probe_at (Some (po_NextProbeAt o))
              (with_fail_streak (nextProbeState o).2 (with_state (nextProbeState o).1 m))) in
  match tls_warning o with
  | Some expires => with_tls_warned_expires_at (Some expires) m'
  | None => m'
  end.

Definition probe_recorded (o : ProbeOutcome) (mid : UUID) (t t' : Tables) : Prop :=
  exists p, t_probe_results t' = t_probe_results t ++ [p] /\ p_monitor_id p = mid /\ p_ok p = po_OK o /\
    p_http_status p = po_HTTPStatus o /\ p_latency_ms p = po_LatencyMS o /\
    p_error p = textOrNull (po_Error o) /\ p_tls_expires_at p = po_TLSExpiresAt o.

Definition probe_outcome (o : ProbeOutcome) (mid : UUID) (m : Monitor) (txnow : Time) (t t' : Tables) : Prop :=
  probe_recorded o mid t t' /\
  t_monitors t' = <[mid := probed_row txnow o m]> (t_monitors t) /\
  outbox_written mid (probe_events o) t t' /\
  t_checkins t' = t_checkins t /\ t_users t' = t_users t /\ t_api_keys t' = t_api_keys t /\
  t_daily_stats t' = t_daily_stats t /\ t_refresh_tokens t' = t_refresh_tokens t.
End prober.

(** ** Lemmas *)

Lemma outbox_written_nil mid t t' :
  t_events t' = t_events t -> t_alerts t' = t_alerts t -> outbox_written mid [] t t'.
Proof. intros He Ha. exists [], []. rewrite !app_nil_r. split_and!; try done; by apply Forall2_nil. Qed.

Lemma outbox_written_trans mid l1 l2 t1 t2 t3 :
  outbox_written mid l1 t1 t2 -> outbox_written mid l2 t2 t3 -> outbox_written mid (l1 ++ l2) t1 t3.
Proof.
  intros (es1 & al1 & He1 & Ha1 & H1 & H1') (es2 & al2 & He2 & Ha2 & H2 & H2').
  exists (es1 ++ es2), (al1 ++ al2). rewrite He2, Ha2, He1, Ha1, !app_assoc.
  split_and!; [done..|by apply Forall2_app|by apply Forall2_app].
Qed.

Lemma outbox_written_same mid l t1 t1' t2 t2' :
  t_events t1' = t_events t1 -> t_alerts t1' = t_alerts t1 ->
  t_events t2' = t_events t2 -> t_alerts t2' = t_alerts t2 ->
  outbox_written mid l t1 t2 -> outbox_written mid l t1' t2'.
Proof. unfold outbox_written. by intros -> -> -> ->. Qed.

(** One event with its alert, appended by a program of the store. *)
Lemma outbox_written_one mid ty t t' e a :
  t_events t' = t_events t ++ [e] -> t_alerts t' = t_alerts t ++ [a] ->
  e_type e = ty -> e_monitor_id e = mid -> a_event_id a = e_id e -> a_monitor_id a = mid ->
  a_status a = "pending" -> a_attempts a = 0 -> a_is_reminder a = false ->
  outbox_written mid [ty] t t'.
Proof. intros. exists [e], [a]. split_and!; [done..| |]; by constructor. Qed.

(** Everything but monitors, events and alerts. *)
Definition quiet (t t' : Tables) : Prop :=
  t_checkins t' = t_checkins t /\ t_probe_results t' = t_probe_results t /\ t_users t' = t_users t /\
  t_api_keys t' = t_api_keys t /\ t_daily_stats t' = t_daily_stats t /\
  t_refresh_tokens t' = t_refresh_tokens t.

Lemma run_maybeWarn mid m o now w :
  in_tx now w -> t_monitors (w_tables w) !! mid = Some m -> m_id m = mid ->
  time_IsZero (po_Now o) = false ->
  (forall e, tls_warning o = Some e -> year_0_to_9999 e = true) ->
  exists w', run (maybeWarnTLSExpiry mid o) w = (Ok tt, w') /\ in_tx now w' /\
    t_monitors (w_tables w') = <[mid := match tls_warning o with
                                        | Some e => with_tls_warned_expires_at (Some e) m
                                        | None => m end]> (t_monitors (w_tables w)) /\
    outbox_written mid (match tls_warning o with Some _ => ["tls_expiry"] | None => [] end)
      (w_tables w) (w_tables w') /\ quiet (w_tables w) (w_tables w').
Proof.
  intros Hw Hm Hid Hz Hy. unfold maybeWarnTLSExpiry, tls_warning in *.
  assert (Hsame : exists w', run (ret tt) w = (Ok tt, w') /\ in_tx now w' /\
            t_monitors (w_tables w') = <[mid := m]> (t_monitors (w_tables w)) /\
            outbox_written mid [] (w_tables w) (w_tables w') /\ quiet (w_tables w) (w_tables w')).
  { exists w. split_and!; try done; [by rewrite insert_id|by apply outbox_written_nil]. }
  destruct (po_TLSExpiresAt o) as [e|]; [|done]. rewrite Hz, run_bind. cbn [run ret].
  destruct (tlsWarningWindow <? time_Sub e (po_Now o)) eqn:Ew.
  { replace (time_Sub e (po_Now o) <=? tlsWarningWindow) with false by (symmetry; lia). done. }
  replace (time_Sub e (po_Now o) <=? tlsWarningWindow) with true in * by (symmetry; lia).
  destruct (same_certificate _ _); [done|]. cbn [negb andb] in *. rewrite (Hy e) by done. cbn [negb].
  edestruct (run_recordEventMeta mid "tls_expiry" ("TLS certificate expires " +:+ FormatRFC3339 e)
    (Some (MetaTLS e)) now w Hw) as (ev & Hrun & Hev); [by eexists|].
  rewrite run_bind, Hrun, run_bind, run_wrap, (in_tx_stmt _ now).
  2:{ destruct Hw as [Hf Ht]. split; [by apply no_faults_tick, no_faults_set_db|done]. }
  unfold db_InsertAlert, w_db. cbn [w_tables w_seqs tick set_db set_events t_monitors t_events t_alerts].
  rewrite Hm, bool_decide_true by (by eexists). rewrite existsb_app. cbn [existsb].
  rewrite Z.eqb_refl, orb_true_r. cbn [andb].
  rewrite run_bind, run_wrap, (in_tx_stmt _ now).
  2:{ apply in_tx_step. destruct Hw as [Hf Ht]. split; [by apply no_faults_tick, no_faults_set_db|done]. }
  unfold db_SetTLSWarnedExpiry, sql_update_monitor, w_db. cbn. rewrite Hm. cbn.
  eexists. split; [done|]. split; [|split_and!; try done].
  - apply in_tx_step, in_tx_step. destruct Hw as [Hf Ht]. split; [by apply no_faults_tick, no_faults_set_db|done].
  - cbn. by rewrite Hid.
  - rewrite Hev. eapply outbox_written_one; done.
Qed.

(** The transition an outcome makes, if any. *)
Lemma run_probe_transition mid m o now w :
  in_tx now w -> t_monitors (w_tables w) !! mid = Some m ->
  exists w', run (if String.eqb (nextProbeState o).1 "down" && negb (String.eqb (po_PriorState o) "down") then
         let! _ := recordTransition mid "down" (probeFailureMessage o) in ret "down"
       else if String.eqb (nextProbeState o).1 "up" && String.eqb (po_PriorState o) "down" then
         let! _ := recordTransition mid "up" "Monitor recovered" in ret "up"
       else ret "") w = (Ok (default "" (probe_transition o)), w') /\ in_tx now w' /\
    t_monitors (w_tables w') = t_monitors (w_tables w) /\
    outbox_written mid (match probe_transition o with Some ty => [ty] | None => [] end)
      (w_tables w) (w_tables w') /\ quiet (w_tables w) (w_tables w').
Proof.
  intros Hw Hm. unfold probe_transition. destruct (_ && _).
  { rewrite run_bind, (run_recordTransition _ _ _ now) by (done || by eexists). eexists.
    split; [done|]. split; [by auto with ping|]. split_and!; try done. by eapply outbox_written_one. }
  destruct (_ && _).
  { rewrite run_bind, (run_recordTransition _ _ _ now) by (done || by eexists). eexists.
    split; [done|]. split; [by auto with ping|]. split_and!; try done. by eapply outbox_written_one. }
  exists w. split_and!; try done. by apply outbox_written_nil.
Qed.

Lemma run_RecordProbeResult `{Extern} o mid m w :
  no_faults w -> uuid_scan (po_MonitorID o) = Some mid -> t_monitors (w_tables w) !! mid = Some m ->
  m_id m = mid -> time_IsZero (po_Now o) = false ->
  (forall e, tls_warning o = Some e -> year_0_to_9999 e = true) ->
  exists w', run (RecordProbeResult o) w
    = (Ok (mkRecordProbeResultResult (nextProbeState o).1 (default "" (probe_transition o))), w') /\
    probe_outcome o mid m (cur_clock w) (w_tables w) (w_tables w').
Proof.
  intros Hf Hid Hm Hmid Hz Hy. unfold RecordProbeResult. set (body := bind _ _).
  enough (Hb : exists w1, run body (tx_start w)
      = (Ok (mkRecordProbeResultResult (nextProbeState o).1 (default "" (probe_transition o))), w1) /\
      in_tx (cur_clock w) w1 /\ probe_outcome o mid m (cur_clock w) (w_tables w) (w_tables w1)).
  { destruct Hb as (w1 & Hr & Hw1 & Ho). eexists. split; [by eapply run_withTx_commit|done]. }
  unfold body. pose proof (in_tx_start w Hf) as Hw0. set (now := cur_clock w) in *.
  unfold pgUUID. rewrite Hid, run_bind. cbn [run lift_res].
  rewrite run_bind, run_wrap, (in_tx_stmt _ now) by done.
  unfold db_InsertProbeResult, w_db. cbn [ip_monitor_id w_tables w_seqs tx_start set_txnow tick].
  rewrite Hm, bool_decide_true by (by eexists). set (w1 := tick (set_w_db _ _)).
  assert (Hw1 : in_tx now w1) by (by apply in_tx_step).
  destruct (nextProbeState o) as [st fs] eqn:En. rewrite run_bind, run_wrap, (in_tx_stmt _ now) by done.
  unfold db_UpdateMonitorOnProbe, sql_update_monitor, w_db. cbn [up_id w_tables w1 tick set_w_db set_db fst snd set_probe_results t_monitors].
  rewrite Hm. set (m1 := with_updated_at _ _). set (w2 := tick (set_w_db _ _)).
  assert (Hw2 : in_tx now w2) by (by apply in_tx_step).
  assert (Hm2 : t_monitors (w_tables w2) = <[mid := m1]> (t_monitors (w_tables w))).
  { cbn. by rewrite Hmid. }
  destruct (run_probe_transition mid m1 o now w2 Hw2) as (w3 & Hr3 & Hw3 & Hm3 & Ho3 & Hq3).
  { rewrite Hm2. apply lookup_insert_eq. }
  rewrite En in Hr3. cbn [fst] in Hr3. rewrite run_bind, Hr3.
  destruct (run_maybeWarn mid m1 o now w3 Hw3) as (w4 & Hr4 & Hw4 & Hm4 & Ho4 & Hq4); [|done..|].
  { rewrite Hm3, Hm2. apply lookup_insert_eq. }
  rewrite run_bind, Hr4. exists w4. split; [done|]. split; [done|].
  unfold probe_outcome, probe_recorded, quiet, probed_row, probe_events in *.
  destruct Hq3 as (q1 & q2 & q3 & q4 & q5 & q6), Hq4 as (q1' & q2' & q3' & q4' & q5' & q6').
  rewrite q1', q1, q2', q2, q3', q3, q4', q4, q5', q5, q6', q6, Hm4, Hm3, Hm2, insert_insert_eq, En.
  split; [by eexists|]. split; [done|]. split_and!; try done.
  eapply (outbox_written_trans _ _ _ _ (w_tables w3)); [|done].
  by eapply outbox_written_same; [..|exact Ho3].
Qed.

(** A run of probes of one monitor, each claim seeing the state the probe
    before it left. *)
Definition probe_again (threshold : Z) (st : string * Z) (ok : bool) : string * Z :=
  nextProbeState (mkProbeOutcome "" ok None None "" None threshold st.1 st.2 None 0 0).

Definition probe_run (threshold : Z) (st : string * Z) (oks : list bool) : string * Z :=
  foldl (probe_again threshold) st oks.

(** The failures since the last success. *)
Fixpoint trailing_failures (n : Z) (oks : list bool) : Z :=
  match oks with
  | [] => n
  | true :: oks' => trailing_failures 0 oks'
  | false :: oks' => trailing_failures (n + 1) oks'
  end.

(** [held]: down before the first probe, and no success yet. *)
Definition confirmed (threshold : Z) (n : Z) (held : bool) (st : string * Z) : Prop :=
  st.2 = n /\ st.1 <> "" /\ (st.1 = "down" <-> threshold <= n \/ held = true).

Lemma probe_again_success threshold st : 0 < threshold -> confirmed threshold 0 false (probe_again threshold st true).
Proof. intros Ht. split; [done|]. split; [done|]. split; [done|]. intros [Hn|Hn]; [lia|done]. Qed.

Lemma probe_again_failure threshold st n :
  0 < threshold -> 0 <= n < 2147483647 -> st.2 = n -> st.1 <> "" ->
  confirmed threshold (n + 1) (String.eqb st.1 "down") (probe_again threshold st false).
Proof.
  intros Ht Hn Hs Hne. unfold probe_again, nextProbeState. cbn. rewrite Hs, wrap32_id by (unfold is_int32; lia).
  replace (threshold <=? 0) with false by (symmetry; lia). destruct (threshold <=? n + 1) eqn:E; cbn.
  - split; [done|]. split; [done|]. cbn. split; [left; lia|done].
  - destruct (String.eqb_spec st.1 ""); [done|]. split; [done|]. split; [done|]. cbn.
    destruct (String.eqb_spec st.1 "down") as [->|Hd]; split; try done; [by right|]. intros [?|?]; [lia|done].
Qed.

Lemma probe_run_confirmed threshold oks : forall st n held,
  0 < threshold -> 0 <= n -> n + Z.of_nat (length oks) < 2147483648 -> confirmed threshold n held st ->
  confirmed threshold (trailing_failures n oks) (held && negb (existsb id oks)) (probe_run threshold st oks).
Proof.
  induction oks as [|ok oks IH]; intros st n held Ht Hn Hlen Hc; [by rewrite andb_true_r|].
  cbn [probe_run foldl trailing_failures length existsb id] in *. destruct ok; cbn [orb negb].
  - rewrite andb_false_r. apply (IH _ 0 false); [done|done|lia|by apply probe_again_success].
  - destruct Hc as (Hs & Hne & Hd). apply IH; [done|lia|lia|].
    destruct (probe_again_failure threshold st n) as (H1 & H2 & H3); [done|lia|done..|].
    split; [exact H1|]. split; [exact H2|]. rewrite H3, String.eqb_eq, Hd. split; [|tauto].
    intros [?|[?|?]]; [by left|left; lia|by right].
Qed.

Lemma no_success oks : existsb id oks = false <-> true ∉ oks.
Proof.
  induction oks as [|[] oks IH]; cbn; [split; [intros _; apply not_elem_of_nil|done]|split; [done|]|].
  - intros Hn. destruct Hn. by left.
  - rewrite IH, not_elem_of_cons. by split; [|intros []].
Qed.

(** ** Properties *)

Section properties.
Context `{Extern}.

(** C8. What one probe does, when no action fails: one probe_results row; the
    monitor takes the state and streak of the confirmation rule and its next
    probe time; one event with one pending alert when the rule crosses between
    down and not down relative to the state the claim saw, and one tls_expiry
    event with its alert when the certificate expires within 14 days and was
    not warned about; nothing else changes. *)
Theorem RecordProbeResult_spec o mid m w :
  no_faults w -> uuid_scan (po_MonitorID o) = Some mid -> t_monitors (w_tables w) !! mid = Some m ->
  m_id m = mid -> time_IsZero (po_Now o) = false ->
  (forall e, tls_warning o = Some e -> year_0_to_9999 e = true) ->
  exists w', run (RecordProbeResult o) w
    = (Ok (mkRecordProbeResultResult (nextProbeState o).1 (default "" (probe_transition o))), w') /\
    probe_outcome o mid m (cur_clock w) (w_tables w) (w_tables w').
Proof. apply run_RecordProbeResult. Qed.

(** A probe is atomic under every fault schedule: on an error before the
    commit no table changed; otherwise the result row, the new state, every
    event and every alert are there together. *)
Lemma RecordProbeResult_atomic o mid m w r w' :
  uuid_scan (po_MonitorID o) = Some mid -> t_monitors (w_tables w) !! mid = Some m ->
  m_id m = mid -> time_IsZero (po_Now o) = false ->
  (forall e, tls_warning o = Some e -> year_0_to_9999 e = true) ->
  run (RecordProbeResult o) w = (r, w') ->
  (exists e, r = Err e /\ w_tables w' = w_tables w) \/
  (probe_outcome o mid m (cur_clock w) (w_tables w) (w_tables w') /\
   (r = Ok (mkRecordProbeResultResult (nextProbeState o).1 (default "" (probe_transition o))) \/
    r = Err (EWrap "store: commit tx" ELost))).
Proof.
  intros Hid Hm Hmid Hz Hy Hr. unfold RecordProbeResult in Hr. apply withTx_calm in Hr; [|solve_strict].
  destruct Hr as [?|(a & wc & Hc & Ht & _ & Hres)]; [by left|right].
  destruct (run_RecordProbeResult o mid m (calm w)) as (wc' & Hc' & Ho); [apply calm_no_faults|done..|].
  unfold RecordProbeResult in Hc'. rewrite Hc' in Hc. injection Hc as <- ->. by rewrite Ht.
Qed.

(** C22. Confirmation: over any sequence of probes of one monitor, each claim
    seeing what the probe before it left, the streak is the number of failures
    since the last success, and on top of the streak the first claim saw as
    long as none succeeded; after at least one probe the monitor is down
    exactly when the streak has reached the threshold, or when it was down to
    begin with and no probe has succeeded.  So a success recovers, and after it
    a run of failures shorter than the threshold never pages.  (A resume leaves
    the streak of the outage, see [resume_keeps_streak] in Timeline.v.) *)
Theorem confirmation_threshold threshold state streak ok oks :
  0 < threshold -> state <> "" -> 0 <= streak -> streak + Z.of_nat (length (ok :: oks)) < 2147483648 ->
  let st := probe_run threshold (state, streak) (ok :: oks) in
  let n := trailing_failures streak (ok :: oks) in
  st.2 = n /\ (st.1 = "down" <-> threshold <= n \/ state = "down" /\ true ∉ ok :: oks).
Proof.
  intros Ht Hne Hs Hlen st n. cbn [length] in Hlen.
  assert (Hc : confirmed threshold n (String.eqb state "down" && negb (existsb id (ok :: oks))) st).
  { subst st n. destruct ok; cbn [probe_run foldl trailing_failures existsb id orb negb].
    - rewrite andb_false_r. apply (probe_run_confirmed threshold oks _ 0 false); [done|done|lia|by apply probe_again_success].
    - apply (probe_run_confirmed threshold oks); [done|lia|lia|]. apply probe_again_failure; [done|lia|done..]. }
  destruct Hc as (H1 & _ & H2). split; [exact H1|].
  by rewrite H2, andb_true_iff, String.eqb_eq, negb_true_iff, no_success.
Qed.

(** A certificate is warned about once: after a probe that warned, the
    row remembers the expiry, and later probes that read that row warn again
    exactly for a certificate with another expiry (at second precision) within
    14 days of it. *)
Lemma tls_warned_once o m txnow e o' e' :
  tls_warning o = Some e ->
  po_PriorTLSWarnedExpiresAt o' = m_tls_warned_expires_at (probed_row txnow o m) ->
  po_TLSExpiresAt o' = Some e' ->
  tls_warning o' = Some e' <->
    time_Truncate e' Second <> time_Truncate e Second /\ time_Sub e' (po_Now o') <= tlsWarningWindow.
Proof.
  intros Hw Hp He. unfold probed_row in Hp. rewrite Hw in Hp. cbn in Hp.
  unfold tls_warning. rewrite He, Hp. unfold same_certificate.
  destruct (time_Sub e' (po_Now o') <=? tlsWarningWindow) eqn:E1;
    destruct (time_Truncate e Second =? time_Truncate e' Second) eqn:E2; cbn; split; try done; lia.
Qed.

Lemma tls_warned_once_witness :
  let probe now prior := mkProbeOutcome "2" true None None "" (Some (demo_t0 + 10 * Day)) 2 "up" 0 prior now now in
  let row := probed_row demo_t0 (probe demo_t0 None) (demo_http "up" 0) in
  tls_warning (probe demo_t0 None) = Some (demo_t0 + 10 * Day) /\
  tls_warning (probe (demo_t0 + Minute) (m_tls_warned_expires_at row)) <> Some (demo_t0 + 10 * Day).
Proof.
  intros probe row. split; [vm_compute; reflexivity|].
  rewrite (tls_warned_once (probe demo_t0 None) (demo_http "up" 0) demo_t0 (demo_t0 + 10 * Day)).
  - intros [Hne _]. by apply Hne.
  - vm_compute. reflexivity.
  - reflexivity.
  - reflexivity.
Defined.

Lemma confirmation_threshold_witness :
  let st := probe_run 3 ("up", 0) [false; false; true; false; false; false] in
  st.2 = 3 /\ st.1 = "down".
Proof.
  destruct (confirmation_threshold 3 "up" 0 false [false; true; false; false; false]) as [H1 H2];
    [lia|done|lia|vm_compute; reflexivity|].
  split; [exact H1|]. apply H2. left. vm_compute. discriminate.
Defined.
End properties.

#[local] Existing Instance demo_extern.

Definition demo_probe : ProbeOutcome :=
  mkProbeOutcome "2" false (Some 503) (Some 120) "unexpected status 503" (Some (demo_t0 + 10 * Day)) 2
    "up" 1 None (demo_t0 + Minute) demo_t0.

Lemma RecordProbeResult_spec_witness :
  exists w', run (RecordProbeResult demo_probe) (demo_world demo_env [demo_http "up" 1])
    = (Ok (mkRecordProbeResultResult "down" "down"), w') /\
    probe_outcome demo_probe 2 (demo_http "up" 1) demo_t0 (demo_tables [demo_http "up" 1]) (w_tables w') /\
    probe_events demo_probe = ["down"; "tls_expiry"].
Proof.
  destruct (RecordProbeResult_spec demo_probe 2 (demo_http "up" 1) (demo_world demo_env [demo_http "up" 1]))
    as (w' & Hr & Ho).
  - apply demo_no_faults.
  - vm_compute. reflexivity.
  - vm_compute. reflexivity.
  - reflexivity.
  - vm_compute. reflexivity.
  - intros e He. vm_compute in He. injection He as <-. vm_compute. reflexivity.
  - exists w'. split; [exact Hr|]. split; [exact Ho|vm_compute; reflexivity].
Defined.

(** The fifth action, inserting the alert, fails. *)
Lemma RecordProbeResult_atomic_witness :
  let w := demo_world (faulty_env 4 FBefore) [demo_http "up" 1] in
  w_tables (snd (run (RecordProbeResult demo_probe) w)) = w_tables w.
Proof.
  intros w. destruct (run (RecordProbeResult demo_probe) w) as [r w'] eqn:E.
  destruct (RecordProbeResult_atomic demo_probe 2 (demo_http "up" 1) w r w') as [(e & _ & Ht)|[_ Hr]].
  - vm_compute. reflexivity.
  - vm_compute. reflexivity.
  - reflexivity.
  - vm_compute. reflexivity.
  - intros e He. vm_compute in He. injection He as <-. vm_compute. reflexivity.
  - exact E.
  - exact Ht.
  - exfalso. assert (Hw : r = fst (run (RecordProbeResult demo_probe) w)) by (by rewrite E).
    rewrite Hw in Hr. vm_compute in Hr. destruct Hr; discriminate.
Defined.
