(* ===== verification/ProbeWorker.v ===== *)
(** * ProbeWorker: the probe loop and the SSRF guard (worker/prober)

    probe.go's guard ([guardAddr], [resolveAndGuard], [guardedDial]), the
    evaluation of one response ([runProbe]) and prober.go's [probeOne] and
    tick.  The resolver, the dialler and the HTTP exchange are arguments; the
    pool of goroutines of a tick is a list of programs, whose interleavings
    are those of [pool_step]. *)
From S2P Require Import Prelude GoLib Json NetAddr Models Extern Store Queries Logic Demo Convert Checkin Prober.
Local Open Scope Z_scope.
Local Open Scope ping_scope.

Definition maxBodyBytes : N := 65536.
Definition prober_claimLimit : Z := 500.
Definition defaultFailThreshold : Z := 2.
Definition poolLimit : nat := 16.

(** ** The guard (worker/prober/probe.go) *)

Definition isBlockedAddr (addr : Addr) : bool :=
  addr_IsPrivate addr || addr_IsLoopback addr || addr_IsLinkLocalUnicast addr
  || addr_IsLinkLocalMulticast addr || addr_IsMulticast addr || addr_IsUnspecified addr
  || negb (addr_IsGlobalUnicast addr).

(** What a dial can fail with. *)
Inductive DialError :=
| DisallowedAddress (addr : Addr)
| DNSError
| NoAddresses
| SplitError
| DialFailed.

Definition guardAddr (addr : Addr) (allowlist : list Prefix) : Addr + DialError :=
  let addr := addr_Unmap addr in
  if existsb (fun prefix => prefix_Contains prefix addr) allowlist then inl addr
  else if isBlockedAddr addr then inr (DisallowedAddress addr)
  else inl addr.

(** [strings.HasSuffix(network, "4")] and the like, on a one-byte suffix. *)
Definition has_suffix (c : ascii) (s : string) : bool :=
  match String.rev s with String d _ => Ascii.eqb c d | EmptyString => false end.

Definition netipNetwork (network : string) : string :=
  if has_suffix "4" network then "ip4" else if has_suffix "6" network then "ip6" else "ip".

(** [resolver.LookupNetIP]: the addresses, or an error. *)
Definition Resolver : Type := string -> string -> option (list Addr).

Definition resolveAndGuard (res : Resolver) (network host : string) (allowlist : list Prefix)
    : Addr + DialError :=
  match ParseAddr host with
  | Some addr => guardAddr addr allowlist
  | None =>
      match res (netipNetwork network) host with
      | None => inr DNSError
      | Some [] => inr NoAddresses
      | Some (addr :: _) => guardAddr addr allowlist
      end
  end.

(** The dial of the probe's transport: [split] is net.SplitHostPort, and
    [connect] dials the address it is given, not the name. *)
Definition guardedDial {Conn} (split : string -> option (string * string))
    (connect : string -> Addr -> string -> option Conn) (res : Resolver) (allowlist : list Prefix)
    (network addr : string) : Conn + DialError :=
  match split addr with
  | None => inr SplitError
  | Some (host, port) =>
      match resolveAndGuard res network host allowlist with
      | inr e => inr e
      | inl ip => match connect network ip port with Some c => inl c | None => inr DialFailed end
      end
  end.

(** ** One probe *)

(** The decoded http_config column; the probe's headers only reach the request. *)
Record httpConfig := mkhttpConfig {
  hc_Headers : list (string * string);
  hc_Keyword : string;
  hc_KeywordNegate : bool;
  hc_FollowRedirects : option bool
}.

Definition httpConfig_fields : list (string * FieldDecoder httpConfig) :=
  [("headers"%string, field_string_map hc_Headers (fun v c =>
      mkhttpConfig v (hc_Keyword c) (hc_KeywordNegate c) (hc_FollowRedirects c)));
   ("keyword"%string, field_string (fun v c => mkhttpConfig (hc_Headers c) v (hc_KeywordNegate c) (hc_FollowRedirects c)));
   ("keyword_negate"%string, field_bool (fun v c => mkhttpConfig (hc_Headers c) (hc_Keyword c) v (hc_FollowRedirects c)));
   ("follow_redirects"%string, field_bool_ptr (fun v c =>
      mkhttpConfig (hc_Headers c) (hc_Keyword c) (hc_KeywordNegate c) v))].

(** [json.Unmarshal] into the struct; [None] is an error. *)
Definition decodeHTTPConfig (raw : string) : option httpConfig :=
  let zero := mkhttpConfig [] "" false None in
  if String.eqb raw "" then Some zero else v ← whole_value raw; decode_object httpConfig_fields zero v.

Definition followRedirects (c : httpConfig) : bool := default true (hc_FollowRedirects c).

(** An error of [client.Do], by what the classification asks about it. *)
Record ClientError := mkClientError {
  ce_is_dns : bool;
  ce_is_certificate : bool;
  ce_text : string;
  ce_timeout : bool;
  ce_deadline : bool
}.

Definition probeError (err : ClientError) : string :=
  if ce_is_dns err then "dns lookup failed"
  else if ce_is_certificate err then "tls certificate error"
  else if str_contains "tls:" (ce_text err) || str_contains "x509:" (ce_text err) then "tls handshake failed"
  else if str_contains "disallowed address" (ce_text err) then "target address not allowed"
  else if ce_timeout err then "request timed out"
  else if ce_deadline err then "request timed out"
  else "request failed".

Record probeResult := mkprobeResult {
  pr_OK : bool;
  pr_HTTPStatus : option Z;
  pr_LatencyMS : Z;
  pr_Error : string;
  pr_TLSExpiresAt : option Time
}.

(** [leafCertExpiry]: [None] for a plain connection, else the NotAfter of each
    peer certificate. *)
Definition leafCertExpiry (state : option (list Time)) : option Time :=
  match state with Some (leaf :: _) => Some leaf | _ => None end.

Definition isSuccessStatus (code : Z) : bool := (200 <=? code) && (code <? 400).

(** [d.Milliseconds()] truncates; the result is an int32. *)
Definition latencyMS (d : Duration) : Z :=
  let ms := Z.quot d 1000000 in
  if 2147483647 <? ms then 2147483647 else wrap32 ms.

(** The exchange of one probe: whether the request could be built, how long
    [client.Do] took, and what it returned. *)
Record HttpResponse := mkHttpResponse {
  hr_StatusCode : Z;
  hr_TLS : option (list Time);
  hr_Body : option string
}.

Record Exchange := mkExchange {
  ex_request_ok : bool;
  ex_elapsed : Duration;
  ex_response : HttpResponse + ClientError
}.

(** [io.LimitReader(body, maxBodyBytes)]. *)
Definition limit_body (s : string) : string := String.substring 0 (N.to_nat maxBodyBytes) s.

Definition runProbe (x : Exchange) (cfg : httpConfig) : probeResult :=
  if negb (ex_request_ok x) then mkprobeResult false None 0 "invalid request" None
  else
    let latency := latencyMS (ex_elapsed x) in
    match ex_response x with
    | inr err => mkprobeResult false None latency (probeError err) None
    | inl resp =>
        let status := wrap32 (hr_StatusCode resp) in
        let tlsExpiresAt := leafCertExpiry (hr_TLS resp) in
        match hr_Body resp with
        | None => mkprobeResult false (Some status) latency "failed reading response body" tlsExpiresAt
        | Some body =>
            if negb (isSuccessStatus (hr_StatusCode resp)) then
              mkprobeResult false (Some status) latency
                ("unexpected status " +:+ FormatInt (hr_StatusCode resp)) tlsExpiresAt
            else if negb (String.eqb (hc_Keyword cfg) "")
                    && Bool.eqb (str_contains (hc_Keyword cfg) (limit_body body)) (hc_KeywordNegate cfg) then
              mkprobeResult false (Some status) latency "keyword assertion failed" tlsExpiresAt
            else mkprobeResult true (Some status) latency "" tlsExpiresAt
        end
    end.

(** ** The loop (worker/prober/prober.go) *)

Definition int32Or (v : option Z) (def : Z) : Z := default def v.

Section worker.
Context `{Extern} `{Clock}.

(** The request of a monitor, by the number of the action, with its timeout
    and method. *)
Context (exchange : nat -> store_Monitor -> Duration -> string -> httpConfig -> Exchange).


Definition http_exchange (m : store_Monitor) (timeout : Duration) (method : string) (cfg : httpConfig)
    : Prog Exchange :=
  Act (fun w => (Ok (exchange (w_step w) m timeout method cfg), tick w)) Ret.

Definition outcome_of (m : store_Monitor) (result : probeResult) (now : Time) : ProbeOutcome :=
  let intervalS := int32Or (sm_IntervalS m) 60 in
  mkProbeOutcome (sm_ID m) (pr_OK result) (pr_HTTPStatus result) (Some (pr_LatencyMS result))
    (pr_Error result) (pr_TLSExpiresAt result) (int32Or (sm_FailThreshold m) defaultFailThreshold)
    (sm_State m) (sm_FailStreak m) (sm_TLSWarnedExpiresAt m) (time_Add now (seconds intervalS)) now.

Definition probeOne (m : store_Monitor) : Prog unit :=
  let timeout := seconds (int32Or (sm_TimeoutS m) 10) in
  match decodeHTTPConfig (sm_HTTPConfig m) with
  | None => ret tt
  | Some cfg =>
      let method := if String.eqb (sm_Method m) "" then "GET" else sm_Method m in
      let! x := http_exchange m timeout method cfg in
      let result := runProbe x cfg in
      let! now := testclock_Now in
      let! _ := attempt (RecordProbeResult (outcome_of m result now)) in
      ret tt
  end.

(** A tick: the claim, and the probes it starts, which [sched] interleaves. *)
Definition prober_tick (sched : list nat) : Prog unit :=
  let! now := testclock_Now in
  let! monitors := prober_ClaimDueProbes now prober_claimLimit in
  par poolLimit sched (map probeOne monitors).
End worker.

(** ** Lemmas *)

Local Open Scope N_scope.

(** The addresses no probe may reach, as ranges: private, loopback, link-local,
    multicast, unspecified and broadcast. *)
Definition between (lo hi v : N) : bool := (lo <=? v) && (v <=? hi).

Definition internal_v4 (v : N) : bool :=
  between (v4 10 0 0 0) (v4 10 255 255 255) v || between (v4 172 16 0 0) (v4 172 31 255 255) v
  || between (v4 192 168 0 0) (v4 192 168 255 255) v || between (v4 127 0 0 0) (v4 127 255 255 255) v
  || between (v4 169 254 0 0) (v4 169 254 255 255) v || between (v4 224 0 0 0) (v4 239 255 255 255) v
  || (v =? v4 0 0 0 0) || (v =? v4 255 255 255 255).

(** fc00::/7, fe80::/10, ff00::/8, ::1 and, without a zone, "::". *)
Definition internal_v6 (v : N) (zone : string) : bool :=
  between (0xfc00 * 2 ^ 112) (0xfe00 * 2 ^ 112 - 1) v || between (0xfe80 * 2 ^ 112) (0xfec0 * 2 ^ 112 - 1) v
  || between (0xff00 * 2 ^ 112) (2 ^ 128 - 1) v || (v =? 1) || (v =? 0) && String.eqb zone "".

Definition internal_addr (a : Addr) : bool :=
  match a with V4 v => internal_v4 v | V6 v z => internal_v6 v z end.

Definition addr_wf (a : Addr) : Prop := match a with V4 v => v < 2 ^ 32 | V6 v _ => v < 2 ^ 128 end.

(** A comparison of leading bits is a range. *)
Lemma div_range v x k : k <> 0 -> (v / k =? x) = between (x * k) (x * k + k - 1) v.
Proof.
  intros Hk. unfold between. pose proof (N.div_mod v k Hk). pose proof (N.mod_lt v k Hk).
  apply eq_true_iff_eq. rewrite N.eqb_eq, andb_true_iff, !N.leb_le. split.
  - intros <-. generalize dependent (v / k). generalize dependent (v mod k). intros r Hr q ->. nia.
  - intros [H1 H2]. symmetry. apply (N.div_unique v k x (v - x * k)); clear - H1 H2 Hk; nia.
Qed.

(** A mask of leading ones of a 16-bit group. *)
Lemma land_ones_shift h n s : N.land h (N.shiftl (N.ones n) s) = N.shiftl (N.shiftr h s mod 2 ^ n) s.
Proof.
  rewrite <- N.land_ones. apply N.bits_inj. intros i. rewrite N.land_spec.
  destruct (N.lt_ge_cases i s) as [Hi|Hi].
  - rewrite !N.shiftl_spec_low by done. by rewrite andb_false_r.
  - rewrite !N.shiftl_spec_high' by done. rewrite N.land_spec, N.shiftr_spec'. f_equal; f_equal; lia.
Qed.

Lemma mask_spec n s x h :
  h < 2 ^ (n + s) -> (N.land h (N.shiftl (N.ones n) s) =? x * 2 ^ s) = (h / 2 ^ s =? x).
Proof.
  intros Hh. rewrite land_ones_shift, N.shiftl_mul_pow2, N.shiftr_div_pow2, N.mod_small.
  - apply eq_true_iff_eq. rewrite !N.eqb_eq. rewrite N.mul_cancel_r; [done|]. by apply N.pow_nonzero.
  - apply N.Div0.div_lt_upper_bound. by rewrite <- N.pow_add_r, N.add_comm.
Qed.

Lemma link_local_multicast h : (N.land h 0xff0f =? 0xff02) = true -> (N.land h 0xff00 =? 0xff00) = true.
Proof.
  rewrite !N.eqb_eq. intros E. replace 0xff00 with (N.land 0xff0f 0xff00) at 1 by done.
  by rewrite N.land_assoc, E.
Qed.

Lemma v6_hi_lt v : v < 2 ^ 128 -> v6_hi v < 65536.
Proof. intros Hv. unfold v6_hi. by apply N.Div0.div_lt_upper_bound. Qed.

Lemma hi_div v k : v6_hi v / k = v / (2 ^ 112 * k).
Proof. unfold v6_hi. apply N.Div0.div_div. Qed.

Lemma isBlockedAddr_v6 v z : v < 2 ^ 128 -> isBlockedAddr (V6 v z) = internal_v6 v z.
Proof.
  intros Hv. pose proof (v6_hi_lt v Hv) as Hh.
  unfold isBlockedAddr, internal_v6, addr_IsGlobalUnicast, addr_IsPrivate, addr_IsLoopback,
    addr_IsLinkLocalUnicast, addr_IsLinkLocalMulticast, addr_IsMulticast, addr_IsUnspecified.
  pose proof (link_local_multicast (v6_hi v)) as Hl.
  pose proof (mask_spec 7 9 126 _ Hh) as E1. pose proof (mask_spec 10 6 1018 _ Hh) as E2.
  pose proof (mask_spec 8 8 255 _ Hh) as E3. revert E1 E2 E3.
  change (N.shiftl (N.ones 7) 9) with 0xfe00. change (N.shiftl (N.ones 10) 6) with 0xffc0.
  change (N.shiftl (N.ones 8) 8) with 0xff00. change (126 * 2 ^ 9) with 0xfc00.
  change (1018 * 2 ^ 6) with 0xfe80. change (255 * 2 ^ 8) with 0xff00. intros E1 E2 E3.
  change (2 ^ 9) with 512 in E1. change (2 ^ 6) with 64 in E2. change (2 ^ 8) with 256 in E3.
  rewrite E1, E2, E3 in *. clear E1 E2 E3.
  rewrite !hi_div, !div_range in * by done.
  change (126 * (2 ^ 112 * 512)) with (0xfc00 * 2 ^ 112).
  change (0xfc00 * 2 ^ 112 + 2 ^ 112 * 512 - 1) with (0xfe00 * 2 ^ 112 - 1).
  change (1018 * (2 ^ 112 * 64)) with (0xfe80 * 2 ^ 112).
  change (0xfe80 * 2 ^ 112 + 2 ^ 112 * 64 - 1) with (0xfec0 * 2 ^ 112 - 1).
  change (255 * (2 ^ 112 * 256)) with (0xff00 * 2 ^ 112) in *.
  change (0xff00 * 2 ^ 112 + 2 ^ 112 * 256 - 1) with (2 ^ 128 - 1) in *.
  destruct (N.land (v6_hi v) 0xff0f =? 0xff02); [rewrite (Hl eq_refl)|];
    repeat match goal with
    | |- context [between ?a ?b ?c] => destruct (between a b c)
    | |- context [?a =? ?b] => destruct (a =? b)
    | |- context [String.eqb ?a ?b] => destruct (String.eqb a b)
    end; done.
Qed.

Lemma isBlockedAddr_v4 v : isBlockedAddr (V4 v) = internal_v4 v.
Proof.
  unfold isBlockedAddr, internal_v4, addr_IsGlobalUnicast, addr_IsPrivate, addr_IsLoopback,
    addr_IsLinkLocalUnicast, addr_IsLinkLocalMulticast, addr_IsMulticast, addr_IsUnspecified, top_eq.
  rewrite !div_range by done. unfold between, v4.
  repeat match goal with
  | |- context [?a / ?b] => let r := eval vm_compute in (a / b) in change (a / b) with r
  end.
  repeat match goal with
  | |- context [2 ^ ?b] => let r := eval vm_compute in (2 ^ b) in change (2 ^ b) with r
  end.
  apply eq_true_iff_eq.
  rewrite ?orb_true_iff, ?negb_true_iff, ?andb_false_iff, ?negb_false_iff, ?orb_true_iff, ?andb_true_iff,
    ?N.eqb_eq, ?N.leb_le.
  split; intros; lia.
Qed.

Definition allowlisted (allowlist : list Prefix) (a : Addr) : bool :=
  existsb (fun prefix => prefix_Contains prefix a) allowlist.

(** An IPv6 spelling of an IPv4 address. *)
Definition mapped (a : Addr) : bool := match a with V6 v _ => v / 4294967296 =? 65535 | V4 _ => false end.

(** The address a host name stands for: itself, or the resolver's first answer. *)
Definition dial_candidate (res : Resolver) (network host : string) : option Addr :=
  match ParseAddr host with
  | Some a => Some a
  | None => res (netipNetwork network) host ≫= head
  end.

Lemma addr_Unmap_mapped a : mapped (addr_Unmap a) = false.
Proof. destruct a as [v|v z]; simpl; [done|]. by destruct (v / 4294967296 =? 65535) eqn:E. Qed.

Lemma isBlockedAddr_internal a : isBlockedAddr a = false -> internal_addr a = false.
Proof.
  destruct a as [v|v z]; simpl; [by rewrite isBlockedAddr_v4|]. intros Hb.
  destruct (N.lt_ge_cases v (2 ^ 128)) as [Hv|Hv]; [by rewrite <- isBlockedAddr_v6|].
  assert (Hout : forall lo hi, hi < 2 ^ 128 -> between lo hi v = false).
  { intros lo hi Hhi. unfold between. rewrite (proj2 (N.leb_gt v hi)) by lia. apply andb_false_r. }
  unfold internal_v6. rewrite !Hout by done.
  rewrite (proj2 (N.eqb_neq v 1)), (proj2 (N.eqb_neq v 0)); [done|intros ->; done..].
Qed.

Lemma isBlockedAddr_wf a : addr_wf a -> isBlockedAddr a = internal_addr a.
Proof. destruct a as [v|v z]; simpl; intros; [apply isBlockedAddr_v4|by apply isBlockedAddr_v6]. Qed.

Lemma addr_Unmap_wf a : addr_wf a -> addr_wf (addr_Unmap a).
Proof.
  destruct a as [v|v z]; simpl; [done|]. intros Hv.
  destruct (v / 4294967296 =? 65535); [|done]. simpl. by apply N.mod_lt.
Qed.

Lemma guardAddr_cases a allowlist :
  guardAddr a allowlist =
  if allowlisted allowlist (addr_Unmap a) || negb (isBlockedAddr (addr_Unmap a))
  then inl (addr_Unmap a) else inr (DisallowedAddress (addr_Unmap a)).
Proof.
  unfold guardAddr, allowlisted. destruct (existsb _ _); [done|]. by destruct (isBlockedAddr _).
Qed.

Lemma resolveAndGuard_cases res network host allowlist :
  match dial_candidate res network host with
  | Some a => resolveAndGuard res network host allowlist = guardAddr a allowlist
  | None => resolveAndGuard res network host allowlist = inr DNSError \/
            resolveAndGuard res network host allowlist = inr NoAddresses
  end.
Proof.
  unfold dial_candidate, resolveAndGuard. destruct (ParseAddr host); [done|].
  destruct (res _ _) as [[|a l]|]; simpl; eauto.
Qed.





(** ** Properties *)

(** C23. The SSRF guard, for any resolver and allow-list: a probe's connection
    is made to the one address the guard looked at (the host itself, or the
    resolver's first answer, with an IPv4-mapped IPv6 spelling unmapped first),
    and that address is allow-listed or lies in none of the private, loopback,
    link-local, multicast, unspecified and broadcast ranges.  An address is
    refused only when it is not allow-listed and lies in one of them; the
    resolver's other answers are never tried, whatever the comment on
    resolveAndGuard says. *)
Theorem guardedDial_guarded {Conn} split (connect : string -> Addr -> string -> option Conn) res allowlist
    network addr :
  match guardedDial split connect res allowlist network addr with
  | inl c => exists host port a,
      split addr = Some (host, port) /\ dial_candidate res network host = Some a /\
      connect network (addr_Unmap a) port = Some c /\ mapped (addr_Unmap a) = false /\
      (allowlisted allowlist (addr_Unmap a) = true \/ internal_addr (addr_Unmap a) = false)
  | inr (DisallowedAddress ip) => exists host port a,
      split addr = Some (host, port) /\ dial_candidate res network host = Some a /\ ip = addr_Unmap a /\
      allowlisted allowlist ip = false /\ (addr_wf a -> internal_addr ip = true)
  | inr _ => True
  end.
Proof.
  unfold guardedDial. destruct (split addr) as [[host port]|]; [|done].
  pose proof (resolveAndGuard_cases res network host allowlist) as Hr.
  destruct (dial_candidate res network host) as [a|] eqn:Ec; [|by destruct Hr as [-> | ->]].
  rewrite Hr, guardAddr_cases. destruct (allowlisted allowlist (addr_Unmap a)) eqn:Ea; simpl.
  - destruct (connect _ _ _) eqn:Ed; [|done]. exists host, port, a. rewrite Ed, addr_Unmap_mapped. eauto 10.
  - destruct (isBlockedAddr (addr_Unmap a)) eqn:Eb; simpl.
    + exists host, port, a. split_and!; try done. intros Hw%addr_Unmap_wf. by rewrite <- isBlockedAddr_wf.
    + destruct (connect _ _ _) eqn:Ed; [|done]. exists host, port, a. rewrite Ed, addr_Unmap_mapped.
      eauto 10 using isBlockedAddr_internal.
Qed.

Local Open Scope Z_scope.


(** ** Two replicas, one monitor

    The claim's row lock ends with its statement and next_probe_at is only
    advanced when the outcome is recorded, so two probers that tick together
    claim the same monitor: one outage is confirmed by two probes, and its
    'down' event and alert are written twice. *)

Local Open Scope ping_scope.
#[local] Existing Instance demo_extern.

Definition demo_refused : Exchange :=
  mkExchange true Second (inr (mkClientError false false "connection refused" false false)).

Definition demo_prober : Prog unit :=
  prober_tick (fun _ _ _ _ _ => demo_refused) [].

Definition demo_probe_world : World := mkWorld (demo_tables [demo_http "up" 1]) demo_seqs 1 None demo_env.

Example two_probers_two_downs :
  let '(ps, w) := run_schedule [0;0;1;1;0;0;0;1;1;1]%nat [demo_prober; demo_prober] demo_probe_world in
  ps = [ret tt; ret tt] /\ (e_type <$> t_events (w_tables w)) = ["down"; "down"] /\
  (a_event_id <$> t_alerts (w_tables w)) = [1; 2].
Proof. vm_compute. repeat split. Qed.

(** A scoped spelling of "::" is not unspecified for netip, so the guard lets it through. *)
Example guard_scoped_unspecified : guardAddr (V6 0 "eth0") [] = inl (V6 0 "eth0").
Proof. reflexivity. Qed.

(** A name whose first address is internal is refused, although its second one
    passes the guard. *)
Example only_first_address :
  let res : Resolver := fun _ _ => Some [V4 167772161; V4 1572395042] in
  resolveAndGuard res "tcp" "mixed.example.com" [] = inr (DisallowedAddress (V4 167772161)) /\
  guardAddr (V4 1572395042) [] = inl (V4 1572395042).
Proof. vm_compute. split; reflexivity. Qed.
