(* ===== verification/Outbox.v ===== *)
(** * Outbox: the alert queue (store/alerter.go)

    Claiming due alerts, finishing them (sent, suppressed, rescheduled,
    failed), the downtime of an outage and the "still down" reminders. *)
From S2P Require Import Prelude GoLib Models Extern Store Queries Logic Demo Convert Checkin Scheduler Paging.
Local Open Scope Z_scope.
Local Open Scope ping_scope.

Record AlertJob := mkAlertJob {
  j_ID : Z;
  j_MonitorID : string;
  j_EventID : Z;
  j_Recipient : string;
  j_MonitorName : string;
  j_MonitorSlug : string;
  j_MonitorState : string;
  j_AlertsMuted : bool;
  j_EventType : string;
  j_IsReminder : bool;
  j_EventAt : Time;
  j_TLSExpiresAt : option Time;
  j_Attempts : Z
}.

(** The meta of another event type unmarshals to the zero time. *)
Definition decodeTLSExpiresAt (meta : EventMeta) : option Time :=
  match meta with
  | MetaTLS t => if time_IsZero t then None else Some t
  | _ => None
  end.

Section outbox.
Context `{Extern}.

Definition job_of_row (r : ClaimDueAlertsRow) : AlertJob :=
  mkAlertJob (a_id (ar_alert r)) (uuid_string (a_monitor_id (ar_alert r))) (a_event_id (ar_alert r))
    (ar_recipient r) (ar_monitor_name r) (ar_monitor_slug r) (ar_monitor_state r) (ar_alerts_muted r)
    (ar_event_type r) (a_is_reminder (ar_alert r)) (ar_event_created_at r)
    (decodeTLSExpiresAt (ar_event_meta r)) (a_attempts (ar_alert r)).

(** The transaction ends, and with it the claim's row locks, before anything
    is sent. *)
Definition ClaimDueAlerts (now : Time) (limit : Z) : Prog (list AlertJob) :=
  withTx (
    let! rows := wrap "store: claim due alerts" (stmt (db_ClaimDueAlerts now limit)) in
    ret (map job_of_row rows)).

Definition MarkAlertSent (id : Z) : Prog unit :=
  wrap "store: mark alert sent" (stmt (db_MarkAlertSent id)).

Definition SuppressAlert (id : Z) : Prog unit :=
  wrap "store: suppress alert" (stmt (db_SuppressAlert id)).

Definition RescheduleAlert (id : Z) (nextAttempt : Time) : Prog unit :=
  wrap "store: reschedule alert" (stmt (db_RescheduleAlert id nextAttempt)).

Definition FailAlert (id : Z) (monitorID reason : string) : Prog unit :=
  let! mID := lift_res (pgUUID monitorID) in
  withTx (
    let! _ := wrap "store: mark alert failed" (stmt (db_MarkAlertFailed id)) in
    let msg := if String.eqb reason "" then "Alert delivery failed"
               else "Alert delivery failed: " +:+ reason in
    let! _ := recordEvent mID "alert_failed" msg in
    ret tt).

Definition ResolveDowntime (monitorID : string) (recoveredAt : Time) : Prog Duration :=
  let! mID := lift_res (pgUUID monitorID) in
  let! ev := attempt (stmt (db_LatestDownEventBefore mID recoveredAt)) in
  match ev with
  | Err err => if error_is_no_rows err then ret 0 else throw (EWrap "store: latest down event" err)
  | Ok ev => ret (Z.max (time_Sub recoveredAt (e_created_at ev)) 0)
  end.

Definition EnqueueDownReminders (now : Time) : Prog Z :=
  withTx (
    let! rows := wrap "store: enqueue down reminders" (stmt (db_EnqueueDownReminders now)) in
    ret (Z.of_nat (length rows))).
End outbox.

(** ** Lemmas *)

(** Updating alerts by id keeps every other row and the ids. *)
Lemma update_alert_rows_other id f rows a :
  a ∈ rows -> a_id a <> id -> a ∈ update_alert_rows id f rows.
Proof.
  intros Hin Hne. apply list_elem_of_fmap. exists a. split; [|done].
  by rewrite (proj2 (Z.eqb_neq _ _) Hne).
Qed.

Lemma update_alert_rows_this id f rows a :
  a ∈ rows -> a_id a = id -> f a ∈ update_alert_rows id f rows.
Proof.
  intros Hin <-. apply list_elem_of_fmap. exists a. split; [|done]. by rewrite Z.eqb_refl.
Qed.

Lemma fmap_id_update id f rows :
  (forall a, a_id (f a) = a_id a) -> a_id <$> update_alert_rows id f rows = a_id <$> rows.
Proof.
  intros Hf. unfold update_alert_rows. rewrite <- list_fmap_compose. apply list_fmap_ext.
  intros i a _. simpl. by case_match.
Qed.

(** ** The latest event, and the reminders *)

Lemma latest_event_some rows e :
  latest_event rows = Some e -> e ∈ rows /\ forall e', e' ∈ rows -> e_created_at e' <= e_created_at e.
Proof.
  unfold latest_event. set (le := fun a b : Event => e_created_at b <=? e_created_at a). intros Hh.
  assert (Hs : StronglySorted (fun a b => le a b = true) (sort_by le rows)).
  { apply sort_by_sorted; unfold le; intros; lia. }
  destruct (sort_by le rows) as [|x l] eqn:Es; [done|]. cbn in Hh. injection Hh as ->.
  assert (Hin : forall y, y ∈ rows <-> y = e \/ y ∈ l).
  { intros y. by rewrite <- (elem_of_sort_by le), Es, elem_of_cons. }
  split; [apply Hin; by left|]. intros e' [->|He']%Hin; [lia|].
  apply StronglySorted_inv in Hs as [_ Hle]. rewrite Forall_forall in Hle. specialize (Hle _ He'). unfold le in Hle. lia.
Qed.

Lemma latest_event_none rows : latest_event rows = None -> rows = [].
Proof.
  unfold latest_event. intros Hh. set (le := fun a b : Event => _) in Hh.
  pose proof (length_sort_by le rows) as Hl. destruct (sort_by le rows); [|done].
  by destruct rows.
Qed.

(** [e] is the monitor's latest 'down' event. *)
Definition last_down (t : Tables) (mid : UUID) (e : Event) : Prop :=
  (e ∈ t_events t /\ e_monitor_id e = mid /\ e_type e = "down"%string) /\
  forall e', e' ∈ t_events t -> e_monitor_id e' = mid -> e_type e' = "down"%string -> e_created_at e' <= e_created_at e.

(** A reminder is wanted: the monitor is down, not muted, has a cadence, and
    none of its alerts is younger than one cadence. *)
Definition reminder_wanted (t : Tables) (now : Time) (m : Monitor) : Prop :=
  m_state m = "down"%string /\ m_alerts_muted m = false /\ 0 < m_reminder_every_s m /\
  forall a, a ∈ t_alerts t -> a_monitor_id a = m_id m -> a_created_at a + m_reminder_every_s m * Second <= now.

Lemma no_recent_alert t now m :
  existsb (fun a => N.eqb (a_monitor_id a) (m_id m) && (now - m_reminder_every_s m * Second <? a_created_at a)) (t_alerts t)
    = false <->
  forall a, a ∈ t_alerts t -> a_monitor_id a = m_id m -> a_created_at a + m_reminder_every_s m * Second <= now.
Proof.
  rewrite <- not_true_iff_false, existsb_exists. split.
  - intros Hno a Ha Hm. destruct (Z.le_gt_cases (a_created_at a + m_reminder_every_s m * Second) now) as [|Hgt]; [done|].
    exfalso. apply Hno. exists a. split; [by apply list_elem_of_In|]. rewrite Hm, N.eqb_refl. apply Z.ltb_lt. lia.
  - intros Hall (a & Ha%list_elem_of_In & [Hm%N.eqb_eq Hlt%Z.ltb_lt]%andb_true_iff). specialize (Hall a Ha Hm). lia.
Qed.

Lemma reminder_due_spec t now m eid :
  reminder_due t now m = Some eid -> reminder_wanted t now m /\ exists e, last_down t (m_id m) e /\ e_id e = eid.
Proof.
  unfold reminder_due. destruct (_ && _) eqn:Ec; [|done].
  apply andb_true_iff in Ec as [[[Hd%String.eqb_eq Hm%negb_true_iff]%andb_true_iff Hr%Z.ltb_lt]%andb_true_iff Ha%negb_true_iff].
  pose proof (proj1 (no_recent_alert t now m) Ha) as Hage. intros (e & He & ->)%fmap_Some. split; [by split_and!|]. exists e. split; [|done].
  apply latest_event_some in He as [Hin Hmax]. apply list_elem_of_In, filter_In in Hin as [Hin Hf].
  apply andb_true_iff in Hf as [Hi%N.eqb_eq Ht%String.eqb_eq]. split; [by rewrite list_elem_of_In|].
  intros e' He' Hi' Ht'. apply Hmax, list_elem_of_In, filter_In. split; [by apply list_elem_of_In|].
  by rewrite Hi', Ht', N.eqb_refl.
Qed.

Lemma reminder_due_wanted t now m e :
  reminder_wanted t now m -> last_down t (m_id m) e -> is_Some (reminder_due t now m).
Proof.
  intros (Hd & Hm & Hr & Hage) [(He & Hi & Ht) _]. unfold reminder_due.
  rewrite Hd, Hm, (proj2 (Z.ltb_lt _ _) Hr), (proj2 (no_recent_alert t now m) Hage). cbn.
  destruct (latest_event _) eqn:El; [by eexists|]. exfalso. apply latest_event_none in El.
  assert (In e []) as []. rewrite <- El. apply filter_In. split; [by apply list_elem_of_In|].
  by rewrite Hi, Ht, N.eqb_refl.
Qed.

Lemma number_alerts_elem rows now : forall next a,
  a ∈ number_alerts next now rows <->
  exists k mid eid, rows !! k = Some (mid, eid) /\ a = new_alert (next + Z.of_nat k) mid eid "default" now true.
Proof.
  induction rows as [|[mid eid] rows IH]; intros next a; cbn [number_alerts].
  - split; [by intros ?%not_elem_of_nil|]. by intros (k & ? & ? & Hk & _).
  - rewrite elem_of_cons, IH. split.
    + intros [->|(k & mid' & eid' & Hk & ->)].
      * exists O, mid, eid. split; [done|]. by rewrite Z.add_0_r.
      * exists (Datatypes.S k), mid', eid'. split; [done|]. f_equal. lia.
    + intros ([|k] & mid' & eid' & Hk & ->); cbn in Hk; [left; simplify_eq; by rewrite Z.add_0_r|].
      right. exists k, mid', eid'. split; [done|]. f_equal. lia.
Qed.

Lemma number_alerts_monitors rows now : forall next, a_monitor_id <$> number_alerts next now rows = rows.*1.
Proof. induction rows as [|[mid eid] rows IH]; intros next; cbn; [done|]. f_equal. apply IH. Qed.

Lemma run_EnqueueDownReminders w now :
  no_faults w ->
  let t := w_tables w in
  let due := omap (fun m => eid ← reminder_due t now m; Some (m_id m, eid)) (monitor_rows t) in
  let new := number_alerts (s_alerts (w_seqs w) + 1) (cur_clock w) due in
  exists w', run (EnqueueDownReminders now) w = (Ok (Z.of_nat (length new)), w') /\
    w_tables w' = set_alerts (t_alerts t ++ new) t /\ no_faults w' /\
    w_env w' = w_env w /\ (w_step w <= w_step w')%nat.
Proof.
  intros Hf t due new. pose proof (in_tx_start w Hf) as Hw. unfold EnqueueDownReminders.
  eexists. split; [eapply run_withTx_commit; [done| |]|].
  - rewrite run_bind, run_wrap, (in_tx_stmt _ (cur_clock w)) by done. reflexivity.
  - by apply in_tx_step.
  - split; [done|]. split; [by eapply no_faults_set_txnow, no_faults_tick, in_tx_no_faults, in_tx_step|].
    split; [done|]. cbn. lia.
Qed.

(** C31. One pass of the reminder query queues one pending reminder, tied to
    the latest 'down' event, for exactly the monitors that are down, not
    muted, have a cadence, have such an event and had no alert of any kind
    for one cadence; a monitor that was just queued wants no other reminder
    before a cadence has passed; nothing else changes. *)
Theorem EnqueueDownReminders_spec (w : World) (now : Time) :
  no_faults w -> keyed_monitors (w_tables w) ->
  let t := w_tables w in
  exists new w', run (EnqueueDownReminders now) w = (Ok (Z.of_nat (length new)), w') /\
    w_tables w' = set_alerts (t_alerts t ++ new) t /\
    NoDup (a_monitor_id <$> new) /\
    (forall a, a ∈ new -> exists id m e, a = new_alert id (m_id m) (e_id e) "default" (cur_clock w) true /\
       t_monitors t !! m_id m = Some m /\ reminder_wanted t now m /\ last_down t (m_id m) e) /\
    (forall m e, t_monitors t !! m_id m = Some m -> reminder_wanted t now m -> last_down t (m_id m) e ->
       m_id m ∈ a_monitor_id <$> new) /\
    (forall m now2, t_monitors t !! m_id m = Some m -> m_id m ∈ a_monitor_id <$> new ->
       now2 < cur_clock w + m_reminder_every_s m * Second -> ~ reminder_wanted (w_tables w') now2 m).
Proof.
  intros Hf Hk t. destruct (run_EnqueueDownReminders w now Hf) as (w' & Hr & Ht & _). fold t in Hr, Ht.
  set (due := omap _ _) in *. set (new := number_alerts _ _ _) in *. exists new, w'. do 2 (split; [done|]).
  assert (Hmon : a_monitor_id <$> new = due.*1) by apply number_alerts_monitors.
  assert (Hdue : forall mid eid, (mid, eid) ∈ due <->
            exists m, m ∈ monitor_rows t /\ m_id m = mid /\ reminder_due t now m = Some eid).
  { intros mid eid. unfold due. rewrite list_elem_of_omap. split.
    - intros (m & Hm & He). destruct (reminder_due t now m) eqn:Er; cbn in He; [|done]. exists m. by simplify_eq.
    - intros (m & Hm & <- & Er). exists m. by rewrite Er. }
  split_and!.
  - rewrite Hmon. pose proof (NoDup_monitor_ids t Hk) as Hnd. unfold due. clear -Hnd.
    induction (monitor_rows t) as [|m l IH]; cbn; [constructor|]. apply NoDup_cons in Hnd as [Hm Hnd].
    destruct (reminder_due t now m) as [eid|]; cbn; [|by apply IH]. apply NoDup_cons. split; [|by apply IH].
    intros ([mid e] & Heq & (m' & Hm' & He)%list_elem_of_omap)%list_elem_of_fmap.
    destruct (reminder_due t now m'); cbn in He; [|done]. simplify_eq. apply Hm. cbn in Heq. rewrite Heq.
    by apply list_elem_of_fmap_2.
  - intros a (k & mid & eid & Hk2 & ->)%number_alerts_elem. apply list_elem_of_lookup_2, Hdue in Hk2 as (m & Hm & <- & Er).
    apply reminder_due_spec in Er as (Hw & e & He & <-). eexists _, m, e. split; [done|].
    by apply elem_of_monitor_rows in Hm.
  - intros m e Hm Hw He. destruct (reminder_due_wanted t now m e Hw He) as [eid Hd]. rewrite Hmon.
    apply list_elem_of_fmap. exists (m_id m, eid). split; [done|]. apply Hdue. exists m.
    by rewrite elem_of_monitor_rows.
  - intros m now2 Hm (a & Heq & Ha)%list_elem_of_fmap Hlt (_ & _ & _ & Hall).
    apply number_alerts_elem in Ha as Ha2. destruct Ha2 as (k & mid & eid & _ & Hnew).
    specialize (Hall a). rewrite Ht in Hall. cbn [t_alerts set_alerts] in Hall.
    assert (a_created_at a + m_reminder_every_s m * Second <= now2) as Hle.
    { apply Hall; [apply elem_of_app; by right|done]. }
    rewrite Hnew in Hle. cbn in Hle. lia.
Qed.

Definition reminder_world : World :=
  mkWorld (set_events [mkEvent 1 1 "down" "Monitor is down" MetaEmpty (demo_t0 - 2 * Day)]
             (demo_tables [demo_heartbeat "down" None; demo_http "up" 0])) demo_seqs 0 None demo_env.

Lemma EnqueueDownReminders_spec_witness :
  exists new w', run (EnqueueDownReminders demo_t0) reminder_world = (Ok (Z.of_nat (length new)), w') /\
    1%N ∈ a_monitor_id <$> new.
Proof.
  destruct (EnqueueDownReminders_spec reminder_world demo_t0 (demo_no_faults _ _ _) (demo_keyed [demo_heartbeat "down" None; demo_http "up" 0]))
    as (new & w' & Hr & _ & _ & _ & Hall & _).
  exists new, w'. split; [exact Hr|].
  apply (Hall (demo_heartbeat "down" None) (mkEvent 1 1 "down" "Monitor is down" MetaEmpty (demo_t0 - 2 * Day)));
    [reflexivity| |].
  - split_and!; [reflexivity..|]. intros a Ha. by apply not_elem_of_nil in Ha.
  - split; [split_and!; [by left|done..]|]. intros e' He'. cbn in He'.
    apply list_elem_of_singleton in He' as ->. done.
Defined.
