(* ===== verification/Alert.v ===== *)
(** * Alert: messages, templates and the SMTP channel (package alert)

    [Render] and its helpers are alert/template.go; [SendError] and
    [IsRetryable] alert/channel.go; [EmailChannel_Send] is the control flow of
    alert/email.go over an SMTP conversation, whose outcome at each stage
    (package net/smtp and the server) is an argument. *)
From S2P Require Import Prelude GoLib Models Mime.
Local Open Scope Z_scope.

(** ** Errors of a channel (alert/channel.go) *)

(** What net, crypto/tls and net/smtp report: a reply code of the server, a
    [net.Error] or anything else. *)
Inductive TransportError :=
| TextprotoError (code : Z)
| NetError
| OtherError.

Inductive SendFailure :=
| ErrNotConfigured
| SendError (retryable : bool) (op : string).

Definition IsRetryable (err : SendFailure) : bool :=
  match err with
  | SendError retryable _ => retryable
  | ErrNotConfigured => false
  end.

(** ** Classification (alert/email.go) *)

Definition isRetryable (op : string) (err : TransportError) : bool :=
  if String.eqb op "auth" then false
  else match err with
       | TextprotoError code => (400 <=? code) && (code <? 500)
       | NetError => true
       | OtherError => String.eqb op "dial" || String.eqb op "tls" || String.eqb op "starttls"
                       || String.eqb op "greet"
       end.

Definition sendErr (op : string) (err : TransportError) : SendFailure :=
  SendError (isRetryable op err) op.

Record EmailConfig := mkEmailConfig {
  ec_Host : string;
  ec_Port : Z;
  ec_Username : string;
  ec_Password : string;
  ec_From : string
}.

Definition configured (c : EmailConfig) : bool :=
  negb (String.eqb (ec_Host c) "") && negb (String.eqb (ec_From c) "").

(** [net.JoinHostPort]. *)
Definition JoinHostPort (host port : string) : string :=
  if str_any (fun c => Ascii.eqb c ":" || Ascii.eqb c "%") host then "[" +:+ host +:+ "]:" +:+ port
  else host +:+ ":" +:+ port.

Definition addr (c : EmailConfig) : string := JoinHostPort (ec_Host c) (itoa (ec_Port c)).

(** One SMTP conversation: what the server offers and how each stage ends. *)
Record SmtpSession := mkSmtpSession {
  ss_dial : option TransportError;
  ss_handshake : option TransportError;
  ss_greet : option TransportError;
  ss_offers_starttls : bool;
  ss_starttls : option TransportError;
  ss_offers_auth : bool;
  ss_auth : option TransportError;
  ss_mail : option TransportError;
  ss_rcpt : option TransportError;
  ss_data : option TransportError;
  ss_write : option TransportError;
  ss_close : option TransportError
}.

(** What goes over the wire, in order: the model's record of the calls. *)
Inductive SmtpCall :=
| CallDial (addr : string)
| CallAuth (encrypted : bool) (username password : string)
| CallMail (from : string)
| CallRcpt (to : string)
| CallData (bytes : string).

(** [dial]: an error, or whether the connection is encrypted. *)
Definition dial (c : EmailConfig) (s : SmtpSession) : option SendFailure * bool :=
  match ss_dial s with
  | Some e => (Some (sendErr "dial" e), false)
  | None =>
      if ec_Port c =? 465 then
        match ss_handshake s with
        | Some e => (Some (sendErr "tls" e), false)
        | None => match ss_greet s with
                  | Some e => (Some (sendErr "greet" e), true)
                  | None => (None, true)
                  end
        end
      else
        match ss_greet s with
        | Some e => (Some (sendErr "greet" e), false)
        | None =>
            if ss_offers_starttls s then
              match ss_starttls s with
              | Some e => (Some (sendErr "starttls" e), false)
              | None => (None, true)
              end
            else (None, false)
        end
  end.

(** [authenticate] and the calls it makes. *)
Definition authenticate (c : EmailConfig) (s : SmtpSession) (isTLS : bool)
    : option SendFailure * list SmtpCall :=
  if String.eqb (ec_Username c) "" then (None, [])
  else if negb (ss_offers_auth s) then (Some (SendError false "auth"), [])
  else if negb isTLS then (Some (SendError false "auth"), [])
  else match ss_auth s with
       | Some e => (Some (sendErr "auth" e), [CallAuth isTLS (ec_Username c) (ec_Password c)])
       | None => (None, [CallAuth isTLS (ec_Username c) (ec_Password c)])
       end.

(** [Send]: the error it returns and the calls it made; [now] and [now2] are
    what the clock says when the message is built. *)
Definition EmailChannel_Send (c : EmailConfig) (s : SmtpSession) (now now2 : Time) (msg : Message)
    : option SendFailure * list SmtpCall :=
  if negb (configured c) then (Some ErrNotConfigured, [])
  else if hasHeaderInjection (msg_To msg) || hasHeaderInjection (ec_From c)
          || hasHeaderInjection (msg_Subject msg) then (Some (SendError false "validate"), [])
  else
    let calls := [CallDial (addr c)] in
    match dial c s with
    | (Some e, _) => (Some e, calls)
    | (None, isTLS) =>
        match authenticate c s isTLS with
        | (Some e, auth) => (Some e, calls ++ auth)
        | (None, auth) =>
            let calls := calls ++ auth ++ [CallMail (ec_From c)] in
            match ss_mail s with
            | Some e => (Some (sendErr "from" e), calls)
            | None =>
                let calls := calls ++ [CallRcpt (msg_To msg)] in
                match ss_rcpt s with
                | Some e => (Some (sendErr "rcpt" e), calls)
                | None =>
                    match ss_data s with
                    | Some e => (Some (sendErr "data" e), calls)
                    | None =>
                        let calls := calls ++ [CallData (buildMIME now now2 (ec_From c) msg)] in
                        match ss_write s with
                        | Some e => (Some (sendErr "write" e), calls)
                        | None => match ss_close s with
                                  | Some e => (Some (sendErr "write" e), calls)
                                  | None => (None, calls)
                                  end
                        end
                    end
                end
            end
        end
    end.

(** ** Templates (alert/template.go) *)

Definition KindDown : string := "down".
Definition KindUp : string := "up".
Definition KindTLSExpiry : string := "tls_expiry".
Definition KindReminder : string := "reminder".
Definition KindTest : string := "test".

Record Notification := mkNotification {
  n_Kind : string;
  n_MonitorName : string;
  n_MonitorSlug : string;
  n_Reason : string;
  n_Downtime : Duration;
  n_TLSExpiresAt : Time;
  n_At : Time;
  n_DashboardURL : string
}.

(** [strings.TrimSpace(s) == ""]. *)
Definition blank (s : string) : bool := Nat.eqb (length (str_Fields s)) 0.

Definition reasonOrDefault (reason def : string) : string := if blank reason then def else reason.

(** [int(d.Seconds())], [int(d.Minutes())], [int(d.Hours())] of a duration that
    is not negative: whole units, as the code's float64 gives them (it can
    differ by one unit only within a nanosecond of it, beyond some 80 days). *)
Definition humanDuration (d : Duration) : string :=
  let d := if d <? 0 then 0 else d in
  if d <? Minute then FormatInt (d / Second) +:+ "s"
  else if d <? Hour then FormatInt (d / Minute) +:+ "m"
  else if d <? 24 * Hour then
    let h := d / Hour in
    let m := d / Minute mod 60 in
    if m =? 0 then FormatInt h +:+ "h" else FormatInt h +:+ "h " +:+ FormatInt m +:+ "m"
  else
    let days := d / Hour / 24 in
    let h := d / Hour mod 24 in
    if h =? 0 then FormatInt days +:+ "d" else FormatInt days +:+ "d " +:+ FormatInt h +:+ "h".

(** [clock] is [time.Now()], read when [now] is the zero time. *)
Definition expiryWindow (clock expiresAt now : Time) : string :=
  if time_IsZero expiresAt then "unknown"
  else
    let now := if time_IsZero now then clock else now in
    let d := time_Sub expiresAt now in
    if d <=? 0 then "already expired"
    else if d <? 48 * Hour then "in " +:+ FormatInt (d / Hour) +:+ " hours"
    else "in " +:+ FormatInt (d / Hour / 24) +:+ " days".

(** The em dash of the subjects, U+2014 in UTF-8. *)
Definition emdash : string := String "226" (String "128" (String "148" "")).

Definition subject (clock : Time) (n : Notification) : string :=
  if String.eqb (n_Kind n) KindDown then
    "[DOWN] " +:+ n_MonitorName n +:+ " " +:+ emdash +:+ " " +:+ reasonOrDefault (n_Reason n) "check failed"
  else if String.eqb (n_Kind n) KindUp then
    "[UP] " +:+ n_MonitorName n +:+ " " +:+ emdash +:+ " recovered after " +:+ humanDuration (n_Downtime n)
  else if String.eqb (n_Kind n) KindTLSExpiry then
    "[TLS] " +:+ n_MonitorName n +:+ " " +:+ emdash +:+ " certificate expires "
      +:+ expiryWindow clock (n_TLSExpiresAt n) (n_At n)
  else if String.eqb (n_Kind n) KindReminder then
    "[DOWN] " +:+ n_MonitorName n +:+ " " +:+ emdash +:+ " still down after " +:+ humanDuration (n_Downtime n)
  else if String.eqb (n_Kind n) KindTest then "[TEST] ping " +:+ emdash +:+ " SMTP delivery is working"
  else "[ping] " +:+ n_MonitorName n.

Definition LFs : string := String LF "".

Definition renderText (clock : Time) (n : Notification) : string :=
  (if String.eqb (n_Kind n) KindDown then
     n_MonitorName n +:+ " is DOWN." +:+ LFs +:+ LFs +:+
     "Reason: " +:+ reasonOrDefault (n_Reason n) "check failed" +:+ LFs
   else if String.eqb (n_Kind n) KindUp then
     n_MonitorName n +:+ " has RECOVERED." +:+ LFs +:+ LFs +:+
     "Downtime: " +:+ humanDuration (n_Downtime n) +:+ LFs
   else if String.eqb (n_Kind n) KindTLSExpiry then
     n_MonitorName n +:+ ": TLS certificate expiring soon." +:+ LFs +:+ LFs +:+
     "Expires: " +:+ FormatRFC1123 (n_TLSExpiresAt n) +:+ " (" +:+
     expiryWindow clock (n_TLSExpiresAt n) (n_At n) +:+ ")" +:+ LFs
   else if String.eqb (n_Kind n) KindReminder then
     n_MonitorName n +:+ " is STILL DOWN." +:+ LFs +:+ LFs +:+
     "Down for: " +:+ humanDuration (n_Downtime n) +:+ LFs +:+
     (if String.eqb (n_Reason n) "" then "" else "Reason: " +:+ n_Reason n +:+ LFs)
   else if String.eqb (n_Kind n) KindTest then
     "This is a test email from ping." +:+ LFs +:+ LFs +:+
     "If you received this, your SMTP settings are working and alerts will be delivered here." +:+ LFs
   else "") +:+
  (if String.eqb (n_MonitorSlug n) "" then "" else "Monitor: " +:+ n_MonitorSlug n +:+ LFs) +:+
  (if time_IsZero (n_At n) then "" else "Time: " +:+ FormatRFC1123 (n_At n) +:+ LFs) +:+
  (if String.eqb (n_DashboardURL n) "" then "" else LFs +:+ "View monitor: " +:+ n_DashboardURL n +:+ LFs).

(** *** The HTML body

    The literals of the source hold double quotes and line breaks; here each
    [`] stands for a double quote and each [~] for a line feed. *)

Fixpoint lit (s : string) : string :=
  match s with
  | EmptyString => EmptyString
  | String c r => String (if Ascii.eqb c "`" then dquote else if Ascii.eqb c "~" then LF else c) (lit r)
  end.

Definition colBg : string := "#0B0D10".
Definition colSurface : string := "#12151A".
Definition colBorder : string := "#232830".
Definition colText : string := "#E6EAF0".
Definition colTextDim : string := "#8B94A3".
Definition colAccent : string := "#6E9BF5".
Definition colUp : string := "#2DD4A7".
Definition colLate : string := "#F5B84B".
Definition colDown : string := "#F4564E".

Definition accentFor (k : string) : string :=
  if String.eqb k KindUp then colUp
  else if String.eqb k KindTLSExpiry then colLate
  else if String.eqb k KindDown || String.eqb k KindReminder then colDown
  else colAccent.

Definition headline (n : Notification) : string :=
  if String.eqb (n_Kind n) KindDown then "Monitor is down"
  else if String.eqb (n_Kind n) KindUp then "Monitor recovered"
  else if String.eqb (n_Kind n) KindTLSExpiry then "TLS certificate expiring"
  else if String.eqb (n_Kind n) KindReminder then "Still down"
  else if String.eqb (n_Kind n) KindTest then "SMTP test email"
  else "Notification".

(** The pieces of the page: markup of the template, or a value put into it. *)
Inductive Piece :=
| Markup (s : string)
| Value (s : string).

Definition piece_string (p : Piece) : string :=
  match p with Markup s => lit s | Value s => EscapeString s end.

Definition html_row (label value : string) : list Piece :=
  if String.eqb value "" then []
  else [Markup "<tr><td style=`padding:4px 0;color:"; Markup colTextDim;
        Markup ";font-size:13px;width:120px;vertical-align:top`>"; Value label;
        Markup "</td><td style=`padding:4px 0;color:"; Markup colText; Markup ";font-size:13px`>";
        Value value; Markup "</td></tr>"].

Definition html_rows (clock : Time) (n : Notification) : list Piece :=
  (if String.eqb (n_Kind n) KindDown then html_row "Reason" (reasonOrDefault (n_Reason n) "check failed")
   else if String.eqb (n_Kind n) KindUp then html_row "Downtime" (humanDuration (n_Downtime n))
   else if String.eqb (n_Kind n) KindTLSExpiry then
     html_row "Expires" (FormatRFC1123 (n_TLSExpiresAt n)) ++
     html_row "Window" (expiryWindow clock (n_TLSExpiresAt n) (n_At n))
   else if String.eqb (n_Kind n) KindReminder then
     html_row "Down for" (humanDuration (n_Downtime n)) ++ html_row "Reason" (n_Reason n)
   else []) ++
  html_row "Monitor" (n_MonitorSlug n) ++
  (if time_IsZero (n_At n) then [] else html_row "Time" (FormatRFC1123 (n_At n))).

Definition html_button (n : Notification) : list Piece :=
  if String.eqb (n_DashboardURL n) "" then []
  else [Markup "<a href=`"; Value (n_DashboardURL n);
        Markup "` style=`display:inline-block;margin-top:20px;padding:9px 16px;background:";
        Markup colAccent; Markup ";color:"; Markup colBg;
        Markup ";text-decoration:none;border-radius:6px;font-size:13px;font-weight:600`>View monitor</a>"].

Definition html_intro (n : Notification) : list Piece :=
  if String.eqb (n_Kind n) KindTest then
    [Markup "<p style=`margin:0 0 4px;color:"; Markup colTextDim;
     Markup ";font-size:13px`>If you received this, your SMTP settings are working and alerts will be delivered here.</p>"]
  else [].

Definition html_pieces (clock : Time) (n : Notification) : list Piece :=
  [Markup "<!doctype html>~<html><body style=`margin:0;padding:0;background:"; Markup colBg;
   Markup "`>~<table role=`presentation` width=`100%` cellpadding=`0` cellspacing=`0` style=`background:";
   Markup colBg; Markup "`><tr><td align=`center` style=`padding:24px`>~";
   Markup "<table role=`presentation` width=`480` cellpadding=`0` cellspacing=`0` style=`max-width:480px;background:";
   Markup colSurface; Markup ";border:1px solid "; Markup colBorder; Markup ";border-radius:8px`>~";
   Markup "<tr><td style=`padding:24px`>~";
   Markup "<div style=`font-size:12px;letter-spacing:.08em;text-transform:uppercase;color:";
   Markup (accentFor (n_Kind n)); Markup ";font-weight:600`>ping</div>~";
   Markup "<h1 style=`margin:6px 0 16px;color:"; Markup colText;
   Markup ";font-size:18px;font-weight:600`>"; Value (headline n); Markup ": "; Value (n_MonitorName n);
   Markup "</h1>~"] ++ html_intro n ++
  [Markup "~<table role=`presentation` cellpadding=`0` cellspacing=`0` width=`100%`>"] ++
  html_rows clock n ++ [Markup "</table>~"] ++ html_button n ++
  [Markup "~</td></tr></table>~</td></tr></table>~</body></html>"].

Definition concat_strings (l : list string) : string := foldr String.append "" l.

Definition renderHTML (clock : Time) (n : Notification) : string :=
  concat_strings (map piece_string (html_pieces clock n)).

Definition Render (clock : Time) (n : Notification) : Message :=
  mkMessage "" (subject clock n) (renderText clock n) (renderHTML clock n).

(** ** Lemmas *)

(** The characters of a string that delimit markup: angle brackets and double
    quotes. *)
Definition delimiter (c : ascii) : bool := Ascii.eqb c "<" || Ascii.eqb c ">" || Ascii.eqb c dquote.

Fixpoint delimiters (s : string) : string :=
  match s with
  | EmptyString => EmptyString
  | String c r => if delimiter c then String c (delimiters r) else delimiters r
  end.

Lemma delimiters_app a b : delimiters (a +:+ b) = delimiters a +:+ delimiters b.
Proof.
  induction a as [|c a IH]; [done|]. change (String c a +:+ b) with (String c (a +:+ b)). cbn [delimiters].
  rewrite IH. by destruct (delimiter c).
Qed.

Lemma delimiters_escape_byte c : delimiters (escape_byte c) = "".
Proof. destruct c as [[] [] [] [] [] [] [] []]; reflexivity. Qed.

Lemma delimiters_EscapeString s : delimiters (EscapeString s) = "".
Proof. induction s as [|c s IH]; [done|]. cbn [EscapeString].
  by rewrite delimiters_app, delimiters_escape_byte, IH. Qed.

Definition markup_delimiters (p : Piece) : string :=
  match p with Markup s => delimiters (lit s) | Value _ => "" end.

Lemma delimiters_pieces ps :
  delimiters (concat_strings (map piece_string ps)) = concat_strings (map markup_delimiters ps).
Proof.
  induction ps as [|p ps IH]; [done|]. cbn [map concat_strings foldr].
  rewrite delimiters_app. fold (concat_strings (map piece_string ps)). rewrite IH.
  destruct p; cbn [piece_string]; [done|by rewrite delimiters_EscapeString].
Qed.

Lemma html_row_markup label v v' :
  String.eqb v "" = String.eqb v' "" ->
  map markup_delimiters (html_row label v) = map markup_delimiters (html_row label v').
Proof. unfold html_row. intros ->. by case_match. Qed.

(** Which optional parts a notification shows. *)
Definition same_layout (n n' : Notification) : Prop :=
  n_Kind n = n_Kind n' /\
  String.eqb (n_Reason n) "" = String.eqb (n_Reason n') "" /\
  String.eqb (n_MonitorSlug n) "" = String.eqb (n_MonitorSlug n') "" /\
  String.eqb (n_DashboardURL n) "" = String.eqb (n_DashboardURL n') "" /\
  time_IsZero (n_At n) = time_IsZero (n_At n').

Lemma append_nonempty a b : String.eqb b "" = false -> String.eqb (a +:+ b) "" = false.
Proof. by destruct a. Qed.

Lemma humanDuration_nonempty d : String.eqb (humanDuration d) "" = false.
Proof.
  unfold humanDuration. cbv zeta.
  repeat case_match; repeat (apply append_nonempty); done.
Qed.

Lemma expiryWindow_nonempty clock e now : String.eqb (expiryWindow clock e now) "" = false.
Proof. unfold expiryWindow. cbv zeta. repeat case_match; done. Qed.

Lemma FormatRFC1123_nonempty t : String.eqb (FormatRFC1123 t) "" = false.
Proof.
  unfold FormatRFC1123. destruct (civil_of_days _) as [[y m] d]. by apply append_nonempty.
Qed.

Lemma reasonOrDefault_nonempty r d :
  String.eqb d "" = false -> String.eqb (reasonOrDefault r d) "" = false.
Proof.
  intros Hd. unfold reasonOrDefault. destruct (blank r) eqn:E; [done|]. by destruct r.
Qed.

Lemma html_rows_markup c c' n n' :
  same_layout n n' -> map markup_delimiters (html_rows c n) = map markup_delimiters (html_rows c' n').
Proof.
  intros (Hk & Hr & Hs & _ & Ha). unfold html_rows. rewrite Hk, Ha, !map_app. f_equal; [|f_equal].
  - repeat case_match; rewrite ?map_app; try done;
      (apply html_row_markup || (f_equal; apply html_row_markup));
      rewrite ?humanDuration_nonempty, ?expiryWindow_nonempty, ?FormatRFC1123_nonempty; try done.
    by rewrite !reasonOrDefault_nonempty.
  - by apply html_row_markup.
  - case_match; [done|]. apply html_row_markup. by rewrite !FormatRFC1123_nonempty.
Qed.

(** Line endings: every LF of an SMTP body follows a CR. *)
Fixpoint lf_after_cr (prev_cr : bool) (s : string) : bool :=
  match s with
  | EmptyString => true
  | String c r => (if Ascii.eqb c LF then prev_cr else true) && lf_after_cr (Ascii.eqb c CR) r
  end.

Lemma lf_after_cr_replace s b : lf_after_cr b (replace_lf_crlf s) = true.
Proof.
  revert b. induction s as [|c s IH]; intros b; [done|]. cbn [replace_lf_crlf].
  destruct (Ascii.eqb c LF) eqn:E; cbn [lf_after_cr].
  - change (Ascii.eqb CR LF) with false. change (Ascii.eqb CR CR) with true.
    change (Ascii.eqb LF LF) with true. cbn. apply IH.
  - rewrite E. cbn. apply IH.
Qed.

Lemma replace_lf_crlf_head s :
  match replace_lf_crlf s with String b _ => Ascii.eqb b LF = false | EmptyString => True end.
Proof. destruct s as [|c s]; [done|]. cbn [replace_lf_crlf]. by destruct (Ascii.eqb c LF) eqn:E. Qed.

Lemma replace_crlf_lf_replace s : replace_crlf_lf (replace_lf_crlf s) = s.
Proof.
  induction s as [|c s IH]; [done|]. cbn [replace_lf_crlf]. destruct (Ascii.eqb_spec c LF) as [->|Hc].
  - change (replace_crlf_lf (String CR (String LF ?r))) with (String LF (replace_crlf_lf r)). by rewrite IH.
  - pose proof (replace_lf_crlf_head s) as Hh. destruct (replace_lf_crlf s) as [|b r]; [by rewrite <- IH|].
    change (replace_crlf_lf (String c (String b r))) with
      (if Ascii.eqb c CR && Ascii.eqb b LF then String LF (replace_crlf_lf r)
       else String c (replace_crlf_lf (String b r))).
    rewrite Hh, andb_false_r. by rewrite IH.
Qed.

Lemma authenticate_encrypted c s isTLS enc u p :
  CallAuth enc u p ∈ (authenticate c s isTLS).2 -> enc = true.
Proof.
  unfold authenticate. repeat case_match; cbn; intros Hin; try by apply elem_of_nil in Hin.
  all: destruct isTLS; [|done]; by apply list_elem_of_singleton in Hin; simplify_eq.
Qed.

(** Every stage of the conversation that [Send] goes through succeeds. *)
Definition accepted (c : EmailConfig) (s : SmtpSession) : Prop :=
  (dial c s).1 = None /\ (authenticate c s (dial c s).2).1 = None /\
  ss_mail s = None /\ ss_rcpt s = None /\ ss_data s = None /\ ss_write s = None /\ ss_close s = None.

Definition clean_headers (c : EmailConfig) (msg : Message) : bool :=
  negb (hasHeaderInjection (msg_To msg) || hasHeaderInjection (ec_From c)
        || hasHeaderInjection (msg_Subject msg)).

(** ** Properties *)

(** C33. Sending reports success exactly when the channel is configured, no
    header field holds a line break and every stage of the conversation was
    accepted; the calls made then are one dial, the login if there is one, this
    sender, this recipient and the bytes of this message, once.  An unconfigured channel or an illegal header makes no
    call at all. *)
Theorem Send_spec c s now now2 msg :
  let '(err, calls) := EmailChannel_Send c s now now2 msg in
  (err = None <-> configured c = true /\ clean_headers c msg = true /\ accepted c s) /\
  (err = None -> exists auth,
     calls = CallDial (addr c) :: auth ++
       [CallMail (ec_From c); CallRcpt (msg_To msg); CallData (buildMIME now now2 (ec_From c) msg)] /\
     (forall call, call ∈ auth -> exists enc u p, call = CallAuth enc u p)) /\
  (configured c = false \/ clean_headers c msg = false -> calls = []).
Proof.
  unfold EmailChannel_Send, accepted, clean_headers.
  destruct (configured c); cbn [negb]; [|naive_solver].
  destruct (_ || _ || _) eqn:Eh; cbn [negb]; [naive_solver|].
  destruct (dial c s) as [[e|] isTLS]; cbn [fst snd]; [naive_solver|].
  assert (Hauth : forall call, call ∈ (authenticate c s isTLS).2 -> exists enc u p, call = CallAuth enc u p).
  { unfold authenticate. intros call. repeat case_match; cbn; intros Hin; try by apply elem_of_nil in Hin.
    all: apply list_elem_of_singleton in Hin as ->; eauto. }
  destruct (authenticate c s isTLS) as [[e|] calls]; cbn [fst snd] in *; [naive_solver|].
  destruct (ss_mail s), (ss_rcpt s), (ss_data s), (ss_write s), (ss_close s); try naive_solver.
  split; [naive_solver|]. split; [|naive_solver]. intros _. exists calls. rewrite <- !app_assoc. done.
Qed.

(** The SMTP password is never sent over an unencrypted connection,
    whatever the server offers or refuses. *)
Lemma password_encrypted c s now now2 msg enc u p :
  CallAuth enc u p ∈ (EmailChannel_Send c s now now2 msg).2 -> enc = true.
Proof.
  unfold EmailChannel_Send. destruct (negb _); [by intros ?%elem_of_nil|].
  destruct (_ || _ || _); [by intros ?%elem_of_nil|].
  destruct (dial c s) as [[e|] isTLS]; [by intros ?%list_elem_of_singleton|].
  destruct (authenticate c s isTLS) as [[e|] calls] eqn:Ea; cbn [snd].
  { intros [?%list_elem_of_singleton|Hin]%elem_of_app; [done|]. apply (authenticate_encrypted c s isTLS enc u p). by rewrite Ea. }
  intros Hin. apply (authenticate_encrypted c s isTLS enc u p). rewrite Ea. cbn [snd].
  repeat case_match; cbn [snd] in Hin; rewrite ?elem_of_app, ?list_elem_of_singleton in Hin; naive_solver.
Qed.

Lemma password_encrypted_witness :
  let c := mkEmailConfig "mail.example.com" 587 "ops" "secret" "ping@example.com" in
  let s := mkSmtpSession None None None true None true None None None None None None in
  let msg := mkMessage "a@example.com" "hi" "text" "" in
  CallAuth true "ops" "secret" ∈ (EmailChannel_Send c s 0 0 msg).2 /\ true = true.
Proof.
  intros c s msg. assert (H : CallAuth true "ops" "secret" ∈ (EmailChannel_Send c s 0 0 msg).2).
  { apply list_elem_of_In. vm_compute. right. left. reflexivity. }
  split; [exact H|]. exact (password_encrypted c s 0 0 msg true "ops" "secret" H).
Defined.

(** Line endings: after normalisation every line feed follows a carriage
    return, normalising twice is normalising once, and undoing it gives the
    text with its CRLFs already collapsed. *)
Lemma normalizeCRLF_spec s :
  lf_after_cr false (normalizeCRLF s) = true /\
  normalizeCRLF (normalizeCRLF s) = normalizeCRLF s /\
  replace_crlf_lf (normalizeCRLF s) = replace_crlf_lf s.
Proof.
  unfold normalizeCRLF. split; [apply lf_after_cr_replace|]. by rewrite replace_crlf_lf_replace.
Qed.

(** No value shown in an alert e-mail can add markup: two notifications of
    the same kind that show the same optional parts have pages with exactly
    the same angle brackets and double quotes, whatever their monitor names,
    reasons, slugs and links contain. *)
Lemma renderHTML_markup clock clock' n n' :
  same_layout n n' -> delimiters (renderHTML clock n) = delimiters (renderHTML clock' n').
Proof.
  intros Hl. unfold renderHTML. rewrite !delimiters_pieces. f_equal. unfold html_pieces.
  pose proof (html_rows_markup clock clock' n n' Hl) as Hr.
  destruct Hl as (Hk & _ & _ & Hu & _).
  rewrite !map_app, Hr. unfold html_intro, html_button. rewrite Hk, Hu.
  by destruct (String.eqb (n_DashboardURL n') "").
Qed.

Lemma renderHTML_markup_witness :
  let n name := mkNotification KindDown name "slug" "" 0 0 0 "" in
  same_layout (n "db") (n "<script>") /\
  delimiters (renderHTML 0 (n "<script>")) = delimiters (renderHTML 0 (n "db")).
Proof.
  intros n. assert (H : same_layout (n "db") (n "<script>")) by (repeat split).
  split; [exact H|]. symmetry. exact (renderHTML_markup 0 0 _ _ H).
Defined.
