(* ===== verification/Alerter.v ===== *)
(** * Alerter: dispatching the outbox (worker/alerter/alerter.go)

    [alerter_tick] enqueues reminders, claims due alerts and dispatches each.
    The channel is an argument: what its [Send] answers, by message and action
    number.  [dispatch] and the tick return the deliveries they attempted, a
    record the code leaves to its logs. *)
From S2P Require Import Prelude GoLib Models Extern Store Queries Logic Demo Convert Checkin Outbox Mime Alert.
Local Open Scope Z_scope.
Local Open Scope ping_scope.

Definition claimLimit : Z := 100.
Definition maxAttempts : Z := 3.
Definition baseBackoff : Duration := Minute.
Definition backoffMult : Z := 5.

(** [alert.Channel]: [None] is a nil error. *)
Definition Channel : Type := Message -> nat -> option SendFailure.

Definition channel_Send (ch : Channel) (msg : Message) : Prog (option SendFailure) :=
  Act (fun w => (Ok (ch msg (w_step w)), tick w)) Ret.

(** The loop [for range attempts { d *= backoffMult }] on an int64. *)
Definition backoff (attempts : Z) : Duration :=
  Nat.iter (Z.to_nat attempts) (fun d => wrap64 (d * backoffMult)) baseBackoff.

(** An attempted delivery and how it ended. *)
Record Delivery := mkDelivery {
  dl_ID : Z;
  dl_Message : Message;
  dl_Error : option SendFailure
}.

Section alerter.
Context `{Extern} `{Clock} (ch : option Channel) (baseURL : string).

Definition dashboardURL (slug : string) : string :=
  if String.eqb baseURL "" || String.eqb slug "" then ""
  else baseURL +:+ "/monitors/" +:+ slug.

(** [render]: the templates read the clock only for an event without a time. *)
Definition render (job : AlertJob) : Prog Message :=
  let n kind downtime expires :=
    mkNotification kind (j_MonitorName job) (j_MonitorSlug job) "" downtime expires (j_EventAt job)
      (dashboardURL (j_MonitorSlug job)) in
  let! n :=
    (if j_IsReminder job then
       let! now := testclock_Now in
       let! d := wrap "resolve downtime" (ResolveDowntime (j_MonitorID job) now) in
       ret (n KindReminder d zero_time)
     else if String.eqb (j_EventType job) "up" then
       let! d := wrap "resolve downtime" (ResolveDowntime (j_MonitorID job) (j_EventAt job)) in
       ret (n KindUp d zero_time)
     else if String.eqb (j_EventType job) "tls_expiry" then
       ret (n KindTLSExpiry 0 (default zero_time (j_TLSExpiresAt job)))
     else ret (n KindDown 0 zero_time)) in
  let! clock := (if time_IsZero (j_EventAt job) then time_Now else ret 0) in
  let msg := Render clock n in
  ret (mkMessage (j_Recipient job) (msg_Subject msg) (msg_TextBody msg) (msg_HTMLBody msg)).

Definition alerter_fail (job : AlertJob) (reason : string) : Prog unit :=
  let! _ := attempt (FailAlert (j_ID job) (j_MonitorID job) reason) in ret tt.

Definition dispatch (job : AlertJob) : Prog (list Delivery) :=
  if j_AlertsMuted job then
    let! _ := attempt (SuppressAlert (j_ID job)) in ret []
  else
    match ch with
    | None => alerter_fail job "email delivery is not configured" ;; ret []
    | Some ch =>
        let! rendered := attempt (render job) in
        match rendered with
        | Err _ => alerter_fail job "could not build notification" ;; ret []
        | Ok msg =>
            let! sendErr := channel_Send ch msg in
            let log := [mkDelivery (j_ID job) msg sendErr] in
            match sendErr with
            | None => let! _ := attempt (MarkAlertSent (j_ID job)) in ret log
            | Some err =>
                let nextAttempt := j_Attempts job + 1 in
                if IsRetryable err && (nextAttempt <? maxAttempts) then
                  let delay := backoff (j_Attempts job) in
                  let! now := testclock_Now in
                  let! _ := attempt (RescheduleAlert (j_ID job) (time_Add now delay)) in
                  ret log
                else alerter_fail job "mail server rejected the message" ;; ret log
            end
        end
    end.

Definition alerter_tick (cancelled : nat -> bool) : Prog (list Delivery) :=
  let! now := testclock_Now in
  let! _ := attempt (EnqueueDownReminders now) in
  let! now := testclock_Now in
  let! jobs := ClaimDueAlerts now claimLimit in
  for_range (fun log job =>
    let! _ := ctx_Err cancelled in
    let! sent := dispatch job in
    ret (log ++ sent)) [] jobs.

(** ** What one dispatch does to its alert *)

(** [verdict clock n job a a' log failed]: the row [a] of [job] becomes [a'],
    with these deliveries, and [failed] tells whether an alert_failed event is
    due.  A delivery is the channel's answer at action [n], and the instants of
    the row are readings of [clock] at the action after it. *)
Inductive verdict (clock : nat -> Time) (n : nat) (job : AlertJob) (a : Alert) : Alert -> list Delivery -> bool -> Prop :=
| VSuppressed :
    j_AlertsMuted job = true ->
    verdict clock n job a (alert_with "sent" (a_attempts a) (a_next_attempt_at a) (a_sent_at a) a) [] false
| VUnconfigured :
    j_AlertsMuted job = false -> ch = None ->
    verdict clock n job a (alert_with "failed" (a_attempts a + 1) (a_next_attempt_at a) (a_sent_at a) a) [] true
| VSent chan msg :
    j_AlertsMuted job = false -> ch = Some chan -> msg_To msg = j_Recipient job -> chan msg n = None ->
    verdict clock n job a (alert_with "sent" (a_attempts a + 1) (a_next_attempt_at a) (Some (clock (S n))) a)
      [mkDelivery (j_ID job) msg None] false
| VRetry chan msg err :
    j_AlertsMuted job = false -> ch = Some chan -> msg_To msg = j_Recipient job -> chan msg n = Some err ->
    IsRetryable err = true -> j_Attempts job + 1 < maxAttempts ->
    verdict clock n job a
      (alert_with (a_status a) (a_attempts a + 1)
         (time_Add (time_Add (clock (S n)) clock_offset) (backoff (j_Attempts job))) (a_sent_at a) a)
      [mkDelivery (j_ID job) msg (Some err)] false
| VFailed chan msg err :
    j_AlertsMuted job = false -> ch = Some chan -> msg_To msg = j_Recipient job -> chan msg n = Some err ->
    (IsRetryable err = false \/ maxAttempts <= j_Attempts job + 1) ->
    verdict clock n job a (alert_with "failed" (a_attempts a + 1) (a_next_attempt_at a) (a_sent_at a) a)
      [mkDelivery (j_ID job) msg (Some err)] true.

Definition failure_events (mid : UUID) (failed : bool) (t t' : Tables) : Prop :=
  if failed then exists e, t_events t' = t_events t ++ [e] /\ e_type e = "alert_failed" /\ e_monitor_id e = mid
  else t_events t' = t_events t.

(** ** Lemmas *)

Lemma run_stmt_ok {R} (q : Sql R) w :
  no_faults w ->
  exists now u, run (stmt q) w = let '(r, d) := q now u (w_db w) in (r, tick (set_w_db d w)).
Proof.
  intros Hf. exists (sql_now w), (cur_uuid w). rewrite run_stmt, exec_ok by auto with ping.
  unfold w_db. by destruct (q _ _ _) as [r [t s]].
Qed.

Lemma update_alert_ok bump f id a now u t s :
  a ∈ t_alerts t -> a_id a = id -> a_attempts a < 2147483647 ->
  NoDup (a_id <$> t_alerts t) ->
  sql_update_alert id bump f now u (t, s)
  = (Ok tt, (set_alerts (update_alert_rows id (f now) (t_alerts t)) t, s)).
Proof.
  intros Hin Hid Hlt Hnd. unfold sql_update_alert.
  destruct (existsb _ _) eqn:E; [|by rewrite andb_false_r].
  exfalso. apply existsb_exists in E as (b & Hb & [Hbid%Z.eqb_eq Hbig]%andb_true_iff).
  apply list_elem_of_In in Hb. assert (b = a); [|subst; lia].
  apply list_elem_of_lookup in Hb as [i Hi], Hin as [j Hj].
  assert (i = j); [|naive_solver].
  eapply NoDup_lookup; [exact Hnd|..]; rewrite list_lookup_fmap; [by rewrite Hi|rewrite Hj; simpl; by f_equal; lia].
Qed.

Lemma run_ResolveDowntime mid mon at_ w :
  no_faults w -> uuid_scan mon = Some mid ->
  exists d, run (ResolveDowntime mon at_) w = (Ok d, tick w).
Proof.
  intros Hf Hid. unfold ResolveDowntime, pgUUID. rewrite Hid, run_bind. cbn [run lift_res].
  rewrite run_bind, run_attempt.
  destruct (run_stmt_ok (db_LatestDownEventBefore mid at_) w Hf) as (now & u & ->).
  unfold db_LatestDownEventBefore, sql_one.
  destruct (latest_event _) as [e|]; cbn; eexists; destruct w; done.
Qed.

Lemma run_render job mid w :
  no_faults w -> uuid_scan (j_MonitorID job) = Some mid ->
  exists msg w', run (render job) w = (Ok msg, w') /\ w_db w' = w_db w /\ no_faults w' /\
    msg_To msg = j_Recipient job.
Proof.
  intros Hf Hid. unfold render. rewrite run_bind.
  set (p := if j_IsReminder job then _ else _).
  assert (Hp : exists n w1, run p w = (Ok n, w1) /\ w_db w1 = w_db w /\ no_faults w1).
  { unfold p. destruct (j_IsReminder job).
    - rewrite run_bind, testclock_Now_ok. cbv beta iota. rewrite run_bind, run_wrap.
      destruct (run_ResolveDowntime mid (j_MonitorID job) (cur_testclock w) (tick w)) as [d ->]; [by auto with ping|done|].
      do 2 eexists. split; [done|]. split; [done|by auto with ping].
    - destruct (String.eqb _ _).
      + rewrite run_bind, run_wrap.
        destruct (run_ResolveDowntime mid (j_MonitorID job) (j_EventAt job) w) as [d ->]; [done..|].
        do 2 eexists. split; [done|]. split; [done|by auto with ping].
      + destruct (String.eqb _ _); do 2 eexists; (split; [done|]); done. }
  destruct Hp as (n & w1 & -> & Hd & Hf1). rewrite run_bind.
  destruct (time_IsZero (j_EventAt job)).
  - rewrite time_Now_ok. do 2 eexists. split; [done|]. split; [done|]. split; [by auto with ping|done].
  - do 2 eexists. split; [done|]. split; [done|]. split; done.
Qed.

Lemma run_FailAlert job reason mid a w :
  no_faults w -> uuid_scan (j_MonitorID job) = Some mid ->
  is_Some (t_monitors (w_tables w) !! mid) ->
  a ∈ t_alerts (w_tables w) -> a_id a = j_ID job -> a_attempts a < 2147483647 ->
  NoDup (a_id <$> t_alerts (w_tables w)) ->
  exists w', run (alerter_fail job reason) w = (Ok tt, w') /\
    t_alerts (w_tables w') = update_alert_rows (j_ID job) (fun a =>
      alert_with "failed" (a_attempts a + 1) (a_next_attempt_at a) (a_sent_at a) a) (t_alerts (w_tables w)) /\
    failure_events mid true (w_tables w) (w_tables w').
Proof.
  intros Hf Hid Hm Hin Ha Hlt Hnd. unfold alerter_fail, FailAlert, pgUUID. rewrite Hid.
  rewrite run_bind, run_attempt, run_bind. cbn [run lift_res]. rewrite run_withTx. unfold tx_exec.
  rewrite (no_faults_cur w Hf). fold (tx_start w).
  match goal with |- context [run ?p (tx_start w)] => set (body := p) end.
  assert (Hb : exists w1, run body (tx_start w) = (Ok tt, w1) /\ in_tx (cur_clock w) w1 /\
    t_alerts (w_tables w1) = update_alert_rows (j_ID job) (fun a =>
      alert_with "failed" (a_attempts a + 1) (a_next_attempt_at a) (a_sent_at a) a) (t_alerts (w_tables w)) /\
    failure_events mid true (w_tables w) (w_tables w1)).
  { unfold body. rewrite run_bind, run_wrap, (in_tx_stmt _ (cur_clock w)) by auto with ping.
    change (w_db (tx_start w)) with (w_tables w, w_seqs w).
    unfold db_MarkAlertFailed. rewrite (update_alert_ok true _ (j_ID job) a) by done.
    rewrite run_bind, (run_recordEvent _ _ _ (cur_clock w)); [|by auto with ping|done].
    eexists. split; [done|]. split; [by auto with ping|]. split; [done|]. by eexists. }
  destruct Hb as (w1 & Hr & Hw1 & Hal & Hev).
  rewrite Hr, (no_faults_cur w1) by eauto with ping. eexists. split; [done|]. split; done.
Qed.

(** The job and its alert's row, as a claim leaves them. *)
Definition job_row (job : AlertJob) (a : Alert) (mid : UUID) (t : Tables) : Prop :=
  a ∈ t_alerts t /\ a_id a = j_ID job /\ a_attempts a = j_Attempts job /\
  a_attempts a < 2147483647 /\ NoDup (a_id <$> t_alerts t) /\
  uuid_scan (j_MonitorID job) = Some mid /\ is_Some (t_monitors t !! mid).

(** An UPDATE of the job's row that ignores its error. *)
Lemma run_finish job a mid f q c w {A} (v : A) :
  no_faults w -> job_row job a mid (w_tables w) ->
  (forall now u t s, t_alerts t = t_alerts (w_tables w) ->
     q now u (t, s) = (Ok tt, (set_alerts (update_alert_rows (j_ID job) (f now) (t_alerts t)) t, s))) ->
  exists w', run (let! _ := attempt (wrap c (stmt q)) in ret v) w = (Ok v, w') /\ w_step w' = S (w_step w) /\
    t_alerts (w_tables w') = update_alert_rows (j_ID job) (f (sql_now w)) (t_alerts (w_tables w)) /\
    t_events (w_tables w') = t_events (w_tables w).
Proof.
  intros Hf Hj Hq. rewrite run_bind, run_attempt, run_wrap, run_stmt, exec_ok by auto with ping.
  rewrite Hq by done. eexists. split; [done|]. by split.
Qed.

Lemma run_dispatch job a mid w :
  no_faults w -> w_txnow w = None -> job_row job a mid (w_tables w) ->
  exists n f log failed w', run (dispatch job) w = (Ok log, w') /\ (w_step w <= n <= w_step w')%nat /\
    t_alerts (w_tables w') = update_alert_rows (j_ID job) f (t_alerts (w_tables w)) /\
    verdict (env_clock (w_env w)) n job a (f a) log failed /\ failure_events mid failed (w_tables w) (w_tables w').
Proof.
  intros Hf Htx Hj. pose proof Hj as (Hin & Hid & Hatt & Hlt & Hnd & Hscan & Hmon).
  assert (Hfail : forall reason w1 (log : list Delivery), no_faults w1 -> w_db w1 = w_db w -> exists w',
      run (alerter_fail job reason ;; ret log) w1 = (Ok log, w') /\ (w_step w1 <= w_step w')%nat /\
      t_alerts (w_tables w') = update_alert_rows (j_ID job) (fun a =>
        alert_with "failed" (a_attempts a + 1) (a_next_attempt_at a) (a_sent_at a) a) (t_alerts (w_tables w)) /\
      failure_events mid true (w_tables w) (w_tables w')).
  { intros reason w1 log Hf1 Hd. injection Hd as Ht _. rewrite run_bind.
    assert (Hs : steady (alerter_fail job reason)) by solve_steady. pose proof (steady_run _ Hs w1) as (_ & Hle & _).
    destruct (run_FailAlert job reason mid a w1) as (w' & Hr & Hal & Hev); [rewrite ?Ht; done..|].
    rewrite Hr in Hle |- *. rewrite Ht in *. by exists w'. }
  unfold dispatch. destruct (j_AlertsMuted job) eqn:Em.
  { destruct (run_finish job a mid (fun _ a => alert_with "sent" (a_attempts a) (a_next_attempt_at a) (a_sent_at a) a)
      (db_SuppressAlert (j_ID job)) "store: suppress alert" w (@nil Delivery)) as (w' & Hr & Hstep & Hal & Hev); [done|done| |].
    - intros now u t s _. unfold db_SuppressAlert, sql_update_alert. done.
    - eexists (w_step w), _, [], false, w'. split; [exact Hr|]. split; [lia|].
      split; [exact Hal|]. split; [by constructor|exact Hev]. }
  destruct ch as [chan|] eqn:Ech.
  2:{ destruct (Hfail "email delivery is not configured" w [] Hf eq_refl) as (w' & Hr & Hle & Hal & Hev).
      eexists (w_step w), _, [], true, w'. split; [exact Hr|]. split; [lia|].
      split; [exact Hal|]. split; [by constructor|exact Hev]. }
  rewrite run_bind, run_attempt. assert (Hsr : steady (render job)) by solve_steady.
  pose proof (steady_run _ Hsr w) as (Henv & Hle1 & Htx1).
  destruct (run_render job mid w Hf Hscan) as (msg & w1 & Hr1 & Hd & Hf1 & Hto). rewrite Hr1 in Henv, Hle1, Htx1 |- *.
  cbn [snd] in Henv, Hle1, Htx1. rewrite run_bind. cbn [run channel_Send]. pose proof Hd as [= Ht Hs].
  assert (Hj1 : job_row job a mid (w_tables (tick w1))) by (cbn; by rewrite Ht).
  destruct (chan msg (w_step w1)) as [err|] eqn:Eerr.
  - destruct (IsRetryable err && _) eqn:Er.
    + apply andb_true_iff in Er as [Er Hmax%Z.ltb_lt]. rewrite run_bind, testclock_Now_ok.
      destruct (run_finish job a mid (fun _ a => alert_with (a_status a) (a_attempts a + 1)
          (time_Add (cur_testclock (tick w1)) (backoff (j_Attempts job))) (a_sent_at a) a)
        (db_RescheduleAlert (j_ID job) (time_Add (cur_testclock (tick w1)) (backoff (j_Attempts job))))
        "store: reschedule alert" (tick (tick w1)) [mkDelivery (j_ID job) msg (Some err)])
        as (w' & Hr & Hstep & Hal & Hev); [by auto with ping|done| |].
      * intros now u t s Hal. eapply (update_alert_ok true); by rewrite ?Hal, ?Hj1; cbn; rewrite ?Ht.
      * cbn in Hal, Hev, Hstep. rewrite Ht in Hal, Hev. eexists (w_step w1), _, _, false, w'. split; [exact Hr|]. split; [lia|].
        split; [exact Hal|]. split; [|exact Hev]. rewrite <- Henv. by eapply VRetry.
    + destruct (Hfail "mail server rejected the message" (tick w1) [mkDelivery (j_ID job) msg (Some err)])
        as (w' & Hr & Hle & Hal & Hev); [by auto with ping|done|]. cbn in Hle.
      eexists (w_step w1), _, _, true, w'. split; [exact Hr|]. split; [lia|]. split; [exact Hal|]. split; [|exact Hev].
      eapply VFailed; [done..|]. apply andb_false_iff in Er as [?|?%Z.ltb_ge]; [by left|by right].
  - destruct (run_finish job a mid (fun now a => alert_with "sent" (a_attempts a + 1) (a_next_attempt_at a) (Some now) a)
      (db_MarkAlertSent (j_ID job)) "store: mark alert sent" (tick w1) [mkDelivery (j_ID job) msg None])
      as (w' & Hr & Hstep & Hal & Hev); [by auto with ping|done| |].
    + intros now u t s Hal. eapply (update_alert_ok true); by rewrite ?Hal; cbn; rewrite ?Ht.
    + cbn in Hal, Hev, Hstep. rewrite Ht in Hal, Hev. eexists (w_step w1), _, _, false, w'. split; [exact Hr|]. split; [lia|].
      split; [exact Hal|]. split; [|exact Hev]. rewrite <- Henv. unfold sql_now. cbn. rewrite Htx1 by done. by eapply VSent.
Qed.
End alerter.

(** The life of one alert: each claim sees the attempts the row holds. *)
Inductive delivery_run `{Extern} `{Clock} (ch : option Channel) (a : Alert) : Alert -> list Delivery -> Prop :=
| run_start : delivery_run ch a a []
| run_again clock n a1 log job a2 log' failed :
    delivery_run ch a a1 log -> a_status a1 = "pending" -> j_Attempts job = a_attempts a1 ->
    verdict ch clock n job a1 a2 log' failed -> delivery_run ch a a2 (log ++ log').

Definition delivered (log : list Delivery) : nat :=
  length (List.filter (fun d => match dl_Error d with None => true | Some _ => false end) log).

Lemma delivered_app l l' : delivered (l ++ l') = (delivered l + delivered l')%nat.
Proof. unfold delivered. by rewrite List.filter_app, length_app. Qed.

(** Tries and attempts move together until the alert is finished. *)
Lemma delivery_run_invariant `{Extern} `{Clock} ch a a' log :
  a_attempts a = 0 -> a_status a = "pending" -> delivery_run ch a a' log ->
  (a_status a' = "pending" /\ a_attempts a' = Z.of_nat (length log) /\ (length log < 3)%nat /\ delivered log = 0%nat) \/
  ((a_status a' = "sent" \/ a_status a' = "failed") /\ (length log <= 3)%nat /\ (delivered log <= 1)%nat).
Proof.
  intros Ha Hs. induction 1 as [|clock n a1 log job a2 log' failed Hrun IH Hp Hj Hv].
  { left. cbn. rewrite Ha. repeat split; [done|lia]. }
  destruct IH as [(_ & Hatt & Hlen & Hdel)|([Hx|Hx] & _)]; [|by rewrite Hp in Hx..].
  unfold maxAttempts in *.
  inversion Hv; subst; cbn [a_status a_attempts alert_with];
    rewrite ?app_nil_r, ?delivered_app, ?length_app, ?Hdel; cbn.
  - right. split; [by left|]. lia.
  - right. split; [by right|]. lia.
  - right. split; [by left|]. lia.
  - left. unfold maxAttempts in *. split; [done|]. split; [lia|]. split; [lia|done].
  - right. split; [by right|]. lia.
Qed.

(** ** Properties *)

(** C9. Dispatching one claimed alert, outside a transaction and when no
    action fails: a muted alert leaves the outbox unsent; without a channel it
    fails; a delivery the channel accepts marks it sent, at the instant of the
    statement after the delivery; one the channel refuses for a reason worth
    retrying, with attempts left, puts it back with one more attempt, due the
    backoff delay after the clock reading that follows the refusal; any other
    refusal fails it and writes one alert_failed event.  At most one delivery
    is attempted, to the owner of the monitor, and no other alert changes. *)
Theorem dispatch_spec `{Extern} `{Clock} ch baseURL job a mid w :
  no_faults w -> w_txnow w = None -> job_row job a mid (w_tables w) ->
  exists n f log failed w', run (dispatch ch baseURL job) w = (Ok log, w') /\ (w_step w <= n <= w_step w')%nat /\
    t_alerts (w_tables w') = update_alert_rows (j_ID job) f (t_alerts (w_tables w)) /\
    verdict ch (env_clock (w_env w)) n job a (f a) log failed /\ failure_events mid failed (w_tables w) (w_tables w').
Proof. apply run_dispatch. Qed.

(** The retry budget: along any life of an alert, claim after claim, at
    most three deliveries are attempted and at most one is accepted; an alert
    still pending has made fewer than three attempts, all refused. *)
Lemma retry_budget `{Extern} `{Clock} ch a a' log :
  a_attempts a = 0 -> a_status a = "pending" -> delivery_run ch a a' log ->
  (length log <= 3)%nat /\ (delivered log <= 1)%nat /\
  (a_status a' = "pending" -> a_attempts a' = Z.of_nat (length log) /\ (length log < 3)%nat /\ delivered log = 0%nat) /\
  (a_status a' = "pending" \/ a_status a' = "sent" \/ a_status a' = "failed").
Proof.
  intros Ha Hs Hr. destruct (delivery_run_invariant ch a a' log Ha Hs Hr) as [(Hp & H1 & H2 & H3)|(Hp & H1 & H2)].
  - rewrite Hp. repeat split; try lia. by left.
  - repeat split; try lia; [destruct Hp; congruence..|]. by right.
Qed.

(** The delays the alerter ever waits: a retry happens one minute after the
    first attempt and five minutes after the second, and there is no third;
    the 25 minutes the comments mention are never waited. *)
Lemma backoff_delays `{Extern} `{Clock} ch clock n job a a' log failed :
  0 <= j_Attempts job -> a_status a = "pending" -> verdict ch clock n job a a' log failed -> a_status a' = "pending" ->
  let now := time_Add (clock (S n)) clock_offset in
  j_Attempts job = 0 /\ a_next_attempt_at a' = now + Minute \/
  j_Attempts job = 1 /\ a_next_attempt_at a' = now + 5 * Minute.
Proof.
  intros Hj Ha Hv Hp now. inversion Hv; subst; cbn in Hp; try done. unfold maxAttempts in *.
  assert (j_Attempts job = 0 \/ j_Attempts job = 1) as [E|E] by lia; rewrite E; [left|right]; done.
Qed.

#[local] Existing Instance demo_extern.

Definition demo_event : Event := mkEvent 1 2 "down" "Monitor failed its probe" MetaEmpty demo_t0.
Definition demo_alert : Alert := new_alert 1 2 1 "default" demo_t0 false.

(** The down monitor of the demo with its pending alert. *)
Definition demo_outbox (env : Env) : World :=
  let t := demo_tables [demo_http "down" 2] in
  mkWorld (set_alerts [demo_alert] (set_events [demo_event] t)) (mkSeqs 0 0 1 1) 0 None env.

Definition demo_job : AlertJob :=
  mkAlertJob 1 "2" 1 "ops@example.com" "Site" "site" "down" false "down" false demo_t0 None 0.

Definition busy_channel : Channel := fun _ _ => Some (SendError true "rcpt").

Lemma demo_job_row env : job_row demo_job demo_alert 2 (w_tables (demo_outbox env)).
Proof.
  unfold job_row. split; [by left|]. do 3 (split; [done|]). split; [apply NoDup_singleton|].
  split; [vm_compute; reflexivity|]. vm_compute. by eexists.
Qed.

Lemma dispatch_spec_witness :
  exists n f log failed w',
    run (dispatch (Some busy_channel) "" demo_job) (demo_outbox demo_env) = (Ok log, w') /\
    verdict (Some busy_channel) (env_clock demo_env) n demo_job demo_alert (f demo_alert) log failed /\
    a_status (f demo_alert) = "pending".
Proof.
  destruct (dispatch_spec (Some busy_channel) "" demo_job demo_alert 2 (demo_outbox demo_env))
    as (n & f & log & failed & w' & Hr & _ & Hal & Hv & _).
  - intros n _. reflexivity.
  - reflexivity.
  - apply demo_job_row.
  - exists n, f, log, failed, w'. split; [exact Hr|]. split; [exact Hv|].
    assert (Hst : map a_status (t_alerts (w_tables w')) = ["pending"]).
    { assert (Hw : w' = snd (run (dispatch (Some busy_channel) "" demo_job) (demo_outbox demo_env))) by (by rewrite Hr).
      rewrite Hw. vm_compute. reflexivity. }
    rewrite Hal in Hst. cbn in Hst. by injection Hst.
Defined.

(** The first attempt at action 3 of the demo, refused. *)
Definition refused_once : Alert := alert_with "pending" 1 (demo_t0 + 4 * Second + Minute) None demo_alert.

Lemma refused_once_verdict msg :
  msg_To msg = "ops@example.com"%string ->
  verdict (Some busy_channel) (env_clock demo_env) 3 demo_job demo_alert refused_once
    [mkDelivery 1 msg (Some (SendError true "rcpt"))] false.
Proof.
  intros Hto. replace refused_once with (alert_with (a_status demo_alert) (a_attempts demo_alert + 1)
    (time_Add (time_Add (env_clock demo_env 4) clock_offset) (backoff (j_Attempts demo_job))) (a_sent_at demo_alert) demo_alert)
    by (vm_compute; reflexivity).
  by apply (VRetry (Some busy_channel) (env_clock demo_env) 3 demo_job demo_alert busy_channel msg (SendError true "rcpt")).
Qed.

Lemma retry_budget_witness :
  let msg := mkMessage "ops@example.com" "" "" "" in
  delivery_run (Some busy_channel) demo_alert refused_once [mkDelivery 1 msg (Some (SendError true "rcpt"))] /\
  a_attempts refused_once = 1.
Proof.
  intros msg.
  assert (Hrun : delivery_run (Some busy_channel) demo_alert refused_once [mkDelivery 1 msg (Some (SendError true "rcpt"))]).
  { apply (run_again _ _ (env_clock demo_env) 3 demo_alert [] demo_job refused_once _ false); [constructor|reflexivity..|].
    by apply refused_once_verdict. }
  split; [exact Hrun|].
  destruct (retry_budget (Some busy_channel) demo_alert refused_once _ eq_refl eq_refl Hrun) as (_ & _ & Hp & _).
  destruct (Hp eq_refl) as [Hatt _]. exact Hatt.
Defined.

(** ** Delivery is at least once, not at most once

    The claim leaves the row pending and its lock ends with the claim's
    transaction.  When the statement that marks an accepted alert sent fails,
    the next tick claims and sends the alert again; so do two alerters whose
    claims overlap. *)

Definition accepting_channel : Channel := fun _ _ => None.

Definition two_ticks : Prog (list Delivery) :=
  let! log := alerter_tick (Some accepting_channel) "" (fun _ => false) in
  let! log' := alerter_tick (Some accepting_channel) "" (fun _ => false) in
  ret (log ++ log').

Definition accepted_alerts (r : Res (list Delivery)) : list Z :=
  match r with Ok log => dl_ID <$> List.filter (fun d => negb (bool_decide (is_Some (dl_Error d)))) log | Err _ => [] end.

Example resend_after_lost_mark :
  accepted_alerts (fst (run two_ticks (demo_outbox (faulty_env 10 FBefore)))) = [1; 1].
Proof. vm_compute. reflexivity. Qed.

(** Two alerters that take turns: the same mail twice, with no fault at all. *)
Example two_alerters_two_mails :
  let tick := alerter_tick (Some accepting_channel) "" (fun _ => false) in
  let '(ps, w) := run_schedule [0; 1; 0; 1; 0; 1; 0; 1; 0; 1; 0; 1; 0; 1; 0; 1; 0; 1; 0; 1; 0; 1; 0; 1]%nat [tick; tick]
                    (demo_outbox demo_env) in
  map (fun p => match p with Ret r => accepted_alerts r | Act _ _ => [] end) ps = [[1]; [1]].
Proof. vm_compute. reflexivity. Qed.
