(* ===== verification/Integrity.v ===== *)
(** * Integrity: the constraints of db/migrations as an invariant

    [integrity] is what the schema promises of a database: rows under their
    keys, UNIQUE columns, REFERENCES, CHECK, and ids that the BIGSERIAL
    sequences have handed out, plus one thing no constraint says: an alert and
    its event are about the same monitor.  Here every statement of Queries.v
    is shown to keep it; Lifecycle.v lifts that to the store's operations. *)
From S2P Require Import Prelude GoLib NetAddr Models Extern Store Queries Logic Convert Checkin Scheduler Outbox.
Local Open Scope Z_scope.
Local Open Scope ping_scope.

(** ** Pieces of the invariant *)

(** A UNIQUE column of a keyed table. *)
Definition unique {A B} (f : A -> B) (m : gmap UUID A) : Prop :=
  forall i j x y, m !! i = Some x -> m !! j = Some y -> f x = f y -> i = j.

(** A BIGSERIAL primary key whose sequence stands at [n]. *)
Definition serial {R} (rid : R -> Z) (n : Z) (rows : list R) : Prop :=
  NoDup (rid <$> rows) /\ Forall (fun r => rid r <= n) rows.

(** CHECK (state IN ...) and CHECK (status IN ...): the model's statements
    do not refuse such a row; the programs never write one. *)
Definition state_check (s : string) : bool :=
  String.eqb s "new" || String.eqb s "up" || String.eqb s "late" || String.eqb s "down".
Definition status_check (s : string) : bool :=
  String.eqb s "pending" || String.eqb s "sent" || String.eqb s "failed".

Definition known_user (t : Tables) (u : UUID) : Prop := is_Some (t_users t !! u).
Definition known_monitor (t : Tables) (i : UUID) : Prop := is_Some (t_monitors t !! i).

Definition monitor_ok (t : Tables) (i : UUID) (m : Monitor) : Prop :=
  m_id m = i /\ known_user t (m_user_id m) /\
  (kind_check (m_kind m) && state_check (m_state m) && schedule_kind_check (m_schedule_kind m)
   && method_check (m_method m)) = true.

Definition alert_ok (t : Tables) (a : Alert) : Prop :=
  known_monitor t (a_monitor_id a) /\ status_check (a_status a) = true /\
  exists e, e ∈ t_events t /\ e_id e = a_event_id a /\ e_monitor_id e = a_monitor_id a.

Record integrity (d : DB) : Prop := mkIntegrity {
  in_users : map_Forall (fun i u => u_id u = i) (t_users d.1);
  in_emails : unique u_email (t_users d.1);
  in_keys : map_Forall (fun i k => k_id k = i /\ known_user d.1 (k_user_id k)) (t_api_keys d.1);
  in_key_hashes : unique k_key_hash (t_api_keys d.1);
  in_tokens : map_Forall (fun i r => r_id r = i /\ known_user d.1 (r_user_id r)) (t_refresh_tokens d.1);
  in_token_hashes : unique r_token_hash (t_refresh_tokens d.1);
  in_monitors : map_Forall (monitor_ok d.1) (t_monitors d.1);
  in_slugs : unique m_slug (t_monitors d.1);
  in_checkin_ids : serial c_id (s_checkins d.2) (t_checkins d.1);
  in_checkins : Forall (fun c => known_monitor d.1 (c_monitor_id c) /\ checkin_kind_check (c_kind c) = true)
                  (t_checkins d.1);
  in_probe_ids : serial p_id (s_probe_results d.2) (t_probe_results d.1);
  in_probes : Forall (fun p => known_monitor d.1 (p_monitor_id p)) (t_probe_results d.1);
  in_event_ids : serial e_id (s_events d.2) (t_events d.1);
  in_events : Forall (fun e => known_monitor d.1 (e_monitor_id e)) (t_events d.1);
  in_alert_ids : serial a_id (s_alerts d.2) (t_alerts d.1);
  in_alerts : Forall (alert_ok d.1) (t_alerts d.1);
  in_stats : map_Forall (fun k st => (d_monitor_id st, d_day st) = k /\ known_monitor d.1 k.1) (t_daily_stats d.1)
}.

(** ** Lemmas on the pieces *)

Section unique.
Context {A B : Type} (f : A -> B).

Lemma unique_insert_new (m : gmap UUID A) i x :
  unique f m -> (forall j y, m !! j = Some y -> f y <> f x) -> unique f (<[i := x]> m).
Proof.
  intros Hu Hnew i1 i2 y z. rewrite !lookup_insert_Some. intros [[<- <-]|[_ Hy]] [[<- <-]|[_ Hz]] Heq.
  - done.
  - exfalso. by apply (Hnew _ _ Hz).
  - exfalso. by apply (Hnew _ _ Hy).
  - by eapply Hu.
Qed.

Lemma unique_insert_same (m : gmap UUID A) i x x' :
  unique f m -> m !! i = Some x -> f x' = f x -> unique f (<[i := x']> m).
Proof.
  intros Hu Hi Hx i1 i2 y z. rewrite !lookup_insert_Some. intros [[<- <-]|[? Hy]] [[<- <-]|[? Hz]] Heq.
  - done.
  - eapply Hu; [exact Hi|exact Hz|congruence].
  - eapply Hu; [exact Hy|exact Hi|congruence].
  - by eapply Hu.
Qed.

Lemma unique_sub (m m' : gmap UUID A) : unique f m -> m' ⊆ m -> unique f m'.
Proof. intros Hu Hs i j x y Hx Hy. apply Hu; by eapply lookup_weaken. Qed.

Lemma unique_fmap (m : gmap UUID A) (g : A -> A) : unique f m -> (forall x, f (g x) = f x) -> unique f (g <$> m).
Proof.
  intros Hu Hg i j x y. rewrite !lookup_fmap_Some. intros (x' & <- & Hx) (y' & <- & Hy). rewrite !Hg. by apply Hu.
Qed.
End unique.

Section serial.
Context {R : Type} (rid : R -> Z).

Lemma serial_mono n n' rows : serial rid n rows -> n <= n' -> serial rid n' rows.
Proof. intros [Hnd Hle] Hn. split; [done|]. eapply Forall_impl; [exact Hle|]. cbv beta. lia. Qed.

(** New rows with distinct ids beyond the sequence. *)
Lemma serial_app n n' rows new :
  serial rid n rows -> NoDup (rid <$> new) -> Forall (fun r => n < rid r <= n') new -> n <= n' ->
  serial rid n' (rows ++ new).
Proof.
  intros [Hnd Hle] Hnew Hb Hn. split.
  - rewrite fmap_app. apply NoDup_app. split_and!; [done| |done].
    intros i (x & -> & Hx)%list_elem_of_fmap (y & Heq & Hy)%list_elem_of_fmap.
    rewrite Forall_forall in Hle, Hb. specialize (Hle _ Hx). specialize (Hb _ Hy). lia.
  - apply Forall_app. split; [eapply Forall_impl; [exact Hle|cbv beta; lia]|].
    eapply Forall_impl; [exact Hb|cbv beta; lia].
Qed.

Lemma serial_snoc n rows r : serial rid n rows -> rid r = n + 1 -> serial rid (n + 1) (rows ++ [r]).
Proof.
  intros Hs Hr. eapply serial_app; [done|apply NoDup_singleton| |lia].
  apply Forall_singleton. lia.
Qed.

Lemma serial_filter (f : R -> bool) n rows : serial rid n rows -> serial rid n (List.filter f rows).
Proof.
  intros [Hnd Hle]. split; [by apply NoDup_filter_bool|].
  apply Forall_forall. intros r Hr. apply list_elem_of_In, filter_In in Hr as [Hr _].
  rewrite Forall_forall in Hle. by apply Hle, list_elem_of_In.
Qed.

Lemma serial_same n rows rows' : rid <$> rows' = rid <$> rows -> serial rid n rows -> serial rid n rows'.
Proof.
  intros Hids [Hnd Hle]. split; [by rewrite Hids|]. apply Forall_forall. intros r Hr.
  apply (list_elem_of_fmap_2 rid) in Hr. rewrite Hids in Hr. apply list_elem_of_fmap in Hr as (r0 & -> & Hr0).
  rewrite Forall_forall in Hle. by apply Hle.
Qed.
End serial.

Lemma Forall_filter_bool {R} (P : R -> Prop) (f : R -> bool) l : Forall P l -> Forall P (List.filter f l).
Proof.
  rewrite !Forall_forall. intros HP r [Hr _]%list_elem_of_In%filter_In. by apply HP, list_elem_of_In.
Qed.

Lemma find_none_rows {A} (f : A -> bool) (m : gmap UUID A) i x :
  existsb f (snd <$> map_to_list m) = false -> m !! i = Some x -> f x = false.
Proof.
  intros He Hx. destruct (f x) eqn:Ef; [|done]. rewrite <- He. symmetry. apply existsb_exists. exists x. split; [|done].
  apply list_elem_of_In, list_elem_of_fmap. exists (i, x). split; [done|]. by apply elem_of_map_to_list.
Qed.

(** ** Tables changed one at a time *)

Section changes.
Context (t : Tables) (s : Seqs) (HI : integrity (t, s)).

Lemma integrity_set_monitors ms :
  (forall i, known_monitor t i -> is_Some (ms !! i)) -> map_Forall (monitor_ok t) ms -> unique m_slug ms ->
  integrity (set_monitors ms t, s).
Proof using HI.
  intros Hk Hm Hu. destruct HI as [????????? Hc ? Hp ? He ? Ha Hs]. constructor; try done; cbn in *.
  - eapply Forall_impl; [exact Hc|]. intros c [??]. split; [by apply Hk|done].
  - eapply Forall_impl; [exact Hp|]. intros p ?. by apply Hk.
  - eapply Forall_impl; [exact He|]. intros e ?. by apply Hk.
  - eapply Forall_impl; [exact Ha|]. intros a (?&?&?). split_and!; [by apply Hk|done..].
  - intros k st Hst. destruct (Hs k st Hst). split; [done|by apply Hk].
Qed.

(** An UPDATE of one monitor's row: id, owner, slug stay, the CHECKs hold. *)
Lemma integrity_put_monitor m m' :
  t_monitors t !! m_id m' = Some m -> m_user_id m' = m_user_id m -> m_slug m' = m_slug m ->
  (kind_check (m_kind m') && state_check (m_state m') && schedule_kind_check (m_schedule_kind m')
   && method_check (m_method m')) = true ->
  integrity (put_monitor m' t, s).
Proof using HI.
  intros Hm Huser Hslug Hchk. apply integrity_set_monitors.
  - intros i Hi. rewrite lookup_insert_is_Some'. by right.
  - apply map_Forall_insert_2; [|exact (in_monitors _ HI)]. split_and!; [done| |done].
    destruct (in_monitors _ HI _ _ Hm) as (_ & Hu & _). by rewrite Huser.
  - eapply unique_insert_same; [exact (in_slugs _ HI)|exact Hm|done].
Qed.

Lemma integrity_put_key k k' :
  t_api_keys t !! k_id k' = Some k -> k_user_id k' = k_user_id k -> k_key_hash k' = k_key_hash k ->
  integrity (put_api_key k' t, s).
Proof using HI.
  intros Hk Huser Hh. destruct HI. constructor; try done; cbn in *.
  - apply map_Forall_insert_2; [|done]. split; [done|]. rewrite Huser. by apply (in_keys0 _ _ Hk).
  - by eapply unique_insert_same.
Qed.

Lemma integrity_put_token r r' :
  t_refresh_tokens t !! r_id r' = Some r -> r_user_id r' = r_user_id r -> r_token_hash r' = r_token_hash r ->
  integrity (put_token r' t, s).
Proof using HI.
  intros Hr Huser Hh. destruct HI. constructor; try done; cbn in *.
  - apply map_Forall_insert_2; [|done]. split; [done|]. rewrite Huser. by apply (in_tokens0 _ _ Hr).
  - by eapply unique_insert_same.
Qed.

(** Alerts rewritten in place: ids, monitors and events stay. *)
Lemma integrity_map_alerts (f : Alert -> Alert) :
  (forall a, a_id (f a) = a_id a /\ a_monitor_id (f a) = a_monitor_id a /\ a_event_id (f a) = a_event_id a) ->
  (forall a, status_check (a_status a) = true -> status_check (a_status (f a)) = true) ->
  integrity (set_alerts (f <$> t_alerts t) t, s).
Proof using HI.
  intros Hf Hst. destruct HI. constructor; try done; cbn in *.
  - apply (serial_same a_id) with (rows := t_alerts t); [|done]. rewrite <- list_fmap_compose.
    apply list_fmap_ext. intros i a _. apply Hf.
  - apply Forall_fmap. eapply Forall_impl; [exact in_alerts0|]. intros a (Hm & Hs & He). cbv beta.
    destruct (Hf a) as (_ & Hfm & Hfe). unfold alert_ok. cbn. rewrite Hfm, Hfe. split_and!; [done|by apply Hst|done].
Qed.

Lemma integrity_sub_checkins f : integrity (set_checkins (List.filter f (t_checkins t)) t, s).
Proof using HI. destruct HI. constructor; try done; cbn in *; [by apply serial_filter|by apply Forall_filter_bool]. Qed.

Lemma integrity_sub_probes f : integrity (set_probe_results (List.filter f (t_probe_results t)) t, s).
Proof using HI. destruct HI. constructor; try done; cbn in *; [by apply serial_filter|by apply Forall_filter_bool]. Qed.

(** Events go with the alerts that refer to them. *)
Lemma integrity_sub_events (f : Event -> bool) (g : Alert -> bool) :
  (forall a e, g a = true -> e_id e = a_event_id a -> f e = true) ->
  integrity (set_alerts (List.filter g (t_alerts t)) (set_events (List.filter f (t_events t)) t), s).
Proof using HI.
  intros Hfg. destruct HI. constructor; try done; cbn in *; [by apply serial_filter|by apply Forall_filter_bool|by apply serial_filter|].
  apply Forall_forall. intros a [Ha Hg]%list_elem_of_In%filter_In. apply list_elem_of_In in Ha.
  rewrite Forall_forall in in_alerts0. destruct (in_alerts0 _ Ha) as (Hm & Hs & e & He & Hid & Hmid).
  split_and!; [done..|]. exists e. split_and!; [|done..]. cbn. apply list_elem_of_In, filter_In.
  split; [by apply list_elem_of_In|by eapply Hfg].
Qed.
End changes.

Lemma integrity_gap : gap_tolerant integrity.
Proof.
  intros t s s' [] (Hc & Hp & He & Ha). constructor; try done; cbn in *; by eapply serial_mono.
Qed.

(** ** Statements *)

(** Reads change nothing. *)
Lemma keeps_read {X} (q : Sql X) : reads q -> keeps integrity q.
Proof. apply reads_keeps. Qed.

Lemma keeps_update_monitor id f :
  (forall now m, m_id (f now m) = m_id m /\ m_user_id (f now m) = m_user_id m /\ m_slug (f now m) = m_slug m) ->
  (forall now m, (kind_check (m_kind m) && state_check (m_state m) && schedule_kind_check (m_schedule_kind m)
                  && method_check (m_method m)) = true ->
     (kind_check (m_kind (f now m)) && state_check (m_state (f now m)) && schedule_kind_check (m_schedule_kind (f now m))
      && method_check (m_method (f now m))) = true) ->
  keeps integrity (sql_update_monitor id f).
Proof.
  intros Hf Hc now u [t s] r d' Hd. unfold sql_update_monitor. cbn.
  destruct (t_monitors t !! id) as [m|] eqn:Hm; intros [= <- <-]; [|done].
  destruct (Hf now m) as (Hi & Hu & Hs). destruct (in_monitors _ Hd _ _ Hm) as (Hid & _ & Hchk).
  apply (integrity_put_monitor t s Hd m); [by rewrite Hi, Hid|done..|by apply Hc].
Qed.

Lemma keeps_update_owned id user f :
  (forall now m, m_id (f now m) = m_id m /\ m_user_id (f now m) = m_user_id m /\ m_slug (f now m) = m_slug m) ->
  (forall now m, (kind_check (m_kind m) && state_check (m_state m) && schedule_kind_check (m_schedule_kind m)
                  && method_check (m_method m)) = true ->
     (kind_check (m_kind (f now m)) && state_check (m_state (f now m)) && schedule_kind_check (m_schedule_kind (f now m))
      && method_check (m_method (f now m))) = true) ->
  keeps integrity (sql_update_owned id user f).
Proof.
  intros Hf Hc now u [t s] r d' Hd. unfold sql_update_owned. cbn.
  destruct (t_monitors t !! id) as [m|] eqn:Hm; [|by intros [= <- <-]].
  destruct (N.eqb _ _); intros [= <- <-]; [|done].
  destruct (Hf now m) as (Hi & Hu & Hs). destruct (in_monitors _ Hd _ _ Hm) as (Hid & _ & Hchk).
  apply (integrity_put_monitor t s Hd m); [by rewrite Hi, Hid|done..|by apply Hc].
Qed.

Lemma check_state a b c d st :
  (a && b && c && d) = true -> state_check st = true -> (a && state_check st && c && d) = true.
Proof. intros H ->. by destruct a, b, c, d. Qed.

Lemma keeps_MarkMonitorDown id : keeps integrity (db_MarkMonitorDown id).
Proof.
  intros now u [t s] r d' Hd. unfold db_MarkMonitorDown. cbn.
  destruct (t_monitors t !! id) as [m|] eqn:Hm; [|by intros [= <- <-]].
  destruct (int4_succ _); intros [= <- <-]; [|done]. destruct (in_monitors _ Hd _ _ Hm) as (Hid & _ & Hchk).
  apply (integrity_put_monitor t s Hd m); cbn -[state_check]; [by rewrite Hid|done..|by eapply check_state].
Qed.

Lemma keeps_MarkMonitorLate dl id : keeps integrity (db_MarkMonitorLate dl id).
Proof. apply keeps_update_monitor; [done|]. intros now m Hc. cbn -[state_check]. by eapply check_state. Qed.

Lemma keeps_ResumeMonitor dl id user : keeps integrity (db_ResumeMonitor dl id user).
Proof. apply keeps_update_owned; [done|]. intros now m Hc. cbn -[state_check]. by eapply check_state. Qed.

Lemma keeps_UpdateMonitorOnCheckin a : state_check (uc_state a) = true -> keeps integrity (db_UpdateMonitorOnCheckin a).
Proof. intros Hs. apply keeps_update_monitor; [done|]. intros now m Hc. cbn -[state_check]. by eapply check_state. Qed.

Lemma keeps_UpdateMonitorOnProbe a : state_check (up_state a) = true -> keeps integrity (db_UpdateMonitorOnProbe a).
Proof. intros Hs. apply keeps_update_monitor; [done|]. intros now m Hc. cbn -[state_check]. by eapply check_state. Qed.

Lemma keeps_SetTLSWarnedExpiry e id : keeps integrity (db_SetTLSWarnedExpiry e id).
Proof. by apply keeps_update_monitor. Qed.

Lemma keeps_UpdateMonitor a : keeps integrity (db_UpdateMonitor a).
Proof.
  intros now u [t s] r d' Hd. unfold db_UpdateMonitor, sql_update_owned. cbn [fst snd].
  destruct (t_monitors t !! um_id a) as [m|] eqn:Hm; [|by intros [= <- <-]].
  destruct (N.eqb _ _); cbn [andb]; [|by intros [= <- <-]].
  destruct (negb _) eqn:Ec; intros [= <- <-]; [done|]. apply negb_false_iff, andb_true_iff in Ec as [Hsk Hmc].
  destruct (in_monitors _ Hd _ _ Hm) as (Hid & _ & Hchk).
  apply (integrity_put_monitor t s Hd m); [by cbn; rewrite Hid|done..|]. cbn [updated_monitor m_kind m_state m_schedule_kind m_method].
  rewrite Hsk, Hmc, !andb_true_r. by apply andb_true_iff in Hchk as [[Hks _]%andb_true_iff _].
Qed.

Lemma keeps_CreateMonitor a : keeps integrity (db_CreateMonitor a).
Proof.
  intros now u [t s] r d' Hd. unfold db_CreateMonitor. case_match eqn:Ec; [by intros [= <- <-]|].
  apply negb_false_iff in Ec. case_match eqn:Eu; [by intros [= <- <-]|]. apply orb_false_iff in Eu as [Hid Hslug].
  apply bool_decide_eq_false in Hid. case_match eqn:Ef; intros [= <- <-]; [done|].
  apply negb_false_iff, bool_decide_eq_true in Ef.
  apply integrity_set_monitors; [done|..]; cbn.
  - intros i Hi. rewrite lookup_insert_is_Some'. by right.
  - apply map_Forall_insert_2; [|exact (in_monitors _ Hd)]. split_and!; [done..|]. cbn.
    apply andb_true_iff in Ec as [[-> ->]%andb_true_iff ->]. done.
  - apply unique_insert_new; [exact (in_slugs _ Hd)|]. intros j m Hm. cbn.
    pose proof (find_none_rows _ _ _ _ Hslug Hm) as Hne. by apply String.eqb_neq.
Qed.

Lemma Forall_filter_impl {R} (P Q : R -> Prop) (f : R -> bool) l :
  Forall P l -> (forall x, P x -> f x = true -> Q x) -> Forall Q (List.filter f l).
Proof.
  rewrite !Forall_forall. intros HP HQ r [Hr Hf]%list_elem_of_In%filter_In. apply HQ; [by apply HP, list_elem_of_In|done].
Qed.

(** ON DELETE CASCADE leaves no row behind that refers to the monitor. *)
Lemma integrity_cascade t s id : integrity (t, s) -> integrity (cascade_monitor id t, s).
Proof.
  intros [? ? ? ? ? ? Hm Hslug Hci Hc Hpi Hp Hei He Hai Ha Hst].
  assert (Hk : forall i, known_monitor t i -> negb (N.eqb i id) = true -> known_monitor (cascade_monitor id t) i).
  { intros i Hi Hne%negb_true_iff%N.eqb_neq. unfold known_monitor. cbn. by rewrite lookup_delete_ne. }
  constructor; try done; cbn in *; try by apply serial_filter.
  - eapply map_Forall_delete. exact Hm.
  - eapply unique_sub; [exact Hslug|apply delete_subseteq].
  - eapply Forall_filter_impl; [exact Hc|]. intros c [] Hf. split; [by apply Hk|done].
  - eapply Forall_filter_impl; [exact Hp|]. intros p ? Hf. by apply Hk.
  - eapply Forall_filter_impl; [exact He|]. intros e ? Hf. by apply Hk.
  - eapply Forall_filter_impl; [exact Ha|]. intros a (Hkn & Hs & e & Hin & Hid & Hmid) Hf.
    split_and!; [by apply Hk|done|]. exists e. split_and!; [|done..]. cbn.
    apply list_elem_of_In, filter_In. rewrite Hmid. split; [by apply list_elem_of_In|done].
  - intros k st [Hk1 Hne]%map_lookup_filter_Some. cbn in Hne. destruct (Hst k st Hk1). split; [done|].
    apply Hk; [done|]. by apply negb_true_iff, N.eqb_neq.
Qed.

Lemma keeps_DeleteMonitor id user : keeps integrity (db_DeleteMonitor id user).
Proof.
  intros now u [t s] r d' Hd. unfold db_DeleteMonitor. repeat case_match; intros [= <- <-]; try done.
  by apply integrity_cascade.
Qed.

Ltac seq_step Hd := eapply integrity_gap; [exact Hd|unfold seqs_le; cbn; lia].

Lemma keeps_InsertCheckin a : keeps integrity (db_InsertCheckin a).
Proof.
  intros now u [t s] r d' Hd. unfold db_InsertCheckin.
  destruct (checkin_kind_check (ic_kind a)) eqn:Ec; cbn [negb]; [|intros [= <- <-]; seq_step Hd].
  case_bool_decide as Hm; intros [= <- <-]; [|seq_step Hd]. destruct Hd. constructor; try done; cbn in *.
  - by apply serial_snoc.
  - apply Forall_app. split; [done|]. by apply Forall_singleton.
Qed.

Lemma keeps_InsertProbeResult a : keeps integrity (db_InsertProbeResult a).
Proof.
  intros now u [t s] r d' Hd. unfold db_InsertProbeResult.
  case_bool_decide as Hm; intros [= <- <-]; [|seq_step Hd]. destruct Hd. constructor; try done; cbn in *.
  - by apply serial_snoc.
  - apply Forall_app. split; [done|]. by apply Forall_singleton.
Qed.

Lemma keeps_InsertEvent mid ty msg meta : keeps integrity (db_InsertEvent mid ty msg meta).
Proof.
  intros now u [t s] r d' Hd. unfold db_InsertEvent.
  case_bool_decide as Hm; intros [= <- <-]; [|seq_step Hd]. destruct Hd. constructor; try done; cbn in *.
  - by apply serial_snoc.
  - apply Forall_app. split; [done|]. by apply Forall_singleton.
  - eapply Forall_impl; [exact in_alerts0|]. intros al (?&?&e&?&?&?). split_and!; [done..|].
    exists e. split_and!; [|done..]. cbn. apply elem_of_app. by left.
Qed.

(** The event the insert returned is there for the alert. *)
Definition event_there (mid : UUID) (e : Event) (d : DB) : Prop :=
  integrity d /\ e ∈ t_events d.1 /\ e_monitor_id e = mid.

Lemma InsertEvent_there mid ty msg meta now u d e d' :
  integrity d -> db_InsertEvent mid ty msg meta now u d = (Ok e, d') -> event_there mid e d'.
Proof.
  intros Hd Hq. split; [by eapply keeps_InsertEvent|]. revert Hq. unfold db_InsertEvent. destruct d as [t s].
  case_bool_decide; [|done]. intros [= <- <-]. split; [|done]. cbn. apply elem_of_app. right. by apply list_elem_of_singleton.
Qed.

Lemma InsertAlert_keeps mid e ch now u d r d' :
  event_there mid e d -> db_InsertAlert mid (e_id e) ch now u d = (r, d') -> integrity d'.
Proof.
  intros (Hd & Hin & Hmid) Hq. revert Hq. unfold db_InsertAlert. destruct d as [t s]. cbn in Hin.
  case_match eqn:Ec; intros [= <- <-]; [|seq_step Hd]. apply andb_true_iff in Ec as [Hm%bool_decide_eq_true _].
  destruct Hd. constructor; try done; cbn in *; [by apply serial_snoc|].
  apply Forall_app. split; [done|]. apply Forall_singleton. split_and!; [done..|]. by exists e.
Qed.

Lemma keeps_update_alert id bump f :
  (forall now a, a_id (f now a) = a_id a /\ a_monitor_id (f now a) = a_monitor_id a /\ a_event_id (f now a) = a_event_id a) ->
  (forall now a, status_check (a_status a) = true -> status_check (a_status (f now a)) = true) ->
  keeps integrity (sql_update_alert id bump f).
Proof.
  intros Hf Hs now u [t s] r d' Hd. unfold sql_update_alert. case_match; intros [= <- <-]; [done|].
  apply integrity_map_alerts; [done|..]; intros a; destruct (a_id a =? id); by auto.
Qed.

Lemma keeps_MarkAlertFailed id : keeps integrity (db_MarkAlertFailed id).
Proof. by apply keeps_update_alert. Qed.
Lemma keeps_MarkAlertSent id : keeps integrity (db_MarkAlertSent id).
Proof. by apply keeps_update_alert. Qed.
Lemma keeps_RescheduleAlert id at_ : keeps integrity (db_RescheduleAlert id at_).
Proof. by apply keeps_update_alert. Qed.
Lemma keeps_SuppressAlert id : keeps integrity (db_SuppressAlert id).
Proof. by apply keeps_update_alert. Qed.

Lemma number_alerts_ids now rows : forall next, a_id <$> number_alerts next now rows = (fun k => next + Z.of_nat k) <$> seq 0 (length rows).
Proof.
  induction rows as [|[mid eid] rows IH]; intros next; [done|]. cbn [number_alerts fmap list_fmap length seq].
  rewrite IH, <- seq_shift, <- list_fmap_compose. f_equal; [cbn; lia|]. apply list_fmap_ext. intros i k _. cbn [compose]. lia.
Qed.

Lemma keeps_EnqueueDownReminders now0 : keeps integrity (db_EnqueueDownReminders now0).
Proof.
  intros now u [t s] r d' Hd. unfold db_EnqueueDownReminders. set (due := omap _ _). intros [= <- <-].
  assert (Hkeyed : keyed_monitors t).
  { intros i m Hm. by destruct (in_monitors _ Hd _ _ Hm). }
  pose proof Hd as Hd0. destruct Hd. constructor; try done; cbn in *.
  - apply (serial_app a_id (s_alerts s)); [done| | |lia].
    + rewrite number_alerts_ids. apply NoDup_fmap_2_strong; [|apply NoDup_ListNoDup, seq_NoDup]. intros x y _ _. lia.
    + apply Forall_forall. intros a Ha. apply (list_elem_of_fmap_2 a_id) in Ha. rewrite number_alerts_ids in Ha.
      apply list_elem_of_fmap in Ha as (k & -> & Hk). apply elem_of_seq in Hk. lia.
  - apply Forall_app. split; [done|]. apply Forall_forall. intros a (k & mid & eid & Hk & ->)%number_alerts_elem.
    apply list_elem_of_lookup_2, list_elem_of_omap in Hk as (m & Hm & He).
    destruct (reminder_due t now0 m) as [eid'|] eqn:Er; cbn in He; [|done]. simplify_eq.
    apply reminder_due_spec in Er as (_ & e & [(Hin & Hmid & _) _] & Hid).
    apply elem_of_monitor_rows in Hm; [|done]. split_and!; [by eexists|done|]. by exists e.
Qed.

Lemma keeps_DeleteOldCheckinsBatch cutoff n : keeps integrity (db_DeleteOldCheckinsBatch cutoff n).
Proof.
  intros now u [t s] r d' Hd. unfold db_DeleteOldCheckinsBatch, delete_batch. case_match; intros [= <- <-]; [done|].
  by apply integrity_sub_checkins.
Qed.

Lemma keeps_DeleteOldProbeResultsBatch cutoff n : keeps integrity (db_DeleteOldProbeResultsBatch cutoff n).
Proof.
  intros now u [t s] r d' Hd. unfold db_DeleteOldProbeResultsBatch, delete_batch. case_match; intros [= <- <-]; [done|].
  by apply integrity_sub_probes.
Qed.

Lemma keeps_DeleteOldEventsBatch cutoff n : keeps integrity (db_DeleteOldEventsBatch cutoff n).
Proof.
  intros now u [t s] r d' Hd. unfold db_DeleteOldEventsBatch, delete_batch. case_match; intros [= <- <-]; [done|].
  apply integrity_sub_events; [done|]. intros a e Hg ->. exact Hg.
Qed.

Lemma keeps_CreateUser email hash : keeps integrity (db_CreateUser email hash).
Proof.
  intros now u [t s] r d' Hd. unfold db_CreateUser. case_match eqn:Eu; intros [= <- <-]; [done|].
  apply orb_false_iff in Eu as [Hid He]. apply bool_decide_eq_false in Hid.
  assert (Hk : forall i, known_user t i -> is_Some (<[u := mkUser u email hash now now]> (t_users t) !! i)).
  { intros i Hi. rewrite lookup_insert_is_Some'. by right. }
  destruct Hd. constructor; try done; cbn in *.
  - by apply map_Forall_insert_2.
  - apply unique_insert_new; [done|]. intros j x Hx. cbn.
    pose proof (find_none_rows _ _ _ _ He Hx) as Hne. by apply String.eqb_neq.
  - eapply map_Forall_impl; [exact in_keys0|]. intros i k []. split; [done|by apply Hk].
  - eapply map_Forall_impl; [exact in_tokens0|]. intros i k []. split; [done|by apply Hk].
  - eapply map_Forall_impl; [exact in_monitors0|]. intros i m (?&?&?). split_and!; [done|by apply Hk|done].
Qed.

Lemma keeps_CreateAPIKey user hash label : keeps integrity (db_CreateAPIKey user hash label).
Proof.
  intros now u [t s] r d' Hd. unfold db_CreateAPIKey. case_match eqn:Eu; [by intros [= <- <-]|].
  apply orb_false_iff in Eu as [_ He]. case_bool_decide as Hu; intros [= <- <-]; [|done].
  destruct Hd. constructor; try done; cbn in *.
  - by apply map_Forall_insert_2.
  - apply unique_insert_new; [done|]. intros j x Hx. cbn.
    pose proof (find_none_rows _ _ _ _ He Hx) as Hne. by apply String.eqb_neq.
Qed.

Lemma keeps_RevokeAPIKey id user : keeps integrity (db_RevokeAPIKey id user).
Proof.
  intros now u [t s] r d' Hd. unfold db_RevokeAPIKey. cbn. destruct (t_api_keys t !! id) as [k|] eqn:Hk; [|by intros [= <- <-]].
  case_match; intros [= <- <-]; [|done]. destruct (in_keys _ Hd _ _ Hk) as [Hid _].
  apply (integrity_put_key t s Hd k); [by cbn; rewrite Hid|done..].
Qed.

Lemma keeps_TouchAPIKeyLastUsed id : keeps integrity (db_TouchAPIKeyLastUsed id).
Proof.
  intros now u [t s] r d' Hd. unfold db_TouchAPIKeyLastUsed. cbn.
  destruct (t_api_keys t !! id) as [k|] eqn:Hk; intros [= <- <-]; [|done]. destruct (in_keys _ Hd _ _ Hk) as [Hid _].
  apply (integrity_put_key t s Hd k); [by cbn; rewrite Hid|done..].
Qed.

Lemma keeps_CreateRefreshToken user fam hash exp : keeps integrity (db_CreateRefreshToken user fam hash exp).
Proof.
  intros now u [t s] r d' Hd. unfold db_CreateRefreshToken. case_match eqn:Eu; [by intros [= <- <-]|].
  apply orb_false_iff in Eu as [_ He]. case_bool_decide as Hu; intros [= <- <-]; [|done].
  destruct Hd. constructor; try done; cbn in *.
  - by apply map_Forall_insert_2.
  - apply unique_insert_new; [done|]. intros j x Hx. cbn.
    pose proof (find_none_rows _ _ _ _ He Hx) as Hne. by apply String.eqb_neq.
Qed.

Lemma keeps_DeleteExpiredRefreshTokens : keeps integrity db_DeleteExpiredRefreshTokens.
Proof.
  intros now u [t s] r d' Hd. unfold db_DeleteExpiredRefreshTokens. intros [= <- <-]. destruct Hd.
  constructor; try done; cbn in *; [intros i x [Hx _]%map_lookup_filter_Some; by apply in_tokens0|].
  eapply unique_sub; [done|apply map_filter_subseteq].
Qed.

Lemma revoke_in_family_same now fam r :
  r_id (revoke_in_family now fam r) = r_id r /\ r_user_id (revoke_in_family now fam r) = r_user_id r /\
  r_token_hash (revoke_in_family now fam r) = r_token_hash r.
Proof. unfold revoke_in_family. by case_match. Qed.

Lemma keeps_RevokeRefreshTokenFamily fam : keeps integrity (db_RevokeRefreshTokenFamily fam).
Proof.
  intros now u [t s] r d' Hd. unfold db_RevokeRefreshTokenFamily. intros [= <- <-]. destruct Hd.
  constructor; try done; cbn in *.
  - apply map_Forall_fmap. eapply map_Forall_impl; [exact in_tokens0|]. intros i x Hx. cbv beta in *. cbn.
    by destruct (revoke_in_family_same now fam x) as (-> & -> & _).
  - apply unique_fmap; [done|]. intros x. apply revoke_in_family_same.
Qed.

Lemma keeps_RotateRefreshTokenIfUnrotated id : keeps integrity (db_RotateRefreshTokenIfUnrotated id).
Proof.
  intros now u [t s] r d' Hd. unfold db_RotateRefreshTokenIfUnrotated. cbn.
  destruct (t_refresh_tokens t !! id) as [k|] eqn:Hk; [|by intros [= <- <-]].
  repeat case_match; intros [= <- <-]; try done. destruct (in_tokens _ Hd _ _ Hk) as [Hid _].
  apply (integrity_put_token t s Hd k); [by cbn; rewrite Hid|done..].
Qed.

Lemma keeps_UpsertDailyStat a : keeps integrity (db_UpsertDailyStat a).
Proof.
  intros now u [t s] r d' Hd. unfold db_UpsertDailyStat. case_bool_decide; intros [= <- <-]; [|done].
  destruct Hd. constructor; try done; cbn in *. by apply map_Forall_insert_2.
Qed.

(** ** The statements of the service *)

(** An event type that is written without an alert, and one that says nothing
    of the monitor's being down or not any more. *)
Definition quiet_type (ty : string) : bool := negb (String.eqb ty "up" || String.eqb ty "down").
Definition stateless_type (ty : string) : bool := quiet_type ty && negb (String.eqb ty "resume").

Lemma plain_quiet ty : stateless_type ty = true -> quiet_type ty = true.
Proof. by intros [Hq _]%andb_true_iff. Qed.

(** The statements the service runs, with what the code guarantees of their
    arguments; an alert is only inserted together with its event (see
    [ServiceInvariant]).  Those of [Statement] write a state or a schedule
    the operation around them has worked out, the event of such a change, or
    forget one. *)
Inductive Plain : forall {X}, Sql X -> Prop :=
| stm_reads {X} (q : Sql X) : reads q -> Plain q
| stm_MuteMonitor id user : Plain (db_MuteMonitor id user)
| stm_UnmuteMonitor id user : Plain (db_UnmuteMonitor id user)
| stm_PauseMonitor id user : Plain (db_PauseMonitor id user)
| stm_UpdateMonitor a : Plain (db_UpdateMonitor a)
| stm_DeleteMonitor id user : Plain (db_DeleteMonitor id user)
| stm_SetTLSWarnedExpiry e id : Plain (db_SetTLSWarnedExpiry e id)
| stm_InsertCheckin a : Plain (db_InsertCheckin a)
| stm_InsertProbeResult a : Plain (db_InsertProbeResult a)
| stm_InsertPlainEvent mid ty msg meta : stateless_type ty = true -> Plain (db_InsertEvent mid ty msg meta)
| stm_MarkAlertFailed id : Plain (db_MarkAlertFailed id)
| stm_MarkAlertSent id : Plain (db_MarkAlertSent id)
| stm_RescheduleAlert id at_ : Plain (db_RescheduleAlert id at_)
| stm_SuppressAlert id : Plain (db_SuppressAlert id)
| stm_EnqueueDownReminders now : Plain (db_EnqueueDownReminders now)
| stm_DeleteOldCheckinsBatch cutoff n : Plain (db_DeleteOldCheckinsBatch cutoff n)
| stm_DeleteOldProbeResultsBatch cutoff n : Plain (db_DeleteOldProbeResultsBatch cutoff n)
| stm_CreateUser email hash : Plain (db_CreateUser email hash)
| stm_CreateAPIKey user hash label : Plain (db_CreateAPIKey user hash label)
| stm_RevokeAPIKey id user : Plain (db_RevokeAPIKey id user)
| stm_TouchAPIKeyLastUsed id : Plain (db_TouchAPIKeyLastUsed id)
| stm_CreateRefreshToken user fam hash exp : Plain (db_CreateRefreshToken user fam hash exp)
| stm_RevokeRefreshTokenFamily fam : Plain (db_RevokeRefreshTokenFamily fam)
| stm_RotateRefreshTokenIfUnrotated id : Plain (db_RotateRefreshTokenIfUnrotated id)
| stm_UpsertDailyStat a : Plain (db_UpsertDailyStat a).

Inductive Statement : forall {X}, Sql X -> Prop :=
| stm_plain {X} (q : Sql X) : Plain q -> Statement q
| stm_InsertEvent mid ty msg meta : quiet_type ty = true -> Statement (db_InsertEvent mid ty msg meta)
| stm_DeleteOldEventsBatch cutoff n : Statement (db_DeleteOldEventsBatch cutoff n)
| stm_MarkMonitorDown id : Statement (db_MarkMonitorDown id)
| stm_MarkMonitorLate dl id : Statement (db_MarkMonitorLate (Some dl) id)
| stm_CreateMonitor a : Statement (db_CreateMonitor a)
| stm_ResumeMonitor dl id user : Statement (db_ResumeMonitor dl id user)
| stm_UpdateMonitorOnCheckin a :
    uc_state a = "up"%string \/ uc_state a = "down"%string -> Statement (db_UpdateMonitorOnCheckin a)
| stm_UpdateMonitorOnProbe a :
    state_check (up_state a) = true -> is_Some (up_next_probe_at a) -> Statement (db_UpdateMonitorOnProbe a).

Lemma integrity_statement {X} (q : Sql X) : Statement q -> keeps integrity q.
Proof.
  destruct 1 as [X q Hq| | | | | | |a Ha|]; [destruct Hq|..|apply keeps_UpdateMonitorOnCheckin; by destruct Ha as [-> | ->]|];
    auto using keeps_read, keeps_MarkMonitorDown, keeps_MarkMonitorLate, keeps_ResumeMonitor, keeps_SetTLSWarnedExpiry,
    keeps_UpdateMonitor, keeps_UpdateMonitorOnCheckin, keeps_UpdateMonitorOnProbe, keeps_CreateMonitor, keeps_DeleteMonitor, keeps_InsertCheckin,
    keeps_InsertProbeResult, keeps_InsertEvent, keeps_MarkAlertFailed, keeps_MarkAlertSent, keeps_RescheduleAlert,
    keeps_SuppressAlert, keeps_EnqueueDownReminders, keeps_DeleteOldCheckinsBatch, keeps_DeleteOldProbeResultsBatch,
    keeps_DeleteOldEventsBatch, keeps_CreateUser, keeps_CreateAPIKey, keeps_RevokeAPIKey, keeps_TouchAPIKeyLastUsed,
    keeps_CreateRefreshToken, keeps_RevokeRefreshTokenFamily, keeps_RotateRefreshTokenIfUnrotated, keeps_UpsertDailyStat.
  all: by apply keeps_update_owned.
Qed.

Create HintDb integrity discriminated.
#[export] Hint Constants Opaque : integrity.
#[export] Hint Constructors Plain Statement : integrity.
#[export] Hint Extern 3 (Plain _) => apply stm_reads : integrity.
#[export] Hint Extern 1 (quiet_type _ = true) => reflexivity : integrity.
#[export] Hint Extern 1 (stateless_type _ = true) => reflexivity : integrity.
#[export] Hint Extern 1 (state_check _ = true) => reflexivity : integrity.
#[export] Hint Extern 2 (reads _) =>
  first [apply reads_one | apply reads_page | apply reads_many | apply reads_aggregate] : integrity.
