(* ===== verification/Lifecycle.v ===== *)
(** * Lifecycle: the database stays well-formed under everything the program does

    [ServiceOp] lists what the running system does to its database: the
    requests of the API and the ping endpoint, and the ticks of the four
    workers.  [integrity_preserved] says that no pool of them, interleaved
    action by action, with any of the actions failing or losing its
    acknowledgement, leaves a database that breaks the schema's constraints. *)
From S2P Require Import Prelude GoLib NetAddr Models Extern Store Queries Logic Demo Convert Checkin Scheduler Paging.
From S2P Require Import Monitor Feeds Ownership Session User Rollup Prober ProbeWorker Outbox Alert Alerter Integrity.
Local Open Scope Z_scope.
Local Open Scope ping_scope.

(** ** Sequences move forward *)

Definition advancing {X} (q : Sql X) : Prop := forall now u d r d', q now u d = (r, d') -> seqs_le d.2 d'.2.

Lemma advances_stmt {X} (q : Sql X) : advancing q -> advances (stmt q).
Proof. intros Hq. apply each_stmt; [done|]. intros now u d r d'. apply Hq. Qed.

Ltac solve_advancing :=
  intros now u [t s] r d'; repeat case_match; intros; simplify_eq; cbn in *; unfold seqs_le; cbn; lia.

Lemma advancing_one {X} (f : Tables -> option X) : advancing (sql_one f).
Proof. unfold sql_one. solve_advancing. Qed.
Lemma advancing_page {X} n (f : Tables -> list X) : advancing (sql_page n f).
Proof. unfold sql_page. solve_advancing. Qed.
Lemma advancing_update_monitor id f : advancing (sql_update_monitor id f).
Proof. unfold sql_update_monitor. solve_advancing. Qed.
Lemma advancing_update_owned id user f : advancing (sql_update_owned id user f).
Proof. unfold sql_update_owned. solve_advancing. Qed.
Lemma advancing_update_alert id bump f : advancing (sql_update_alert id bump f).
Proof. unfold sql_update_alert. solve_advancing. Qed.
Lemma advancing_UpdateMonitor a : advancing (db_UpdateMonitor a).
Proof. unfold db_UpdateMonitor, sql_update_owned. solve_advancing. Qed.
Lemma advancing_MarkMonitorDown id : advancing (db_MarkMonitorDown id).
Proof. unfold db_MarkMonitorDown. solve_advancing. Qed.
Lemma advancing_InsertCheckin a : advancing (db_InsertCheckin a).
Proof. unfold db_InsertCheckin. solve_advancing. Qed.
Lemma advancing_InsertProbeResult a : advancing (db_InsertProbeResult a).
Proof. unfold db_InsertProbeResult. solve_advancing. Qed.
Lemma advancing_InsertEvent mid ty msg meta : advancing (db_InsertEvent mid ty msg meta).
Proof. unfold db_InsertEvent. solve_advancing. Qed.
Lemma advancing_InsertAlert mid eid c : advancing (db_InsertAlert mid eid c).
Proof. unfold db_InsertAlert. solve_advancing. Qed.
Lemma advancing_EnqueueDownReminders n : advancing (db_EnqueueDownReminders n).
Proof. unfold db_EnqueueDownReminders. solve_advancing. Qed.

#[export] Hint Resolve advancing_one advancing_page advancing_update_monitor advancing_update_owned
  advancing_update_alert advancing_UpdateMonitor advancing_MarkMonitorDown advancing_InsertCheckin
  advancing_InsertProbeResult advancing_InsertEvent advancing_InsertAlert advancing_EnqueueDownReminders : integrity.

(** The statements that are one of the shapes above. *)
#[export] Hint Extern 2 (advancing _) =>
  first [apply advancing_one | apply advancing_page | apply advancing_update_monitor
        | apply advancing_update_owned | apply advancing_update_alert] : integrity.

Ltac solve_advances :=
  repeat lazymatch goal with
  | |- forall _, _ => intros ?
  | |- advances (bind _ _) => apply each_bind
  | |- advances (wrap _ _) => apply each_wrap
  | |- advances (on_err _ _) => apply each_on_err
  | |- advances (attempt _) => apply each_attempt
  | |- advances (stmt _) => apply advances_stmt; solve [auto with integrity]
  | |- advances (Ret _) => constructor
  | |- advances (throw _) => constructor
  | |- advances time_Now => by apply each_time_Now
  | |- advances (for_range _ _ _) => apply each_for_range
  | |- advances (let _ := _ in _) => cbv zeta
  | |- advances (match ?x with _ => _ end) => destruct x
  | |- advances ?p => unfold_head p
  | |- each_action _ ?p => change (advances p)
  end.

(** ** The operations of the service *)

(** What a request or a worker asks of the store. *)
Inductive ServiceOp :=
| SvcPing (p : RecordCheckinParams)
| SvcSchedulerTick (now : Time) (limit : Z)
| SvcProbe (o : ProbeOutcome)
| SvcAlerterTick (ch : option Channel) (baseURL : string) (cancelled : nat -> bool)
| SvcRollupTick (map_order : list (UUID * stat) -> list (UUID * stat)) (fuel : nat) (cancelled : nat -> bool)
    (retentionDays : Z) (last : option Time)
| SvcMonitor (o : MonitorOp)
| SvcRegister (email password : string) (registrationOpen : bool)
| SvcLogin (email password : string)
| SvcSession (o : SessionOp)
| SvcCreateKey (userID label : string)
| SvcRevokeKey (id callerUserID : string)
| SvcUseKey (plainKey : string).

Section svc_prog.
Context `{Extern}.

Definition svc_prog (o : ServiceOp) : Prog unit :=
  match o with
  | SvcPing p => let! _ := RecordCheckin p in ret tt
  | SvcSchedulerTick now limit => let! _ := EvaluateDueMonitors now limit in ret tt
  | SvcProbe o => let! _ := RecordProbeResult o in ret tt
  | SvcAlerterTick ch baseURL cancelled => let! _ := alerter_tick ch baseURL cancelled in ret tt
  | SvcRollupTick order fuel cancelled days last =>
      let! _ := rollup_tick order fuel cancelled days last in ret tt
  | SvcMonitor o => op_prog o
  | SvcRegister email password open => let! _ := Register email password open in ret tt
  | SvcLogin email password => let! _ := Authenticate email password in ret tt
  | SvcSession o => let! _ := session_prog o in ret tt
  | SvcCreateKey userID label => let! _ := CreateAPIKey userID label in ret tt
  | SvcRevokeKey id caller => RevokeAPIKey id caller
  | SvcUseKey key => let! _ := AuthenticateAPIKey key in ret tt
  end.

(** A probe's prior state is one a claim read from the table. *)
Definition svc_ok (o : ServiceOp) : Prop :=
  match o with
  | SvcProbe o => state_check (po_PriorState o) = true
  | _ => True
  end.
End svc_prog.

(** ** Invariants of the service

    What an invariant has to survive to survive everything the service does.
    Every one of them survives the plain statements ([PlainInvariant]).  The
    operations that change a monitor's state, or prune its timeline, each have
    to keep it where [ok] allows them ([ServiceInvariant]).  They do when it
    survives the writing of any event and the pruning ([TimelineInvariant]) and
    whatever state or schedule they write ([StatementInvariant]). *)

Class PlainInvariant (I : DB -> Prop) : Prop := {
  pi_gap : gap_tolerant I;
  pi_statement : forall {X} (q : Sql X), Plain q -> keeps I q
}.

(** An event and its alert are written as a pair. *)
Class TimelineInvariant (I : DB -> Prop) : Prop := {
  tmi_plain :: PlainInvariant I;
  tmi_event : forall mid ty msg meta, quiet_type ty = true -> keeps I (db_InsertEvent mid ty msg meta);
  tmi_event_alert : forall {A} mid ty msg meta c ch (k : Prog A),
    okay I k (fun _ => I) ->
    okay I (let! e := recordEventMeta mid ty msg meta in let! _ := wrap c (stmt (db_InsertAlert mid (e_id e) ch)) in k)
      (fun _ => I);
  tmi_prune : forall cutoff n, keeps I (db_DeleteOldEventsBatch cutoff n)
}.

Class StatementInvariant (I : DB -> Prop) : Prop := {
  sti_timeline :: TimelineInvariant I;
  sti_statement : forall {X} (q : Sql X), Statement q -> keeps I q
}.

Class ServiceInvariant `{Extern} (ok : ServiceOp -> Prop) (I : DB -> Prop) : Prop := {
  si_plain :: PlainInvariant I;
  si_ping : forall p, safe I (RecordCheckin p);
  si_scheduler : forall now limit, safe I (EvaluateDueMonitors now limit);
  si_probe : forall o, ok (SvcProbe o) -> safe I (RecordProbeResult o);
  si_rollup : forall order fuel cancelled days last,
    ok (SvcRollupTick order fuel cancelled days last) -> safe I (rollup_tick order fuel cancelled days last);
  si_create : forall p, ok (SvcMonitor (OpCreate p)) -> safe I (CreateMonitor p);
  si_resume : forall id caller now, safe I (ResumeMonitor id caller now)
}.

(** The pair of an event and its alert, for an invariant on top of the
    integrity of the database: [P] holds before, [Q] after. *)
Lemma okay_event_alert {A} (P Q : DB -> Prop) mid ty msg meta c ch (k : Prog A) R :
  (forall now u d e d', integrity d -> P d -> db_InsertEvent mid ty msg meta now u d = (Ok e, d') -> Q d') ->
  (forall eid, keeps Q (db_InsertAlert mid eid ch)) ->
  okay (fun d => integrity d /\ Q d) k R ->
  okay (fun d => integrity d /\ P d)
    (let! e := recordEventMeta mid ty msg meta in let! _ := wrap c (stmt (db_InsertAlert mid (e_id e) ch)) in k) R.
Proof.
  intros He Ha Hk. apply okay_bind with (M := fun e d => event_there mid e d /\ Q d).
  - apply okay_wrap, okay_stmt. intros now u d e d' [Hi HP] E. split; [by eapply InsertEvent_there|by eapply He].
  - intros e. apply okay_bind with (M := fun _ d => integrity d /\ Q d); [|intros _; exact Hk].
    apply okay_wrap, okay_stmt. intros now u d r d' [Ht HQ] E. split; [by eapply InsertAlert_keeps|by eapply Ha].
Qed.

#[export] Instance integrity_plain : PlainInvariant integrity.
Proof. constructor; [exact integrity_gap|intros X q Hq; by apply integrity_statement, stm_plain]. Qed.

#[export] Instance integrity_timeline : TimelineInvariant integrity.
Proof.
  constructor; [exact _|intros; by apply integrity_statement, stm_InsertEvent| |intros; apply integrity_statement, stm_DeleteOldEventsBatch].
  intros A mid ty msg meta c ch k Hk. eapply okay_conseq with (P' := fun d => integrity d /\ True) (Q' := fun _ => integrity); [|done..].
  apply (okay_event_alert (fun _ => True) (fun _ => True)); [by intros|by intros ? ? ? ? ? ?|].
  eapply okay_conseq; [exact Hk|by intros d []|done].
Qed.

#[export] Instance integrity_service : StatementInvariant integrity.
Proof. constructor; [exact _|exact @integrity_statement]. Qed.

Section sound.
Context (I : DB -> Prop).

Lemma sound_seq {A B} (p : Prog A) (k : A -> Prog B) :
  okay I p (fun _ => I) -> (forall a, okay I (k a) (fun _ => I)) -> okay I (bind p k) (fun _ => I).
Proof. intros Hp Hk. by eapply okay_bind. Qed.

Lemma sound_stmt {X} (q : Sql X) : keeps I q -> okay I (stmt q) (fun _ => I).
Proof. intros Hq. apply okay_stmt. intros now u d r d' Hd E. by eapply Hq. Qed.

Lemma sound_time_Now : okay I time_Now (fun _ => I).
Proof. intros w a w' Hw [= <- <-]. exact Hw. Qed.
End sound.

Ltac solve_keeps :=
  first [ match goal with HK : _ |- _ => solve [apply HK] end
        | apply pi_statement; solve [auto with integrity]
        | apply tmi_event; reflexivity
        | apply tmi_prune
        | apply sti_statement; solve [auto with integrity] ].

(** [pair] is the invariant's rule for an event written with its alert. *)
Ltac solve_sound_by pair :=
  repeat lazymatch goal with
  | |- forall _, _ => intros ?
  | |- okay _ (recordTransition _ _ _) _ => pair; by apply okay_ret
  | |- okay _ (bind (recordEventMeta _ _ _ _) (fun _ => bind (wrap _ (stmt (db_InsertAlert _ _ _))) _)) _ => pair
  | |- okay _ (bind _ _) _ => apply sound_seq
  | |- okay _ (wrap _ _) _ => apply okay_wrap
  | |- okay _ (on_err _ _) _ => apply okay_on_err
  | |- okay _ (stmt _) _ => apply sound_stmt; solve_keeps
  | |- okay _ (Ret (Err _)) _ => apply okay_err
  | |- okay _ (throw _) _ => apply okay_err
  | |- okay _ (ret _) _ => by apply okay_ret
  | |- okay _ (Ret (Ok _)) _ => by apply okay_ret
  | |- okay _ (lift_res (Ok _)) _ => by apply okay_ret
  | |- okay _ (lift_res (Err _)) _ => apply okay_err
  | |- okay _ (lift_res ?r) _ => destruct r
  | |- okay _ time_Now _ => apply sound_time_Now
  | |- okay _ (for_range _ _ _) _ => apply okay_for_range
  | |- okay _ (let _ := _ in _) _ => cbv zeta
  | |- okay _ (match ?x with _ => _ end) _ => destruct x
  | |- okay _ ?p _ => unfold_head p
  end.

Ltac solve_sound := solve_sound_by ltac:(apply tmi_event_alert).

Ltac solve_safe :=
  repeat safe_step ltac:(solve_keeps) ltac:(apply safe_withTx; [apply pi_gap|solve_advances|solve_sound]).

(** A creation, slug by slug. *)
Lemma safe_creation `{Extern} (I : DB -> Prop) `{!PlainInvariant I} p :
  (forall u slug, keeps I (db_CreateMonitor (create_params u p slug))) -> safe I (CreateMonitor p).
Proof.
  intros Hc. unfold CreateMonitor. destruct (pgUUID (scm_UserID p)) as [u|e]; [|constructor]. cbn [lift_res bind].
  generalize maxSlugRetries. intros n. induction n as [|n IH]; cbn [create_attempts]; [constructor|].
  apply each_bind; [solve_safe|]. intros slug. apply each_bind; [apply each_attempt, safe_stmt, Hc|]. intros [row|err]; [constructor|].
  by destruct (negb _); [constructor|].
Qed.

Section timeline.
Context `{Extern} (I : DB -> Prop) `{!TimelineInvariant I}.

Lemma safe_drain cancelled (q : Sql Z) fuel : keeps I q -> forall total, safe I (drainBatches fuel cancelled (stmt q) total).
Proof.
  intros Hq. induction fuel as [|fuel IH]; intros total; cbn [drainBatches]; [constructor|].
  apply each_bind; [constructor; [done|constructor]|]. intros _. apply each_bind; [by apply safe_stmt|]. intros n.
  case_match; [constructor|apply IH].
Qed.

Lemma timeline_rollup order fuel cancelled days last : safe I (rollup_tick order fuel cancelled days last).
Proof.
  assert (Hr : forall day, safe I (RollupDay order day)) by (intros day; solve_safe).
  assert (Hp : forall cutoff, safe I (PruneOldData fuel cancelled cutoff)).
  { intros cutoff. unfold PruneOldData.
    do 3 (apply each_bind; [apply each_wrap, safe_drain; solve_keeps|intros ?]). constructor. }
  unfold rollup_tick. apply each_bind; [by apply each_time_Now|]. intros now. cbv zeta. apply each_bind.
  - case_match; [constructor|]. apply each_bind; [apply each_attempt, Hr|]. intros r. case_match; constructor.
  - intros l. apply each_bind; [apply each_attempt, Hp|]. constructor.
Qed.
End timeline.

Section statements.
Context `{Extern} (I : DB -> Prop) `{!StatementInvariant I}.

Lemma nextProbeState_valid o : state_check (po_PriorState o) = true -> state_check (nextProbeState o).1 = true.
Proof.
  intros Hs. unfold nextProbeState. repeat case_match; done.
Qed.

Lemma safe_probe o : state_check (po_PriorState o) = true -> safe I (RecordProbeResult o).
Proof.
  intros Hs. pose proof (nextProbeState_valid o Hs) as Hn. unfold RecordProbeResult.
  destruct (nextProbeState o) as [st streak]. cbn [fst] in Hn.
  apply safe_withTx; [apply pi_gap|solve_advances|].
  assert (Hu : forall id, Statement (db_UpdateMonitorOnProbe (mkUpdateMonitorOnProbeParams st streak (Some (po_NextProbeAt o)) id)))
    by (intros id; apply stm_UpdateMonitorOnProbe; [exact Hn|by eexists]).
  solve_sound.
Qed.

Lemma safe_ping p : safe I (RecordCheckin p).
Proof. solve_safe. Qed.

Lemma safe_create p : safe I (CreateMonitor p).
Proof. refine (safe_creation _ p _). intros u slug. apply sti_statement, stm_CreateMonitor. Qed.

#[export] Instance statement_service : ServiceInvariant svc_ok I.
Proof using All.
  constructor; [exact _|apply safe_ping|intros now limit; solve_safe|apply safe_probe|intros order fuel cancelled days last _; exact (timeline_rollup I order fuel cancelled days last)
               |intros p _; apply safe_create|intros id caller now; solve_safe].
Qed.
End statements.

Section lifecycle.
Context `{Extern} {ok : ServiceOp -> Prop} (I : DB -> Prop) `{!ServiceInvariant ok I}.

Lemma safe_scheduler now limit : safe I (EvaluateDueMonitors now limit).
Proof. apply (si_scheduler (ok := ok)). Qed.

Lemma safe_alerter ch baseURL cancelled : safe I (alerter_tick ch baseURL cancelled).
Proof. solve_safe. Qed.

Lemma safe_rollup order fuel cancelled days last :
  ok (SvcRollupTick order fuel cancelled days last) -> safe I (rollup_tick order fuel cancelled days last).
Proof. apply (si_rollup (ok := ok)). Qed.

Lemma safe_monitor_op o : ok (SvcMonitor o) -> safe I (op_prog o).
Proof.
  intros Hok. destruct o as [p|id caller p|id caller|op id caller]; cbn [op_prog]; [..|destruct op; cbn [flag_prog]];
    apply each_bind; try constructor; first [by apply (si_create (ok := ok)) | apply (si_resume (ok := ok)) | solve_safe].
Qed.

Lemma safe_session o : safe I (session_prog o).
Proof. solve_safe. Qed.

Lemma safe_svc o : ok o -> safe I (svc_prog o).
Proof.
  intros Hok. destruct o; cbn [svc_prog] in *; try (by apply safe_monitor_op); try (apply each_bind; [|constructor]).
  all: first [apply (si_ping (ok := ok)) | apply safe_scheduler | by apply (si_probe (ok := ok)) | apply safe_alerter
             | by apply safe_rollup | apply safe_session | solve_safe].
Qed.
(** A pool of operations keeps the invariant. *)
Lemma safe_ops ops : Forall ok ops -> Forall (safe I) (svc_prog <$> ops).
Proof. intros Hops. apply Forall_fmap. eapply Forall_impl; [exact Hops|]. intros o Ho. by apply safe_svc. Qed.
End lifecycle.

(** ** Properties *)

Definition empty_tables : Tables := mkTables ∅ ∅ ∅ [] [] [] [] ∅ ∅.

Lemma integrity_empty s : integrity (empty_tables, s).
Proof.
  assert (Hu : forall {A B} (f : A -> B), unique f (∅ : gmap UUID A)) by (intros A B f i j x y Hx; by rewrite lookup_empty in Hx).
  assert (Hs : forall {R} (rid : R -> Z) n, serial rid n []) by (intros R rid n; split; [apply NoDup_nil_2|by apply Forall_nil_2]).
  constructor; cbn; first [apply Hu | apply Hs | apply map_Forall_empty | by apply Forall_nil_2].
Qed.

(** What the theorems about single operations assume of the tables holds in
    every such state. *)
Lemma integrity_hypotheses t s :
  integrity (t, s) ->
  keyed_monitors t /\ tokens_ok t /\ users_ok t /\ keys_ok t /\ logs_owned t /\ log_ids_distinct t.
Proof.
  intros [Hu He Hk Hkh Htk Hth Hm _ Hci Hc Hpi Hp Hei Hev _ _ _]. cbn in *. split_and!.
  - intros i m Hl. by destruct (Hm _ _ Hl).
  - split; [intros i r Hr; apply (Htk _ _ Hr)|exact Hth].
  - split; [intros i u Hl; apply (Hu _ _ Hl)|exact He].
  - split; [intros i k Hl; apply (Hk _ _ Hl)|exact Hkh].
  - split_and!; [|done..]. eapply Forall_impl; [exact Hc|]. by intros c [].
  - split_and!; [apply Hci|apply Hpi|apply Hei].
Qed.

(** C2. The schema's constraints hold in every state the service can reach:
    start any pings, requests and worker ticks in any database that satisfies
    them (the empty one does), interleave their statements and transactions in
    any way, with any of them failing or losing its acknowledgement.  Then
    every row is still under its key, e-mails, slugs, API keys and tokens are
    unique, every reference has its target (after deletions, prunings and
    half-done work too), every kind, state and status is one the CHECKs allow,
    no log has two rows with one id, and every alert is about the monitor of
    its event. *)
Theorem integrity_preserved `{Extern} (ops : list ServiceOp) (w w' : World) (ps' : list (Prog unit)) :
  Forall svc_ok ops -> integrity (w_tables w, w_seqs w) ->
  rtc pool_step (svc_prog <$> ops, w) (ps', w') ->
  integrity (w_tables w', w_seqs w').
Proof.
  intros Hops HI Hrun. apply (pool_invariant integrity) in Hrun as [_ HI']; [exact HI'| |exact HI].
  exact (safe_ops integrity ops Hops).
Qed.

#[local] Existing Instance demo_extern.

(** A registration, a second one with the same e-mail, a ping for nobody and
    a scheduler tick, interleaved, on the empty database. *)
Lemma integrity_preserved_witness :
  let ops := [SvcRegister "a@example.com" "correct horse battery" true; SvcRegister "A@example.com" "battery staple horse" true;
              SvcPing (mkRecordCheckinParams "nobody" "success" "" "" "" demo_t0); SvcSchedulerTick demo_t0 10] in
  let w := mkWorld empty_tables demo_seqs 0 None demo_env in
  let c := run_schedule [0; 1; 2; 3; 0; 1; 2; 3]%nat (svc_prog <$> ops) w in
  integrity (w_tables (snd c), w_seqs (snd c)) /\ size (t_users (w_tables (snd c))) = 1%nat.
Proof.
  intros ops w c. split; [|vm_compute; reflexivity].
  apply (integrity_preserved ops w (snd c) (fst c)).
  - repeat constructor.
  - apply integrity_empty.
  - unfold c. rewrite <- surjective_pairing. apply run_schedule_rtc.
Defined.
