(* ===== verification/Watch.v ===== *)
(** * Watch: no monitor is forgotten

    A dead man's switch is worth its word only if nothing can take a running
    monitor out of the workers' sight.  [all_rows good] says that every monitor is
    [good]; [RowGood] is what the plain statements do to one.  An http monitor
    always has a time for its next probe, which every statement keeps
    ([probing]).  A heartbeat monitor that is up or late has a deadline
    ([watching]); that is not kept by every statement, but by every operation:
    a ping and a resume write the deadline they have worked out from the row
    their transaction has read. *)
From S2P Require Import Prelude GoLib NetAddr Models Extern Store Queries Logic Demo Schedule Convert Checkin Scheduler Monitor.
From S2P Require Import Feeds Ownership Session User Prober Integrity Lifecycle.
Local Open Scope Z_scope.
Local Open Scope ping_scope.

(** ** Invariants of the rows of monitors *)

Definition good_rows (good : Monitor -> Prop) (d : DB) : Prop := map_Forall (fun _ m => good m) (t_monitors d.1).

Definition all_rows (good : Monitor -> Prop) (d : DB) : Prop := integrity d /\ good_rows good d.

(** What the plain statements do to a row. *)
Class RowGood (good : Monitor -> Prop) : Prop := {
  rg_muted : forall now b m, good m -> good (with_updated_at now (with_alerts_muted b m));
  rg_paused : forall now m, good m -> good (with_updated_at now (with_paused_at (Some now) m));
  rg_updated : forall a now m, good m -> good (updated_monitor a now m);
  rg_warned : forall e m, good m -> good (with_tls_warned_expires_at e m)
}.

Section all_rows.
Context (good : Monitor -> Prop).

Definition row_safe {X} (q : Sql X) : Prop :=
  forall now u d r d', q now u d = (r, d') -> good_rows good d -> good_rows good d'.

Lemma row_safe_same {X} (q : Sql X) :
  (forall now u d r d', q now u d = (r, d') -> t_monitors d'.1 = t_monitors d.1) -> row_safe q.
Proof. intros Hq now u d r d' E. unfold good_rows. by rewrite (Hq _ _ _ _ _ E). Qed.

Lemma good_rows_put t s s' m : good_rows good (t, s) -> good m -> good_rows good (put_monitor m t, s').
Proof. intros Hg Hm. by apply map_Forall_insert_2. Qed.

Lemma good_row d id m : good_rows good d -> t_monitors d.1 !! id = Some m -> good m.
Proof. intros Hg Hm. exact (Hg _ _ Hm). Qed.

Lemma row_safe_update id f : (forall now m, good m -> good (f now m)) -> row_safe (sql_update_monitor id f).
Proof.
  intros Hf now u [t s] r d'. unfold sql_update_monitor. cbn.
  destruct (t_monitors t !! id) as [m|] eqn:Hm; intros [= <- <-]; [|done]. intros Hg.
  apply (good_rows_put t s); [exact Hg|]. by eapply Hf, good_row.
Qed.

Lemma row_safe_owned id user f : (forall now m, good m -> good (f now m)) -> row_safe (sql_update_owned id user f).
Proof.
  intros Hf now u [t s] r d'. unfold sql_update_owned. cbn.
  destruct (t_monitors t !! id) as [m|] eqn:Hm; [|by intros [= <- <-]].
  destruct (N.eqb _ _); intros [= <- <-]; [|done]. intros Hg.
  apply (good_rows_put t s); [exact Hg|]. by eapply Hf, good_row.
Qed.

(** What a new row is, as far as the workers are concerned. *)
Definition fresh (a : CreateMonitorParams) (m : Monitor) : Prop :=
  m_kind m = cm_kind a /\ m_schedule_kind m = cm_schedule_kind a /\ m_state m = "new"%string /\
  (m_kind m = "http"%string -> is_Some (m_next_probe_at m)).

Lemma row_safe_create a : (forall m, fresh a m -> good m) -> row_safe (db_CreateMonitor a).
Proof.
  intros Hf now u [t s] r d'. unfold db_CreateMonitor. set (m := mkMonitor _ _ _ _ _ _ _ _ _ _ _ _ _ _ _ _ _ _ _ _ _ _ _ _ _ _ _ _).
  assert (Hm : fresh a m). { unfold fresh. cbn. split_and!; try done. intros ->. by eexists. }
  repeat case_match; intros [= <- <-]; try done. intros Hg. apply (good_rows_put t s); [exact Hg|by apply Hf].
Qed.

(** The statements on the other tables. *)
Ltac other_table :=
  apply row_safe_same; intros ? ? [? ?] ? ?;
  unfold db_InsertCheckin, db_InsertProbeResult, db_InsertEvent, db_InsertAlert, db_EnqueueDownReminders,
    db_DeleteOldCheckinsBatch, db_DeleteOldProbeResultsBatch, db_DeleteOldEventsBatch, delete_batch, db_CreateUser,
    db_CreateAPIKey, db_RevokeAPIKey, db_TouchAPIKeyLastUsed, db_CreateRefreshToken, db_RevokeRefreshTokenFamily,
    db_RotateRefreshTokenIfUnrotated, db_UpsertDailyStat, db_MarkAlertFailed, db_MarkAlertSent, db_RescheduleAlert,
    db_SuppressAlert, sql_update_alert;
  repeat case_match; intros; by simplify_eq.

(** What the scheduler does to a row. *)
Lemma row_safe_down id :
  (forall now n m, good m -> good (with_updated_at now (with_fail_streak n (with_next_deadline None (with_state "down" m))))) ->
  row_safe (db_MarkMonitorDown id).
Proof.
  intros Hd now u [t s] r d'. unfold db_MarkMonitorDown. cbn.
  destruct (t_monitors t !! id) as [m|] eqn:Hm; [|by intros [= <- <-]].
  destruct (int4_succ _); intros [= <- <-]; [|done]. intros Hg.
  apply (good_rows_put t s); [exact Hg|]. by eapply Hd, good_row.
Qed.

Lemma row_safe_late dl id :
  (forall now m, good m -> good (with_updated_at now (with_next_deadline (Some dl) (with_state "late" m)))) ->
  row_safe (db_MarkMonitorLate (Some dl) id).
Proof. exact (row_safe_update id _). Qed.

Lemma row_safe_InsertEvent mid ty msg meta : row_safe (db_InsertEvent mid ty msg meta).
Proof. other_table. Qed.

Lemma row_safe_InsertAlert mid eid ch : row_safe (db_InsertAlert mid eid ch).
Proof. other_table. Qed.

Lemma row_safe_prune cutoff n : row_safe (db_DeleteOldEventsBatch cutoff n).
Proof. other_table. Qed.

Context `{!RowGood good}.

Lemma row_safe_UpdateMonitor a : row_safe (db_UpdateMonitor a).
Proof.
  intros now u d r d'. unfold db_UpdateMonitor. destruct (t_monitors d.1 !! um_id a); [|by intros [= <- <-]].
  destruct (_ && _); [by intros [= <- <-]|]. by apply row_safe_owned, rg_updated.
Qed.

Lemma row_safe_DeleteMonitor id user : row_safe (db_DeleteMonitor id user).
Proof.
  intros now u [t s] r d'. unfold db_DeleteMonitor. repeat case_match; intros [= <- <-]; try done.
  intros Hg. by apply map_Forall_delete.
Qed.

Lemma row_safe_plain {X} (q : Sql X) : Plain q -> row_safe q.
Proof.
  intros Hq. destruct Hq; first
    [ match goal with Hr : reads _ |- _ => apply row_safe_same; intros now u d r d' E; by rewrite (Hr _ _ _ _ _ E) end
    | apply row_safe_UpdateMonitor | apply row_safe_DeleteMonitor
    | apply row_safe_update; intros now; apply rg_warned
    | apply row_safe_owned; first [intros now; apply rg_muted | intros now; apply rg_paused]
    | other_table ].
Qed.

Lemma keeps_rows {X} (q : Sql X) : Statement q -> row_safe q -> keeps (all_rows good) q.
Proof. intros Hs Hq now u d r d' [Hi Hg] E. split; [by eapply integrity_statement|by eapply Hq]. Qed.

#[export] Instance rows_plain : PlainInvariant (all_rows good).
Proof using All.
  constructor.
  - intros t s s' [Hi Hg] Hs. split; [by eapply integrity_gap|exact Hg].
  - intros X q Hq. apply keeps_rows; [by apply stm_plain|by apply row_safe_plain].
Qed.

#[export] Instance rows_timeline : TimelineInvariant (all_rows good).
Proof using All.
  constructor; [exact _| | |].
  - intros mid ty msg meta Hty. apply keeps_rows; [by apply stm_InsertEvent|apply row_safe_InsertEvent].
  - intros A mid ty msg meta c ch k. apply (okay_event_alert (good_rows good) (good_rows good)).
    + intros now u d e d' _ Hg E. by eapply row_safe_InsertEvent.
    + intros eid now u d r d' Hg E. by eapply row_safe_InsertAlert.
  - intros cutoff n. apply keeps_rows; [apply stm_DeleteOldEventsBatch|apply row_safe_prune].
Qed.
End all_rows.

(** ** The row a transaction reads *)

(** It is still there. *)
Definition read_row (I : DB -> Prop) (m : Monitor) (d : DB) : Prop := I d /\ t_monitors d.1 !! m_id m = Some m.

Lemma found_row (I : DB -> Prop) m d id :
  I d -> integrity d -> t_monitors d.1 !! id = Some m -> read_row I m d /\ m_id m = id.
Proof.
  intros Hd Hi Hm. destruct (in_monitors _ Hi _ _ Hm) as [Hid _]. split; [|exact Hid]. by split; [|rewrite Hid].
Qed.

Lemma okay_lift_res {A} P (x : Res A) : okay P (lift_res x) (fun a d => P d /\ x = Ok a).
Proof. destruct x as [a|e]; [by apply okay_ret|apply okay_err]. Qed.

Section read_row.
Context (I : DB -> Prop) (Hin : forall d, I d -> integrity d).

Lemma okay_GetMonitorBySlugForUpdate slug :
  okay I (stmt (db_GetMonitorBySlugForUpdate slug)) (fun m => read_row I m).
Proof using All.
  apply okay_stmt. intros now u d m d' Hd. unfold db_GetMonitorBySlugForUpdate, sql_one.
  destruct (monitor_by_slug _ _) as [m0|] eqn:E; [|done]. intros [= <- <-]. split; [exact Hd|].
  apply monitor_by_slug_Some in E as [Hm _]; [exact Hm|]. intros j m1 Hm1. by apply (found_row I m1 d j), Hm1; [|apply Hin].
Qed.

Lemma okay_GetMonitorByID id :
  okay I (stmt (db_GetMonitorByID id)) (fun m d => read_row I m d /\ m_id m = id).
Proof using All.
  apply okay_stmt. intros tnow u d m d' Hd. unfold db_GetMonitorByID, sql_one.
  destruct (t_monitors d.1 !! id) as [m0|] eqn:E; [|done]. intros [= <- <-]. apply found_row; [exact Hd|by apply Hin|exact E].
Qed.

End read_row.

Lemma read_row_InsertCheckin I `{!PlainInvariant I} m a :
  okay (read_row I m) (stmt (db_InsertCheckin a)) (fun _ => read_row I m).
Proof.
  apply okay_stmt. intros now u d r d' [Hd Hm] E. split; [eapply pi_statement; [apply stm_InsertCheckin|exact Hd|exact E]|].
  destruct d as [t s]. revert E. unfold db_InsertCheckin. repeat case_match; intros; by simplify_eq.
Qed.

(** A probe of another monitor. *)
Lemma keeps_probe_other i good a :
  state_check (up_state a) = true -> is_Some (up_next_probe_at a) -> up_id a <> i ->
  keeps (all_rows (fun m => m_id m = i -> good m)) (db_UpdateMonitorOnProbe a).
Proof.
  intros Hst Hn Hne now u [t s] r d' [Hi Hg] E. split; [by eapply integrity_statement; [apply stm_UpdateMonitorOnProbe|..]|].
  revert E. unfold db_UpdateMonitorOnProbe, sql_update_monitor. cbn.
  destruct (t_monitors t !! up_id a) as [m|] eqn:Hm; intros [= <- <-]; [|exact Hg].
  apply (good_rows_put _ t s); [exact Hg|]. intros Hid. destruct (in_monitors _ Hi _ _ Hm) as [Hid' _].
  cbn in Hid. congruence.
Qed.

(** ** Probes *)

(** An http monitor has a time for its next probe. *)
Definition probed (m : Monitor) : Prop := m_kind m = "http"%string -> is_Some (m_next_probe_at m).

#[export] Instance probed_good : RowGood probed.
Proof. constructor; intros; assumption. Qed.

Lemma row_safe_probed {X} (q : Sql X) : Statement q -> row_safe probed q.
Proof.
  intros Hq. destruct Hq as [X q Hq|mid ty msg meta Hty|cutoff n|id|dl id|a|dl id user|a Ha|a Ha Hn].
  - by apply row_safe_plain.
  - apply row_safe_InsertEvent.
  - apply row_safe_prune.
  - apply row_safe_down. intros now n m Hm. exact Hm.
  - apply row_safe_late. intros now m Hm. exact Hm.
  - apply row_safe_create. intros m (_ & _ & _ & Hp). exact Hp.
  - apply row_safe_owned. intros now m Hm. exact Hm.
  - apply row_safe_update. intros now m Hm. exact Hm.
  - apply row_safe_update. intros now m _ _. exact Hn.
Qed.

#[export] Instance probing_service : StatementInvariant (all_rows probed).
Proof. constructor; [exact _|]. intros X q Hq. apply keeps_rows; [exact Hq|by apply row_safe_probed]. Qed.

(** ** Deadlines *)

Definition running (m : Monitor) : Prop := m_state m = "up"%string \/ m_state m = "late"%string.

(** A heartbeat monitor the scheduler can see. *)
Definition armed (m : Monitor) : Prop :=
  m_kind m = "heartbeat"%string -> is_Some (m_schedule_kind m) /\ (running m -> is_Some (m_next_deadline m)).

Section watch.
Context `{Extern} (i : UUID).

Definition watched (m : Monitor) : Prop := m_id m = i -> armed m.

Local Abbreviation watching := (all_rows watched).

(** A heartbeat monitor is created with a schedule, which the API's validation
    makes sure of, and [i] is not probed: the prober claims http monitors. *)
Definition watch_ok (o : ServiceOp) : Prop :=
  svc_ok o /\
  match o with
  | SvcProbe o => pgUUID (po_MonitorID o) <> Ok i
  | SvcMonitor (OpCreate p) => scm_Kind p = "heartbeat"%string -> scm_ScheduleKind p <> ""%string
  | _ => True
  end.

#[export] Instance watched_good : RowGood watched.
Proof.
  constructor; unfold watched, armed; intros; cbn in *;
    match goal with Hw : m_id ?m = i -> _, Hi : m_id ?m = i, Hk : m_kind ?m = _ |- _ => destruct (Hw Hi Hk) as [Hs Hd] end;
    split; try assumption.
  by destruct (um_schedule_kind a).
Qed.

Local Abbreviation read_row := (read_row watching).

Lemma watching_row m d id : watching d -> t_monitors d.1 !! id = Some m -> read_row m d /\ m_id m = id.
Proof. intros Hd. by apply found_row; [|apply Hd]. Qed.

(** A monitor written over the one that was read. *)
Lemma read_row_put m f t s s' :
  read_row m (t, s) -> m_id (f m) = m_id m -> (armed m -> armed (f m)) -> good_rows watched (put_monitor (f m) t, s').
Proof.
  intros [Hd Hm] Hid Ha. apply (good_rows_put watched t s); [apply Hd|]. unfold watched. rewrite Hid.
  intros Hi. apply Ha. revert Hi. change (watched m). eapply good_row; [apply Hd|exact Hm].
Qed.

(** The deadline of a heartbeat monitor is one. *)
Lemma nextDeadlineFor_armed m now dl : armed m -> m_kind m = "heartbeat"%string -> nextDeadlineFor m now = Ok dl -> is_Some dl.
Proof.
  intros Ha Hk. destruct (Ha Hk) as [Hs _]. unfold nextDeadlineFor. rewrite Hk, bool_decide_eq_true_2 by done. cbn.
  destruct (NextOccurrence _ _ _); [|done]. intros [= <-]. by eexists.
Qed.

Lemma okay_UpdateMonitorOnCheckin m st at_ dl streak :
  state_check st = true ->
  okay (fun d => read_row m d /\ (armed m -> m_kind m = "heartbeat"%string -> st = "down"%string \/ is_Some dl))
    (stmt (db_UpdateMonitorOnCheckin (mkUpdateMonitorOnCheckinParams st at_ dl streak (m_id m)))) (fun _ => watching).
Proof.
  intros Hst. apply okay_stmt. intros now u [t s] r d' [Hr Hdl] E.
  split; [eapply keeps_UpdateMonitorOnCheckin; [|apply Hr|exact E]; exact Hst|]. revert E.
  unfold db_UpdateMonitorOnCheckin, sql_update_monitor. cbn. pose proof (proj2 Hr) as Hm. cbn in Hm. rewrite Hm.
  intros [= <- <-]. eapply (read_row_put m (fun m => with_updated_at _ _)); [exact Hr|done|]. intros Ha Hk. cbn in *.
  split; [apply (Ha Hk)|]. intros Hrun. destruct (Hdl Ha Hk) as [->|Hs]; [|exact Hs]. by destruct Hrun.
Qed.
Lemma watch_ping p : safe watching (RecordCheckin p).
Proof.
  unfold RecordCheckin. apply safe_withTx; [apply pi_gap|solve_advances|]. apply okay_bind with (M := read_row).
  { apply okay_on_err, okay_GetMonitorBySlugForUpdate. by intros d []. }
  intros m. apply okay_bind with (M := fun _ => read_row m); [apply okay_wrap, read_row_InsertCheckin, _|intros _].
  destruct (String.eqb _ CheckinStart); [apply okay_ret; by intros d []|].
  destruct (String.eqb _ CheckinSuccess); [|destruct (String.eqb _ CheckinFail); [|apply okay_err]].
  - unfold applySuccess. eapply okay_bind; [apply okay_lift_res|]. intros dl. cbn beta.
    apply okay_bind with (M := fun _ => watching);
      [apply okay_wrap; eapply okay_conseq; [by apply okay_UpdateMonitorOnCheckin| |done]|intros _; solve_sound].
    intros d [Hr Hdl]. split; [exact Hr|]. intros Ha Hk. right. by eapply nextDeadlineFor_armed.
  - unfold applyFail. apply okay_bind with (M := fun _ => watching);
      [apply okay_wrap; eapply okay_conseq; [by apply okay_UpdateMonitorOnCheckin| |done]|intros _; solve_sound].
    intros d Hr. split; [exact Hr|]. by left.
Qed.

Lemma okay_ResumeMonitor m dl user :
  okay (fun d => read_row m d /\ (armed m -> m_kind m = "heartbeat"%string -> is_Some dl))
    (stmt (db_ResumeMonitor dl (m_id m) user)) (fun _ => watching).
Proof.
  apply okay_stmt. intros now u [t s] r d' [Hr Hdl] E. split; [eapply keeps_ResumeMonitor; [apply Hr|exact E]|]. revert E.
  unfold db_ResumeMonitor, sql_update_owned. cbn. pose proof (proj2 Hr) as Hm. cbn in Hm. rewrite Hm.
  destruct (N.eqb _ _); [|done]. intros [= <- <-]. eapply (read_row_put m (fun m => with_updated_at _ _)); [exact Hr|done|].
  intros Ha Hk. cbn in *. split; [apply (Ha Hk)|]. intros _. by apply Hdl.
Qed.

Lemma watch_resume id caller now : safe watching (ResumeMonitor id caller now).
Proof.
  unfold ResumeMonitor. apply each_bind; [solve_safe|]. intros ids. apply safe_withTx; [apply pi_gap|solve_advances|].
  apply okay_bind with (M := fun m d => read_row m d /\ m_id m = ids.1).
  { apply okay_on_err, okay_GetMonitorByID. by intros d []. }
  intros m. eapply okay_bind; [apply okay_lift_res|]. intros dl. cbn beta.
  apply okay_bind with (M := fun _ => watching); [|intros row; solve_sound].
  apply okay_on_err. intros w a w' [[Hr <-] Hdl]. eapply okay_ResumeMonitor. split; [exact Hr|].
  intros Ha Hk. by eapply nextDeadlineFor_armed.
Qed.

Lemma watch_probe o :
  state_check (po_PriorState o) = true -> pgUUID (po_MonitorID o) <> Ok i -> safe watching (RecordProbeResult o).
Proof.
  intros Hs Hne. pose proof (nextProbeState_valid o Hs) as Hn. unfold RecordProbeResult.
  destruct (nextProbeState o) as [st streak]. cbn [fst] in Hn. apply safe_withTx; [apply pi_gap|solve_advances|].
  destruct (pgUUID (po_MonitorID o)) as [id|e]; [|apply okay_err]. cbn [lift_res bind].
  assert (Hu : keeps watching (db_UpdateMonitorOnProbe (mkUpdateMonitorOnProbeParams st streak (Some (po_NextProbeAt o)) id)))
    by (apply keeps_probe_other; [exact Hn|by eexists|cbn; congruence]).
  solve_sound.
Qed.

Lemma watch_scheduler now limit : safe watching (EvaluateDueMonitors now limit).
Proof.
  assert (Hlate : forall dl id, keeps watching (db_MarkMonitorLate (Some dl) id)).
  { intros dl id. apply keeps_rows; [apply stm_MarkMonitorLate|]. apply row_safe_late. intros tnow m Hm Hi Hk.
    destruct (Hm Hi Hk) as [Hs _]. split; [exact Hs|]. by eexists. }
  assert (Hdown : forall id, keeps watching (db_MarkMonitorDown id)).
  { intros id. apply keeps_rows; [apply stm_MarkMonitorDown|]. apply row_safe_down. intros tnow n m Hm Hi Hk.
    destruct (Hm Hi Hk) as [Hs _]. split; [exact Hs|]. by intros [|]. }
  solve_safe.
Qed.

Lemma keeps_watching_create a :
  (cm_kind a = "heartbeat"%string -> is_Some (cm_schedule_kind a)) -> keeps watching (db_CreateMonitor a).
Proof.
  intros Ha. apply keeps_rows; [apply stm_CreateMonitor|]. apply row_safe_create. intros m (Hk & Hs & Hst & _) _ Hh.
  split; [rewrite Hs; apply Ha; congruence|]. unfold running. rewrite Hst. by intros [|].
Qed.

Lemma watch_create p :
  (scm_Kind p = "heartbeat"%string -> scm_ScheduleKind p <> ""%string) -> safe watching (CreateMonitor p).
Proof.
  intros Hp. refine (safe_creation _ p _). intros u slug. apply keeps_watching_create. cbn. intros Hk. unfold textOrNull.
  destruct (String.eqb_spec (scm_ScheduleKind p) ""); [by destruct (Hp Hk)|by eexists].
Qed.

#[export] Instance watching_service : ServiceInvariant watch_ok watching.
Proof.
  constructor; [exact _|exact watch_ping|exact watch_scheduler|..|exact watch_resume].
  - intros o [Hs Hne]. by apply watch_probe.
  - intros order fuel cancelled days last _. exact (timeline_rollup watching order fuel cancelled days last).
  - intros p [_ Hp]. by apply watch_create.
Qed.
End watch.

(** ** Property *)

(** C5. No monitor is forgotten.  Run any pings, requests and worker ticks,
    interleaved action by action, any of them failing or losing its
    acknowledgement, from any database in order (the empty one is).  Then every
    http monitor has a time for its next probe, from which on the prober finds
    it due unless it is paused; and every heartbeat monitor that is up or late
    has a schedule and a deadline, past which the scheduler finds it due unless
    it is paused: no update, pause, resume, failed check-in or lost commit
    leaves it running and out of sight.  (For a heartbeat monitor: they are
    created with a schedule, as the API's validation makes sure, and no probe
    result is recorded for it, since only http monitors are claimed.) *)
Theorem never_forgotten `{Extern} i (ops : list ServiceOp) (w w' : World) (ps' : list (Prog unit)) m :
  Forall svc_ok ops -> all_rows probed (w_db w) -> all_rows armed (w_db w) ->
  rtc pool_step (svc_prog <$> ops, w) (ps', w') -> t_monitors (w_tables w') !! i = Some m ->
  (m_kind m = "http"%string -> exists at_, m_next_probe_at m = Some at_ /\
     forall now, at_ < now -> is_probe_due now m = negb (bool_decide (is_Some (m_paused_at m)))) /\
  (m_kind m = "heartbeat"%string -> running m -> Forall (watch_ok i) ops ->
     is_Some (m_schedule_kind m) /\ exists deadline, m_next_deadline m = Some deadline /\
     forall now, deadline < now -> is_due now m = negb (bool_decide (is_Some (m_paused_at m)))).
Proof.
  intros Hops Hp [Hi Ha] Hrun Hm. split; [intros Hk|intros Hk Hr Hwatch].
  - apply (pool_invariant (all_rows probed)) in Hrun as [_ [_ Hg]]; [|exact (safe_ops (all_rows probed) ops Hops)|exact Hp].
    destruct (Hg _ _ Hm Hk) as [at_ Hat]. exists at_. split; [done|]. intros now Hnow. unfold is_probe_due.
    by rewrite Hat, Hk, (proj2 (Z.ltb_lt _ _) Hnow).
  - apply (pool_invariant (all_rows (watched i))) in Hrun as [_ [Hi' Hg]]; [|exact (safe_ops (all_rows (watched i)) ops Hwatch)|].
    + assert (Hid : m_id m = i) by apply (in_monitors _ Hi' _ _ Hm). destruct (Hg _ _ Hm Hid Hk) as [Hs Hd].
      split; [exact Hs|]. destruct (Hd Hr) as [dl Hdl]. exists dl. split; [done|]. intros now Hnow. unfold is_due.
      rewrite Hdl, (proj2 (Z.ltb_lt _ _) Hnow). by destruct Hr as [->| ->].
    + split; [exact Hi|]. intros j m0 Hm0 _. exact (Ha j m0 Hm0).
Qed.

#[local] Existing Instance demo_extern.

(** A registration, a new monitor, a failing ping of it, a pause and a resume. *)
Definition watch_ops : list ServiceOp :=
  [SvcRegister "a@example.com" "correct horse battery" true;
   SvcMonitor (OpCreate (mk_store_CreateMonitorParams "1001" "heartbeat" "Nightly" "period" (Some 900) "" "UTC" (Some 300)
     "" "" None None None None None));
   SvcPing (mkRecordCheckinParams "aibqibiga4eascql" "fail" "" "" "" demo_t0);
   SvcMonitor (OpFlag OpPause "1003" "1001"); SvcMonitor (OpFlag (OpResume demo_t0) "1003" "1001")].

Lemma never_forgotten_witness :
  let w := mkWorld empty_tables demo_seqs 0 None demo_env in
  let c := run_schedule [0; 0; 0; 1; 1; 1; 1; 2; 3; 4]%nat (svc_prog <$> watch_ops) w in
  let m := default (demo_heartbeat "new" None) (t_monitors (w_tables (snd c)) !! 1003%N) in
  m_state m = "up"%string /\ is_Some (m_schedule_kind m) /\
  exists deadline, m_next_deadline m = Some deadline /\
    forall now, deadline < now -> is_due now m = negb (bool_decide (is_Some (m_paused_at m))).
Proof.
  intros w c m. split; [vm_compute; reflexivity|].
  apply (never_forgotten 1003%N watch_ops w (snd c) (fst c) m).
  - repeat constructor.
  - split; [apply integrity_empty|]. intros j m0 Hm0. discriminate Hm0.
  - split; [apply integrity_empty|]. intros j m0 Hm0. discriminate Hm0.
  - unfold c. rewrite <- surjective_pairing. apply run_schedule_rtc.
  - vm_compute. reflexivity.
  - vm_compute. reflexivity.
  - left. vm_compute. reflexivity.
  - repeat constructor; discriminate.
Defined.
