(* ===== verification/SoakAudit.v ===== *)
(** * SoakAudit: the invariants of the soak test (cmd/soakaudit/main.go)

    The audit's three queries and its verdict, and the first of its invariants
    proved of every state the service can reach: an event that reports a
    transition has exactly one alert that is not a reminder.  The other two
    invariants do not hold in every reachable state; the examples at the end
    show what the audit reports then. *)
From S2P Require Import Prelude GoLib Models Extern Store Queries Logic Demo Convert Checkin Scheduler Feeds Prober ProbeWorker.
From S2P Require Import Monitor Ownership Outbox Alert Alerter Integrity Lifecycle.
Local Open Scope Z_scope.
Local Open Scope ping_scope.

(** ** The queries *)

Record runSummary := mkrunSummary {
  rs_Monitors : Z;
  rs_Checkins : Z;
  rs_ProbeResults : Z;
  rs_UpDownEvents : Z;
  rs_Alerts : Z
}.

Definition count {R} (rows : list R) : Z := Z.of_nat (length rows).

Definition up_or_down (e : Event) : bool := String.eqb (e_type e) "up" || String.eqb (e_type e) "down".

Definition fetchSummary : Sql runSummary :=
  fun _ _ db =>
    let t := fst db in
    (Ok (mkrunSummary (count (monitor_rows t)) (count (t_checkins t)) (count (t_probe_results t))
           (count (List.filter up_or_down (t_events t))) (count (t_alerts t))), db).

Section audit.
Context `{Extern}.

Record alertViolation := mkalertViolation {
  av_EventID : Z;
  av_MonitorID : string;
  av_NonReminders : Z;
  av_StillPending : Z;
  av_EventCreatedAt : Time
}.

(** The alerts an event's group counts. *)
Definition answers_event (eid : Z) (a : Alert) : bool := (a_event_id a =? eid) && negb (a_is_reminder a).
Definition alerts_for (t : Tables) (eid : Z) : list Alert := List.filter (answers_event eid) (t_alerts t).

(** One group of the query, and its HAVING clause. *)
Definition alert_group (t : Tables) (e : Event) : alertViolation :=
  let own := alerts_for t (e_id e) in
  mkalertViolation (e_id e) (uuid_string (e_monitor_id e)) (count own)
    (count (List.filter (fun a => String.eqb (a_status a) "pending") own)) (e_created_at e).

Definition is_violation (pendingGrace : Duration) (now : Time) (v : alertViolation) : bool :=
  negb (av_NonReminders v =? 1) || (0 <? av_StillPending v) && (av_EventCreatedAt v <? now - pendingGrace).

Definition checkAlertPerDownEvent (pendingGrace : Duration) : Sql (list alertViolation) :=
  fun now _ db =>
    let t := fst db in
    (Ok (List.filter (is_violation pendingGrace now)
           (map (alert_group t)
              (sort_by (fun a b => e_created_at a <=? e_created_at b)
                 (List.filter (fun e => String.eqb (e_type e) "down") (t_events t))))), db).

Record staleLate := mkstaleLate {
  sl_MonitorID : string;
  sl_Slug : string;
  sl_NextDeadline : Time;
  sl_OverdueBy : Duration
}.

(** A NULL deadline is in no row. *)
Definition stale_late (now : Time) (m : Monitor) : option staleLate :=
  dl ← m_next_deadline m;
  if String.eqb (m_state m) "late" && (dl <? now - 2 * Minute)
  then Some (mkstaleLate (uuid_string (m_id m)) (m_slug m) dl (now - dl)) else None.

Definition checkNoStuckLate : Sql (list staleLate) :=
  fun now _ db =>
    (Ok (sort_by (fun a b => sl_NextDeadline a <=? sl_NextDeadline b) (omap (stale_late now) (monitor_rows (fst db)))), db).

Record duplicateTransition := mkduplicateTransition {
  dt_MonitorID : string;
  dt_EventID : Z;
  dt_Type : string;
  dt_CreatedAt : Time
}.

Definition event_order (a b : Event) : bool :=
  (e_created_at a <? e_created_at b) || (e_created_at a =? e_created_at b) && (e_id a <=? e_id b).

(** [LAG(type)] over the events of the monitor: those [seen], newest first. *)
Fixpoint repeated (seen rows : list Event) : list duplicateTransition :=
  match rows with
  | [] => []
  | e :: rows =>
      match find (fun p => N.eqb (e_monitor_id p) (e_monitor_id e)) seen with
      | Some p => if String.eqb (e_type e) (e_type p)
                  then [mkduplicateTransition (uuid_string (e_monitor_id e)) (e_id e) (e_type e) (e_created_at e)] else []
      | None => []
      end ++ repeated (e :: seen) rows
  end.

Definition checkNoDuplicateTransitions : Sql (list duplicateTransition) :=
  fun _ _ db => (Ok (repeated [] (sort_by event_order (List.filter up_or_down (t_events (fst db))))), db).

Record AuditReport := mkAuditReport {
  ar_Summary : runSummary;
  ar_Alerts : list alertViolation;
  ar_StuckLate : list staleLate;
  ar_Duplicates : list duplicateTransition
}.

(** The verdict is PASS when the three lists are empty; printing is left out. *)
Definition report_ok (r : AuditReport) : bool :=
  match ar_Alerts r, ar_StuckLate r, ar_Duplicates r with [], [], [] => true | _, _, _ => false end.

Definition audit_run (pendingGrace : Duration) : Prog AuditReport :=
  let! summary := wrap "fetchSummary" (stmt fetchSummary) in
  let! missingOrDup := wrap "checkAlertPerDownEvent: query" (stmt (checkAlertPerDownEvent pendingGrace)) in
  let! stuckLate := wrap "checkNoStuckLate: query" (stmt checkNoStuckLate) in
  let! dupTransitions := wrap "checkNoDuplicateTransitions: query" (stmt checkNoDuplicateTransitions) in
  ret (mkAuditReport summary missingOrDup stuckLate dupTransitions).
End audit.

(** ** Every transition is answered once *)

Definition answered_once (t : Tables) (e : Event) : Prop :=
  quiet_type (e_type e) = false -> length (alerts_for t (e_id e)) = 1%nat.

Definition answered (d : DB) : Prop := integrity d /\ Forall (answered_once d.1) (t_events d.1).

(** *** Lists *)

Lemma filter_filter_impl {A} (p keep : A -> bool) l :
  (forall x, In x l -> p x = true -> keep x = true) -> List.filter p (List.filter keep l) = List.filter p l.
Proof.
  induction l as [|x l IH]; intros Hk; [done|]. cbn. specialize (IH (fun y Hy => Hk y (or_intror Hy))).
  destruct (keep x) eqn:Ek; cbn; destruct (p x) eqn:Ep; rewrite ?IH; try done.
  rewrite (Hk x (or_introl eq_refl) Ep) in Ek. discriminate Ek.
Qed.

Lemma length_filter_map {A} (p : A -> bool) (f : A -> A) l :
  (forall x, p (f x) = p x) -> length (List.filter p (f <$> l)) = length (List.filter p l).
Proof. intros Hf. induction l as [|x l IH]; [done|]. cbn. rewrite Hf. destruct (p x); cbn; by rewrite IH. Qed.

Lemma filter_none {A} (p : A -> bool) l : (forall x, x ∈ l -> p x = false) -> List.filter p l = [].
Proof.
  induction l as [|x l IH]; intros Hp; [done|]. cbn. rewrite Hp by by left. apply IH. intros y Hy. apply Hp. by right.
Qed.

(** *** Statements *)

(** The statements that leave the timeline and the outbox alone. *)
Definition outbox_kept {X} (q : Sql X) : Prop :=
  forall now u d r d', q now u d = (r, d') -> t_events d'.1 = t_events d.1 /\ t_alerts d'.1 = t_alerts d.1.

Lemma answered_kept {X} (q : Sql X) : Statement q -> outbox_kept q -> keeps answered q.
Proof.
  intros Hs Hq now u d r d' [Hi Ha] E. split; [by eapply integrity_statement|].
  destruct (Hq _ _ _ _ _ E) as [He Hal]. rewrite He. unfold answered_once, alerts_for in *. by rewrite Hal.
Qed.

Ltac solve_outbox :=
  intros now u [t s] r d';
  unfold db_MarkMonitorDown, db_MarkMonitorLate, db_MuteMonitor, db_UnmuteMonitor, db_PauseMonitor, db_ResumeMonitor,
    db_CreateMonitor, db_UpdateMonitor, db_UpdateMonitorOnCheckin, db_UpdateMonitorOnProbe, db_SetTLSWarnedExpiry,
    db_InsertCheckin, db_InsertProbeResult, db_DeleteOldCheckinsBatch, db_DeleteOldProbeResultsBatch, db_CreateUser,
    db_CreateAPIKey, db_RevokeAPIKey, db_TouchAPIKeyLastUsed, db_CreateRefreshToken, db_RevokeRefreshTokenFamily,
    db_RotateRefreshTokenIfUnrotated, db_UpsertDailyStat, sql_update_monitor, sql_update_owned;
  repeat case_match; intros; by simplify_eq.

Lemma answered_alerts t f :
  (forall a, a_event_id (f a) = a_event_id a /\ a_is_reminder (f a) = a_is_reminder a) ->
  Forall (answered_once t) (t_events t) -> Forall (answered_once (set_alerts (f <$> t_alerts t) t)) (t_events t).
Proof.
  intros Hf Ha. eapply Forall_impl; [exact Ha|]. intros e He Hq. unfold alerts_for in *. cbn.
  rewrite length_filter_map; [by apply He|]. intros a. unfold answers_event. by destruct (Hf a) as [-> ->].
Qed.

Lemma answered_update_alert id bump f :
  (forall now a, a_event_id (f now a) = a_event_id a /\ a_is_reminder (f now a) = a_is_reminder a) ->
  Statement (sql_update_alert id bump f) -> keeps answered (sql_update_alert id bump f).
Proof.
  intros Hf Hs now u d r d' [Hi Ha] E. split; [by eapply integrity_statement|]. destruct d as [t s]. revert E.
  unfold sql_update_alert. case_match; intros [= <- <-]; [done|]. cbn. apply (answered_alerts t); [|exact Ha].
  intros a. by case_match.
Qed.

Lemma answered_reminders now0 : keeps answered (db_EnqueueDownReminders now0).
Proof.
  intros now u d r d' [Hi Ha] E. split; [by eapply integrity_statement; [apply stm_plain, stm_EnqueueDownReminders|..]|].
  destruct d as [t s]. revert E. unfold db_EnqueueDownReminders. set (due := omap _ _). intros [= <- <-]. cbn in *.
  eapply Forall_impl; [exact Ha|]. intros e He Hq. unfold alerts_for in *. cbn. rewrite List.filter_app, (filter_none _ (number_alerts _ _ _)).
  - rewrite app_nil_r. by apply He.
  - intros a (k & mid & eid & _ & ->)%number_alerts_elem. unfold answers_event. cbn. by rewrite andb_false_r.
Qed.

Lemma answered_DeleteOldEvents cutoff n : keeps answered (db_DeleteOldEventsBatch cutoff n).
Proof.
  intros now u d r d' [Hi Ha] E. split; [by eapply integrity_statement; [apply stm_DeleteOldEventsBatch|..]|].
  destruct d as [t s]. revert E. unfold db_DeleteOldEventsBatch, delete_batch. case_match; [by intros [= <- <-]|].
  intros [= <- <-]. cbn in *. apply Forall_forall. intros e [Hin Hkeep]%list_elem_of_In%filter_In Hq.
  apply list_elem_of_In in Hin. rewrite Forall_forall in Ha. unfold alerts_for. cbn.
  rewrite filter_filter_impl; [by apply Ha|]. intros a _ [->%Z.eqb_eq _]%andb_true_iff. exact Hkeep.
Qed.

(** The alerts of an event are about its monitor. *)
Lemma alert_of_event d e a :
  integrity d -> e ∈ t_events d.1 -> a ∈ t_alerts d.1 -> a_event_id a = e_id e -> a_monitor_id a = e_monitor_id e.
Proof.
  intros Hi He Ha Heq. pose proof (in_alerts _ Hi) as Hal. rewrite Forall_forall in Hal.
  destruct (Hal _ Ha) as (_ & _ & e' & He' & Hid & Hmid). destruct (in_event_ids _ Hi) as [Hnd _].
  apply list_elem_of_lookup in He as [i Hi1], He' as [j Hj1].
  assert (i = j) as <-.
  { eapply NoDup_lookup; [exact Hnd| |]; rewrite list_lookup_fmap; [by rewrite Hi1|rewrite Hj1; cbn; by rewrite Hid, Heq]. }
  congruence.
Qed.

Lemma answered_DeleteMonitor id user : keeps answered (db_DeleteMonitor id user).
Proof.
  intros now u d r d' [Hi Ha] E. split; [by eapply integrity_statement; [apply stm_plain, stm_DeleteMonitor|..]|].
  revert E. unfold db_DeleteMonitor. repeat case_match; intros [= <- <-]; try done. cbn in *.
  apply Forall_forall. intros e [Hin Hkeep]%list_elem_of_In%filter_In Hq. apply list_elem_of_In in Hin.
  rewrite Forall_forall in Ha. unfold alerts_for. cbn. rewrite filter_filter_impl; [by apply Ha|].
  intros a Hal [Heq%Z.eqb_eq _]%andb_true_iff. apply list_elem_of_In in Hal. by rewrite (alert_of_event d e a).
Qed.

Lemma answered_InsertEvent mid ty msg meta : quiet_type ty = true -> keeps answered (db_InsertEvent mid ty msg meta).
Proof.
  intros Hty now u d r d' [Hi Ha] E. split; [by eapply keeps_InsertEvent|]. revert E. unfold db_InsertEvent.
  destruct d as [t s]. case_bool_decide; intros [= <- <-]; [|done]. cbn in *. apply Forall_app. split; [done|].
  apply Forall_singleton. intros Hq. cbn in Hq. congruence.
Qed.

(** *** An event with its alert *)

(** The event just inserted, which no alert is about yet. *)
Definition unanswered (mid : UUID) (e : Event) (d : DB) : Prop :=
  event_there mid e d /\ alerts_for d.1 (e_id e) = [] /\
  Forall (fun e' => e_id e' = e_id e \/ answered_once d.1 e') (t_events d.1).

Lemma no_alert_yet t s : integrity (t, s) -> alerts_for t (s_events s + 1) = [].
Proof.
  intros Hi. apply filter_none. intros a Ha. unfold answers_event. apply andb_false_iff. left. apply Z.eqb_neq.
  pose proof (in_alerts _ Hi) as Hal. rewrite Forall_forall in Hal. destruct (Hal _ Ha) as (_ & _ & e & He & Hid & _).
  destruct (in_event_ids _ Hi) as [_ Hle]. rewrite Forall_forall in Hle. specialize (Hle _ He). cbn in *. lia.
Qed.

Lemma InsertEvent_unanswered mid ty msg meta now u d e d' :
  answered d -> db_InsertEvent mid ty msg meta now u d = (Ok e, d') -> unanswered mid e d'.
Proof.
  intros [Hi Ha] E. split; [by eapply InsertEvent_there|]. revert E. unfold db_InsertEvent. destruct d as [t s].
  case_bool_decide; [|done]. intros [= <- <-]. cbn in *. split; [by apply no_alert_yet|].
  apply Forall_app. split; [|apply Forall_singleton; by left]. eapply Forall_impl; [exact Ha|]. intros e' He'. right. exact He'.
Qed.

Lemma InsertAlert_answered mid e ch now u d a d' :
  unanswered mid e d -> db_InsertAlert mid (e_id e) ch now u d = (Ok a, d') -> answered d'.
Proof.
  intros (Ht & Hnone & Ha) E. split; [by eapply InsertAlert_keeps|]. revert E. unfold db_InsertAlert.
  destruct d as [t s]. case_match; [|done]. intros [= <- <-]. cbn in *. eapply Forall_impl; [exact Ha|].
  intros e' He' Hq. unfold alerts_for in *. cbn. rewrite List.filter_app, length_app. unfold answers_event at 2. cbn.
  destruct (Z.eqb_spec (e_id e) (e_id e')) as [Heq|Hne].
  - by rewrite <- Heq, Hnone.
  - destruct He' as [|He']; [congruence|]. cbn. rewrite Nat.add_0_r. by apply He'.
Qed.

Lemma answered_statement {X} (q : Sql X) : Statement q -> keeps answered q.
Proof.
  intros Hq. pose proof Hq as Hst. destruct Hq as [X q Hq| | | | | | | |]; [destruct Hq|..]; first
    [ by apply reads_keeps
    | by apply answered_update_alert; [by intros now a|exact Hst]
    | by apply answered_InsertEvent; first [done | apply plain_quiet]
    | by apply answered_reminders
    | by apply answered_DeleteOldEvents
    | by apply answered_DeleteMonitor
    | apply answered_kept; [exact Hst|solve_outbox] ].
Qed.

#[export] Instance answered_plain : PlainInvariant answered.
Proof.
  constructor.
  - intros t s s' [Hi Ha] Hs. split; [by eapply integrity_gap|exact Ha].
  - intros X q Hq. by apply answered_statement, stm_plain.
Qed.

#[export] Instance answered_timeline : TimelineInvariant answered.
Proof.
  constructor; [exact _|intros; by apply answered_InsertEvent| |intros; apply answered_DeleteOldEvents].
  intros A mid ty msg meta c ch k Hk. apply okay_bind with (M := unanswered mid).
  - apply okay_wrap, okay_stmt. intros now u d r d' Hd E. by eapply InsertEvent_unanswered.
  - intros e. apply okay_bind with (M := fun _ => answered); [|done].
    apply okay_wrap, okay_stmt. intros now u d r d' He E. by eapply InsertAlert_answered.
Qed.

#[export] Instance answered_service : StatementInvariant answered.
Proof. constructor; [exact _|exact @answered_statement]. Qed.

(** What is left of the first check in such a state: alerts the alerter has
    not got round to in time. *)
Lemma check_of_answered `{Extern} grace d now u rows d' :
  answered d -> checkAlertPerDownEvent grace now u d = (Ok rows, d') ->
  Forall (fun v => av_NonReminders v = 1 /\ av_StillPending v = 1 /\ av_EventCreatedAt v < now - grace) rows.
Proof.
  intros [_ Ha] [= <- _]. apply Forall_forall. intros v [Hv Hvio]%list_elem_of_In%filter_In.
  apply in_map_iff in Hv as (e & <- & [He Hdown%String.eqb_eq]%list_elem_of_In%elem_of_sort_by%list_elem_of_In%filter_In).
  rewrite Forall_forall in Ha. specialize (Ha e ltac:(by apply list_elem_of_In)).
  assert (Hone : length (alerts_for d.1 (e_id e)) = 1%nat) by (apply Ha; unfold quiet_type; by rewrite Hdown).
  revert Hvio. unfold is_violation, alert_group. cbn [av_NonReminders av_StillPending av_EventCreatedAt]. unfold count.
  rewrite Hone. cbn [Z.of_nat Pos.of_succ_nat Z.eqb negb orb].
  intros [Hp%Z.ltb_lt Ht%Z.ltb_lt]%andb_true_iff. split; [done|]. split; [|done].
  pose proof (filter_length_le (fun a => String.eqb (a_status a) "pending") (alerts_for d.1 (e_id e))). lia.
Qed.

(** ** Property *)

(** C3. One alert per transition: in every state the service can reach from
    one where it holds (the empty database is one), under any interleaving and
    any faults, each up and each down event has exactly one alert that is not a
    reminder, whatever deletions and prunings there were; so the soak audit's
    first check can only report alerts that are still pending after the
    grace. *)
Theorem one_alert_per_down `{Extern} (ops : list ServiceOp) (w w' : World) (ps' : list (Prog unit)) grace :
  Forall svc_ok ops -> answered (w_db w) -> rtc pool_step (svc_prog <$> ops, w) (ps', w') ->
  answered (w_db w') /\
  forall now u rows d, checkAlertPerDownEvent grace now u (w_db w') = (Ok rows, d) ->
    Forall (fun v => av_NonReminders v = 1 /\ av_StillPending v = 1 /\ av_EventCreatedAt v < now - grace) rows.
Proof.
  intros Hops HI Hrun. apply (pool_invariant answered) in Hrun as [_ HI'].
  - split; [exact HI'|]. intros now u rows d. by apply check_of_answered.
  - exact (safe_ops answered ops Hops).
  - exact HI.
Qed.

(** ** At concrete inputs *)

#[local] Existing Instance demo_extern.

Lemma answered_empty s : answered (empty_tables, s).
Proof. split; [apply integrity_empty|by apply Forall_nil_2]. Qed.

(** A registration, a new monitor, two failing pings of it and the alerter. *)
Definition audit_ops : list ServiceOp :=
  let ping := SvcPing (mkRecordCheckinParams "aibqibiga4eascql" "fail" "" "" "" demo_t0) in
  [SvcRegister "a@example.com" "correct horse battery" true;
   SvcMonitor (OpCreate (mk_store_CreateMonitorParams "1001" "heartbeat" "Nightly" "period" (Some 900) "" "UTC" (Some 300)
     "" "" None None None None None));
   ping; ping; SvcAlerterTick (Some accepting_channel) "" (fun _ => false)].

Lemma one_alert_per_down_witness :
  let w := mkWorld empty_tables demo_seqs 0 None demo_env in
  let c := run_schedule [0; 0; 0; 1; 1; 1; 1; 2; 4; 3; 4; 4; 4; 4; 4]%nat (svc_prog <$> audit_ops) w in
  answered (w_db (snd c)) /\ (e_type <$> t_events (w_tables (snd c))) = ["down"]%string /\
  (a_event_id <$> t_alerts (w_tables (snd c))) = [1].
Proof.
  intros w c. split; [|vm_compute; split; reflexivity].
  apply (one_alert_per_down audit_ops w (snd c) (fst c) 0).
  - repeat constructor.
  - apply answered_empty.
  - unfold c. rewrite <- surjective_pairing. apply run_schedule_rtc.
Defined.

Definition audit_of (w : World) : option AuditReport :=
  match fst (run (audit_run (5 * Minute)) w) with Ok r => Some r | Err _ => None end.

(** A resume during an outage leaves two downs in a row: the audit fails. *)
Example audit_reports_resume :
  let w := demo_world demo_env [demo_heartbeat "up" None] in
  let fail := RecordCheckin (mkRecordCheckinParams "backup" CheckinFail "" "" "" demo_t0) in
  let p := let! _ := fail in let! _ := ResumeMonitor "1" "10" demo_t0 in fail in
  (fun r => (dt_Type <$> ar_Duplicates r, report_ok r)) <$> audit_of (snd (run p w)) = Some (["down"]%string, false).
Proof. vm_compute. reflexivity. Qed.

(** A monitor paused while late keeps its deadline: the scheduler leaves it
    alone and the audit counts it as stuck. *)
Example audit_reports_paused_late :
  let w := demo_world demo_env [demo_heartbeat "late" (Some (demo_t0 - Hour))] in
  let p := let! _ := PauseMonitor "1" "10" in EvaluateDueMonitors (demo_t0 + Minute) 10 in
  let '(r, w') := run p w in
  (match r with Ok e => er_Claimed e | Err _ => -1 end) = 0 /\
  (fun r => (sl_Slug <$> ar_StuckLate r, report_ok r)) <$> audit_of w' = Some (["backup"]%string, false).
Proof. vm_compute. split; reflexivity. Qed.

(** After an ordinary outage and recovery it passes. *)
Example audit_passes :
  let w := demo_world demo_env [demo_heartbeat "up" None] in
  let ping kind := RecordCheckin (mkRecordCheckinParams "backup" kind "" "" "" demo_t0) in
  let p := let! _ := ping CheckinFail in ping CheckinSuccess in
  (fun r => (rs_UpDownEvents (ar_Summary r), rs_Alerts (ar_Summary r), report_ok r)) <$> audit_of (snd (run p w)) = Some (2, 2, true).
Proof. vm_compute. reflexivity. Qed.
