(* ===== verification/Timeline.v ===== *)
(** * Timeline: what a monitor's timeline says is what it is

    The dashboard shows a monitor's state, its timeline the events that led to
    it, and the owner is told by the alerts of those events; they are written by
    separate statements, of requests and workers that interleave.  [truth] ties
    them together: a monitor is down exactly when the last of its status events
    (up, down and resume) is a down.  Between the statement that changes the
    state and the one that writes the event it does not hold ([turned]); every
    operation restores it before it commits. *)
From S2P Require Import Prelude GoLib Models Extern Store Queries Logic Demo Schedule Convert Checkin Scheduler Monitor.
From S2P Require Import Feeds Ownership Session User Prober Alert Alerter Integrity Lifecycle Watch SoakAudit.
Local Open Scope Z_scope.
Local Open Scope ping_scope.

Definition is_down (m : Monitor) : bool := String.eqb (m_state m) "down".

Section timeline.
Context `{Extern} (i : UUID).

Definition status_event (e : Event) : bool := N.eqb (e_monitor_id e) i && negb (stateless_type (e_type e)).

Definition last_status (es : list Event) : option Event := last (List.filter status_event es).

Definition says_down (es : list Event) : bool :=
  match last_status es with Some e => String.eqb (e_type e) "down" | None => false end.

(** The state of [i] is down, or is not. *)
Definition states (b : bool) (m : Monitor) : Prop := m_id m = i -> is_down m = b.

Definition settled (d : DB) : Prop := good_rows (states (says_down (t_events d.1))) d.

Definition truth (d : DB) : Prop := integrity d /\ settled d.

(** Anything but a probe of [i], whose prior state may be out of date, and the
    pruning of old events. *)
Definition truth_ok (o : ServiceOp) : Prop :=
  svc_ok o /\
  match o with
  | SvcProbe o => pgUUID (po_MonitorID o) <> Ok i
  | SvcRollupTick _ _ _ _ _ => False
  | _ => True
  end.

(** ** The timeline *)

Lemma last_status_snoc es e : last_status (es ++ [e]) = if status_event e then Some e else last_status es.
Proof.
  unfold last_status. rewrite List.filter_app. cbn. destruct (status_event e); [by rewrite last_snoc|by rewrite app_nil_r].
Qed.

Lemma says_down_snoc es e :
  says_down (es ++ [e]) = if status_event e then String.eqb (e_type e) "down" else says_down es.
Proof. unfold says_down. rewrite last_status_snoc. by destruct (status_event e). Qed.

Lemma last_status_elem es e : last_status es = Some e -> e ∈ es.
Proof.
  intros Hl%last_Some_elem_of. apply list_elem_of_In, filter_In in Hl as [Hl _]. by apply list_elem_of_In.
Qed.

Lemma says_down_none es : Forall (fun e => e_monitor_id e <> i) es -> says_down es = false.
Proof.
  intros Hes. unfold says_down, last_status. rewrite filter_none; [done|]. intros e He. rewrite Forall_forall in Hes.
  unfold status_event. by rewrite (proj2 (N.eqb_neq _ _) (Hes _ He)).
Qed.

Lemma InsertEvent_events mid ty msg meta now u d r d' :
  db_InsertEvent mid ty msg meta now u d = (r, d') ->
  t_monitors d'.1 = t_monitors d.1 /\
  (t_events d'.1 = t_events d.1 \/
   exists e, t_events d'.1 = t_events d.1 ++ [e] /\ e_monitor_id e = mid /\ e_type e = ty).
Proof.
  destruct d as [t s]. unfold db_InsertEvent. case_bool_decide; intros [= <- <-]; cbn; (split; [done|]); [right|by left].
  by eexists.
Qed.

Lemma says_down_InsertEvent mid ty msg meta now u d r d' :
  mid <> i \/ stateless_type ty = true -> db_InsertEvent mid ty msg meta now u d = (r, d') ->
  says_down (t_events d'.1) = says_down (t_events d.1).
Proof.
  intros Hmid E. apply InsertEvent_events in E as [_ [->|(e & -> & Hid & Hty)]]; [done|]. rewrite says_down_snoc.
  unfold status_event. rewrite Hid, Hty. destruct Hmid as [Hne|Hp].
  - by rewrite (proj2 (N.eqb_neq _ _) Hne).
  - by rewrite Hp, andb_false_r.
Qed.

(** ** What the plain statements do *)

#[export] Instance states_good b : RowGood (states b).
Proof. constructor; intros; assumption. Qed.

(** The statements that leave what the timeline says of [i], or delete [i]. *)
Definition timeline_kept {X} (q : Sql X) : Prop :=
  forall now u d r d', q now u d = (r, d') ->
  t_monitors d'.1 !! i = None \/ says_down (t_events d'.1) = says_down (t_events d.1).

Lemma timeline_kept_outbox {X} (q : Sql X) : outbox_kept q -> timeline_kept q.
Proof. intros Hq now u d r d' E. right. by destruct (Hq _ _ _ _ _ E) as [-> _]. Qed.

Lemma timeline_kept_alert id bump f : timeline_kept (sql_update_alert id bump f).
Proof. intros now u [t s] r d'. unfold sql_update_alert. case_match; intros [= <- <-]; by right. Qed.

Lemma timeline_kept_reminders now0 : timeline_kept (db_EnqueueDownReminders now0).
Proof. intros now u [t s] r d' [= <- <-]. by right. Qed.

Lemma timeline_kept_DeleteMonitor id user : timeline_kept (db_DeleteMonitor id user).
Proof.
  intros now u [t s] r d'. unfold db_DeleteMonitor. repeat case_match; intros [= <- <-]; [|by right..]. cbn.
  destruct (N.eqb_spec id i) as [->|Hne]; [left; apply lookup_delete_eq|right].
  unfold says_down, last_status. rewrite filter_filter_impl; [done|]. intros e _ [->%N.eqb_eq _]%andb_true_iff.
  by apply negb_true_iff, N.eqb_neq, not_eq_sym.
Qed.

Lemma timeline_kept_plain {X} (q : Sql X) : Plain q -> timeline_kept q.
Proof.
  intros Hq. destruct Hq; first
    [ match goal with Hr : reads _ |- _ => intros now u d r d' E; right; by rewrite (Hr _ _ _ _ _ E) end
    | intros now u d r d' E; right; by eapply says_down_InsertEvent; [right|exact E]
    | apply timeline_kept_alert | apply timeline_kept_reminders | apply timeline_kept_DeleteMonitor
    | apply timeline_kept_outbox; solve_outbox ].
Qed.

Lemma settled_kept {X} (q : Sql X) now u d r d' :
  (forall b, row_safe (states b) q) -> timeline_kept q -> integrity d' ->
  settled d -> q now u d = (r, d') -> settled d'.
Proof.
  intros Hr Ht Hi Hs E. pose proof (Hr _ _ _ _ _ _ E Hs) as Hs'. unfold settled.
  destruct (Ht _ _ _ _ _ E) as [Hnone| ->]; [|exact Hs']. intros j m Hm Hid.
  destruct (in_monitors _ Hi _ _ Hm) as [Hj _]. congruence.
Qed.

Lemma keeps_truth {X} (q : Sql X) : Statement q -> (forall b, row_safe (states b) q) -> timeline_kept q -> keeps truth q.
Proof.
  intros Hst Hr Ht now u d r d' [Hi Hs] E. assert (Hi' : integrity d') by (by eapply integrity_statement).
  split; [exact Hi'|by eapply settled_kept].
Qed.

#[export] Instance truth_plain : PlainInvariant truth.
Proof.
  constructor.
  - intros t s s' [Hi Hs] Hle. split; [by eapply integrity_gap|exact Hs].
  - intros X q Hq. apply keeps_truth; [by apply stm_plain|intros b; by apply row_safe_plain|by apply timeline_kept_plain].
Qed.

(** An event of another monitor, or of no state, and its alert. *)
Lemma settled_InsertEvent mid ty msg meta now u d r d' :
  mid <> i \/ stateless_type ty = true -> settled d -> db_InsertEvent mid ty msg meta now u d = (r, d') -> settled d'.
Proof.
  intros Hmid Hs E. unfold settled. rewrite (says_down_InsertEvent _ _ _ _ _ _ _ _ _ Hmid E). by eapply row_safe_InsertEvent.
Qed.

Lemma InsertAlert_same mid eid ch now u d r d' :
  db_InsertAlert mid eid ch now u d = (r, d') -> t_monitors d'.1 = t_monitors d.1 /\ t_events d'.1 = t_events d.1.
Proof. destruct d as [t s]. unfold db_InsertAlert. case_match; by intros [= <- <-]. Qed.

Lemma truth_event_alert {A} mid ty msg meta c ch (k : Prog A) :
  mid <> i \/ stateless_type ty = true -> okay truth k (fun _ => truth) ->
  okay truth (let! e := recordEventMeta mid ty msg meta in let! _ := wrap c (stmt (db_InsertAlert mid (e_id e) ch)) in k)
    (fun _ => truth).
Proof.
  intros Hmid. apply (okay_event_alert settled settled).
  - intros now u d e d' _ Hs E. by eapply settled_InsertEvent.
  - intros eid now u d r d' Hs [Hm He]%InsertAlert_same. unfold settled, good_rows. by rewrite Hm, He.
Qed.

(** ** A change of state and its event *)

(** [rows] were read, and are still to be dealt with. *)
Definition claimed (rows : list Monitor) (d : DB) : Prop :=
  settled d /\ Forall (fun m => t_monitors d.1 !! m_id m = Some m) rows.

(** The row that was read as [m] is in state [st] now; the timeline is as it
    was. *)
Definition turned (m : Monitor) (st : string) (rows : list Monitor) (d : DB) : Prop :=
  good_rows (states (if N.eqb (m_id m) i then String.eqb st "down" else says_down (t_events d.1))) d /\
  (m_id m = i -> says_down (t_events d.1) = is_down m) /\
  Forall (fun m => t_monitors d.1 !! m_id m = Some m) rows.

Lemma claimed_row m rows d : integrity d -> claimed (m :: rows) d -> m_id m = i -> says_down (t_events d.1) = is_down m.
Proof. intros Hi [Hs [Hm _]%Forall_cons] Hid. symmetry. by apply (good_row _ _ _ _ Hs Hm). Qed.

Lemma turn m m' st rows t s s' :
  integrity (t, s) -> claimed (m :: rows) (t, s) -> m_id m ∉ m_id <$> rows -> m_id m' = m_id m -> m_state m' = st ->
  turned m st rows (put_monitor m' t, s').
Proof.
  intros Hi Hc Hnin Hid <-. pose proof (claimed_row _ _ _ Hi Hc) as Hsays. destruct Hc as [Hs [Hm Hrows]%Forall_cons].
  split_and!; [|exact Hsays|].
  - intros j x Hx Hx_i. cbn in Hx. rewrite Hid in Hx. apply lookup_insert_Some in Hx as [[Hj Hx]|[Hne Hx]].
    + subst x. by rewrite <- Hid, Hx_i, N.eqb_refl.
    + destruct (in_monitors _ Hi _ _ Hx) as [Hj _]. rewrite (proj2 (N.eqb_neq _ _)) by congruence. by apply (Hs _ _ Hx).
  - apply Forall_forall. intros x Hx. rewrite Forall_forall in Hrows. cbn. rewrite Hid, lookup_insert_ne; [by apply Hrows|].
    intros Heq. apply Hnin. rewrite Heq. by apply list_elem_of_fmap_2.
Qed.

(** No event is due. *)
Lemma turned_claimed m st rows d :
  is_down m = String.eqb st "down" -> turned m st rows d -> claimed rows d.
Proof.
  intros Hst (Hg & Hsays & Hrows). split; [|exact Hrows]. intros j x Hx Hid. specialize (Hg _ _ Hx Hid).
  rewrite Hg. destruct (N.eqb_spec (m_id m) i) as [Heq|_]; [|done]. by rewrite (Hsays Heq).
Qed.

(** The event that is due. *)
Lemma turned_InsertEvent m st rows ty msg meta now u d e d' :
  stateless_type ty = false -> String.eqb ty "down" = String.eqb st "down" -> turned m st rows d ->
  db_InsertEvent (m_id m) ty msg meta now u d = (Ok e, d') -> claimed rows d'.
Proof.
  intros Hp Hty (Hg & _ & Hrows) E. destruct d as [t s]. revert E. unfold db_InsertEvent.
  case_bool_decide; [|done]. intros [= <- <-]. split; [|exact Hrows]. unfold settled. cbn.
  rewrite says_down_snoc. unfold status_event. cbn. rewrite Hp, andb_true_r.
  intros j x Hx Hid. specialize (Hg _ _ Hx Hid). by destruct (N.eqb (m_id m) i); rewrite Hg.
Qed.

Lemma claimed_InsertEvent rows mid ty msg meta now u d r d' :
  stateless_type ty = true -> claimed rows d -> db_InsertEvent mid ty msg meta now u d = (r, d') -> claimed rows d'.
Proof.
  intros Hp [Hs Hrows] E. split; [by eapply settled_InsertEvent; [right|..]|].
  by apply InsertEvent_events in E as [-> _].
Qed.

Lemma claimed_InsertAlert rows mid eid ch : keeps (claimed rows) (db_InsertAlert mid eid ch).
Proof.
  intros now u d r d' [Hs Hrows] [Hm He]%InsertAlert_same. unfold claimed, settled, good_rows. by rewrite Hm, He.
Qed.

Lemma okay_transition m st rows ty msg :
  stateless_type ty = false -> String.eqb ty "down" = String.eqb st "down" ->
  okay (fun d => integrity d /\ turned m st rows d) (recordTransition (m_id m) ty msg)
    (fun _ d => integrity d /\ claimed rows d).
Proof.
  intros Hp Hty. apply (okay_event_alert (turned m st rows) (claimed rows)).
  - intros now u d e d' _ Ht E. by eapply turned_InsertEvent.
  - intros eid. apply claimed_InsertAlert.
  - by apply okay_ret.
Qed.

Lemma truth_claimed d : truth d <-> integrity d /\ claimed [] d.
Proof. unfold truth, claimed. rewrite Forall_nil. tauto. Qed.

Lemma read_claimed m d : read_row truth m d -> integrity d /\ claimed [m] d.
Proof. intros [[Hi Hs] Hm]. split; [exact Hi|]. split; [exact Hs|]. by apply Forall_singleton. Qed.

(** ** The operations *)

Lemma okay_turned_ret {A} m st (x : A) :
  is_down m = String.eqb st "down" -> okay (fun d => integrity d /\ turned m st [] d) (ret x) (fun _ => truth).
Proof.
  intros Hst. apply okay_ret. intros d [Hi Ht]. apply truth_claimed. split; [exact Hi|by eapply turned_claimed].
Qed.

Lemma okay_turned_event {A} m st ty msg (x : A) :
  stateless_type ty = false -> String.eqb ty "down" = String.eqb st "down" ->
  okay (fun d => integrity d /\ turned m st [] d) (let! _ := recordTransition (m_id m) ty msg in ret x) (fun _ => truth).
Proof.
  intros Hp Hty. eapply okay_bind; [by apply okay_transition|]. intros ?. cbn beta. apply okay_ret. intros d Hd. by apply truth_claimed.
Qed.

Lemma okay_turn_checkin m a :
  uc_state a = "up"%string \/ uc_state a = "down"%string -> uc_id a = m_id m ->
  okay (read_row truth m) (stmt (db_UpdateMonitorOnCheckin a)) (fun _ d => integrity d /\ turned m (uc_state a) [] d).
Proof.
  intros Hst Hid. apply okay_stmt. intros now u [t s] r d' Hd E. pose proof (read_claimed _ _ Hd) as [Hi Hc].
  split; [by eapply integrity_statement; [apply stm_UpdateMonitorOnCheckin|..]|]. revert E.
  unfold db_UpdateMonitorOnCheckin, sql_update_monitor. cbn. rewrite Hid. pose proof (proj2 Hd) as Hm. cbn in Hm. rewrite Hm.
  intros [= <- <-]. eapply turn; [exact Hi|exact Hc|apply not_elem_of_nil|done..].
Qed.

Lemma truth_ping p : safe truth (RecordCheckin p).
Proof.
  unfold RecordCheckin. apply safe_withTx; [apply pi_gap|solve_advances|]. apply okay_bind with (M := read_row truth).
  { apply okay_on_err, okay_GetMonitorBySlugForUpdate. by intros d []. }
  intros m. apply okay_bind with (M := fun _ => read_row truth m); [apply okay_wrap, read_row_InsertCheckin, _|intros _].
  destruct (String.eqb _ CheckinStart); [apply okay_ret; by intros d []|].
  destruct (String.eqb _ CheckinSuccess); [|destruct (String.eqb _ CheckinFail); [|apply okay_err]].
  - unfold applySuccess. eapply okay_bind; [apply okay_lift_res|]. intros dl. cbn beta. eapply okay_bind.
    { apply okay_wrap. eapply okay_conseq; [apply (okay_turn_checkin m); [by left|done]|by intros d []|done]. }
    intros ?. cbn beta. change (String.eqb (m_state m) "down") with (is_down m). destruct (is_down m) eqn:Ed.
    + by apply okay_turned_event.
    + by apply okay_turned_ret.
  - unfold applyFail. eapply okay_bind; [apply okay_wrap, (okay_turn_checkin m); [by right|done]|].
    intros ?. cbn beta. change (String.eqb (m_state m) "down") with (is_down m). destruct (is_down m) eqn:Ed; cbn [negb].
    + by apply okay_turned_ret.
    + by apply okay_turned_event.
Qed.

Lemma okay_turn_resume m dl user :
  okay (read_row truth m) (stmt (db_ResumeMonitor dl (m_id m) user))
    (fun row d => m_id row = m_id m /\ integrity d /\ turned m "up" [] d).
Proof.
  apply okay_stmt. intros now u [t s] r d' Hd E. pose proof (read_claimed _ _ Hd) as [Hi Hc].
  assert (Hi' : integrity d') by (eapply integrity_statement; [apply stm_ResumeMonitor|exact Hi|exact E]). revert E Hi'.
  unfold db_ResumeMonitor, sql_update_owned. cbn. pose proof (proj2 Hd) as Hm. cbn in Hm. rewrite Hm.
  destruct (N.eqb _ _); [|done]. intros [= <- <-] Hi'. split; [done|]. split; [exact Hi'|].
  eapply turn; [exact Hi|exact Hc|apply not_elem_of_nil|done..].
Qed.

Lemma truth_resume id caller now : safe truth (ResumeMonitor id caller now).
Proof.
  unfold ResumeMonitor. apply each_bind; [solve_safe|]. intros ids. apply safe_withTx; [apply pi_gap|solve_advances|].
  apply okay_bind with (M := fun m d => read_row truth m d /\ m_id m = ids.1).
  { apply okay_on_err, okay_GetMonitorByID. by intros d []. }
  intros m. eapply okay_bind; [apply okay_lift_res|]. intros dl. cbn beta.
  apply okay_bind with (M := fun row d => m_id row = m_id m /\ integrity d /\ turned m "up" [] d).
  { apply okay_on_err. intros w a w' [[Hr <-] _]. exact (okay_turn_resume m dl ids.2 w a w' Hr). }
  intros row. apply okay_bind with (M := fun _ => truth); [|intros e; by apply okay_ret].
  apply okay_wrap, okay_stmt. intros tnow u d e d' (-> & Hi & Ht) E.
  apply truth_claimed. split; [by eapply InsertEvent_there|].
  by eapply turned_InsertEvent; [| |exact Ht|exact E].
Qed.

(** *** The scheduler *)

Lemma claimed_tail m rows d : claimed (m :: rows) d -> claimed rows d.
Proof. by intros [Hs [_ Hr]%Forall_cons]. Qed.

Lemma okay_turn_late m rows dl :
  m_id m ∉ m_id <$> rows ->
  okay (fun d => integrity d /\ claimed (m :: rows) d) (stmt (db_MarkMonitorLate (Some dl) (m_id m)))
    (fun _ d => integrity d /\ turned m "late" rows d).
Proof.
  intros Hnin. apply okay_stmt. intros now u [t s] r d' [Hi Hc] E.
  split; [by eapply integrity_statement; [apply stm_MarkMonitorLate|..]|]. revert E.
  unfold db_MarkMonitorLate, sql_update_monitor. cbn. pose proof (proj2 Hc) as [Hm _]%Forall_cons. cbn in Hm. rewrite Hm.
  intros [= <- <-]. eapply turn; [exact Hi|exact Hc|exact Hnin|done..].
Qed.

Lemma okay_turn_down m rows :
  m_id m ∉ m_id <$> rows ->
  okay (fun d => integrity d /\ claimed (m :: rows) d) (stmt (db_MarkMonitorDown (m_id m)))
    (fun _ d => integrity d /\ turned m "down" rows d).
Proof.
  intros Hnin. apply okay_stmt. intros now u [t s] r d' [Hi Hc] E.
  split; [by eapply integrity_statement; [apply stm_MarkMonitorDown|..]|]. revert E.
  unfold db_MarkMonitorDown. cbn. pose proof (proj2 Hc) as [Hm _]%Forall_cons. cbn in Hm. rewrite Hm.
  destruct (int4_succ _); [|done]. intros [= <- <-]. eapply turn; [exact Hi|exact Hc|exact Hnin|done..].
Qed.

Lemma okay_evaluateOne acc m rows :
  m_id m ∉ m_id <$> rows ->
  okay (fun d => integrity d /\ claimed (m :: rows) d) (evaluateOne acc m) (fun _ d => integrity d /\ claimed rows d).
Proof.
  intros Hnin. assert (Hskip : forall x : EvalResult,
    okay (fun d => integrity d /\ claimed (m :: rows) d) (ret x) (fun _ d => integrity d /\ claimed rows d)).
  { intros x. apply okay_ret. intros d [Hi Hc]. split; [exact Hi|by eapply claimed_tail]. }
  unfold evaluateOne. destruct (m_next_deadline m) as [dl|]; [|apply Hskip].
  destruct (String.eqb_spec (m_state m) "up") as [Hup|_]; [|destruct (String.eqb _ "late"); [|apply Hskip]].
  - cbv zeta. eapply okay_bind; [by apply okay_wrap, okay_turn_late|]. intros ?. cbn beta.
    apply okay_bind with (M := fun _ d => integrity d /\ claimed rows d); [|intros e; by apply okay_ret].
    apply okay_wrap, okay_stmt. intros now u d e d' [Hi Ht] E. split; [by eapply InsertEvent_there|].
    eapply claimed_InsertEvent; [| |exact E]; [done|]. eapply turned_claimed; [|exact Ht]. unfold is_down. by rewrite Hup.
  - eapply okay_bind; [by apply okay_wrap, okay_turn_down|]. intros ?. cbn beta.
    eapply okay_bind; [by apply okay_transition|]. intros ?. by apply okay_ret.
Qed.

Lemma okay_evaluate_all rows : forall acc,
  NoDup (m_id <$> rows) ->
  okay (fun d => integrity d /\ claimed rows d) (for_range evaluateOne acc rows) (fun _ => truth).
Proof.
  induction rows as [|m rows IH]; intros acc Hnd; cbn [for_range].
  - apply okay_ret. intros d Hd. by apply truth_claimed.
  - apply NoDup_cons in Hnd as [Hnin Hnd]. eapply okay_bind; [by apply okay_evaluateOne|]. intros acc'. by apply IH.
Qed.

Lemma okay_ClaimDueMonitors now limit :
  okay truth (stmt (db_ClaimDueMonitors now limit))
    (fun rows d => NoDup (m_id <$> rows) /\ integrity d /\ claimed rows d).
Proof.
  apply okay_stmt. intros tnow u d rows d' [Hi Hs]. unfold db_ClaimDueMonitors, sql_page.
  destruct (limit <? 0); [done|]. fold (claimed_monitors now limit d.1). intros [= <- <-].
  assert (Hk : keyed_monitors d.1) by (intros j m Hm; by destruct (in_monitors _ Hi _ _ Hm)).
  split; [by apply claimed_NoDup|]. split; [exact Hi|]. split; [exact Hs|].
  apply Forall_forall. intros m [Hm _]%elem_of_claimed. by apply elem_of_monitor_rows.
Qed.

Lemma truth_scheduler now limit : safe truth (EvaluateDueMonitors now limit).
Proof.
  unfold EvaluateDueMonitors. apply safe_withTx; [apply pi_gap|solve_advances|].
  eapply okay_bind; [apply okay_wrap, okay_ClaimDueMonitors|]. intros rows w a w' [Hnd Hd].
  by apply (okay_evaluate_all rows _ Hnd).
Qed.

(** *** Probes of other monitors and new monitors *)

Lemma outbox_kept_probe a : outbox_kept (db_UpdateMonitorOnProbe a).
Proof. solve_outbox. Qed.

Lemma keeps_truth_probe a :
  state_check (up_state a) = true -> is_Some (up_next_probe_at a) -> up_id a <> i -> keeps truth (db_UpdateMonitorOnProbe a).
Proof.
  intros Hst Hn Hid now u d r d' Ht E.
  destruct (keeps_probe_other i (fun m => is_down m = says_down (t_events d.1)) a Hst Hn Hid now u d r d' Ht E) as [Hi' Hg].
  split; [exact Hi'|]. unfold settled. enough (t_events d'.1 = t_events d.1) as -> by exact Hg.
  apply (outbox_kept_probe a _ _ _ _ _ E).
Qed.

Lemma truth_probe o :
  state_check (po_PriorState o) = true -> pgUUID (po_MonitorID o) <> Ok i -> safe truth (RecordProbeResult o).
Proof.
  intros Hs Hne. pose proof (nextProbeState_valid o Hs) as Hn. unfold RecordProbeResult.
  destruct (nextProbeState o) as [st streak]. cbn [fst] in Hn. apply safe_withTx; [apply pi_gap|solve_advances|].
  destruct (pgUUID (po_MonitorID o)) as [id|e]; [|apply okay_err]. cbn [lift_res bind].
  assert (Hid : id <> i) by congruence.
  assert (Hu : keeps truth (db_UpdateMonitorOnProbe (mkUpdateMonitorOnProbeParams st streak (Some (po_NextProbeAt o)) id)))
    by (by apply keeps_truth_probe).
  solve_sound_by ltac:(apply truth_event_alert; [by first [by left|by right]|]).
Qed.

(** A new row is up to no one yet: the events of the database are of others. *)
Lemma keeps_truth_create a : keeps truth (db_CreateMonitor a).
Proof.
  intros now u d r d' [Hi Hs] E. assert (Hi' : integrity d') by (by eapply integrity_statement; [apply stm_CreateMonitor|..]).
  split; [exact Hi'|]. destruct d as [t s]. revert E. unfold db_CreateMonitor. set (m := mkMonitor _ _ _ _ _ _ _ _ _ _ _ _ _ _ _ _ _ _ _ _ _ _ _ _ _ _ _ _).
  destruct (negb _); [by intros [= <- <-]|]. destruct (bool_decide _ || _) eqn:Eu; [by intros [= <- <-]|].
  destruct (negb _); intros [= <- <-]; [done|]. apply orb_false_iff in Eu as [Hu%bool_decide_eq_false _].
  apply (good_rows_put _ t s); [exact Hs|]. cbn. intros Hid. cbn in Hid. subst u. rewrite says_down_none; [done|].
  eapply Forall_impl; [exact (in_events _ Hi)|]. intros e [x He] Heq. cbn in He. apply Hu. rewrite <- Heq. by exists x.
Qed.

Lemma truth_create p : safe truth (CreateMonitor p).
Proof. refine (safe_creation _ p _). intros u slug. apply keeps_truth_create. Qed.

#[export] Instance truth_service : ServiceInvariant truth_ok truth.
Proof.
  constructor; [exact _|exact truth_ping|exact truth_scheduler| | |intros p _; apply truth_create|exact truth_resume].
  - intros o [Hs Hne]. by apply truth_probe.
  - by intros order fuel cancelled days last [_ []].
Qed.
End timeline.

(** ** Property *)

(** C4. The timeline tells the truth, and the owner is told it.  Run any pings,
    requests and ticks of the scheduler and the alerter, interleaved action by
    action, any of them failing or losing its acknowledgement, from any
    database in order (the empty one is).  Then a monitor that is down has a
    down event as its last status event (up, down or resume), and exactly one
    alert that is not a reminder for it; and a monitor whose last status event
    is a down is down.  (For a monitor that is not probed: the state a probe
    claimed may be out of date when its result is recorded, see
    [resumed_while_probed].  Nor is anything pruned: retention may forget the
    event.) *)
Theorem timeline_truth `{Extern} i (ops : list ServiceOp) (w w' : World) (ps' : list (Prog unit)) m :
  Forall (truth_ok i) ops -> truth i (w_db w) -> answered (w_db w) ->
  rtc pool_step (svc_prog <$> ops, w) (ps', w') -> t_monitors (w_tables w') !! i = Some m ->
  (m_state m = "down"%string ->
     exists e, last_status i (t_events (w_tables w')) = Some e /\ e_type e = "down"%string /\
               length (alerts_for (w_tables w') (e_id e)) = 1%nat) /\
  (forall e, last_status i (t_events (w_tables w')) = Some e -> e_type e = "down"%string -> m_state m = "down"%string).
Proof.
  intros Hops Ht Ha Hrun Hm. assert (Hsvc : Forall svc_ok ops) by (eapply Forall_impl; [exact Hops|by intros o []]).
  pose proof Hrun as Hrun'. apply (pool_invariant (truth i)) in Hrun as [_ [Hi Hs]]; [|exact (safe_ops (truth i) ops Hops)|exact Ht].
  apply (pool_invariant answered) in Hrun' as [_ [_ Hans]]; [|exact (safe_ops answered ops Hsvc)|exact Ha].
  assert (Hid : m_id m = i) by apply (in_monitors _ Hi _ _ Hm).
  pose proof (Hs _ _ Hm Hid) as Hst. unfold is_down, says_down in Hst. cbn in Hst. split.
  - intros Hd. rewrite Hd in Hst. cbn in Hst. destruct (last_status i _) as [e|] eqn:Hl; [|done].
    symmetry in Hst. apply String.eqb_eq in Hst. exists e. split; [done|]. split; [exact Hst|].
    rewrite Forall_forall in Hans. apply (Hans e); [by eapply last_status_elem|]. unfold quiet_type. by rewrite Hst.
  - intros e Hl He. rewrite Hl, He in Hst. by apply String.eqb_eq.
Qed.

#[local] Existing Instance demo_extern.

(** A registration, a new monitor, and two failing pings of it in flight at
    once, of which the second has nothing to report. *)
Definition timeline_ops : list ServiceOp :=
  [SvcRegister "a@example.com" "correct horse battery" true;
   SvcMonitor (OpCreate (mk_store_CreateMonitorParams "1001" "heartbeat" "Nightly" "period" (Some 900) "" "UTC" (Some 300)
     "" "" None None None None None));
   SvcPing (mkRecordCheckinParams "aibqibiga4eascql" "fail" "" "" "" demo_t0);
   SvcPing (mkRecordCheckinParams "aibqibiga4eascql" "fail" "" "" "" demo_t0)].

Lemma timeline_truth_witness :
  let w := mkWorld empty_tables demo_seqs 0 None demo_env in
  let c := run_schedule [0; 0; 0; 1; 1; 1; 1; 2; 3]%nat (svc_prog <$> timeline_ops) w in
  let m := default (demo_heartbeat "new" None) (t_monitors (w_tables (snd c)) !! 1003%N) in
  exists e, last_status 1003%N (t_events (w_tables (snd c))) = Some e /\ e_type e = "down"%string /\
            length (alerts_for (w_tables (snd c)) (e_id e)) = 1%nat.
Proof.
  intros w c m. apply (timeline_truth 1003%N timeline_ops w (snd c) (fst c) m).
  - repeat constructor.
  - split; [apply integrity_empty|]. intros j m0 Hm0. discriminate Hm0.
  - split; [apply integrity_empty|]. constructor.
  - unfold c. rewrite <- surjective_pairing. apply run_schedule_rtc.
  - vm_compute. reflexivity.
  - vm_compute. reflexivity.
Defined.

(** An http monitor is down and its next probe is running when its owner
    resumes it; the probe fails too.  Its result is compared with the state the
    claim saw: the monitor is down again, after a resume and without an event
    or an alert. *)
Definition late_probe (prior : string) : ProbeOutcome :=
  mkProbeOutcome "2" false (Some 503) (Some 120) "unexpected status 503" None 1 prior 0 None demo_t0 demo_t0.

Example resumed_while_probed :
  let ops := [SvcProbe (late_probe "up"); SvcMonitor (OpFlag (OpResume demo_t0) "2" "10"); SvcProbe (late_probe "down")] in
  let t := w_tables (snd (run_schedule [0; 1; 2]%nat (svc_prog <$> ops) (demo_world demo_env [demo_http "up" 0]))) in
  (is_down <$> t_monitors t !! 2%N, e_type <$> t_events t, length (t_alerts t)) =
  (Some true, ["down"; "resume"]%string, 1%nat).
Proof. vm_compute. reflexivity. Qed.

(** The same, with nothing in flight: the resume leaves the fail_streak of the
    outage, so one failing probe is enough, whatever the threshold. *)
Example resume_keeps_streak :
  let probe prior streak := mkProbeOutcome "2" false (Some 503) (Some 120) "unexpected status 503" None 2 prior streak None demo_t0 demo_t0 in
  let ops := [SvcProbe (probe "up"%string 0); SvcProbe (probe "up"%string 1); SvcMonitor (OpFlag (OpResume demo_t0) "2" "10")] in
  let w := snd (run_schedule [0; 1; 2]%nat (svc_prog <$> ops) (demo_world demo_env [demo_http "up" 0])) in
  match t_monitors (w_tables w) !! 2%N with
  | Some m => (m_state m, m_fail_streak m, (nextProbeState (probe (m_state m) (m_fail_streak m))).1) = ("up"%string, 2, "down"%string)
  | None => False
  end.
Proof. vm_compute. reflexivity. Qed.
