(* ===== verification/Http.v ===== *)
(** * Http: requests, responses and the middleware (server/)

    A handler is a program that returns the response it writes; Go's errors
    are values inside it ([attempt]), so a program error of a handler is a
    panic, which [recoverMiddleware] turns into a 500.  The JSON body of a
    response is the tree that is marshalled.  The JWT library is the interface
    [Jwt]. *)
From S2P Require Import Prelude GoLib Json Calendar Models Extern Store Logic Demo Monitor User RateLimit Alert Alerter.
Local Open Scope Z_scope.
Local Open Scope ping_scope.

(** ** Responses *)

Inductive Body := BNone | BText (s : string) | BJson (j : Json).

(** The attributes setRefreshCookie and clearRefreshCookie give. *)
Record Cookie := mkCookie {
  ck_Name : string;
  ck_Value : string;
  ck_Path : string;
  ck_Expires : option Time;
  ck_MaxAge : Z;
  ck_HttpOnly : bool;
  ck_Secure : bool;
  ck_SameSite : string
}.

Record Response := mkResponse {
  rs_Status : Z;
  rs_Headers : list (string * string);
  rs_Cookies : list Cookie;
  rs_Body : Body
}.

Definition add_header (k v : string) (r : Response) : Response :=
  mkResponse (rs_Status r) ((k, v) :: rs_Headers r) (rs_Cookies r) (rs_Body r).
Definition add_headers (hs : list (string * string)) (r : Response) : Response :=
  foldr (fun h r => add_header h.1 h.2 r) r hs.
Definition add_cookie (c : Cookie) (r : Response) : Response :=
  mkResponse (rs_Status r) (rs_Headers r) (c :: rs_Cookies r) (rs_Body r).

Definition errorResponse (message : string) : Json := JObj [("error", JStr message)].

Definition writeJSON (status : Z) (v : option Json) : Response :=
  mkResponse status [("Content-Type", "application/json; charset=utf-8")] []
    (match v with None => BNone | Some j => BJson j end).

(** [errors.AsType[storeError]]: the first error of the chain with an
    HTTPStatus, its text and status.  [error_text] is the text of what
    newHTTPError wraps. *)
Fixpoint error_text (e : error) : string :=
  match e with
  | ESentinel s => sentinel_message s
  | EMsg m => m
  | EHttp e _ => error_text e
  | EWrap c e => c +:+ ": " +:+ error_text e
  | EValidation f m => f +:+ ": " +:+ m
  | ENoRows => "no rows in result set"
  | EPg code => "SQLSTATE " +:+ code
  | ELost => "unexpected EOF"
  | ECanceled => "context canceled"
  end.

Fixpoint as_storeError (e : error) : option (string * Z) :=
  match e with
  | EHttp e status => Some (error_text e, status)
  | EWrap _ e => as_storeError e
  | _ => None
  end.

Definition writeError (err : error) : Response :=
  let '(message, status) := default ("internal server error"%string, 500) (as_storeError err) in
  writeJSON status (Some (errorResponse message)).

Definition writeFieldError (field message : string) : Response :=
  writeJSON 422 (Some (JObj [("error", JStr message); ("field", JStr field)])).

Definition writeRateLimited (retryAfter : Duration) : Response :=
  add_header "Retry-After" (FormatInt (Z.quot retryAfter Second))
    (writeJSON 429 (Some (errorResponse "too many attempts, try again later"))).

(** ** Requests *)

Record Request := mkRequest {
  rq_Method : string;
  rq_Path : list string;
  rq_Query : string -> string;
  rq_Authorization : string;
  rq_Origin : string;
  rq_RemoteAddr : string;
  rq_UserAgent : string;
  rq_TLS : bool;
  rq_RefreshCookie : option string;
  rq_Body : string
}.

(** [net.SplitHostPort], of which only the host is used. *)
Fixpoint cut_at (c : ascii) (s : string) : option (string * string) :=
  match s with
  | EmptyString => None
  | String a r => if Ascii.eqb a c then Some ("", r)%string
                  else '(x, y) ← cut_at c r; Some (String a x, y)
  end.

Definition has_byte (c : ascii) (s : string) : bool := str_any (Ascii.eqb c) s.

Definition split_host_port (hostport : string) : option string :=
  match hostport with
  | String "[" r =>
      '(host, rest) ← cut_at "]" r;
      match rest with
      | String ":" port =>
          if has_byte ":" port || has_byte "[" host || has_byte "[" port || has_byte "]" port then None else Some host
      | _ => None
      end
  | _ =>
      '(host, port) ← cut_at ":" hostport;
      if has_byte ":" port || has_byte "[" hostport || has_byte "]" hostport then None else Some host
  end.

(** [json.NewDecoder(http.MaxBytesReader(w, r.Body, maxBytes)).Decode(v)]: the
    first value within the first [maxBytes] bytes. *)
Definition decode_body {T} (fields : list (string * FieldDecoder T)) (zero : T) (maxBytes : Z) (r : Request)
    : option T :=
  v ← first_value (String.substring 0 (Z.to_nat maxBytes) (rq_Body r)); decode_object fields zero v.

Definition invalid_body : Response := writeJSON 400 (Some (errorResponse "invalid request body")).

Definition clientIP (r : Request) : string := default (rq_RemoteAddr r) (split_host_port (rq_RemoteAddr r)).

Example clientIP_examples :
  split_host_port "192.0.2.7:51234" = Some "192.0.2.7"%string /\ split_host_port "[2001:db8::1]:80" = Some "2001:db8::1"%string /\
  split_host_port "2001:db8::1" = None /\ split_host_port "localhost" = None.
Proof. repeat split. Qed.

(** [parseBoundedInt]: the range check is on the int32 that was parsed. *)
Definition parseBoundedInt (s : string) (min max : Z) : option Z :=
  n ← ParseInt lim32 s; if (n <? min) || (max <? n) then None else Some n.

(** ** Access tokens (server/jwt.go) *)

Definition jwtIssuer : string := "ping".
Definition jwtAudience : string := "ping-api".

Record accessClaims := mkaccessClaims {
  ac_Subject : string;
  ac_ID : string;
  ac_IssuedAt : Time;
  ac_ExpiresAt : Time;
  ac_Issuer : string;
  ac_Audience : list string
}.

(** golang-jwt with the server's key pair: NewNumericDate, SignedString with
    RS256, and ParseWithClaims at an instant with the accepted methods, issuer
    and audience. *)
Class Jwt := mkJwt {
  jwt_NewNumericDate : Time -> Time;
  jwt_SignedString : accessClaims -> Res string;
  jwt_ParseWithClaims : Time -> list string -> string -> string -> string -> option accessClaims
}.

(** Documented behaviour: a signed RS256 token is accepted exactly before its
    expiry, with its issuer, and with one of its audiences. *)
Class JwtLaws (J : Jwt) : Prop := {
  jwt_parse_signed : forall c tok now iss aud,
    jwt_SignedString c = Ok tok ->
    jwt_ParseWithClaims now ["RS256"] iss aud tok
    = if (now <? ac_ExpiresAt c) && String.eqb (ac_Issuer c) iss && bool_decide (aud ∈ ac_Audience c)
      then Some c else None;
  (** a token is the base64url form of a JSON object, a dot, ... *)
  jwt_token_shape : forall c tok, jwt_SignedString c = Ok tok -> is_Some (cut_prefix "eyJ" tok);
  (** NewNumericDate truncates to whole seconds *)
  jwt_date_seconds : forall t, t - Second < jwt_NewNumericDate t <= t
}.

(** What the handlers ask of net/mail and net/url beyond what is modelled:
    whether ParseAddress accepts an address, and whether url.Parse accepts a
    URL whose scheme is well formed. *)
Class Web := mkWeb {
  mail_ParseAddress : string -> bool;
  url_rest_ok : string -> bool
}.

(** [Deps]: the configuration the handlers read.  The channel is nil when
    SMTP is not configured. *)
Record Deps := mkDeps {
  dp_AllowedOrigin : string;
  dp_BaseURL : string;
  dp_JWTAccessTTL : Duration;
  dp_JWTRefreshTTL : Duration;
  dp_RegistrationOpen : bool;
  dp_CookieSecure : bool;
  dp_AuthRateLimitDisabled : bool;
  dp_AlertChannel : option Channel
}.

(** The answer of Store.Allow to a call, by the number of the action. *)
Definition Limiter : Type := nat -> string -> Z -> Duration -> AllowResult.

Section server.
Context `{Extern} `{Jwt}.

(** The format "20060102T150405.000000000" of the fallback. *)
Definition format_request_time (t : Time) : string :=
  let s := t / Second in
  let '(y, m, d) := civil_of_days (s / 86400) in
  let r := s mod 86400 in
  pad 4 y +:+ pad 2 m +:+ pad 2 d +:+ "T" +:+ pad 2 (r / 3600) +:+ pad 2 (r / 60 mod 60) +:+ pad 2 (r mod 60)
  +:+ "." +:+ pad 9 (t mod Second).

Definition newRequestID : Prog string :=
  let! b := attempt (rand_Read 8) in
  match b with
  | Ok b => ret (hex_encode b)
  | Err _ => let! now := time_Now in ret (format_request_time now)
  end.

Definition issueAccessToken (userID : string) (ttl : Duration) : Prog string :=
  let! now := time_Now in
  let! id := newRequestID in
  let claims := mkaccessClaims userID id (jwt_NewNumericDate now) (jwt_NewNumericDate (time_Add now ttl))
                  jwtIssuer [jwtAudience] in
  lift_res (match jwt_SignedString claims with
            | Ok signed => Ok signed
            | Err e => Err (EWrap "server: sign access token" e)
            end).

(** [None] is any of the library's errors. *)
Definition parseAccessToken (token : string) : Prog (option accessClaims) :=
  let! now := time_Now in
  ret (jwt_ParseWithClaims now ["RS256"] jwtIssuer jwtAudience token).

(** ** Middleware *)

Definition bearerPrefix : string := "Bearer ".

Definition bearerToken (r : Request) : option string :=
  token ← cut_prefix bearerPrefix (rq_Authorization r);
  if String.eqb token "" then None else Some token.

Definition apiKeyRateLimit : Z := 300.
Definition apiKeyRateWindow : Duration := Minute.

(** Store.Allow at an action: what the limiter of RateLimit.v answers. *)
Context (limiter : Limiter).

Definition server_Allow (key : string) (limit : Z) (window : Duration) : Prog AllowResult :=
  Act (fun w => (Ok (limiter (w_step w) key limit window), tick w)) Ret.

(** A request over the limit is answered 429. *)
Definition rate_limited (key : string) (limit : Z) (window : Duration) (next : Prog Response) : Prog Response :=
  let! answer := server_Allow key limit window in
  let '(allowed, retryAfter, _) := answer in
  if negb allowed then ret (writeRateLimited retryAfter) else next.

Definition unauthorized (message : string) : Response := writeJSON 401 (Some (errorResponse message)).

(** The wrapped handler gets the user id [withUserID] puts in the context. *)
Definition requireAuth (next : string -> Prog Response) (r : Request) : Prog Response :=
  match bearerToken r with
  | None => ret (unauthorized "missing or malformed authorization header")
  | Some token =>
      let! claims := parseAccessToken token in
      match claims with
      | None => ret (unauthorized "invalid or expired access token")
      | Some c => next (ac_Subject c)
      end
  end.

Definition requireAuthOrAPIKey (next : string -> Prog Response) (r : Request) : Prog Response :=
  match bearerToken r with
  | None => ret (unauthorized "missing or malformed authorization header")
  | Some token =>
      match cut_prefix "pk_" token with
      | Some _ =>
          let! authed := attempt (AuthenticateAPIKey token) in
          match authed with
          | Err err => ret (writeError err)
          | Ok authed =>
              rate_limited ("rate:apikey:" +:+ aak_KeyID authed) apiKeyRateLimit apiKeyRateWindow
                (next (aak_UserID authed))
          end
      | None =>
          let! claims := parseAccessToken token in
          match claims with
          | None => ret (unauthorized "invalid or expired access token")
          | Some c => next (ac_Subject c)
          end
      end
  end.

Definition requestIDMiddleware (next : Prog Response) : Prog Response :=
  let! id := newRequestID in
  let! resp := next in
  ret (add_header "X-Request-ID" id resp).

Definition securityHeaders (r : Request) : list (string * string) :=
  [("Content-Security-Policy", "default-src 'self'"); ("X-Content-Type-Options", "nosniff");
   ("X-Frame-Options", "DENY"); ("Referrer-Policy", "strict-origin-when-cross-origin")]%string
  ++ (if rq_TLS r then [("Strict-Transport-Security", "max-age=31536000; includeSubDomains")]%string else []).

Definition corsHeaders (allowedOrigin : string) (r : Request) : list (string * string) :=
  if negb (String.eqb (rq_Origin r) "") && String.eqb (rq_Origin r) allowedOrigin then
    [("Access-Control-Allow-Origin", rq_Origin r); ("Access-Control-Allow-Credentials", "true");
     ("Access-Control-Allow-Methods", "GET, POST, PUT, PATCH, DELETE, OPTIONS");
     ("Access-Control-Allow-Headers", "Content-Type, Authorization"); ("Vary", "Origin")]%string
  else [].

(** A panic of the handler: nothing has been written, but the headers that
    the inner middleware has [already] set stay. *)
Definition recoverMiddleware (already : list (string * string)) (next : Prog Response) : Prog Response :=
  let! r := attempt next in
  match r with
  | Ok resp => ret resp
  | Err _ => ret (add_headers already (writeJSON 500 (Some (errorResponse "internal server error"))))
  end.

Definition securityHeadersMiddleware (r : Request) (next : Prog Response) : Prog Response :=
  let! resp := next in ret (add_headers (securityHeaders r) resp).

Definition corsMiddleware (allowedOrigin : string) (r : Request) (next : Prog Response) : Prog Response :=
  let! resp := (if String.eqb (rq_Method r) "OPTIONS" then ret (mkResponse 204 [] [] BNone) else next) in
  ret (add_headers (corsHeaders allowedOrigin r) resp).
End server.
