(* ===== verification/AuthApi.v ===== *)
(** * AuthApi: the session, API key and alerting endpoints (server/auth.go, apikey.go, alerting.go)

    Register, login, refresh and logout; creating, listing and revoking API
    keys; the test email.  A handler is a function of the request (and, behind
    the authentication middleware, of the caller's user id). *)
From S2P Require Import Prelude GoLib Json Calendar Models Extern Store Logic Demo Convert Monitor Session User RateLimit Mime Alert Alerter Http.
Local Open Scope Z_scope.
Local Open Scope ping_scope.

(** ** Sessions (server/auth.go) *)

Definition refreshCookieName : string := "ping_refresh".
Definition refreshCookiePath : string := "/api/v1/auth".
Definition authRateLimit : Z := 5.
Definition authRateWindow : Duration := Minute.
Definition minPasswordLen : nat := 12.
Definition maxAuthBodyBytes : Z := 4096.

Record emailPasswordRequest := mkemailPasswordRequest { epr_Email : string; epr_Password : string }.

Definition emailPasswordRequest_fields : list (string * FieldDecoder emailPasswordRequest) :=
  [("email"%string, field_string (fun v r => mkemailPasswordRequest v (epr_Password r)));
   ("password"%string, field_string (fun v r => mkemailPasswordRequest (epr_Email r) v))].

Definition decodeJSON (r : Request) : option emailPasswordRequest :=
  decode_body emailPasswordRequest_fields (mkemailPasswordRequest "" "") maxAuthBodyBytes r.

Definition authResponse (access userID email : string) : Json :=
  JObj [("access_token"%string, JStr access);
        ("user"%string, JObj [("id"%string, JStr userID); ("email"%string, JStr email)])].

Definition setRefreshCookie (value : string) (expiresAt : Time) (secure : bool) : Cookie :=
  mkCookie refreshCookieName value refreshCookiePath (Some expiresAt) 0 true secure "Lax".

Definition clearRefreshCookie (secure : bool) : Cookie :=
  mkCookie refreshCookieName "" refreshCookiePath None (-1) true secure "Lax".

(** The response [validEmailPassword] writes when it refuses. *)
Definition validEmailPassword `{Web} (req : emailPasswordRequest) : option Response :=
  if negb (mail_ParseAddress (epr_Email req)) then
    Some (writeJSON 422 (Some (errorResponse "invalid email address")))
  else if Nat.ltb (String.length (epr_Password req)) minPasswordLen then
    Some (writeJSON 422 (Some (errorResponse "password must be at least 12 characters")))
  else None.

Section auth.
Context `{Extern} `{Jwt} `{Web} (deps : Deps) (limiter : Limiter).

Definition checkRateLimit (key : string) (next : Prog Response) : Prog Response :=
  if dp_AuthRateLimitDisabled deps then next else rate_limited limiter key authRateLimit authRateWindow next.

Definition issueTokenPair (status : Z) (userID email : string) : Prog Response :=
  let! access := attempt (issueAccessToken userID (dp_JWTAccessTTL deps)) in
  match access with
  | Err err => ret (writeError err)
  | Ok access =>
      let! rt := attempt (IssueRefreshToken userID (dp_JWTRefreshTTL deps)) in
      match rt with
      | Err err => ret (writeError err)
      | Ok rt =>
          ret (add_cookie (setRefreshCookie (rt_PlainToken rt) (rt_ExpiresAt rt) (dp_CookieSecure deps))
                 (writeJSON status (Some (authResponse access userID email))))
      end
  end.

Definition auth_register (r : Request) : Prog Response :=
  checkRateLimit ("rate:register:" +:+ clientIP r) (
    match decodeJSON r with
    | None => ret invalid_body
    | Some req =>
        match validEmailPassword req with
        | Some resp => ret resp
        | None =>
            let! user := attempt (Register (epr_Email req) (epr_Password req) (dp_RegistrationOpen deps)) in
            match user with
            | Err err => ret (writeError err)
            | Ok user => issueTokenPair 201 (au_ID user) (au_Email user)
            end
        end
    end).

Definition auth_login (r : Request) : Prog Response :=
  checkRateLimit ("rate:login:" +:+ clientIP r) (
    match decodeJSON r with
    | None => ret invalid_body
    | Some req =>
        let! user := attempt (Authenticate (epr_Email req) (epr_Password req)) in
        match user with
        | Err err => ret (writeError err)
        | Ok user => issueTokenPair 200 (au_ID user) (au_Email user)
        end
    end).

Definition auth_refresh (r : Request) : Prog Response :=
  match rq_RefreshCookie r with
  | None => ret (unauthorized "missing refresh token")
  | Some cookie =>
      let! rotated := attempt (RotateRefreshToken cookie (dp_JWTRefreshTTL deps)) in
      match rotated with
      | Err err => ret (add_cookie (clearRefreshCookie (dp_CookieSecure deps)) (writeError err))
      | Ok (rt, userID) =>
          let! access := attempt (issueAccessToken userID (dp_JWTAccessTTL deps)) in
          match access with
          | Err err => ret (writeError err)
          | Ok access =>
              ret (add_cookie (setRefreshCookie (rt_PlainToken rt) (rt_ExpiresAt rt) (dp_CookieSecure deps))
                     (writeJSON 200 (Some (authResponse access userID ""))))
          end
      end
  end.

(** A failed revocation is only logged. *)
Definition auth_logout (r : Request) : Prog Response :=
  let! _ := (match rq_RefreshCookie r with
             | Some cookie => let! _ := attempt (RevokeFamilyByToken cookie) in ret tt
             | None => ret tt
             end) in
  ret (add_cookie (clearRefreshCookie (dp_CookieSecure deps)) (writeJSON 200 None)).

(** ** API keys (server/apikey.go) *)

Definition maxAPIKeyBodyBytes : Z := 1024.
Definition maxAPIKeyLabelLen : nat := 100.

Definition createAPIKeyRequest_fields : list (string * FieldDecoder string) :=
  [("label"%string, field_string (fun v _ => v))].

Definition formatTimePtr (t : option Time) : Json :=
  match t with Some t => JStr (FormatRFC3339 t) | None => JNull end.

Definition createAPIKeyResponse (created : CreatedAPIKey) : Json :=
  JObj [("id"%string, JStr (ak_ID (cak_Key created))); ("label"%string, JStr (ak_Label (cak_Key created)));
        ("key"%string, JStr (cak_PlainKey created));
        ("created_at"%string, JStr (FormatRFC3339 (ak_CreatedAt (cak_Key created))))].

Definition apiKeyResponse (k : APIKey) : Json :=
  JObj [("id"%string, JStr (ak_ID k)); ("label"%string, JStr (ak_Label k));
        ("last_used_at"%string, formatTimePtr (ak_LastUsedAt k));
        ("revoked_at"%string, formatTimePtr (ak_RevokedAt k));
        ("created_at"%string, JStr (FormatRFC3339 (ak_CreatedAt k)))].

Definition apikey_create (r : Request) (userID : string) : Prog Response :=
  match decode_body createAPIKeyRequest_fields "" maxAPIKeyBodyBytes r with
  | None => ret invalid_body
  | Some label =>
      let label := TrimSpace label in
      if String.eqb label "" then ret (writeFieldError "label" "label is required")
      else if Nat.ltb maxAPIKeyLabelLen (String.length label) then
        ret (writeFieldError "label" "label must be 100 characters or fewer")
      else
        let! created := attempt (CreateAPIKey userID label) in
        match created with
        | Err err => ret (writeError err)
        | Ok created => ret (writeJSON 201 (Some (createAPIKeyResponse created)))
        end
  end.

Definition apikey_list (userID : string) : Prog Response :=
  let! keys := attempt (ListAPIKeys userID) in
  match keys with
  | Err err => ret (writeError err)
  | Ok keys => ret (writeJSON 200 (Some (JArr (map apiKeyResponse keys))))
  end.

Definition apikey_revoke (id userID : string) : Prog Response :=
  let! r := attempt (RevokeAPIKey id userID) in
  match r with
  | Err err => ret (writeError err)
  | Ok _ => ret (writeJSON 204 None)
  end.

(** ** The test email (server/alerting.go) *)

Definition not_configured : Response :=
  writeJSON 503 (Some (errorResponse "email delivery is not configured (set SMTP_HOST and SMTP_FROM)")).

Definition writeSendError (err : SendFailure) : Response :=
  match err with
  | ErrNotConfigured => not_configured
  | _ =>
      if IsRetryable err then
        writeJSON 503 (Some (errorResponse
          "could not deliver test email: the mail server was temporarily unavailable, try again"))
      else
        writeJSON 502 (Some (errorResponse
          "could not deliver test email: the mail server rejected it (check SMTP settings)"))
  end.

(** The templates read the clock only for a notification without a time, and
    this one has the time of the request. *)
Definition sendTest (userID : string) : Prog Response :=
  match dp_AlertChannel deps with
  | None => ret not_configured
  | Some ch =>
      let! to := attempt (UserEmailByID userID) in
      match to with
      | Err err => ret (writeError err)
      | Ok to =>
          let! now := time_Now in
          let msg := Render now (mkNotification KindTest "" "" "" 0 zero_time now "") in
          let! err := channel_Send ch (mkMessage to (msg_Subject msg) (msg_TextBody msg) (msg_HTMLBody msg)) in
          match err with
          | Some err => ret (writeSendError err)
          | None => ret (writeJSON 200 (Some (JObj [("delivered_to"%string, JStr to)])))
          end
      end
  end.
End auth.
