(* ===== verification/Responses.v ===== *)
(** * Responses: what the monitor and feed endpoints answer with

    The response types of server/monitor.go and server/events.go, the JSON
    their struct tags give, and their conversions from the store's types.
    [Marshal] writes the members in this order; a member with omitempty is
    left out when it is empty. *)
From S2P Require Import Prelude GoLib Json Calendar Models Extern Store Logic Schedule Convert Monitor Feeds.
Local Open Scope Z_scope.
Local Open Scope ping_scope.

(** ** Members with omitempty *)

Definition opt_str (name s : string) : list (string * Json) := if String.eqb s "" then [] else [(name, JStr s)].
Definition opt_int (name : string) (n : option Z) : list (string * Json) :=
  match n with Some n => [(name, JInt n)] | None => [] end.
Definition opt_time (name : string) (t : option Time) : list (string * Json) :=
  match t with Some t => [(name, JStr (FormatRFC3339Nano t))] | None => [] end.
Definition opt_raw (name raw : string) : list (string * Json) :=
  if String.eqb raw "" then [] else [(name, JRaw raw)].
Definition opt_list (name : string) (l : list Json) : list (string * Json) :=
  match l with [] => [] | _ => [(name, JArr l)] end.

(** ** Monitors *)

Record dailyStatResponse := mkdailyStatResponse {
  dsr_Day : string;
  dsr_Checkins : Z;
  dsr_Failures : Z;
  dsr_DowntimeS : Z
}.

Record monitorResponse := mkmonitorResponse {
  mr_ID : string;
  mr_Kind : string;
  mr_Slug : string;
  mr_Name : string;
  mr_State : string;
  mr_DisplayState : string;
  mr_PingURL : string;
  mr_ScheduleKind : string;
  mr_PeriodS : option Z;
  mr_CronExpr : string;
  mr_TZ : string;
  mr_GraceS : option Z;
  mr_URL : string;
  mr_Method : string;
  mr_IntervalS : option Z;
  mr_TimeoutS : option Z;
  mr_FailThreshold : option Z;
  mr_HTTPConfig : string;
  mr_FailStreak : Z;
  mr_AlertsMuted : bool;
  mr_AutoResume : bool;
  mr_LastCheckinAt : option Time;
  mr_NextDeadline : option Time;
  mr_PausedAt : option Time;
  mr_CreatedAt : Time;
  mr_UpdatedAt : Time;
  mr_ScheduleSummary : string;
  mr_DailyStats : list dailyStatResponse
}.

Record monitorListResponse := mkmonitorListResponse {
  mlr_Monitors : list monitorResponse;
  mlr_NextCursor : string
}.

Definition dailyStatResponse_json (d : dailyStatResponse) : Json :=
  JObj [("day"%string, JStr (dsr_Day d)); ("checkins"%string, JInt (dsr_Checkins d));
        ("failures"%string, JInt (dsr_Failures d)); ("downtime_s"%string, JInt (dsr_DowntimeS d))].

Definition monitorResponse_json (m : monitorResponse) : Json :=
  JObj ([("id"%string, JStr (mr_ID m)); ("kind"%string, JStr (mr_Kind m)); ("slug"%string, JStr (mr_Slug m));
         ("name"%string, JStr (mr_Name m)); ("state"%string, JStr (mr_State m));
         ("display_state"%string, JStr (mr_DisplayState m))]
    ++ opt_str "ping_url" (mr_PingURL m)
    ++ opt_str "schedule_kind" (mr_ScheduleKind m) ++ opt_int "period_s" (mr_PeriodS m)
    ++ opt_str "cron_expr" (mr_CronExpr m) ++ opt_str "tz" (mr_TZ m) ++ opt_int "grace_s" (mr_GraceS m)
    ++ opt_str "url" (mr_URL m) ++ opt_str "method" (mr_Method m) ++ opt_int "interval_s" (mr_IntervalS m)
    ++ opt_int "timeout_s" (mr_TimeoutS m) ++ opt_int "fail_threshold" (mr_FailThreshold m)
    ++ opt_raw "http_config" (mr_HTTPConfig m)
    ++ [("fail_streak"%string, JInt (mr_FailStreak m)); ("alerts_muted"%string, JBool (mr_AlertsMuted m));
        ("auto_resume"%string, JBool (mr_AutoResume m))]
    ++ opt_time "last_checkin_at" (mr_LastCheckinAt m) ++ opt_time "next_deadline" (mr_NextDeadline m)
    ++ opt_time "paused_at" (mr_PausedAt m)
    ++ [("created_at"%string, JStr (FormatRFC3339Nano (mr_CreatedAt m)));
        ("updated_at"%string, JStr (FormatRFC3339Nano (mr_UpdatedAt m)))]
    ++ opt_str "schedule_summary" (mr_ScheduleSummary m)
    ++ opt_list "daily_stats" (map dailyStatResponse_json (mr_DailyStats m))).

Definition monitorListResponse_json (l : monitorListResponse) : Json :=
  JObj (("monitors"%string, JArr (map monitorResponse_json (mlr_Monitors l))) :: opt_str "next_cursor" (mlr_NextCursor l)).

(** U+00B7 and U+00D7 *)
Definition middle_dot : string := String "194" (String "183" "").
Definition times_sign : string := String "195" (String "151" "").

(** An optional number of seconds as a time.Duration, zero for nil. *)
Definition duration_s (s : option Z) : Duration := match s with Some s => seconds s | None => 0 end.

Definition scheduleConfigFromMonitor (m : store_Monitor) : Config :=
  mkConfig (sm_ScheduleKind m) (duration_s (sm_PeriodS m)) (sm_CronExpr m) (sm_TZ m) (duration_s (sm_GraceS m)).

Definition toDailyStatResponse (ds : store_DailyStat) : dailyStatResponse :=
  mkdailyStatResponse (String.substring 0 10 (FormatRFC3339 (ds_Day ds))) (ds_Checkins ds) (ds_Failures ds) (ds_DowntimeS ds).

Section responses.
Context `{Extern}.

(** Describe never panics, so an empty summary is its error (see
    [Describe_total]). *)
Definition schedule_summary (m : store_Monitor) : string :=
  if String.eqb (sm_Kind m) "heartbeat" then
    match Describe (scheduleConfigFromMonitor m) with Some (Ok desc) => desc | _ => "" end
  else
    match sm_IntervalS m, sm_FailThreshold m with
    | Some i, Some n =>
        "every " +:+ FormatInt i +:+ "s " +:+ middle_dot +:+ " " +:+ FormatInt n +:+ times_sign +:+ " confirm"
    | _, _ => ""
    end.

Definition toMonitorResponse (m : store_Monitor) (baseURL : string) : monitorResponse :=
  {| mr_ID := sm_ID m; mr_Kind := sm_Kind m; mr_Slug := sm_Slug m; mr_Name := sm_Name m; mr_State := sm_State m;
     mr_DisplayState := sm_DisplayState m;
     mr_PingURL := if String.eqb (sm_Kind m) "heartbeat" then baseURL +:+ "/p/" +:+ sm_Slug m else "";
     mr_ScheduleKind := sm_ScheduleKind m; mr_PeriodS := sm_PeriodS m; mr_CronExpr := sm_CronExpr m;
     mr_TZ := sm_TZ m; mr_GraceS := sm_GraceS m; mr_URL := sm_URL m; mr_Method := sm_Method m;
     mr_IntervalS := sm_IntervalS m; mr_TimeoutS := sm_TimeoutS m; mr_FailThreshold := sm_FailThreshold m;
     mr_HTTPConfig := sm_HTTPConfig m; mr_FailStreak := sm_FailStreak m; mr_AlertsMuted := sm_AlertsMuted m;
     mr_AutoResume := sm_AutoResume m; mr_LastCheckinAt := sm_LastCheckinAt m; mr_NextDeadline := sm_NextDeadline m;
     mr_PausedAt := sm_PausedAt m; mr_CreatedAt := sm_CreatedAt m; mr_UpdatedAt := sm_UpdatedAt m;
     mr_ScheduleSummary := schedule_summary m; mr_DailyStats := [] |}.
End responses.

(** The loop of the get and list handlers that appends to DailyStats. *)
Definition with_stats (stats : list store_DailyStat) (r : monitorResponse) : monitorResponse :=
  {| mr_ID := mr_ID r; mr_Kind := mr_Kind r; mr_Slug := mr_Slug r; mr_Name := mr_Name r; mr_State := mr_State r;
     mr_DisplayState := mr_DisplayState r; mr_PingURL := mr_PingURL r; mr_ScheduleKind := mr_ScheduleKind r;
     mr_PeriodS := mr_PeriodS r; mr_CronExpr := mr_CronExpr r; mr_TZ := mr_TZ r; mr_GraceS := mr_GraceS r;
     mr_URL := mr_URL r; mr_Method := mr_Method r; mr_IntervalS := mr_IntervalS r; mr_TimeoutS := mr_TimeoutS r;
     mr_FailThreshold := mr_FailThreshold r; mr_HTTPConfig := mr_HTTPConfig r; mr_FailStreak := mr_FailStreak r;
     mr_AlertsMuted := mr_AlertsMuted r; mr_AutoResume := mr_AutoResume r; mr_LastCheckinAt := mr_LastCheckinAt r;
     mr_NextDeadline := mr_NextDeadline r; mr_PausedAt := mr_PausedAt r; mr_CreatedAt := mr_CreatedAt r;
     mr_UpdatedAt := mr_UpdatedAt r; mr_ScheduleSummary := mr_ScheduleSummary r;
     mr_DailyStats := map toDailyStatResponse stats |}.

(** ** Feeds *)

Record eventResponse := mkeventResponse {
  er_ID : Z;
  er_MonitorID : string;
  er_Type : string;
  er_Message : string;
  er_Meta : EventMeta;
  er_CreatedAt : Time
}.

Record checkinResponse := mkcheckinResponse {
  cr_ID : Z;
  cr_MonitorID : string;
  cr_Kind : string;
  cr_SourceIP : string;
  cr_UserAgent : string;
  cr_Body : string;
  cr_CreatedAt : Time
}.

Record probeResultResponse := mkprobeResultResponse {
  prr_ID : Z;
  prr_MonitorID : string;
  prr_OK : bool;
  prr_HTTPStatus : option Z;
  prr_LatencyMS : option Z;
  prr_Error : string;
  prr_TLSExpiresAt : option Time;
  prr_CreatedAt : Time
}.

(** The aggregates are kept as the text of their number. *)
Record latencyPointResponse := mklatencyPointResponse {
  lpr_BucketStart : Time;
  lpr_P50 : string;
  lpr_P95 : string;
  lpr_Avg : string;
  lpr_SampleCount : Z
}.

Record latencySeriesResponse := mklatencySeriesResponse {
  lsr_Window : string;
  lsr_Points : list latencyPointResponse
}.

(** eventListResponse, checkinListResponse and probeResultListResponse: the
    rows under their name, and the cursor. *)
Record feedResponse (R : Type) := mkfeedResponse {
  fr_Rows : list R;
  fr_NextCursor : string
}.
Arguments mkfeedResponse {R}.
Arguments fr_Rows {R}.
Arguments fr_NextCursor {R}.

Definition eventListResponse : Type := feedResponse eventResponse.
Definition checkinListResponse : Type := feedResponse checkinResponse.
Definition probeResultListResponse : Type := feedResponse probeResultResponse.

Record describeResponse := mkdescribeResponse {
  dr_Description : string;
  dr_NextRuns : list Time
}.

(** The JSONB of events.meta, never empty. *)
Definition eventMeta_json (meta : EventMeta) : Json :=
  match meta with
  | MetaEmpty => JObj []
  | MetaFields fields => JObj [("fields"%string, JArr (map JStr fields))]
  | MetaTLS t => JObj [("tls_expires_at"%string, JStr (FormatRFC3339Nano t))]
  end.

Definition eventResponse_json (e : eventResponse) : Json :=
  JObj [("id"%string, JInt (er_ID e)); ("monitor_id"%string, JStr (er_MonitorID e)); ("type"%string, JStr (er_Type e));
        ("message"%string, JStr (er_Message e)); ("meta"%string, eventMeta_json (er_Meta e));
        ("created_at"%string, JStr (FormatRFC3339Nano (er_CreatedAt e)))].

Definition checkinResponse_json (c : checkinResponse) : Json :=
  JObj ([("id"%string, JInt (cr_ID c)); ("monitor_id"%string, JStr (cr_MonitorID c)); ("kind"%string, JStr (cr_Kind c))]
    ++ opt_str "source_ip" (cr_SourceIP c) ++ opt_str "user_agent" (cr_UserAgent c)
    ++ opt_str "body" (cr_Body c) ++ [("created_at"%string, JStr (FormatRFC3339Nano (cr_CreatedAt c)))]).

Definition probeResultResponse_json (p : probeResultResponse) : Json :=
  JObj ([("id"%string, JInt (prr_ID p)); ("monitor_id"%string, JStr (prr_MonitorID p)); ("ok"%string, JBool (prr_OK p))]
    ++ opt_int "http_status" (prr_HTTPStatus p) ++ opt_int "latency_ms" (prr_LatencyMS p) ++ opt_str "error" (prr_Error p)
    ++ opt_time "tls_expires_at" (prr_TLSExpiresAt p)
    ++ [("created_at"%string, JStr (FormatRFC3339Nano (prr_CreatedAt p)))]).

Definition feedResponse_json {R} (name : string) (row_json : R -> Json) (l : feedResponse R) : Json :=
  JObj ((name, JArr (map row_json (fr_Rows l))) :: opt_str "next_cursor" (fr_NextCursor l)).

Definition eventListResponse_json : eventListResponse -> Json := feedResponse_json "events" eventResponse_json.
Definition checkinListResponse_json : checkinListResponse -> Json := feedResponse_json "checkins" checkinResponse_json.
Definition probeResultListResponse_json : probeResultListResponse -> Json :=
  feedResponse_json "results" probeResultResponse_json.

Definition latencyPointResponse_json (p : latencyPointResponse) : Json :=
  JObj [("bucket_start"%string, JStr (FormatRFC3339Nano (lpr_BucketStart p))); ("p50"%string, JRaw (lpr_P50 p));
        ("p95"%string, JRaw (lpr_P95 p)); ("avg"%string, JRaw (lpr_Avg p)); ("sample_count"%string, JInt (lpr_SampleCount p))].

Definition latencySeriesResponse_json (s : latencySeriesResponse) : Json :=
  JObj [("window"%string, JStr (lsr_Window s)); ("points"%string, JArr (map latencyPointResponse_json (lsr_Points s)))].

Definition describeResponse_json (d : describeResponse) : Json :=
  JObj (("description"%string, JStr (dr_Description d))
        :: opt_list "next_runs" (map (fun t => JStr (FormatRFC3339Nano t)) (dr_NextRuns d))).

Definition toEventResponse (e : store_Event) : eventResponse :=
  mkeventResponse (se_ID e) (se_MonitorID e) (se_Type e) (se_Message e) (se_Meta e) (se_CreatedAt e).

Definition toCheckinResponse (c : store_Checkin) : checkinResponse :=
  mkcheckinResponse (sc_ID c) (sc_MonitorID c) (sc_Kind c) (default "" (sc_SourceIP c)) (default "" (sc_UserAgent c))
    (default "" (sc_Body c)) (sc_CreatedAt c).

Definition toProbeResultResponse (p : store_ProbeResult) : probeResultResponse :=
  mkprobeResultResponse (sp_ID p) (sp_MonitorID p) (sp_OK p) (sp_HTTPStatus p) (sp_LatencyMS p) (sp_Error p)
    (sp_TLSExpiresAt p) (sp_CreatedAt p).

Definition toLatencyPoint (b : LatencyBucket) : latencyPointResponse :=
  mklatencyPointResponse (lb_BucketStart b) (lb_P50 b) (lb_P95 b) (lb_Avg b) (lb_SampleCount b).

(** The loop of the list handlers over a page. *)
Definition page_response {R S} (conv : R -> S) (page : Page R) : feedResponse S :=
  mkfeedResponse (map conv page.1) page.2.
