(* ===== verification/MonitorApi.v ===== *)
(** * MonitorApi: the monitor endpoints (server/monitor.go, server/events.go)

    The request bodies and their decoding, the validation of a create and of a
    partial update, and one handler per endpoint; what they answer with is in
    Responses.v. *)
From S2P Require Import Prelude GoLib Json NetAddr Calendar Models Extern Store Queries Logic Demo Schedule Convert Checkin.
From S2P Require Import Monitor Feeds Prober ProbeWorker Http Responses.
Local Open Scope Z_scope.
Local Open Scope ping_scope.

Definition maxMonitorBodyBytes : Z := 16384.
Definition defaultPageLimit : Z := 20.
Definition maxPageLimit : Z := 100.
Definition minIntervalS : Z := 30.
Definition maxIntervalS : Z := 86400.
Definition minTimeoutS : Z := 1.
Definition maxTimeoutS : Z := 30.

(** ** Request bodies *)

(** scheduleFields and httpFields; an absent string is "". *)
Record scheduleFields := mkscheduleFields {
  sf_ScheduleKind : string;
  sf_PeriodS : option Z;
  sf_CronExpr : string;
  sf_TZ : string;
  sf_GraceS : option Z
}.

Record httpFields := mkhttpFields {
  hf_URL : string;
  hf_Method : string;
  hf_IntervalS : option Z;
  hf_TimeoutS : option Z;
  hf_FailThreshold : option Z;
  hf_HTTPConfig : string
}.

Record createMonitorRequest := mkcreateMonitorRequest {
  cmr_Kind : string;
  cmr_Name : string;
  cmr_AutoResume : option bool;
  cmr_Schedule : scheduleFields;
  cmr_HTTP : httpFields
}.

Record updateMonitorRequest := mkupdateMonitorRequest {
  umr_Name : option string;
  umr_AutoResume : option bool;
  umr_Schedule : scheduleFields;
  umr_HTTP : httpFields
}.

Definition no_schedule : scheduleFields := mkscheduleFields "" None "" "" None.
Definition no_http : httpFields := mkhttpFields "" "" None None None "".

(** The members of an embedded struct are decoded as the outer one's. *)
Definition embedded {T U} (get : T -> U) (set : U -> T -> T) (p : string * FieldDecoder U) : string * FieldDecoder T :=
  (p.1, fun text v x => u ← p.2 text v (get x); Some (set u x)).

Definition scheduleFields_fields : list (string * FieldDecoder scheduleFields) :=
  [("schedule_kind"%string, field_string (fun v f => mkscheduleFields v (sf_PeriodS f) (sf_CronExpr f) (sf_TZ f) (sf_GraceS f)));
   ("period_s"%string, field_int32_ptr (fun v f => mkscheduleFields (sf_ScheduleKind f) v (sf_CronExpr f) (sf_TZ f) (sf_GraceS f)));
   ("cron_expr"%string, field_string (fun v f => mkscheduleFields (sf_ScheduleKind f) (sf_PeriodS f) v (sf_TZ f) (sf_GraceS f)));
   ("tz"%string, field_string (fun v f => mkscheduleFields (sf_ScheduleKind f) (sf_PeriodS f) (sf_CronExpr f) v (sf_GraceS f)));
   ("grace_s"%string, field_int32_ptr (fun v f => mkscheduleFields (sf_ScheduleKind f) (sf_PeriodS f) (sf_CronExpr f) (sf_TZ f) v))].

Definition httpFields_fields : list (string * FieldDecoder httpFields) :=
  [("url"%string, field_string (fun v f =>
      mkhttpFields v (hf_Method f) (hf_IntervalS f) (hf_TimeoutS f) (hf_FailThreshold f) (hf_HTTPConfig f)));
   ("method"%string, field_string (fun v f =>
      mkhttpFields (hf_URL f) v (hf_IntervalS f) (hf_TimeoutS f) (hf_FailThreshold f) (hf_HTTPConfig f)));
   ("interval_s"%string, field_int32_ptr (fun v f =>
      mkhttpFields (hf_URL f) (hf_Method f) v (hf_TimeoutS f) (hf_FailThreshold f) (hf_HTTPConfig f)));
   ("timeout_s"%string, field_int32_ptr (fun v f =>
      mkhttpFields (hf_URL f) (hf_Method f) (hf_IntervalS f) v (hf_FailThreshold f) (hf_HTTPConfig f)));
   ("fail_threshold"%string, field_int32_ptr (fun v f =>
      mkhttpFields (hf_URL f) (hf_Method f) (hf_IntervalS f) (hf_TimeoutS f) v (hf_HTTPConfig f)));
   ("http_config"%string, field_raw (fun v f =>
      mkhttpFields (hf_URL f) (hf_Method f) (hf_IntervalS f) (hf_TimeoutS f) (hf_FailThreshold f) v))].

Definition createMonitorRequest_fields : list (string * FieldDecoder createMonitorRequest) :=
  [("kind"%string, field_string (fun v r => mkcreateMonitorRequest v (cmr_Name r) (cmr_AutoResume r) (cmr_Schedule r) (cmr_HTTP r)));
   ("name"%string, field_string (fun v r => mkcreateMonitorRequest (cmr_Kind r) v (cmr_AutoResume r) (cmr_Schedule r) (cmr_HTTP r)));
   ("auto_resume"%string, field_bool_ptr (fun v r =>
      mkcreateMonitorRequest (cmr_Kind r) (cmr_Name r) v (cmr_Schedule r) (cmr_HTTP r)))]
  ++ map (embedded cmr_Schedule (fun v r =>
       mkcreateMonitorRequest (cmr_Kind r) (cmr_Name r) (cmr_AutoResume r) v (cmr_HTTP r))) scheduleFields_fields
  ++ map (embedded cmr_HTTP (fun v r =>
       mkcreateMonitorRequest (cmr_Kind r) (cmr_Name r) (cmr_AutoResume r) (cmr_Schedule r) v)) httpFields_fields.

Definition updateMonitorRequest_fields : list (string * FieldDecoder updateMonitorRequest) :=
  [("name"%string, field_string_ptr (fun v r => mkupdateMonitorRequest v (umr_AutoResume r) (umr_Schedule r) (umr_HTTP r)));
   ("auto_resume"%string, field_bool_ptr (fun v r => mkupdateMonitorRequest (umr_Name r) v (umr_Schedule r) (umr_HTTP r)))]
  ++ map (embedded umr_Schedule (fun v r => mkupdateMonitorRequest (umr_Name r) (umr_AutoResume r) v (umr_HTTP r)))
       scheduleFields_fields
  ++ map (embedded umr_HTTP (fun v r => mkupdateMonitorRequest (umr_Name r) (umr_AutoResume r) (umr_Schedule r) v))
       httpFields_fields.

(** [decodeBoundedJSON]. *)
Definition decode_create (r : Request) : option createMonitorRequest :=
  decode_body createMonitorRequest_fields (mkcreateMonitorRequest "" "" None no_schedule no_http) maxMonitorBodyBytes r.

Definition decode_update (r : Request) : option updateMonitorRequest :=
  decode_body updateMonitorRequest_fields (mkupdateMonitorRequest None None no_schedule no_http) maxMonitorBodyBytes r.

Definition decode_describe (r : Request) : option scheduleFields :=
  decode_body scheduleFields_fields no_schedule maxMonitorBodyBytes r.

(** ** Validation *)

Definition scheduleConfigFromFields (f : scheduleFields) : Config :=
  mkConfig (sf_ScheduleKind f) (duration_s (sf_PeriodS f)) (sf_CronExpr f) (sf_TZ f) (duration_s (sf_GraceS f)).

Definition or_old (new old : string) : string := if String.eqb new "" then old else new.

(** A period takes the place of the cron expression, and the other way round. *)
Definition mergeScheduleConfig (existing : store_Monitor) (f : scheduleFields) : Config :=
  let old := scheduleConfigFromMonitor existing in
  let '(period, cron) :=
    match sf_PeriodS f with
    | Some p => (seconds p, ""%string)
    | None => (cfg_Period old, cfg_CronExpr old)
    end in
  let '(period, cron) := if String.eqb (sf_CronExpr f) "" then (period, cron) else (0, sf_CronExpr f) in
  mkConfig (or_old (sf_ScheduleKind f) (cfg_Kind old)) period cron (or_old (sf_TZ f) (cfg_TZ old))
    (match sf_GraceS f with Some g => seconds g | None => cfg_Grace old end).

Definition mergeHTTPFields (existing : store_Monitor) (f : httpFields) : httpFields :=
  mkhttpFields (or_old (hf_URL f) (sm_URL existing)) (or_old (hf_Method f) (sm_Method existing))
    (coalesce (hf_IntervalS f) (sm_IntervalS existing)) (coalesce (hf_TimeoutS f) (sm_TimeoutS existing))
    (coalesce (hf_FailThreshold f) (sm_FailThreshold existing)) (or_old (hf_HTTPConfig f) (sm_HTTPConfig existing)).

(** [url.Parse] up to the scheme: the text before the first colon, when it is
    a letter followed by letters, digits, '+', '-' and '.'.  [inl] is its
    error, a URL that starts with a colon. *)
Definition is_alpha (c : ascii) : bool :=
  let n := N_of_ascii c in ((97 <=? n) && (n <=? 122) || (65 <=? n) && (n <=? 90))%N.

Fixpoint scan_scheme (first : bool) (s : string) : unit + string :=
  match s with
  | EmptyString => inr ""
  | String c r =>
      if is_alpha c || negb first && (is_digit c || Ascii.eqb c "+" || Ascii.eqb c "-" || Ascii.eqb c ".") then
        match scan_scheme false r with
        | inr (String _ _ as t) => inr (String c t)
        | x => x
        end
      else if Ascii.eqb c ":" then if first then inl tt else inr ":"
      else inr ""
  end.

(** The scheme in lower case, without its colon; "" when there is none. *)
Fixpoint drop_colon (s : string) : string :=
  match s with
  | String ":" EmptyString | EmptyString => ""
  | String c r => String (lower c) (drop_colon r)
  end.

Definition url_Scheme `{Web} (s : string) : option string :=
  match scan_scheme true s with
  | inl _ => None
  | inr t => if url_rest_ok s then Some (drop_colon t) else None
  end.

Definition out_of_bounds (lo hi : Z) (v : option Z) : bool :=
  match v with Some n => (n <? lo) || (hi <? n) | None => false end.

(** [None]: the fields are accepted; else the response that was written. *)
Definition validateHTTPFields `{Web} (f : httpFields) : option Response :=
  if String.eqb (hf_URL f) "" then Some (writeFieldError "url" "url is required")
  else if match url_Scheme (hf_URL f) with
          | Some scheme => negb (String.eqb scheme "http") && negb (String.eqb scheme "https")
          | None => true
          end then Some (writeFieldError "url" "must be a valid http or https URL")
  else if negb (String.eqb (hf_Method f) "") && negb (String.eqb (hf_Method f) "GET")
          && negb (String.eqb (hf_Method f) "HEAD") then
    Some (writeFieldError "method" ("must be " +:+ Quote "GET" +:+ " or " +:+ Quote "HEAD"))
  else if out_of_bounds minIntervalS maxIntervalS (hf_IntervalS f) then
    Some (writeFieldError "interval_s" "must be between 30 and 86400 seconds")
  else if out_of_bounds minTimeoutS maxTimeoutS (hf_TimeoutS f) then
    Some (writeFieldError "timeout_s" "must be between 1 and 30 seconds")
  else if negb (String.eqb (hf_HTTPConfig f) "") && negb (json_Valid (hf_HTTPConfig f)) then
    Some (writeFieldError "http_config" "must be valid JSON")
  else None.

(** [errors.AsType[*schedule.ValidationError]]. *)
Fixpoint as_ValidationError (e : error) : option (string * string) :=
  match e with
  | EValidation f m => Some (f, m)
  | EHttp e _ | EWrap _ e => as_ValidationError e
  | _ => None
  end.

Definition writeScheduleValidationError (err : error) : Response :=
  match as_ValidationError err with
  | Some (field, message) => writeFieldError field message
  | None => writeJSON 422 (Some (errorResponse (error_text err)))
  end.

Section validate.
Context `{Extern} `{Web}.

(** A JSON text, as the []byte parameter of a JSONB column: nil is NULL. *)
Definition raw_bytes (text : string) : option string := textOrNull text.

(** [inl]: refused with that response; the caller sets UserID. *)
Definition validateCreate (userID : string) (req : createMonitorRequest) : Response + store_CreateMonitorParams :=
  let s := cmr_Schedule req in
  let h := cmr_HTTP req in
  if String.eqb (cmr_Name req) "" then inl (writeFieldError "name" "name is required")
  else if String.eqb (cmr_Kind req) "heartbeat" then
    match Validate (scheduleConfigFromFields s) with
    | Some err => inl (writeScheduleValidationError err)
    | None =>
        if negb (String.eqb (hf_URL h) "") || negb (String.eqb (hf_Method h) "") then
          inl (writeFieldError "url" "must be empty for a heartbeat monitor")
        else inr (mk_store_CreateMonitorParams userID (cmr_Kind req) (cmr_Name req) (sf_ScheduleKind s) (sf_PeriodS s)
                    (sf_CronExpr s) (sf_TZ s) (sf_GraceS s) "" "" None None None None (cmr_AutoResume req))
    end
  else if String.eqb (cmr_Kind req) "http" then
    match validateHTTPFields h with
    | Some resp => inl resp
    | None =>
        if negb (String.eqb (sf_ScheduleKind s) "") || negb (String.eqb (sf_CronExpr s) "") then
          inl (writeFieldError "schedule_kind" "must be empty for an http monitor")
        else inr (mk_store_CreateMonitorParams userID (cmr_Kind req) (cmr_Name req) "" None "" "" None (hf_URL h)
                    (hf_Method h) (hf_IntervalS h) (hf_TimeoutS h) (hf_FailThreshold h)
                    (raw_bytes (hf_HTTPConfig h)) (cmr_AutoResume req))
    end
  else inl (writeFieldError "kind" ("must be " +:+ Quote "heartbeat" +:+ " or " +:+ Quote "http")).

Definition schedule_fields_set (f : scheduleFields) : bool :=
  negb (String.eqb (sf_ScheduleKind f) "") || bool_decide (is_Some (sf_PeriodS f))
  || negb (String.eqb (sf_CronExpr f) "") || negb (String.eqb (sf_TZ f) "") || bool_decide (is_Some (sf_GraceS f)).

Definition http_fields_set (f : httpFields) : bool :=
  negb (String.eqb (hf_URL f) "") || negb (String.eqb (hf_Method f) "") || bool_decide (is_Some (hf_IntervalS f))
  || bool_decide (is_Some (hf_TimeoutS f)) || bool_decide (is_Some (hf_FailThreshold f))
  || negb (String.eqb (hf_HTTPConfig f) "").

(** The parameters of an update that carries these fields; [no_schedule] and
    [no_http] are the groups that are not copied. *)
Definition update_of (name : option string) (s : scheduleFields) (h : httpFields) (autoResume : option bool)
    : store_UpdateMonitorParams :=
  mk_store_UpdateMonitorParams (default "" name) (sf_ScheduleKind s) (sf_PeriodS s) (sf_CronExpr s) (sf_TZ s)
    (sf_GraceS s) (hf_URL h) (hf_Method h) (hf_IntervalS h) (hf_TimeoutS h) (hf_FailThreshold h)
    (raw_bytes (hf_HTTPConfig h)) autoResume.

Definition validateUpdate (existing : store_Monitor) (req : updateMonitorRequest)
    : Response + store_UpdateMonitorParams :=
  let s := umr_Schedule req in
  let h := umr_HTTP req in
  let params s h := inr (update_of (umr_Name req) s h (umr_AutoResume req)) in
  if bool_decide (umr_Name req = Some ""%string) then inl (writeFieldError "name" "name must not be empty")
  else if String.eqb (sm_Kind existing) "heartbeat" then
    if http_fields_set h then inl (writeFieldError "url" "must not be set on a heartbeat monitor")
    else if schedule_fields_set s then
      match Validate (mergeScheduleConfig existing s) with
      | Some err => inl (writeScheduleValidationError err)
      | None => params s no_http
      end
    else params no_schedule no_http
  else if String.eqb (sm_Kind existing) "http" then
    if schedule_fields_set s then inl (writeFieldError "schedule_kind" "must not be set on an http monitor")
    else if http_fields_set h then
      match validateHTTPFields (mergeHTTPFields existing h) with
      | Some resp => inl resp
      | None => params no_schedule h
      end
    else params no_schedule no_http
  else params no_schedule no_http.
End validate.

(** ** Handlers *)

Section handlers.
Context `{Extern}.
Context `{Web} (deps : Deps).

(** [v, err := p; if err != nil { writeError(w, r, err); return }]. *)
Definition or_writeError {A} (p : Prog A) (k : A -> Prog Response) : Prog Response :=
  let! r := attempt p in
  match r with
  | Err err => ret (writeError err)
  | Ok a => k a
  end.

Definition monitor_json (status : Z) (m : store_Monitor) : Prog Response :=
  ret (writeJSON status (Some (monitorResponse_json (toMonitorResponse m (dp_BaseURL deps))))).

Definition monitor_create (r : Request) (userID : string) : Prog Response :=
  match decode_create r with
  | None => ret invalid_body
  | Some req =>
      match validateCreate userID req with
      | inl resp => ret resp
      | inr params => or_writeError (CreateMonitor params) (monitor_json 201)
      end
  end.

Definition dailyStatsWindowDays : Z := 90.

(** [time.Now().AddDate(0, 0, -(dailyStatsWindowDays - 1))], in UTC. *)
Definition stats_since : Prog Time :=
  let! now := time_Now in ret (now - (dailyStatsWindowDays - 1) * Day).

Definition stats_of (stats : gmap string (list store_DailyStat)) (m : store_Monitor) : list store_DailyStat :=
  default [] (stats !! sm_ID m).

Definition monitor_get (id userID : string) : Prog Response :=
  or_writeError (GetMonitor id userID) (fun m =>
    let! since := stats_since in
    or_writeError (ListDailyStats [sm_ID m] since) (fun stats =>
      ret (writeJSON 200 (Some (monitorResponse_json
        (with_stats (stats_of stats m) (toMonitorResponse m (dp_BaseURL deps)))))))).

Definition bad_request (message : string) : Response := writeJSON 400 (Some (errorResponse message)).

(** [eventPageLimit], and the same code of the list handler. *)
Definition eventPageLimit (r : Request) : option Z :=
  let raw := rq_Query r "limit" in
  if String.eqb raw "" then Some defaultPageLimit else parseBoundedInt raw 1 maxPageLimit.

Definition known_display_state (s : string) : bool :=
  existsb (String.eqb s) ["up"; "down"; "late"; "new"; "paused"]%string.

Definition monitor_list (r : Request) (userID : string) : Prog Response :=
  match eventPageLimit r with
  | None => ret (bad_request "invalid limit")
  | Some limit =>
      let kind := rq_Query r "kind" in
      let state := rq_Query r "state" in
      if negb (String.eqb kind "") && negb (String.eqb kind "heartbeat") && negb (String.eqb kind "http") then
        ret (bad_request "invalid kind")
      else if negb (String.eqb state "") && negb (known_display_state state) then ret (bad_request "invalid state")
      else
        or_writeError (ListMonitors userID (rq_Query r "cursor") limit
                         (mkListMonitorsFilter (rq_Query r "q") kind state)) (fun page =>
          let respond stats :=
            ret (writeJSON 200 (Some (monitorListResponse_json (mkmonitorListResponse
              (map (fun m => with_stats (stats_of stats m) (toMonitorResponse m (dp_BaseURL deps))) (mp_Monitors page))
              (mp_NextCursor page))))) in
          match mp_Monitors page with
          | [] => respond ∅
          | ms =>
              let! since := stats_since in
              or_writeError (ListDailyStats (map sm_ID ms) since) respond
          end)
  end.

Definition monitor_update (r : Request) (id userID : string) : Prog Response :=
  or_writeError (GetMonitor id userID) (fun existing =>
    match decode_update r with
    | None => ret invalid_body
    | Some req =>
        match validateUpdate existing req with
        | inl resp => ret resp
        | inr params => or_writeError (UpdateMonitor id userID params) (monitor_json 200)
        end
    end).

Definition monitor_delete (id userID : string) : Prog Response :=
  or_writeError (GetMonitor id userID) (fun _ =>
    or_writeError (DeleteMonitor id userID) (fun _ => ret (writeJSON 204 None))).

Definition nextRunsCount : nat := 3.

(** The loop of the preview: it stops at the first error. *)
Fixpoint next_runs (n : nat) (cfg : Config) (from now : Time) : list Time :=
  match n with
  | O => []
  | S n' => match NextOccurrence cfg from now with
            | Ok occ => occ :: next_runs n' cfg occ now
            | Err _ => []
            end
  end.

Definition describeSchedule (r : Request) : Prog Response :=
  match decode_describe r with
  | None => ret invalid_body
  | Some req =>
      let cfg := scheduleConfigFromFields req in
      match Describe cfg with
      | None => throw (EMsg "index out of range")
      | Some (Err err) => ret (writeScheduleValidationError err)
      | Some (Ok description) =>
          if String.eqb (cfg_Kind cfg) KindCron then
            let! now := time_Now in
            ret (writeJSON 200 (Some (describeResponse_json (mkdescribeResponse description (next_runs nextRunsCount cfg zero_time now)))))
          else ret (writeJSON 200 (Some (describeResponse_json (mkdescribeResponse description []))))
      end
  end.

(** *** Flags and feeds (server/events.go) *)

Definition mutateMonitor (mutate : string -> string -> Prog store_Monitor) (id userID : string) : Prog Response :=
  or_writeError (GetMonitor id userID) (fun _ => or_writeError (mutate id userID) (monitor_json 200)).

Definition monitor_pause : string -> string -> Prog Response := mutateMonitor PauseMonitor.
Definition monitor_resume : string -> string -> Prog Response :=
  mutateMonitor (fun id userID => let! now := time_Now in ResumeMonitor id userID now).
Definition monitor_mute : string -> string -> Prog Response := mutateMonitor MuteMonitor.
Definition monitor_unmute : string -> string -> Prog Response := mutateMonitor UnmuteMonitor.

Definition limit_or_400 (r : Request) (k : Z -> Prog Response) : Prog Response :=
  match eventPageLimit r with
  | None => ret (bad_request "invalid limit")
  | Some limit => k limit
  end.

Definition listEvents (r : Request) (userID : string) : Prog Response :=
  limit_or_400 r (fun limit =>
    or_writeError (ListEventsByUser userID (rq_Query r "monitor") (rq_Query r "type") (rq_Query r "cursor") limit)
      (fun page => ret (writeJSON 200 (Some (eventListResponse_json (page_response toEventResponse page)))))).

Definition listMonitorEvents (r : Request) (id userID : string) : Prog Response :=
  or_writeError (GetMonitor id userID) (fun _ =>
    limit_or_400 r (fun limit =>
      or_writeError (ListEventsByMonitor id (rq_Query r "type") (rq_Query r "cursor") limit)
        (fun page => ret (writeJSON 200 (Some (eventListResponse_json (page_response toEventResponse page))))))).

Definition listMonitorCheckins (r : Request) (id userID : string) : Prog Response :=
  or_writeError (GetMonitor id userID) (fun _ =>
    limit_or_400 r (fun limit =>
      or_writeError (ListCheckinsByMonitor id (rq_Query r "cursor") limit)
        (fun page => ret (writeJSON 200 (Some (checkinListResponse_json (page_response toCheckinResponse page))))))).

Definition listMonitorProbeResults (r : Request) (id userID : string) : Prog Response :=
  or_writeError (GetMonitor id userID) (fun _ =>
    let outcome := rq_Query r "outcome" in
    if negb (String.eqb outcome "") && negb (String.eqb outcome "success") && negb (String.eqb outcome "fail") then
      ret (bad_request "invalid outcome")
    else limit_or_400 r (fun limit =>
      or_writeError (ListProbeResultsByMonitor id outcome (rq_Query r "cursor") limit)
        (fun page => ret (writeJSON 200 (Some (probeResultListResponse_json (page_response toProbeResultResponse page))))))).

(** The windows of the chart: how far back, and the bucket in seconds. *)
Definition latencyWindows : list (string * (Duration * Z)) :=
  [("24h", (24 * Hour, 5 * 60)); ("7d", (7 * 24 * Hour, 60 * 60)); ("30d", (30 * 24 * Hour, 6 * 60 * 60))]%string.

Definition latencyWindow (window : string) : option (Duration * Z) :=
  snd <$> find (fun x => String.eqb x.1 window) latencyWindows.

Definition getMonitorLatencySeries (r : Request) (id userID : string) : Prog Response :=
  or_writeError (GetMonitor id userID) (fun _ =>
    let window := if String.eqb (rq_Query r "window") "" then "24h"%string else rq_Query r "window" in
    match latencyWindow window with
    | None => ret (bad_request "invalid window")
    | Some (lookback, bucket) =>
        let! now := time_Now in
        or_writeError (LatencySeriesByMonitor id (time_Add now (- lookback)) bucket) (fun buckets =>
          ret (writeJSON 200 (Some (latencySeriesResponse_json
            (mklatencySeriesResponse window (map toLatencyPoint buckets))))))
    end).
End handlers.
