(* ===== verification/Server.v ===== *)
(** * Server: ingest, health and the endpoints (server/checkin.go, health.go, server.go)

    The public ping endpoints, /health, and [serve]: every registered endpoint
    behind the middleware [New] puts in front of it.  [Endpoint] is the
    registered routes with their URL parameters; Routes.v has the paths they
    are registered under. *)
From S2P Require Import Prelude GoLib Json Models Extern Store Logic Demo Convert Checkin Monitor Session User RateLimit.
From S2P Require Import Http AuthApi Responses MonitorApi.
Local Open Scope Z_scope.
Local Open Scope ping_scope.

(** ** Pings (server/checkin.go) *)

Definition maxCheckinBody : Z := 10240.
Definition pingRateLimit : Z := 120.
Definition pingRateWindow : Duration := Minute.

Definition readTruncatedBody (r : Request) : string := String.substring 0 (Z.to_nat maxCheckinBody) (rq_Body r).

Definition writeCheckinOK (r : Request) : Response :=
  mkResponse 200 [("Content-Type", "text/plain; charset=utf-8")]%string []
    (if String.eqb (rq_Method r) "HEAD" then BNone else BText "OK").

Section checkin.
Context `{Extern} `{Clock} (limiter : Limiter).

(** The outcome of RecordCheckin is only logged. *)
Definition ingest (slug : string) (kind : string) (r : Request) : Prog Response :=
  let ip := clientIP r in
  rate_limited limiter ("rate:ping:" +:+ ip) pingRateLimit pingRateWindow (
    let body := if String.eqb (rq_Method r) "HEAD" then ""%string else readTruncatedBody r in
    let! now := testclock_Now in
    let! _ := attempt (RecordCheckin (mkRecordCheckinParams slug kind ip (rq_UserAgent r) body now)) in
    ret (writeCheckinOK r)).

Definition checkin_success (slug : string) : Request -> Prog Response := ingest slug CheckinSuccess.
Definition checkin_start (slug : string) : Request -> Prog Response := ingest slug CheckinStart.
Definition checkin_fail (slug : string) : Request -> Prog Response := ingest slug CheckinFail.

Definition exit_kind (code : string) : string :=
  match Atoi code with
  | Some n => if n =? 0 then CheckinSuccess else CheckinFail
  | None => CheckinSuccess
  end.

Definition checkin_exitCode (slug code : string) : Request -> Prog Response := ingest slug (exit_kind code).
End checkin.

(** ** Health (server/health.go) *)

Definition heartbeatStaleAfter : Duration := 60 * Second.

(** The answer of a GET: the value, no such key, or an error. *)
Inductive RedisGet := GetValue (v : string) | GetNil | GetError (e : string).

(** What /health asks of Postgres and Redis: [None] is a nil pool or client,
    [Some None] a ping that succeeds. *)
Record Backends := mkBackends {
  bk_DB : option (option string);
  bk_Redis : option (option string);
  bk_Get : string -> RedisGet
}.

Record componentStatus := mkcomponentStatus { cs_Status : string; cs_Error : string }.

(** [time.Unix(sec, 0)]: the seconds since year 1 are an int64. *)
Definition time_Unix (sec : Z) : Time := (wrap64 (sec + 62135596800) - 62135596800) * Second.

(** [d.String()] of a positive whole number of seconds. *)
Definition Duration_String (d : Duration) : string :=
  let s := d / Second in
  (if 3600 <=? s then FormatInt (s / 3600) +:+ "h" else "") +:+
  (if 60 <=? s then FormatInt (s / 60 mod 60) +:+ "m" else "") +:+ FormatInt (s mod 60) +:+ "s".

Definition workerHeartbeatStatus (get : string -> RedisGet) (role : string) : Prog (componentStatus * bool) :=
  match get ("worker:heartbeat:" +:+ role) with
  | GetNil => ret (mkcomponentStatus "unknown" "", true)
  | GetError e => ret (mkcomponentStatus "unknown" e, true)
  | GetValue raw =>
      match ParseInt lim64 raw with
      | None => ret (mkcomponentStatus "unknown" "invalid heartbeat value", true)
      | Some ts =>
          let! now := time_Now in
          let age := time_Sub now (time_Unix ts) in
          if heartbeatStaleAfter <? age then
            ret (mkcomponentStatus "down"
                   ("last tick " +:+ Duration_String (age - age mod Second) +:+ " ago"), false)
          else ret (mkcomponentStatus "up" "", true)
      end
  end.

Definition ping_status (p : option string) : componentStatus :=
  match p with None => mkcomponentStatus "up" "" | Some e => mkcomponentStatus "down" e end.

Definition componentStatus_json (c : componentStatus) : Json :=
  JObj (("status"%string, JStr (cs_Status c)) :: opt_str "error" (cs_Error c)).

(** The components (the encoder sorts them by name), and whether the overall
    status is "ok". *)
Definition health_components (b : Backends) : Prog (list (string * componentStatus) * bool) :=
  let '(pg, ok) := match bk_DB b with
                   | None => ([], true)
                   | Some p => ([("postgres"%string, ping_status p)], negb (bool_decide (is_Some p)))
                   end in
  match bk_Redis b with
  | None => ret (pg, ok)
  | Some (Some e) => ret (pg ++ [("redis"%string, ping_status (Some e))], ok)
  | Some None =>
      for_range (fun '(cs, ok) role =>
          let! c := workerHeartbeatStatus (bk_Get b) role in
          ret (cs ++ [(role, c.1)], ok && c.2))
        (pg ++ [("redis"%string, ping_status None)], ok) ["scheduler"; "prober"; "alerter"]%string
  end.

Definition healthHandler (b : Backends) : Prog Response :=
  let! h := health_components b in
  let '(components, ok) := h in
  ret (writeJSON (if ok then 200 else 503)
        (Some (JObj [("status"%string, JStr (if ok then "ok" else "degraded")%string);
                     ("components"%string, JObj (map (fun c => (c.1, componentStatus_json c.2)) components))]))).

(** ** The endpoints (server/server.go) *)

Inductive Endpoint :=
| EpHealth
| EpRegister | EpLogin | EpRefresh | EpLogout
| EpPing (slug : string) | EpPingStart (slug : string) | EpPingFail (slug : string) | EpPingCode (slug code : string)
| EpDescribe | EpSendTest | EpEvents
| EpCreateMonitor | EpListMonitors | EpGetMonitor (id : string) | EpUpdateMonitor (id : string)
| EpDeleteMonitor (id : string)
| EpPause (id : string) | EpResume (id : string) | EpMute (id : string) | EpUnmute (id : string)
| EpMonitorEvents (id : string) | EpMonitorCheckins (id : string) | EpMonitorProbes (id : string) | EpMonitorLatency (id : string)
| EpCreateKey | EpListKeys | EpRevokeKey (id : string).

Section server.
Context `{Extern} `{Clock} `{Jwt} `{Web} (deps : Deps) (limiter : Limiter) (backends : Backends).

(** The handlers behind the JWT-or-key middleware, and those behind the
    JWT-only one; [None] is a public endpoint. *)
Definition api_handler (e : Endpoint) (r : Request) : option (string -> Prog Response) :=
  match e with
  | EpDescribe => Some (fun _ => describeSchedule r)
  | EpSendTest => Some (sendTest deps)
  | EpEvents => Some (listEvents r)
  | EpCreateMonitor => Some (monitor_create deps r)
  | EpListMonitors => Some (monitor_list deps r)
  | EpGetMonitor id => Some (monitor_get deps id)
  | EpUpdateMonitor id => Some (monitor_update deps r id)
  | EpDeleteMonitor id => Some (monitor_delete id)
  | EpPause id => Some (monitor_pause deps id)
  | EpResume id => Some (monitor_resume deps id)
  | EpMute id => Some (monitor_mute deps id)
  | EpUnmute id => Some (monitor_unmute deps id)
  | EpMonitorEvents id => Some (listMonitorEvents r id)
  | EpMonitorCheckins id => Some (listMonitorCheckins r id)
  | EpMonitorProbes id => Some (listMonitorProbeResults r id)
  | EpMonitorLatency id => Some (getMonitorLatencySeries r id)
  | _ => None
  end.

Definition key_handler (e : Endpoint) (r : Request) : option (string -> Prog Response) :=
  match e with
  | EpCreateKey => Some (apikey_create r)
  | EpListKeys => Some apikey_list
  | EpRevokeKey id => Some (apikey_revoke id)
  | _ => None
  end.

Definition public_handler (e : Endpoint) (r : Request) : Prog Response :=
  match e with
  | EpHealth => healthHandler backends
  | EpRegister => auth_register deps limiter r
  | EpLogin => auth_login deps limiter r
  | EpRefresh => auth_refresh deps r
  | EpLogout => auth_logout deps r
  | EpPing slug => checkin_success limiter slug r
  | EpPingStart slug => checkin_start limiter slug r
  | EpPingFail slug => checkin_fail limiter slug r
  | EpPingCode slug code => checkin_exitCode limiter slug code r
  | _ => ret (mkResponse 404 [] [] BNone)
  end.

Definition handler (e : Endpoint) (r : Request) : Prog Response :=
  match api_handler e r, key_handler e r with
  | Some h, _ => requireAuthOrAPIKey limiter h r
  | None, Some h => requireAuth h r
  | None, None => public_handler e r
  end.

(** The middleware of every route.  Logging is left out: it writes nothing to
    the response. *)
Definition middlewares (r : Request) (next : Prog Response) : Prog Response :=
  requestIDMiddleware (
    recoverMiddleware (securityHeaders r ++ corsHeaders (dp_AllowedOrigin deps) r) (
      securityHeadersMiddleware r (corsMiddleware (dp_AllowedOrigin deps) r next))).

Definition serve (e : Endpoint) (r : Request) : Prog Response := middlewares r (handler e r).
End server.
