(* ===== verification/EnvConfig.v ===== *)
(** * EnvConfig: the process configuration (internal/config/config.go)

    [Load] reads the environment, a function from names to values with "" for
    an unset variable ([os.Getenv]); [emailChannel] and [server_deps] are how
    main turns the configuration into the alert channel and the server's
    dependencies.  [time.ParseDuration] multiplies the fraction of a component
    in float64; here the product is exact. *)
From S2P Require Import Prelude GoLib NetAddr Models Extern Store User Mime Alert Alerter Http ProbeWorker.
Local Open Scope Z_scope.

(** ** Parsers of the standard library *)

(** [strconv.ParseBool]. *)
Definition ParseBool (s : string) : option bool :=
  if existsb (String.eqb s) ["1"; "t"; "T"; "TRUE"; "true"; "True"]%string then Some true
  else if existsb (String.eqb s) ["0"; "f"; "F"; "FALSE"; "false"; "False"]%string then Some false
  else None.

Definition two63 : Z := 9223372036854775808.

Definition digit_value (c : ascii) : Z := Z.of_N (N_of_ascii c) - 48.

(** [leadingInt]: the leading digits, and the rest; [None] on overflow. *)
Fixpoint leadingInt (x : Z) (s : string) : option (Z * string) :=
  match s with
  | String c r =>
      if is_digit c then
        if two63 / 10 <? x then None
        else let x := x * 10 + digit_value c in if two63 <? x then None else leadingInt x r
      else Some (x, s)
  | EmptyString => Some (x, s)
  end.

(** [leadingFraction]: digits beyond the precision are skipped. *)
Fixpoint leadingFraction (overflow : bool) (x scale : Z) (s : string) : Z * Z * string :=
  match s with
  | String c r =>
      if is_digit c then
        if overflow || ((two63 - 1) / 10 <? x) then leadingFraction true x scale r
        else let y := x * 10 + digit_value c in
             if two63 <? y then leadingFraction true x scale r
             else leadingFraction false y (scale * 10) r
      else (x, scale, s)
  | EmptyString => (x, scale, s)
  end.

(** The text of a unit ends at a digit or a period. *)
Fixpoint span_unit (s : string) : string * string :=
  match s with
  | String c r => if is_digit c || Ascii.eqb c "." then ("", s)
                  else let '(u, rest) := span_unit r in (String c u, rest)
  | EmptyString => ("", "")
  end.

(** U+00B5 and U+03BC *)
Definition micro_units : list string :=
  ["us"%string; String "194" (String "181" "s"); String "206" (String "188" "s")].

Definition unitMap (u : string) : option Z :=
  if String.eqb u "ns" then Some 1
  else if existsb (String.eqb u) micro_units then Some 1000
  else if String.eqb u "ms" then Some 1000000
  else if String.eqb u "s" then Some Second
  else if String.eqb u "m" then Some Minute
  else if String.eqb u "h" then Some Hour
  else None.

(** One component: digits, a fraction, a unit. *)
Definition duration_component (s : string) : option (Z * string) :=
  match s with
  | String c _ =>
      if negb (is_digit c || Ascii.eqb c ".") then None else
      '(v, r) ← leadingInt 0 s;
      let pre := is_digit c in
      let '(f, scale, r2, post) :=
        match r with
        | String "." r1 =>
            let '(f, scale, r2) := leadingFraction false 0 1 r1 in
            (f, scale, r2, negb (Nat.eqb (String.length r2) (String.length r1)))
        | _ => (0, 1, r, false)
        end in
      if negb pre && negb post then None else
      let '(u, rest) := span_unit r2 in
      if String.eqb u "" then None else
      unit ← unitMap u;
      if two63 / unit <? v then None else
      let v := v * unit + f * unit / scale in
      if two63 <? v then None else Some (v, rest)
  | EmptyString => None
  end.

(** The loop over the components; every one takes a byte, so the length of the
    text is enough fuel. *)
Fixpoint duration_components (fuel : nat) (d : Z) (s : string) : option Z :=
  match s, fuel with
  | EmptyString, _ => Some d
  | _, O => None
  | _, S fuel =>
      '(v, r) ← duration_component s;
      if two63 <? d + v then None else duration_components fuel (d + v) r
  end.

(** [time.ParseDuration]. *)
Definition ParseDuration (orig : string) : option Duration :=
  let '(neg, s) := match orig with
                   | String "-" r => (true, r)
                   | String "+" r => (false, r)
                   | _ => (false, orig)
                   end in
  if String.eqb s "0" then Some 0
  else if String.eqb s "" then None
  else
    d ← duration_components (String.length s) 0 s;
    if neg then Some (wrap64 (- d)) else if two63 - 1 <? d then None else Some d.

Example ParseDuration_examples :
  ParseDuration "15m" = Some (15 * Minute) /\ ParseDuration "720h" = Some (720 * Hour) /\
  ParseDuration "1.5h" = Some (90 * Minute) /\ ParseDuration "-1m30s" = Some (- 90 * Second) /\
  ParseDuration "15" = None /\ ParseDuration ".s" = None /\ ParseDuration "9223372036854775808ns" = None.
Proof. vm_compute. repeat split. Qed.

(** ** Config *)

Record config_Config := mk_config_Config {
  cf_Port : Z;
  cf_Env : string;
  cf_BaseURL : string;
  cf_DatabaseURL : string;
  cf_RedisURL : string;
  cf_CORSAllowedOrigin : string;
  cf_JWTPrivateKeyPath : string;
  cf_JWTPublicKeyPath : string;
  cf_JWTAccessTTL : Duration;
  cf_JWTRefreshTTL : Duration;
  cf_RegistrationOpen : bool;
  cf_SMTP : EmailConfig;
  cf_SSRFAllowlist : list Prefix;
  cf_RetentionDays : Z
}.

Section load.
Context (getenv : string -> string).

(** A variable's value, or the message of the error about it. *)
Definition Setting (A : Type) : Type := A + string.

Definition env_require (name : string) : Setting string :=
  let v := getenv name in
  if String.eqb v "" then inr ("config: required environment variable " +:+ name +:+ " is not set") else inl v.

Definition must_be (name what v : string) : string :=
  "config: environment variable " +:+ name +:+ " must be " +:+ what +:+ ", got " +:+ Quote v.

(** [require], then a parser. *)
Definition require_parsed {A} (parse : string -> option A) (what name : string) : Setting A :=
  match env_require name with
  | inr e => inr e
  | inl v => match parse v with Some a => inl a | None => inr (must_be name what v) end
  end.

Definition requireInt : string -> Setting Z := require_parsed Atoi "an integer".
Definition requireDuration : string -> Setting Duration := require_parsed ParseDuration "a duration".
Definition requireBool : string -> Setting bool := require_parsed ParseBool "a boolean".

Definition optionalInt (name : string) (def : Z) : Setting Z :=
  let v := getenv name in
  if String.eqb v "" then inl def
  else match Atoi v with Some n => inl n | None => inr (must_be name "an integer" v) end.

(** [netip.PrefixFrom(addr, addr.BitLen())]: a prefix has no zone. *)
Definition host_prefix (a : Addr) : Prefix :=
  mkPrefix (match a with V4 v => V4 v | V6 v _ => V6 v "" end) (addr_BitLen a).

Definition allow_entry (entry : string) : option Prefix :=
  match ParsePrefix entry with
  | Some p => Some p
  | None => host_prefix <$> ParseAddr entry
  end.

Fixpoint parse_entries (entries : list string) : Setting (list Prefix) :=
  match entries with
  | [] => inl []
  | e :: rest =>
      let e := TrimSpace e in
      if String.eqb e "" then parse_entries rest
      else match allow_entry e with
           | None => inr ("config: SSRF_ALLOWLIST entry " +:+ Quote e +:+ " is not a valid IP or CIDR")
           | Some p => match parse_entries rest with
                       | inl ps => inl (p :: ps)
                       | inr err => inr err
                       end
           end
  end.

Definition parseAllowlist (v : string) : Setting (list Prefix) :=
  if String.eqb v "" then inl [] else parse_entries (split_on "," v).

Definition and_then {A B} (x : Setting A) (k : A -> Setting B) : Setting B :=
  match x with inl a => k a | inr e => inr e end.

Definition Load : Setting config_Config :=
  and_then (requireInt "PING_PORT") (fun port =>
  and_then (env_require "PING_ENV") (fun env =>
  and_then (env_require "PING_BASE_URL") (fun baseURL =>
  and_then (env_require "DATABASE_URL") (fun databaseURL =>
  and_then (env_require "REDIS_URL") (fun redisURL =>
  and_then (env_require "CORS_ALLOWED_ORIGIN") (fun origin =>
  and_then (env_require "JWT_PRIVATE_KEY_PATH") (fun privPath =>
  and_then (env_require "JWT_PUBLIC_KEY_PATH") (fun pubPath =>
  and_then (requireDuration "JWT_ACCESS_TTL") (fun accessTTL =>
  and_then (requireDuration "JWT_REFRESH_TTL") (fun refreshTTL =>
  and_then (requireBool "REGISTRATION_OPEN") (fun registrationOpen =>
  and_then (optionalInt "SMTP_PORT" 587) (fun smtpPort =>
  and_then (parseAllowlist (getenv "SSRF_ALLOWLIST")) (fun allowlist =>
  and_then (optionalInt "RETENTION_DAYS" 90) (fun retentionDays =>
    inl (mk_config_Config port env baseURL databaseURL redisURL origin privPath pubPath accessTTL refreshTTL
           registrationOpen
           (mkEmailConfig (getenv "SMTP_HOST") smtpPort (getenv "SMTP_USERNAME") (getenv "SMTP_PASSWORD")
              (getenv "SMTP_FROM"))
           allowlist retentionDays))))))))))))))).
End load.

(** ** Wiring (cmd/ping/main.go) *)

(** [send] is the delivery of the e-mail channel with these settings. *)
Definition emailChannel (send : EmailConfig -> Channel) (smtp : EmailConfig) : option Channel :=
  if negb (configured smtp) then None else Some (send smtp).

Definition server_deps (send : EmailConfig -> Channel) (cfg : config_Config) : Deps :=
  mkDeps (cf_CORSAllowedOrigin cfg) (cf_BaseURL cfg) (cf_JWTAccessTTL cfg) (cf_JWTRefreshTTL cfg)
    (cf_RegistrationOpen cfg) (String.eqb (cf_Env cfg) "production") (String.eqb (cf_Env cfg) "test")
    (emailChannel send (cf_SMTP cfg)).

(** ** What Load accepts *)

Section spec.
Context (getenv : string -> string).

Definition setting_error {A} (s : Setting A) : option string := match s with inl _ => None | inr e => Some e end.

(** The variables Load checks, in its order, each with what is wrong with it. *)
Definition settings : list (string * option string) :=
  [("PING_PORT"%string, setting_error (requireInt getenv "PING_PORT"));
   ("PING_ENV"%string, setting_error (env_require getenv "PING_ENV"));
   ("PING_BASE_URL"%string, setting_error (env_require getenv "PING_BASE_URL"));
   ("DATABASE_URL"%string, setting_error (env_require getenv "DATABASE_URL"));
   ("REDIS_URL"%string, setting_error (env_require getenv "REDIS_URL"));
   ("CORS_ALLOWED_ORIGIN"%string, setting_error (env_require getenv "CORS_ALLOWED_ORIGIN"));
   ("JWT_PRIVATE_KEY_PATH"%string, setting_error (env_require getenv "JWT_PRIVATE_KEY_PATH"));
   ("JWT_PUBLIC_KEY_PATH"%string, setting_error (env_require getenv "JWT_PUBLIC_KEY_PATH"));
   ("JWT_ACCESS_TTL"%string, setting_error (requireDuration getenv "JWT_ACCESS_TTL"));
   ("JWT_REFRESH_TTL"%string, setting_error (requireDuration getenv "JWT_REFRESH_TTL"));
   ("REGISTRATION_OPEN"%string, setting_error (requireBool getenv "REGISTRATION_OPEN"));
   ("SMTP_PORT"%string, setting_error (optionalInt getenv "SMTP_PORT" 587));
   ("SSRF_ALLOWLIST"%string, setting_error (parseAllowlist (getenv "SSRF_ALLOWLIST")));
   ("RETENTION_DAYS"%string, setting_error (optionalInt getenv "RETENTION_DAYS" 90))].

(** The first variable with something wrong. *)
Definition first_problem : option (string * string) :=
  foldr (fun x acc => match x.2 with Some e => Some (x.1, e) | None => acc end) None settings.

(** A required variable, by its parser. *)
Definition required {A} (parse : string -> option A) (name : string) (a : A) : Prop :=
  getenv name <> "" /\ parse (getenv name) = Some a.

Definition optional (name : string) (def n : Z) : Prop :=
  getenv name = "" /\ n = def \/ getenv name <> "" /\ Atoi (getenv name) = Some n.

(** What a configuration holds of the environment. *)
Definition loaded (cfg : config_Config) : Prop :=
  required Atoi "PING_PORT" (cf_Port cfg) /\ required Some "PING_ENV" (cf_Env cfg) /\
  required Some "PING_BASE_URL" (cf_BaseURL cfg) /\ required Some "DATABASE_URL" (cf_DatabaseURL cfg) /\
  required Some "REDIS_URL" (cf_RedisURL cfg) /\ required Some "CORS_ALLOWED_ORIGIN" (cf_CORSAllowedOrigin cfg) /\
  required Some "JWT_PRIVATE_KEY_PATH" (cf_JWTPrivateKeyPath cfg) /\
  required Some "JWT_PUBLIC_KEY_PATH" (cf_JWTPublicKeyPath cfg) /\
  required ParseDuration "JWT_ACCESS_TTL" (cf_JWTAccessTTL cfg) /\
  required ParseDuration "JWT_REFRESH_TTL" (cf_JWTRefreshTTL cfg) /\
  required ParseBool "REGISTRATION_OPEN" (cf_RegistrationOpen cfg) /\
  optional "SMTP_PORT" 587 (ec_Port (cf_SMTP cfg)) /\ ec_Host (cf_SMTP cfg) = getenv "SMTP_HOST" /\
  ec_Username (cf_SMTP cfg) = getenv "SMTP_USERNAME" /\ ec_Password (cf_SMTP cfg) = getenv "SMTP_PASSWORD" /\
  ec_From (cf_SMTP cfg) = getenv "SMTP_FROM" /\
  parseAllowlist (getenv "SSRF_ALLOWLIST") = inl (cf_SSRFAllowlist cfg) /\
  optional "RETENTION_DAYS" 90 (cf_RetentionDays cfg).

Lemma require_parsed_ok {A} (parse : string -> option A) what name a :
  require_parsed getenv parse what name = inl a -> required parse name a.
Proof.
  unfold require_parsed, env_require, required. destruct (String.eqb_spec (getenv name) "") as [|Hne]; [done|].
  destruct (parse _); [|done]. intros [= ->]. by split.
Qed.

Lemma env_require_ok name v : env_require getenv name = inl v -> required Some name v.
Proof. unfold env_require, required. destruct (String.eqb_spec (getenv name) "") as [|Hne]; [done|]. intros [= <-]. by split. Qed.

Lemma optionalInt_ok name def n : optionalInt getenv name def = inl n -> optional name def n.
Proof.
  unfold optionalInt, optional. destruct (String.eqb_spec (getenv name) "") as [|Hne]; [intros [= ->]; by left|].
  destruct (Atoi _) eqn:E; [|done]. intros [= ->]. by right.
Qed.

Lemma run_Load :
  match Load getenv with
  | inl cfg => first_problem = None /\ loaded cfg
  | inr e => exists name, first_problem = Some (name, e)
  end.
Proof.
  unfold first_problem, settings, Load, and_then. cbn [foldr fst snd].
  repeat match goal with
  | |- context [setting_error ?x] => destruct x eqn:?; cbn [setting_error]; [|by eexists]
  end.
  split; [done|].
  unfold requireInt, requireDuration, requireBool in *. unfold loaded. cbn [cf_Port cf_Env cf_BaseURL cf_DatabaseURL
    cf_RedisURL cf_CORSAllowedOrigin cf_JWTPrivateKeyPath cf_JWTPublicKeyPath cf_JWTAccessTTL cf_JWTRefreshTTL
    cf_RegistrationOpen cf_SMTP ec_Port ec_Host ec_Username ec_Password ec_From cf_SSRFAllowlist cf_RetentionDays].
  split_and!; eauto using require_parsed_ok, env_require_ok, optionalInt_ok.
Qed.
End spec.

(** *** The allow-list *)

Lemma top_eq_whole len x y : top_eq len len x y = (x =? y)%N.
Proof. unfold top_eq. by rewrite N.sub_diag, N.pow_0_r, !N.div_1_r. Qed.

(** A single address admits itself, and what differs from it only by a zone. *)
Lemma host_prefix_Contains a b :
  prefix_Contains (host_prefix a) b
  = match a, b with V4 x, V4 y => (x =? y)%N | V6 x _, V6 y z => String.eqb z "" && (x =? y)%N | _, _ => false end.
Proof. destruct a as [x|x zx], b as [y|y zy]; cbn; by rewrite ?top_eq_whole. Qed.

(** ** Properties *)

(** C38. Configuration: Load fails with the error of the first variable, in its
    order, that is missing or does not parse; otherwise every field holds its
    variable's value or default, an unset SSRF_ALLOWLIST leaves the dial guard
    without exceptions, the login rate limiter is off only with PING_ENV=test,
    cookies are Secure exactly in production, and there is an alert channel
    exactly when SMTP_HOST and SMTP_FROM are set. *)
Theorem Load_spec getenv send :
  match Load getenv with
  | inr e => exists name, first_problem getenv = Some (name, e)
  | inl cfg =>
      first_problem getenv = None /\ loaded getenv cfg /\
      (getenv "SSRF_ALLOWLIST" = "" -> forall a b, guardAddr a (cf_SSRFAllowlist cfg) = inl b -> isBlockedAddr b = false) /\
      let deps := server_deps send cfg in
      (dp_AuthRateLimitDisabled deps = true <-> getenv "PING_ENV" = "test") /\
      (dp_CookieSecure deps = true <-> getenv "PING_ENV" = "production") /\
      (dp_AlertChannel deps = None <-> getenv "SMTP_HOST" = "" \/ getenv "SMTP_FROM" = "")
  end.
Proof.
  pose proof (run_Load getenv) as Hl. destruct (Load getenv) as [cfg|e]; [|exact Hl]. destruct Hl as [Hp Hok].
  split; [done|]. split; [done|].
  destruct Hok as (_ & [_ [= Henv]] & _ & _ & _ & _ & _ & _ & _ & _ & _ & _ & Hhost & _ & _ & Hfrom & Hssrf & _).
  cbv zeta. split_and!.
  - intros Hs. rewrite Hs in Hssrf. injection Hssrf as <-. intros a b. unfold guardAddr. cbn [existsb].
    destruct (isBlockedAddr _) eqn:Eb; [done|]. by intros [= <-].
  - cbn. rewrite String.eqb_eq, Henv. tauto.
  - cbn. rewrite String.eqb_eq, Henv. tauto.
  - cbn. unfold emailChannel, configured. rewrite Hhost, Hfrom.
    destruct (String.eqb_spec (getenv "SMTP_HOST") ""), (String.eqb_spec (getenv "SMTP_FROM") ""); cbn; naive_solver.
Qed.

(** ** Examples *)

(** The environment of .env.example, with one variable replaced. *)
Definition demo_getenv (name value : string) (n : string) : string :=
  if String.eqb n name then value
  else default "" ((list_to_map [("PING_PORT", "8080"); ("PING_ENV", "production"); ("PING_BASE_URL", "https://ping.example.com");
    ("DATABASE_URL", "postgres://db"); ("REDIS_URL", "redis://r"); ("CORS_ALLOWED_ORIGIN", "https://ping.example.com");
    ("JWT_PRIVATE_KEY_PATH", "/k"); ("JWT_PUBLIC_KEY_PATH", "/p"); ("JWT_ACCESS_TTL", "15m"); ("JWT_REFRESH_TTL", "720h");
    ("REGISTRATION_OPEN", "true"); ("SSRF_ALLOWLIST", "10.0.0.0/8, 192.168.1.5")]%string : gmap string string) !! n).

Example Load_examples :
  (match Load (demo_getenv "" "") with
   | inl cfg => cf_RetentionDays cfg = 90 /\ cf_SSRFAllowlist cfg = [mkPrefix (V4 167772160) 8; mkPrefix (V4 3232235781) 32] /\
                cf_JWTRefreshTTL cfg = 30 * Day
   | inr _ => False
   end) /\
  Load (demo_getenv "JWT_ACCESS_TTL" "15") =
    inr ("config: environment variable JWT_ACCESS_TTL must be a duration, got " +:+ Quote "15") /\
  Load (demo_getenv "DATABASE_URL" "") = inr "config: required environment variable DATABASE_URL is not set"%string.
Proof. vm_compute. repeat split. Qed.

(** A port outside 0 to 65535 and a negative lifetime are accepted. *)
Example Load_unchecked_ranges :
  match Load (demo_getenv "PING_PORT" "99999") with inl cfg => cf_Port cfg = 99999 | inr _ => False end /\
  match Load (demo_getenv "JWT_ACCESS_TTL" "-15m") with inl cfg => cf_JWTAccessTTL cfg = -15 * Minute | inr _ => False end.
Proof. vm_compute. split; reflexivity. Qed.

(** The guard unmaps an address before it looks it up, so an entry that is an
    IPv4-mapped prefix never admits anything. *)
Example mapped_entry_admits_nothing :
  match parseAllowlist "::ffff:10.0.0.0/104" with
  | inl ps => guardAddr (V4 167772165) ps = inr (DisallowedAddress (V4 167772165)) /\
              guardAddr (V6 (65535 * 4294967296 + 167772165) "") ps = inr (DisallowedAddress (V4 167772165))
  | inr _ => False
  end.
Proof. vm_compute. split; reflexivity. Qed.
