(* ===== verification/Worker.v ===== *)
(** * Worker: the worker loop and its heartbeat (worker/worker.go, worker/heartbeat.go)

    [worker_Run] is the loop every worker runs on, driven by the sequence of
    wake-ups its select sees; the worker's own state and Redis are threaded
    through it.  [Heartbeat_Write] sets the key /health reads.  Redis's SET
    with an expiry and GET are the interface [KV]. *)
From S2P Require Import Prelude GoLib Models Extern Store Logic Demo Convert Scheduler ProbeWorker Alerter Rollup Server.
Local Open Scope Z_scope.
Local Open Scope ping_scope.

(** ** Redis *)

Class KV (St : Type) := {
  kv_set : Time -> string -> string -> Duration -> St -> St;
  kv_get : Time -> string -> St -> RedisGet
}.

Class KVLaws (St : Type) `{KV St} : Prop := {
  (** a value is there until its expiry *)
  kv_get_set : forall t t' k v d s,
    t <= t' -> kv_get t' k (kv_set t k v d s) = if t' <? t + d then GetValue v else GetNil;
  (** the other keys are left alone *)
  kv_get_other : forall t t' k k' v d s, k <> k' -> kv_get t' k' (kv_set t k v d s) = kv_get t' k' s
}.

(** ** Heartbeats (worker/heartbeat.go) *)

Definition heartbeatTTL : Duration := 90 * Second.

Definition heartbeat_key (role : string) : string := "worker:heartbeat:" +:+ role.

(** [t.Unix()] rounds down. *)
Definition time_ToUnix (t : Time) : Z := t / Second.

(** [Write]: a nil client writes nothing, and a SET that is [lost] is
    swallowed. *)
Definition Heartbeat_Write {R} `{KV R} (lost : bool) (role : string) (rdb : option R) : Prog (option R) :=
  match rdb with
  | None => ret None
  | Some s =>
      let! now := time_Now in
      ret (Some (if lost then s else kv_set now (heartbeat_key role) (FormatInt (time_ToUnix now)) heartbeatTTL s))
  end.

(** ** The loop (worker/worker.go) *)

Record worker_Config (St : Type) := mk_worker_Config {
  wc_Name : string;
  wc_Interval : Duration;
  wc_Jitter : Duration;
  wc_Tick : St -> Prog St
}.
Arguments mk_worker_Config {St}.
Arguments wc_Name {St}.
Arguments wc_Interval {St}.
Arguments wc_Jitter {St}.
Arguments wc_Tick {St}.

(** [rand.Int64N(max)] is the draw reduced to [0, max). *)
Definition jitter (max : Duration) (draw : Z) : Duration := if max <=? 0 then 0 else draw mod max.

(** What the select of an iteration takes: the context is done, or the timer
    fired, with the draw of the jitter of the next wait and whether the SET of
    the heartbeat is lost. *)
Inductive Wake := WakeDone | WakeTimer (draw : Z) (lost : bool).

(** What Run leaves: Redis, the waits it set, and whether it returned or still
    waits for a wake-up. *)
Record RunState (R : Type) := mkRunState {
  ru_Redis : option R;
  ru_Waits : list Duration;
  ru_Returned : bool
}.
Arguments mkRunState {R}.
Arguments ru_Redis {R}.
Arguments ru_Waits {R}.
Arguments ru_Returned {R}.

(** The tick's error is logged; the worker's state is what the tick left. *)
Fixpoint worker_Run {St R} `{KV R} (cfg : worker_Config St) (st : St) (rdb : option R) (wakes : list Wake)
    : Prog (RunState R) :=
  match wakes with
  | [] => ret (mkRunState rdb [] false)
  | WakeDone :: _ => ret (mkRunState rdb [] true)
  | WakeTimer draw lost :: rest =>
      let! r := attempt (wc_Tick cfg st) in
      let st := match r with Ok st' => st' | Err _ => st end in
      let! rdb := Heartbeat_Write lost (wc_Name cfg) rdb in
      let wait := wrap64 (wc_Interval cfg + jitter (wc_Jitter cfg) draw) in
      let! run := worker_Run cfg st rdb rest in
      ret (mkRunState (ru_Redis run) (wait :: ru_Waits run) (ru_Returned run))
  end.

(** The workers' configurations; a stateless worker's state is [unit]. *)
Definition scheduler_interval : Duration := 15 * Second.
Definition alerter_interval : Duration := 30 * Second.
Definition prober_interval : Duration := 10 * Second.
Definition rollup_interval : Duration := Hour.
Definition scheduler_claimLimit : Z := 500.

Definition scheduler_worker `{Extern} `{Clock} (interval : Duration) : worker_Config unit :=
  mk_worker_Config "scheduler" interval (Z.quot interval 8)
    (fun _ => let! now := testclock_Now in let! _ := EvaluateDueMonitors now scheduler_claimLimit in ret tt).

Definition alerter_worker `{Extern} `{Clock} (ch : option Channel) (baseURL : string) (cancelled : nat -> bool)
    (interval : Duration) : worker_Config unit :=
  mk_worker_Config "alerter" interval (Z.quot interval 8)
    (fun _ => let! _ := alerter_tick ch baseURL cancelled in ret tt).

(** The state is the number of the tick; [sched] interleaves its probes. *)
Definition prober_worker `{Extern} `{Clock} (exchange : nat -> store_Monitor -> Duration -> string -> httpConfig -> Exchange)
    (sched : nat -> list nat) (interval : Duration) : worker_Config nat :=
  mk_worker_Config "prober" interval (Z.quot interval 8) (fun n => let! _ := prober_tick exchange (sched n) in ret (S n)).

Definition rollup_worker `{Extern} (map_order : list (UUID * stat) -> list (UUID * stat)) (fuel : nat)
    (cancelled : nat -> bool) (retentionDays : Z) (interval : Duration) : worker_Config (option Time) :=
  mk_worker_Config "rollup" interval (Z.quot interval 8) (rollup_tick map_order fuel cancelled retentionDays).

(** ** Lemmas *)

Lemma jitter_bounds max draw : 0 <= jitter max draw /\ (0 < max -> jitter max draw < max).
Proof.
  unfold jitter. destruct (Z.leb_spec max 0); [lia|]. pose proof (Z.mod_pos_bound draw max). lia.
Qed.

Lemma time_Unix_ToUnix t : is_int64 (time_ToUnix t + 62135596800) -> time_Unix (time_ToUnix t) = t - t mod Second.
Proof.
  intros Ht. unfold time_Unix. rewrite wrap64_id by done. unfold time_ToUnix, Second in *.
  pose proof (Z.div_mod t 1000000000). lia.
Qed.

Section pulses.
Context {St : Type} (cfg : worker_Config St).

(** What a wait may be. *)
Definition wait_ok (d : Duration) : Prop :=
  wc_Interval cfg <= d /\ d <= wc_Interval cfg + Z.max 0 (wc_Jitter cfg - 1).

Lemma wrap_wait draw :
  0 <= wc_Interval cfg -> wc_Interval cfg + Z.max 0 (wc_Jitter cfg) <= 9223372036854775807 ->
  wait_ok (wrap64 (wc_Interval cfg + jitter (wc_Jitter cfg) draw)).
Proof.
  intros Hi Hm. destruct (jitter_bounds (wc_Jitter cfg) draw) as [Hlo Hhi]. unfold wait_ok.
  assert (Hj : jitter (wc_Jitter cfg) draw <= Z.max 0 (wc_Jitter cfg - 1)).
  { unfold jitter in *. destruct (Z.leb_spec (wc_Jitter cfg) 0); lia. }
  rewrite wrap64_id by (unfold is_int64; lia). lia.
Qed.

Definition done_wake (w : Wake) : bool := match w with WakeDone => true | _ => false end.

(** A turn of the loop: what its tick came to, and the instant of its heartbeat,
    with whether Redis loses it. *)
Record Turn := mkTurn {
  tu_Result : Res St;
  tu_Beat : Time;
  tu_Lost : bool
}.

(** The turns of the loop from the worker's state [st] in the world [w]: one for
    each timer before the first cancellation.  In each, the tick runs first,
    then the heartbeat takes the clock of the world the tick left; the next
    turn starts from there, with the state the tick returned, or the old one
    when it failed. *)
Inductive turns_of : St -> World -> list Wake -> list Turn -> World -> Prop :=
| turns_waiting st w : turns_of st w [] [] w
| turns_done st w wakes : turns_of st w (WakeDone :: wakes) [] w
| turns_timer st w draw lost wakes r w1 turns w' :
    run (wc_Tick cfg st) w = (r, w1) ->
    turns_of (match r with Ok st' => st' | Err _ => st end) (tick w1) wakes turns w' ->
    turns_of st w (WakeTimer draw lost :: wakes) (mkTurn r (cur_clock w1) lost :: turns) w'.

(** Redis with the heartbeat of instant [t]. *)
Definition beat `{KV R} (t : Time) (s : R) : R :=
  kv_set t (heartbeat_key (wc_Name cfg)) (FormatInt (time_ToUnix t)) heartbeatTTL s.

(** One SET for each turn whose heartbeat is not lost, the last one last. *)
Definition beats `{KV R} (turns : list Turn) (s : R) : R :=
  foldl (fun s t => if tu_Lost t then s else beat (tu_Beat t) s) s turns.

Lemma run_worker `{KV R} wakes : forall st (s : R) w,
  0 <= wc_Interval cfg -> wc_Interval cfg + Z.max 0 (wc_Jitter cfg) <= 9223372036854775807 ->
  exists turns ru w', run (worker_Run cfg st (Some s) wakes) w = (Ok ru, w') /\ turns_of st w wakes turns w' /\
    ru_Returned ru = existsb done_wake wakes /\ length (ru_Waits ru) = length turns /\
    Forall wait_ok (ru_Waits ru) /\ ru_Redis ru = Some (beats turns s).
Proof.
  induction wakes as [|[|draw lost] wakes IH]; intros st s w Hi Hm; cbn [worker_Run existsb done_wake orb].
  - exists [], (mkRunState (Some s) [] false), w. split; [done|]. split; [constructor|]. by split_and!.
  - exists [], (mkRunState (Some s) [] true), w. split; [done|]. split; [constructor|]. by split_and!.
  - rewrite run_bind, run_attempt. destruct (run (wc_Tick cfg st) w) as [r w1] eqn:Htick.
    unfold Heartbeat_Write. rewrite run_bind, run_bind, time_Now_ok. cbn [run ret].
    destruct (IH (match r with Ok st' => st' | Err _ => st end) (if lost then s else beat (cur_clock w1) s) (tick w1) Hi Hm)
      as (turns & ru & w' & Hr & Hturns & Hret & Hl & Hf & Hred).
    exists (mkTurn r (cur_clock w1) lost :: turns). fold (beat (cur_clock w1) s). rewrite run_bind, Hr. do 2 eexists.
    split; [reflexivity|]. split; [by eapply turns_timer|]. cbn. split_and!; [exact Hret|by rewrite Hl| |exact Hred].
    constructor; [by apply wrap_wait|done].
Qed.
End pulses.

(** ** Properties *)

(** C40. The loop of every worker: whatever its ticks do and whatever fails,
    each timer wake-up runs one tick, from the state the last successful tick
    left, and then writes one heartbeat of the instant the clock shows after
    that tick (unless Redis loses it); each wait is between the interval and
    the interval plus the jitter, and Run returns, without an error, exactly
    when its context is done.  So when the heartbeat of the last turn is not
    lost and is of instant [t], the key of the worker reads [t], to the second,
    for 90 seconds and is gone from then on. *)
Theorem worker_Run_spec {St} `{KVLaws R} (cfg : worker_Config St) st (s : R) wakes w :
  0 <= wc_Interval cfg -> wc_Interval cfg + Z.max 0 (wc_Jitter cfg) <= 9223372036854775807 ->
  exists turns ru w', run (worker_Run cfg st (Some s) wakes) w = (Ok ru, w') /\
    turns_of cfg st w wakes turns w' /\ ru_Returned ru = existsb done_wake wakes /\
    length (ru_Waits ru) = length turns /\ Forall (wait_ok cfg) (ru_Waits ru) /\
    ru_Redis ru = Some (beats cfg turns s) /\
    forall r t now, last turns = Some (mkTurn r t false) -> t <= now ->
      kv_get now (heartbeat_key (wc_Name cfg)) (beats cfg turns s)
      = if now <? t + heartbeatTTL then GetValue (FormatInt (time_ToUnix t)) else GetNil.
Proof.
  intros Hi Hm. destruct (run_worker cfg wakes st s w Hi Hm) as (turns & ru & w' & Hr & Hturns & Hret & Hl & Hf & Hred).
  exists turns, ru, w'. split_and!; [done..|]. intros r t now Hlast Hle.
  apply last_Some in Hlast as [pre ->]. unfold beats. rewrite foldl_app. cbn. unfold beat at 1. by apply kv_get_set.
Qed.

(** What /health says of a worker whose last heartbeat was written at [t]:
    up for a minute after the second of the heartbeat, then down, which makes
    the service unhealthy, and, once the key has expired 90 seconds after the
    heartbeat, unknown and healthy again however long the worker stays
    wedged. *)
Lemma health_window `{KVLaws St} role t w s :
  is_int64 (time_ToUnix t) -> is_int64 (time_ToUnix t + 62135596800) ->
  let now := cur_clock w in
  t <= now -> now - t < 9000000000 * Second ->
  exists c healthy w',
    run (workerHeartbeatStatus (fun k => kv_get now k (kv_set t (heartbeat_key role) (FormatInt (time_ToUnix t)) heartbeatTTL s))
           role) w = (Ok (c, healthy), w') /\
    (now < t + heartbeatTTL /\ now - (t - t mod Second) <= heartbeatStaleAfter /\ cs_Status c = "up" /\ healthy = true \/
     now < t + heartbeatTTL /\ heartbeatStaleAfter < now - (t - t mod Second) /\ cs_Status c = "down" /\ healthy = false \/
     t + heartbeatTTL <= now /\ cs_Status c = "unknown" /\ healthy = true).
Proof.
  intros Hi Hi' now Hle Hfar. unfold workerHeartbeatStatus. fold (heartbeat_key role). rewrite kv_get_set by done.
  destruct (Z.ltb_spec now (t + heartbeatTTL)) as [Hlt|Hge].
  - rewrite ParseInt_FormatInt by done. rewrite run_bind, time_Now_ok. fold now.
    rewrite time_Unix_ToUnix by done. unfold time_Sub.
    pose proof (Z.mod_pos_bound t Second ltac:(done)) as Hm.
    rewrite (Z.max_r (-9223372036854775808)), Z.min_r by (unfold Second in *; lia).
    destruct (Z.ltb_spec heartbeatStaleAfter (now - (t - t mod Second))) as [Hd|Hu].
    + do 3 eexists. split; [reflexivity|]. right. left. done.
    + do 3 eexists. split; [reflexivity|]. left. done.
  - do 3 eexists. split; [reflexivity|]. right. right. done.
Qed.

(** ** At concrete inputs *)

(** A map of values and their expiries. *)
#[local] Instance gmap_kv : KV (gmap string (string * Time)) := {
  kv_set t k v d s := <[k := (v, t + d)]> s;
  kv_get t k s := match s !! k with Some (v, e) => if t <? e then GetValue v else GetNil | None => GetNil end
}.

#[local] Instance gmap_kv_laws : KVLaws (gmap string (string * Time)).
Proof.
  split; cbn.
  - intros t t' k v d s _. by rewrite lookup_insert_eq.
  - intros t t' k k' v d s Hk. by rewrite lookup_insert_ne.
Qed.

#[local] Existing Instance demo_extern.

(** Two ticks, the first of which fails, and a stop. *)
Lemma worker_Run_spec_witness :
  let wakes := [WakeTimer 7 false; WakeTimer (-3) true; WakeDone] in
  let w := demo_world (faulty_env 1 FBefore) [] in
  exists turns ru w', run (worker_Run (R:=gmap string (string * Time)) (scheduler_worker scheduler_interval) tt (Some ∅) wakes) w = (Ok ru, w') /\
    turns_of (scheduler_worker scheduler_interval) tt w wakes turns w' /\ ru_Returned ru = true /\
    length (ru_Waits ru) = length turns /\ ru_Redis ru = Some (beats (scheduler_worker scheduler_interval) turns ∅).
Proof.
  intros wakes w.
  destruct (worker_Run_spec (R:=gmap string (string * Time)) (scheduler_worker scheduler_interval) tt ∅ wakes w)
    as (turns & ru & w' & Hr & Hturns & Hret & Hl & _ & Hred & _).
  - vm_compute. discriminate.
  - vm_compute. discriminate.
  - exists turns, ru, w'. split; [exact Hr|]. split; [exact Hturns|]. split; [exact Hret|]. split; [exact Hl|exact Hred].
Defined.

(** 70 seconds after its last heartbeat a worker is down. *)
Lemma health_window_witness :
  let t := demo_t0 - 70 * Second in
  exists c w', run (workerHeartbeatStatus (fun k => kv_get demo_t0 k
        (kv_set t (heartbeat_key "prober") (FormatInt (time_ToUnix t)) heartbeatTTL ∅)) "prober")
      (demo_world demo_env []) = (Ok (c, false), w') /\ cs_Status c = "down"%string.
Proof.
  intros t.
  destruct (health_window "prober" t (demo_world demo_env []) ∅) as (c & h & w' & Hr & [(_ & Hf & _)|[(_ & _ & Hs & ->)|(Hf & _)]]).
  - vm_compute. split; discriminate.
  - vm_compute. split; discriminate.
  - vm_compute. discriminate.
  - vm_compute. reflexivity.
  - exfalso. vm_compute in Hf. by apply Hf.
  - exists c, w'. split; [exact Hr|exact Hs].
  - exfalso. vm_compute in Hf. by apply Hf.
Defined.

(** Two minutes after its last heartbeat a wedged worker no longer degrades /health. *)
Example wedged_worker_healthy_again :
  let t := demo_t0 - 120 * Second in
  fst (run (workerHeartbeatStatus (fun k => kv_get demo_t0 k
        (kv_set t (heartbeat_key "prober") (FormatInt (time_ToUnix t)) heartbeatTTL ∅)) "prober")
      (demo_world demo_env [])) = Ok (mkcomponentStatus "unknown" "", true).
Proof. vm_compute. reflexivity. Qed.
