(* ===== verification/Process.v ===== *)
(** * Process: the ping command (cmd/ping/main.go)

    [run] is what the process does between its start and its end: it loads the
    configuration, connects, reads the keys when it is to serve, and starts the
    parts its role asks for, each with its configuration.  Postgres, Redis,
    the file system and the key parser are arguments ([Outside]); a part that
    is started ends with an error or without, and [errgroup_Wait] is what the
    process makes of that. *)
From S2P Require Import Prelude GoLib NetAddr Models Extern Store Mime Alert Alerter Http ProbeWorker Server EnvConfig Worker.
Local Open Scope Z_scope.

(** What the process finds outside: each call with its error, if any. *)
Record Outside (PrivateKey PublicKey : Type) := mkOutside {
  os_Getenv : string -> string;
  pgxpool_New : string -> option string;
  redis_ParseURL : string -> option string;
  os_ReadFile : string -> string + string;
  jwt_ParseRSAPrivateKeyFromPEM : string -> PrivateKey + string;
  jwt_ParseRSAPublicKeyFromPEM : string -> PublicKey + string
}.
Arguments os_Getenv {PrivateKey PublicKey}.
Arguments pgxpool_New {PrivateKey PublicKey}.
Arguments redis_ParseURL {PrivateKey PublicKey}.
Arguments os_ReadFile {PrivateKey PublicKey}.
Arguments jwt_ParseRSAPrivateKeyFromPEM {PrivateKey PublicKey}.
Arguments jwt_ParseRSAPublicKeyFromPEM {PrivateKey PublicKey}.

(** [fmt.Errorf("what: %w", err)]. *)
Definition wrapf {A} (what : string) (x : A + string) : A + string :=
  match x with inl a => inl a | inr err => inr (what +:+ ": " +:+ err) end.

Definition checked (what : string) (err : option string) : unit + string :=
  match err with None => inl tt | Some err => inr (what +:+ ": " +:+ err) end.

(** A part [run] starts in a goroutine, with what it is given. *)
Inductive Part (PrivateKey PublicKey : Type) :=
| PartServer (Addr : string) (deps : Deps) (priv : PrivateKey) (pub : PublicKey)
| PartScheduler (interval : Duration)
| PartAlerter (ch : option Channel) (interval : Duration) (baseURL : string)
| PartProber (interval : Duration) (allowlist : list Prefix)
| PartRollup (interval : Duration) (retentionDays : Z).
Arguments PartServer {PrivateKey PublicKey}.
Arguments PartScheduler {PrivateKey PublicKey}.
Arguments PartAlerter {PrivateKey PublicKey}.
Arguments PartProber {PrivateKey PublicKey}.
Arguments PartRollup {PrivateKey PublicKey}.

Section process.
Context {PrivateKey PublicKey : Type} (out : Outside PrivateKey PublicKey) (send : EmailConfig -> Channel).

Definition loadRSAKeys (privPath pubPath : string) : (PrivateKey * PublicKey) + string :=
  and_then (wrapf "read private key" (os_ReadFile out privPath)) (fun privPEM =>
  and_then (wrapf "parse private key" (jwt_ParseRSAPrivateKeyFromPEM out privPEM)) (fun priv =>
  and_then (wrapf "read public key" (os_ReadFile out pubPath)) (fun pubPEM =>
  and_then (wrapf "parse public key" (jwt_ParseRSAPublicKeyFromPEM out pubPEM)) (fun pub =>
  inl (priv, pub))))).

Definition serves (role : string) : bool := String.eqb role "api" || String.eqb role "all".
Definition works (role : string) : bool := String.eqb role "worker" || String.eqb role "all".

Definition server_part (cfg : config_Config) (role : string) : list (Part PrivateKey PublicKey) + string :=
  if serves role then
    and_then (wrapf "run: load JWT keys" (loadRSAKeys (cf_JWTPrivateKeyPath cfg) (cf_JWTPublicKeyPath cfg))) (fun keys =>
    inl [PartServer (":" +:+ FormatInt (cf_Port cfg)) (server_deps send cfg) keys.1 keys.2])
  else inl [].

Definition worker_parts (cfg : config_Config) (role : string) : list (Part PrivateKey PublicKey) :=
  if works role then
    [PartScheduler scheduler_interval; PartAlerter (emailChannel send (cf_SMTP cfg)) alerter_interval (cf_BaseURL cfg);
     PartProber prober_interval (cf_SSRFAllowlist cfg); PartRollup rollup_interval (cf_RetentionDays cfg)]
  else [].

(** [run] up to the wait: an error, or the parts it started. *)
Definition run_role (role : string) : list (Part PrivateKey PublicKey) + string :=
  and_then (wrapf "run" (Load (os_Getenv out))) (fun cfg =>
  and_then (checked "run: connect postgres" (pgxpool_New out (cf_DatabaseURL cfg))) (fun _ =>
  and_then (checked "run: parse REDIS_URL" (redis_ParseURL out (cf_RedisURL cfg))) (fun _ =>
  and_then (server_part cfg role) (fun server =>
  inl (server ++ worker_parts cfg role))))).

(** [g.Wait()]: the first error, in the order the parts ended. *)
Definition errgroup_Wait (ended : list (option string)) : option string :=
  match omap id ended with [] => None | err :: _ => Some err end.

(** The goroutine of the server: a server that was shut down is no error. *)
Inductive ListenError := ErrServerClosed | ErrListen (err : string).

Definition server_ended (err : ListenError) : option string :=
  match err with ErrServerClosed => None | ErrListen err => Some ("server: " +:+ err) end.

(** The exit status of [main]. *)
Definition exit_status (role : string) (ended : list (option string)) : Z :=
  match run_role role with
  | inr _ => 1
  | inl _ => match errgroup_Wait ended with Some _ => 1 | None => 0 end
  end.

(** *** What each role starts *)

(** The process starts when the configuration loads, the connections can be
    set up and, if it is to serve, the keys can be read: it then runs the
    server, for api and all, and the four workers, for worker and all, with
    what the configuration says. *)
Lemma run_role_spec role parts :
  run_role role = inl parts <->
  exists cfg, Load (os_Getenv out) = inl cfg /\ pgxpool_New out (cf_DatabaseURL cfg) = None /\
    redis_ParseURL out (cf_RedisURL cfg) = None /\
    exists server, parts = server ++ worker_parts cfg role /\
      if serves role then
        exists priv pub, loadRSAKeys (cf_JWTPrivateKeyPath cfg) (cf_JWTPublicKeyPath cfg) = inl (priv, pub) /\
          server = [PartServer (":" +:+ FormatInt (cf_Port cfg)) (server_deps send cfg) priv pub]
      else server = [].
Proof.
  unfold run_role, server_part. split.
  - destruct (Load _) as [cfg|]; [|done]. cbn. destruct (pgxpool_New _ _) eqn:Hp; [done|]. cbn.
    destruct (redis_ParseURL _ _) eqn:Hr; [done|]. cbn. intros Hs. exists cfg. split_and!; [done..|]. destruct (serves role).
    + destruct (loadRSAKeys _ _) as [[priv pub]|]; cbn in Hs; [|discriminate Hs]. injection Hs as <-. exists [PartServer (":" +:+ FormatInt (cf_Port cfg)) (server_deps send cfg) priv pub]. split; [done|]. by exists priv, pub.
    + injection Hs as <-. by exists [].
  - intros (cfg & -> & Hp & Hr & server & -> & Hs). cbn. rewrite Hp. cbn. rewrite Hr. cbn. destruct (serves role); [|by rewrite Hs].
    destruct Hs as (priv & pub & -> & ->). done.
Qed.

(** A process that only works reads no key. *)
Lemma worker_reads_no_key cfg :
  Load (os_Getenv out) = inl cfg -> pgxpool_New out (cf_DatabaseURL cfg) = None -> redis_ParseURL out (cf_RedisURL cfg) = None ->
  run_role "worker" = inl (worker_parts cfg "worker").
Proof. intros Hl Hp Hr. apply run_role_spec. exists cfg. split_and!; [done..|]. by exists []. Qed.
End process.

(** ** Examples *)

Definition demo_outside : Outside string string :=
  mkOutside string string (demo_getenv "" "") (fun _ => None) (fun _ => None) (fun path => inl path)
    (fun pem => if String.eqb pem "/k" then inl "private"%string else inr "not a private key"%string) (fun _ => inl "public"%string).

(** A role that is none of the three starts nothing, and the process ends as
    if all were well. *)
Example unknown_role_ends_well :
  run_role demo_outside (fun _ _ _ => None) "workers" = inl [] /\ exit_status demo_outside (fun _ _ _ => None) "workers" [] = 0.
Proof. vm_compute. split; reflexivity. Qed.

(** The rollup worker has a heartbeat that /health never reads. *)
Example rollup_unwatched (get : string -> RedisGet) w :
  match fst (run (health_components (mkBackends None (Some None) get)) w) with
  | Ok (components, _) => "rollup"%string ∉ components.*1
  | Err _ => True
  end.
Proof.
  unfold health_components. cbn [bk_DB bk_Redis bk_Get for_range].
  repeat (rewrite !run_bind;
    match goal with |- context [run (workerHeartbeatStatus ?g ?r) ?w] =>
      destruct (run (workerHeartbeatStatus g r) w) as [[?|?] ?]; [cbn [run ret]|exact I] end).
  cbn. set_solver.
Qed.
