(* ===== verification/FlakyTarget.v ===== *)
(** * FlakyTarget: the target of the soak test (cmd/soakflakytarget/main.go)

    Each target answers /health with 200 or 503 and flips between the two
    after random waits.  [flipLoop] is the loop of one target over the draws of
    its waits and what its select takes; [run_targets] is the command up to
    its wait, [serve_target] how one server ends.  The prober sees a healthy
    target exactly when the target is healthy ([probe_sees_health]). *)
From S2P Require Import Prelude GoLib NetAddr User Mime Http ProbeWorker Process.
Local Open Scope Z_scope.

Record target := mktarget {
  tg_port : Z;
  tg_minFlip : Duration;
  tg_maxFlip : Duration;
  tg_healthy : bool
}.

Definition newTarget (port : Z) (minFlip maxFlip : Duration) : target := mktarget port minFlip maxFlip true.

Definition flip (t : target) : target := mktarget (tg_port t) (tg_minFlip t) (tg_maxFlip t) (negb (tg_healthy t)).

(** [rand.Int64N]: panics unless [n] is positive. *)
Definition rand_Int64N (n draw : Z) : option Z := if n <=? 0 then None else Some (draw mod n).

(** What an iteration meets: the draw of its wait, and whether the context is
    done before the wait is over. *)
Record Round := mkRound { rd_Draw : Z; rd_Done : bool }.

(** The waits that passed and the target the loop leaves; [None] is a panic.
    Without a further round the loop still waits. *)
Fixpoint flipLoop (t : target) (rounds : list Round) : option (list Duration * target) :=
  match rounds with
  | [] => Some ([], t)
  | rd :: rounds =>
      extra ← rand_Int64N (wrap64 (tg_maxFlip t - tg_minFlip t)) (rd_Draw rd);
      let wait := wrap64 (tg_minFlip t + extra) in
      if rd_Done rd then Some ([], t)
      else '(waits, t') ← flipLoop (flip t) rounds; Some (wait :: waits, t')
  end.

(** *** Serving *)

Definition health_handler (t : target) : Response :=
  if tg_healthy t then mkResponse 200 [] [] (BText "ok") else mkResponse 503 [] [] (BText "unhealthy").

Definition target_Addr (t : target) : string := "127.0.0.1:" +:+ FormatInt (tg_port t).

Definition listen_ended (t : target) (err : ListenError) : option string :=
  match err with ErrServerClosed => None | ErrListen err => Some ("serve port " +:+ FormatInt (tg_port t) +:+ ": " +:+ err) end.

(** How [serve] ends: the server stops by itself, or the context is done, the
    server is shut down and, when that worked, has stopped. *)
Inductive ServeEnd := EndedAlone (err : ListenError) | ShutDown (shutdown : option string) (err : ListenError).

Definition serve_target (t : target) (e : ServeEnd) : option string :=
  match e with
  | EndedAlone err => listen_ended t err
  | ShutDown (Some err) _ => Some ("shutdown port " +:+ FormatInt (tg_port t) +:+ ": " +:+ err)
  | ShutDown None err => listen_ended t err
  end.

(** *** The command *)

(** The targets started before the first entry that is no number (the text of
    Atoi's error is left out of the command's); with such an
    entry the command returns. *)
Fixpoint start_targets (minFlipS maxFlipS : Z) (ports : list string) : list target * option string :=
  match ports with
  | [] => ([], None)
  | ps :: ports =>
      let ps := TrimSpace ps in
      if String.eqb ps "" then start_targets minFlipS maxFlipS ports
      else match Atoi ps with
           | None => ([], Some ("run: invalid port " +:+ Quote ps))
           | Some port =>
               let '(ts, err) := start_targets minFlipS maxFlipS ports in
               (newTarget port (seconds minFlipS) (seconds maxFlipS) :: ts, err)
           end
  end.

Definition run_targets (portsCSV : string) (minFlipS maxFlipS : Z) : list target * option string :=
  if (minFlipS <=? 0) || (maxFlipS <=? minFlipS) then
    ([], Some ("run: invalid flip window: min-flip-s=" +:+ FormatInt minFlipS +:+ " max-flip-s=" +:+ FormatInt maxFlipS))
  else start_targets minFlipS maxFlipS (split_on "," portsCSV).

(** The result of [run] once every target has ended, in the order their errors
    were sent. *)
Definition run_result (ended : list (option string)) : option string := errgroup_Wait ended.

(** ** Flips *)

(** The rounds that passed before the first that found the context done. *)
Fixpoint passed (rounds : list Round) : nat :=
  match rounds with
  | [] => 0
  | rd :: rounds => if rd_Done rd then 0 else S (passed rounds)
  end.

Lemma flip_window t : tg_minFlip (flip t) = tg_minFlip t /\ tg_maxFlip (flip t) = tg_maxFlip t.
Proof. done. Qed.

(** A target with a window of positive length never panics: each wait is in
    the window, and each flips the health once. *)
Lemma flipLoop_spec t rounds :
  0 < tg_minFlip t < tg_maxFlip t -> is_int64 (tg_maxFlip t) ->
  exists waits t', flipLoop t rounds = Some (waits, t') /\ length waits = passed rounds /\
    Forall (fun d => tg_minFlip t <= d < tg_maxFlip t) waits /\
    tg_healthy t' = xorb (Nat.odd (passed rounds)) (tg_healthy t).
Proof.
  unfold is_int64. intros Hw Hm. revert t Hw Hm. induction rounds as [|[draw stop] rounds IH]; intros t Hw Hm.
  { exists [], t. split_and!; [done..|]. by destruct (tg_healthy t). }
  cbn [flipLoop passed rd_Draw rd_Done]. unfold rand_Int64N. rewrite wrap64_id by (unfold is_int64; lia).
  destruct (Z.leb_spec (tg_maxFlip t - tg_minFlip t) 0); [lia|]. cbn [mbind option_bind].
  destruct stop; [exists [], t; split_and!; [done..|by destruct (tg_healthy t)]|].
  destruct (IH (flip t) Hw Hm) as (waits & t' & -> & Hl & Hf & Hh). cbn [mbind option_bind].
  eexists _, t'. split; [done|]. split; [cbn; by rewrite Hl|]. split.
  - constructor; [|exact Hf]. pose proof (Z.mod_pos_bound draw (tg_maxFlip t - tg_minFlip t)).
    rewrite wrap64_id by (unfold is_int64; lia). lia.
  - rewrite Hh, Nat.odd_succ, <- Nat.negb_odd. cbn. by destruct (Nat.odd _), (tg_healthy t).
Qed.

(** What the command starts is fit for the loop, unless a window in seconds
    does not fit a Duration. *)
Lemma started_window minFlipS maxFlipS ports ts err :
  0 < minFlipS < maxFlipS -> maxFlipS <= 9223372036 -> start_targets minFlipS maxFlipS ports = (ts, err) ->
  Forall (fun t => tg_minFlip t = minFlipS * Second /\ tg_maxFlip t = maxFlipS * Second /\ tg_healthy t = true) ts.
Proof.
  intros Hw Hm. assert (Hs : forall n, 0 < n <= 9223372036 -> seconds n = n * Second).
  { intros n Hn. unfold seconds. apply wrap64_id. unfold is_int64, Second. lia. }
  revert ts err. induction ports as [|ps ports IH]; intros ts err; cbn; [by intros [= <- <-]|].
  destruct (String.eqb _ _); [apply IH|]. destruct (Atoi _) as [port|]; [|by intros [= <- <-]].
  destruct (start_targets _ _ ports) as [ts0 err0] eqn:E. intros [= <- <-]. constructor; [|by eapply IH].
  cbn. rewrite !Hs by lia. done.
Qed.

Lemma run_targets_flip portsCSV minFlipS maxFlipS ts err rounds :
  run_targets portsCSV minFlipS maxFlipS = (ts, err) -> maxFlipS <= 9223372036 ->
  Forall (fun t => exists waits t', flipLoop t rounds = Some (waits, t') /\
    Forall (fun d => minFlipS * Second <= d < maxFlipS * Second) waits /\
    tg_healthy t' = Nat.even (passed rounds)) ts.
Proof.
  unfold run_targets. destruct (_ || _) eqn:E; [by intros [= <- <-]|]. apply orb_false_iff in E as [E1%Z.leb_gt E2%Z.leb_gt].
  intros Hs Hm. eapply Forall_impl; [eapply started_window; [|exact Hm|exact Hs]; lia|].
  intros t (Hmin & Hmax & Hh). cbn in *.
  destruct (flipLoop_spec t rounds) as (waits & t' & Hf & Hl & Hws & Hh').
  - rewrite Hmin, Hmax. unfold Second. lia.
  - rewrite Hmax. unfold is_int64, Second. lia.
  - exists waits, t'. split; [exact Hf|]. split; [by rewrite Hmin, Hmax in Hws|].
    rewrite Hh', Hh, xorb_true_r. by rewrite Nat.negb_odd.
Qed.

(** The prober's verdict about a target that answers. *)
Lemma probe_sees_health t : isSuccessStatus (rs_Status (health_handler t)) = tg_healthy t.
Proof. unfold health_handler. by destruct (tg_healthy t). Qed.

(** ** Examples *)

Example run_targets_examples :
  run_targets "9101, 9102,," 20 180 =
    ([mktarget 9101 (20 * Second) (180 * Second) true; mktarget 9102 (20 * Second) (180 * Second) true], None) /\
  run_targets "9101,x,9103" 20 180 =
    ([mktarget 9101 (20 * Second) (180 * Second) true], Some ("run: invalid port " +:+ Quote "x")) /\
  snd (run_targets "9101" 20 20) = Some "run: invalid flip window: min-flip-s=20 max-flip-s=20"%string.
Proof. vm_compute. repeat split. Qed.
