(* ===== verification/Outage.v ===== *)
(** * Outage: a missed ping reaches its owner's mailbox

    Scheduler, outbox and alerter composed: two rounds of the scheduler's
    worker take a silent monitor from up over late to down, and a round of the
    alerter after that mails its owner.  Between the rounds the service may do
    anything that leaves the monitor's rows alone. *)
From S2P Require Import Prelude GoLib Models Extern Store Queries Logic Demo Convert Checkin Scheduler Paging.
From S2P Require Import Outbox Mime Alert Alerter Integrity Lifecycle Worker.
Local Open Scope Z_scope.
Local Open Scope ping_scope.

Section outage.
Context `{Extern} `{Clock}.

(** ** The rounds *)

Definition scheduler_round : Prog unit := wc_Tick (scheduler_worker scheduler_interval) tt.

(** What the database of [t'] still has of monitor [id] as [t] had it. *)
Record undisturbed (id : UUID) (t t' : Tables) : Prop := mkUndisturbed {
  un_monitor : t_monitors t' !! id = t_monitors t !! id;
  un_owner : forall m, t_monitors t !! id = Some m -> t_users t' !! m_user_id m = t_users t !! m_user_id m;
  un_events : forall e, e ∈ t_events t -> e_monitor_id e = id -> e ∈ t_events t';
  un_alerts : forall a, a ∈ t_alerts t -> a_monitor_id a = id -> a ∈ t_alerts t'
}.

(** One claim of the scheduler takes every monitor, and no streak is at the
    end of its INTEGER. *)
Definition scheduler_room (w : World) : Prop :=
  Z.of_nat (length (monitor_rows (w_tables w))) <= scheduler_claimLimit /\ streaks_ok (cur_testclock w) (w_tables w).

Definition pending (a : Alert) : bool := String.eqb (a_status a) "pending".

(** One claim of the alerter takes every pending alert and every reminder the
    same round can queue. *)
Definition outbox_room (w : World) : Prop :=
  Z.of_nat (length (List.filter pending (t_alerts (w_tables w))) + length (monitor_rows (w_tables w))) <= claimLimit.

(** A database the service can be in, with nothing failing from here on. *)
Definition sound_world (w : World) : Prop := no_faults w /\ integrity (w_db w).

(** ** The scheduler's rounds *)

Lemma keyed_of_integrity d : integrity d -> keyed_monitors d.1.
Proof. intros Hi id m Hm. by destruct (in_monitors _ Hi _ _ Hm). Qed.

Lemma sql_limit_all {A} n (l : list A) : Z.of_nat (length l) <= n -> sql_limit n l = l.
Proof. intros Hl. unfold sql_limit. apply take_ge. lia. Qed.

Lemma elem_of_claimed_all now limit t m :
  keyed_monitors t -> Z.of_nat (length (monitor_rows t)) <= limit ->
  t_monitors t !! m_id m = Some m -> is_due now m = true -> m ∈ claimed_monitors now limit t.
Proof.
  intros Hk Hl Hm Hd. unfold claimed_monitors. rewrite sql_limit_all.
  - apply elem_of_sort_by, list_elem_of_In, filter_In. split; [|done].
    by apply list_elem_of_In, elem_of_monitor_rows.
  - rewrite length_sort_by. pose proof (filter_length_le (is_due now) (monitor_rows t)). lia.
Qed.

(** A round on a due monitor. *)
Lemma run_scheduler_round w m :
  sound_world w -> scheduler_room w ->
  t_monitors (w_tables w) !! m_id m = Some m -> is_due (cur_testclock w) m = true ->
  exists w' ms, run scheduler_round w = (Ok tt, w') /\ m ∈ ms /\
    tick_outcome (cur_clock (tick w)) ms (w_tables w) (w_tables w') /\
    t_monitors (w_tables w') !! m_id m = Some (evaluated (cur_clock (tick w)) m).
Proof.
  intros [Hf Hi] [Hl Hs] Hm Hd. pose proof (keyed_of_integrity _ Hi) as Hk.
  destruct (run_EvaluateDueMonitors (tick w) (cur_testclock w) scheduler_claimLimit) as (w' & Hrun & _ & Ho & Ht);
    [by auto with ping|done|done| |].
  { intros m' [Hm' Hd']%elem_of_claimed. apply elem_of_monitor_rows in Hm'; [|done]. by eapply Hs. }
  pose proof (elem_of_claimed_all (cur_testclock w) scheduler_claimLimit _ _ Hk Hl Hm Hd) as Hin.
  eexists w', _. split; [|split; [exact Hin|split; [exact Ho|by apply Ht]]].
  cbn [scheduler_round wc_Tick scheduler_worker]. by rewrite run_bind, testclock_Now_ok, run_bind, Hrun.
Qed.

Lemma tick_users txnow ms t t' : tick_outcome txnow ms t t' -> t_users t' = t_users t.
Proof. by intros (es & als & _ & _ & _ & _ & _ & _ & Hu & _). Qed.

(** What a round writes about a monitor it takes down. *)
Lemma down_written txnow ms t t' m :
  tick_outcome txnow ms t t' -> m ∈ ms -> goes_down m = true ->
  exists e a, e ∈ t_events t' /\ e_monitor_id e = m_id m /\ e_type e = "down"%string /\
    a ∈ t_alerts t' /\ a_monitor_id a = m_id m /\ a_event_id a = e_id e /\ pending a = true /\
    a_next_attempt_at a = txnow /\ a_is_reminder a = false.
Proof.
  intros (es & als & He & Hes & Ha & Hals & _) Hin Hg.
  apply list_elem_of_lookup in Hin as [i Hi]. destruct (Forall2_lookup_l _ _ _ _ _ Hes Hi) as (e & Hie & Hmid & Hty & _).
  assert (Hc : (m, e) ∈ List.filter (fun me => goes_down me.1) (combine ms es)).
  { apply list_elem_of_In, filter_In. split; [|done]. apply list_elem_of_In, (list_elem_of_lookup_2 _ i).
    change (combine ms es) with (zip ms es). apply lookup_zip_with_Some. eauto. }
  apply list_elem_of_lookup in Hc as [j Hj].
  destruct (Forall2_lookup_l _ _ _ _ _ Hals Hj) as (a & Hja & Hamid & Haid & Hst & _ & Hnext & Hrem). cbn in *.
  exists e, a. rewrite He, Ha. split_and!; try done.
  - apply elem_of_app. right. by eapply list_elem_of_lookup_2.
  - rewrite Hty. unfold evaluated_event. unfold goes_down in Hg. by destruct (String.eqb _ _).
  - apply elem_of_app. right. by eapply list_elem_of_lookup_2.
  - unfold pending. by rewrite Hst.
Qed.

(** ** The alerter's round *)

(** The subject of a down alert. *)
Definition down_subject (name : string) : string := "[DOWN] " +:+ name +:+ " " +:+ emdash +:+ " check failed".

(** A job that is a monitor's down alert is mailed to the owner. *)
Definition announced (job : AlertJob) (log : list Delivery) : Prop :=
  j_AlertsMuted job = false -> j_IsReminder job = false -> j_EventType job = "down"%string ->
  exists d, d ∈ log /\ dl_ID d = j_ID job /\ msg_To (dl_Message d) = j_Recipient job /\
    msg_Subject (dl_Message d) = down_subject (j_MonitorName job).

Lemma run_ignored {A B} (p : Prog A) (b : B) w : exists w', run (let! _ := attempt p in ret b) w = (Ok b, w').
Proof. rewrite run_bind, run_attempt. destruct (run p w) as [r w']. by exists w'. Qed.

Lemma run_fail job reason {B} (b : B) w : exists w', run (alerter_fail job reason ;; ret b) w = (Ok b, w').
Proof.
  unfold alerter_fail. rewrite run_bind. destruct (run_ignored (FailAlert (j_ID job) (j_MonitorID job) reason) tt w) as [w' ->].
  by exists w'.
Qed.

Lemma run_render_down baseURL job w :
  j_IsReminder job = false -> j_EventType job = "down"%string ->
  exists msg w', run (render baseURL job) w = (Ok msg, w') /\ msg_To msg = j_Recipient job /\
    msg_Subject msg = down_subject (j_MonitorName job).
Proof.
  intros Hr Ht. unfold render. rewrite Hr, Ht. cbn [String.eqb Ascii.eqb Bool.eqb].
  rewrite run_bind. cbn [run ret]. rewrite run_bind.
  destruct (time_IsZero (j_EventAt job)); [rewrite time_Now_ok|]; do 2 eexists; (split; [reflexivity|]); split; reflexivity.
Qed.

(** Whatever fails, a dispatch comes back, and a down alert has been offered
    to the channel. *)
Lemma run_dispatch_always chan baseURL job w :
  exists log w', run (dispatch (Some chan) baseURL job) w = (Ok log, w') /\ announced job log.
Proof.
  unfold dispatch. destruct (j_AlertsMuted job) eqn:Em.
  { destruct (run_ignored (SuppressAlert (j_ID job)) (@nil Delivery) w) as [w' ->].
    eexists [], w'. split; [done|]. unfold announced. congruence. }
  rewrite run_bind, run_attempt. destruct (run (render baseURL job) w) as [[msg|e] w1] eqn:E.
  2:{ destruct (run_fail job "could not build notification" (@nil Delivery) w1) as [w' Hr].
      exists [], w'. split; [exact Hr|]. intros _ Hrem Hty.
      destruct (run_render_down baseURL job w Hrem Hty) as (msg & w2 & Hd & _). congruence. }
  rewrite run_bind. cbn [run channel_Send].
  set (log := [mkDelivery _ _ _]).
  assert (Ha : announced job log).
  { intros _ Hrem Hty. destruct (run_render_down baseURL job w Hrem Hty) as (msg' & w2 & Hd & Hto & Hsub).
    assert (msg' = msg) as -> by congruence. eexists. split; [by apply list_elem_of_singleton|]. done. }
  enough (Hend : exists w', run (match chan msg (w_step w1) with
      | Some err =>
          if IsRetryable err && (j_Attempts job + 1 <? maxAttempts) then
            let! now := testclock_Now in
            let! _ := attempt (RescheduleAlert (j_ID job) (time_Add now (backoff (j_Attempts job)))) in ret log
          else alerter_fail job "mail server rejected the message" ;; ret log
      | None => let! _ := attempt (MarkAlertSent (j_ID job)) in ret log
      end) (tick w1) = (Ok log, w')).
  { destruct Hend as [w' Hr]. exists log, w'. split; [exact Hr|exact Ha]. }
  destruct (chan msg (w_step w1)) as [err|]; [destruct (IsRetryable err && _)|].
  - rewrite run_bind, testclock_Now_ok. apply run_ignored.
  - apply run_fail.
  - apply run_ignored.
Qed.

Lemma run_dispatch_all chan baseURL jobs : forall log w,
  exists log' w', run (for_range (fun log job => let! _ := ctx_Err (fun _ => false) in
      let! sent := dispatch (Some chan) baseURL job in ret (log ++ sent)) log jobs) w = (Ok log', w') /\
    log ⊆ log' /\ forall job, job ∈ jobs -> announced job log'.
Proof.
  induction jobs as [|job jobs IH]; intros log w; cbn [for_range].
  { exists log, w. split; [done|]. split; [done|]. by intros job ?%elem_of_nil. }
  rewrite run_bind, run_bind. cbn [run ctx_Err]. rewrite run_bind.
  destruct (run_dispatch_always chan baseURL job (tick w)) as (sent & w1 & -> & Ha). cbn [run ret].
  destruct (IH (log ++ sent) w1) as (log' & w' & Hr & Hsub & Hjobs).
  exists log', w'. split; [exact Hr|]. split; [intros d Hd; apply Hsub, elem_of_app; by left|].
  intros job' [->|Hin]%elem_of_cons; [|by apply Hjobs]. intros Hm Hrem Hty.
  destruct (Ha Hm Hrem Hty) as (d & Hd & Hrest). exists d. split; [|done]. apply Hsub, elem_of_app. by right.
Qed.

Lemma length_number_alerts now rows : forall next, length (number_alerts next now rows) = length rows.
Proof. induction rows as [|[mid eid] rows IH]; intros next; cbn; [done|]. by rewrite IH. Qed.

Lemma length_omap_le {A B} (f : A -> option B) l : (length (omap f l) <= length l)%nat.
Proof. induction l as [|x l IH]; cbn; [lia|]. destruct (f x); cbn; lia. Qed.

Lemma run_ClaimDueAlerts w now limit :
  no_faults w -> 0 <= limit ->
  let t := w_tables w in
  exists w', run (ClaimDueAlerts now limit) w
    = (Ok (map job_of_row (sql_limit limit (sort_by attempt_le (omap (alert_row t) (List.filter (alert_due now) (t_alerts t)))))), w').
Proof.
  intros Hf Hl t. pose proof (in_tx_start w Hf) as Hw. unfold ClaimDueAlerts. eexists. eapply run_withTx_commit; [done| |].
  - rewrite run_bind, run_wrap, (in_tx_stmt _ (cur_clock w)) by done. unfold db_ClaimDueAlerts, sql_page.
    replace (limit <? 0) with false by (symmetry; lia). reflexivity.
  - by apply in_tx_step.
Qed.

(** A pending alert whose time has come is in the round's claim. *)
Lemma run_alerter_tick chan baseURL w a r :
  no_faults w -> outbox_room w -> a ∈ t_alerts (w_tables w) -> pending a = true ->
  (forall n, (w_step w <= n)%nat -> a_next_attempt_at a < time_Add (env_clock (w_env w) n) clock_offset) ->
  alert_row (w_tables w) a = Some r ->
  exists log w', run (alerter_tick (Some chan) baseURL (fun _ => false)) w = (Ok log, w') /\ announced (job_of_row r) log.
Proof.
  intros Hf Hroom Ha Hp Hclock Hr. unfold alerter_tick. rewrite run_bind, testclock_Now_ok, run_bind, run_attempt.
  destruct (run_EnqueueDownReminders (tick w) (cur_testclock w)) as (w1 & -> & Ht & Hf1 & He & Hs); [by auto with ping|].
  set (due := omap _ _) in *. set (new := number_alerts _ _ _) in *.
  rewrite run_bind, testclock_Now_ok, run_bind.
  destruct (run_ClaimDueAlerts (tick w1) (cur_testclock w1) claimLimit) as (w2 & ->); [by auto with ping|done|].
  rewrite sql_limit_all.
  2:{ rewrite length_sort_by. etrans; [apply inj_le, length_omap_le|].
      change (w_tables (tick w1)) with (w_tables w1). rewrite Ht. cbn [t_alerts set_alerts].
      rewrite List.filter_app, length_app. unfold outbox_room in Hroom.
      pose proof (filter_length_le (alert_due (cur_testclock w1)) new) as Hnew.
      assert (length new <= length (monitor_rows (w_tables w)))%nat.
      { unfold new. rewrite length_number_alerts. apply length_omap_le. }
      assert (length (List.filter (alert_due (cur_testclock w1)) (t_alerts (w_tables w)))
              <= length (List.filter pending (t_alerts (w_tables w))))%nat; [|cbn [tick w_tables] in *; lia].
      clear. induction (t_alerts (w_tables w)) as [|b l IH]; cbn; [done|]. unfold alert_due at 1. fold (pending b).
      destruct (pending b); cbn [andb]; [destruct (_ <? _)|]; cbn; lia. }
  destruct (run_dispatch_all chan baseURL (map job_of_row (sort_by attempt_le (omap (alert_row (w_tables (tick w1)))
    (List.filter (alert_due (cur_testclock w1)) (t_alerts (w_tables (tick w1))))))) [] w2) as (log & w' & Hrun & _ & Hall).
  exists log, w'. split; [exact Hrun|]. apply Hall, list_elem_of_In, in_map, list_elem_of_In, elem_of_sort_by.
  apply list_elem_of_omap. exists a. change (w_tables (tick w1)) with (w_tables w1). rewrite Ht. split; [|exact Hr].
  apply list_elem_of_In, filter_In. split; [apply list_elem_of_In, elem_of_app; by left|].
  unfold alert_due. fold (pending a). rewrite Hp. apply Z.ltb_lt. unfold cur_testclock, cur_clock. rewrite He. apply Hclock. cbn in Hs. lia.
Qed.

(** The row of an alert about a stored event. *)
Lemma alert_row_of t s a e m u :
  integrity (t, s) -> t_monitors t !! a_monitor_id a = Some m -> t_users t !! m_user_id m = Some u ->
  e ∈ t_events t -> a_event_id a = e_id e ->
  alert_row t a = Some (mkClaimDueAlertsRow a (u_email u) (m_name m) (m_slug m) (m_state m) (m_alerts_muted m)
                          (e_type e) (e_message e) (e_created_at e) (e_meta e)).
Proof.
  intros Hi Hm Hu He Hid. unfold alert_row. rewrite Hm. cbn. rewrite Hu. cbn.
  destruct (find _ (t_events t)) as [e'|] eqn:Ef.
  - apply find_some in Ef as [He' Heq%Z.eqb_eq]. apply list_elem_of_In in He'.
    destruct (in_event_ids _ Hi) as [Hnd _]. cbn in Hnd.
    apply list_elem_of_lookup in He as [i Hi1], He' as [j Hj1].
    assert (i = j); [|by simplify_eq].
    eapply NoDup_lookup; [exact Hnd|..]; rewrite list_lookup_fmap; [by rewrite Hi1|rewrite Hj1; cbn; f_equal; congruence].
  - exfalso. eapply find_none in Ef; [|by apply list_elem_of_In]. cbn in Ef. apply Z.eqb_neq in Ef. congruence.
Qed.

Lemma is_due_of now m d :
  m_next_deadline m = Some d -> d < now -> (m_state m = "up" \/ m_state m = "late") -> m_paused_at m = None ->
  is_due now m = true.
Proof.
  intros Hd Hlt Hs Hp. unfold is_due. rewrite Hd, Hp, (proj2 (Z.ltb_lt _ _) Hlt). cbn [andb].
  by destruct Hs as [-> | ->].
Qed.

(** ** Property *)

(** C10. A missed ping is announced: let a monitor be up, neither paused nor
    muted.  When the scheduler's round runs after its deadline, runs again
    after its grace too, and the alerter's round runs after that, a mail that
    says the monitor is down is offered to the channel for its owner.  Its
    subject is the one of a check that failed: the alerter gives no
    notification a reason, so it never says what PRD F3.2 wants of this case,
    that a check-in was missed.
    Between the rounds the service may do anything that leaves the monitor's
    own rows alone; the rounds themselves meet no fault, and their claims have
    room for every monitor and every pending alert. *)
Theorem missed_ping_announced chan baseURL w1 w2 w3 m u deadline :
  sound_world w1 -> sound_world w2 -> sound_world w3 ->
  scheduler_room w1 -> scheduler_room w2 -> outbox_room w3 ->
  t_monitors (w_tables w1) !! m_id m = Some m -> t_users (w_tables w1) !! m_user_id m = Some u ->
  m_state m = "up" -> m_paused_at m = None -> m_alerts_muted m = false -> m_next_deadline m = Some deadline ->
  deadline < cur_testclock w1 ->
  undisturbed (m_id m) (w_tables (snd (run scheduler_round w1))) (w_tables w2) ->
  deadline + seconds (default 0 (m_grace_s m)) < cur_testclock w2 ->
  undisturbed (m_id m) (w_tables (snd (run scheduler_round w2))) (w_tables w3) ->
  (forall n, (w_step w3 <= n)%nat -> cur_clock (tick w2) < time_Add (env_clock (w_env w3) n) clock_offset) ->
  exists log w', run (alerter_tick (Some chan) baseURL (fun _ => false)) w3 = (Ok log, w') /\
    exists d, d ∈ log /\ msg_To (dl_Message d) = u_email u /\
      msg_Subject (dl_Message d) = down_subject (m_name m).
Proof.
  intros H1 H2 H3 R1 R2 R3 Hm Hu Hs Hp Hmute Hdl Ht1 U1 Ht2 U2 Ht3.
  destruct (run_scheduler_round w1 m) as (w1' & ms1 & Er1 & _ & O1 & Hm1); [done..|by eapply is_due_of; auto|].
  rewrite Er1 in U1. destruct U1 as [Um1 Uu1 _ _]. cbn [snd] in *.
  set (m1 := evaluated _ m) in Hm1. rewrite Hm1 in Um1. specialize (Uu1 _ Hm1).
  assert (Hid1 : m_id m1 = m_id m /\ m_user_id m1 = m_user_id m /\ m_name m1 = m_name m /\
                 m_alerts_muted m1 = m_alerts_muted m /\ m_paused_at m1 = m_paused_at m /\ m_state m1 = "late"%string /\
                 m_next_deadline m1 = Some (deadline + seconds (default 0 (m_grace_s m)))).
  { unfold m1, evaluated. rewrite Hs, Hdl. done. }
  destruct Hid1 as (Hi1 & Hus1 & Hn1 & Hmu1 & Hpa1 & Hst1 & Hdl1).
  destruct (run_scheduler_round w2 m1) as (w2' & ms2 & Er2 & Hin2 & O2 & Hm2); [done..|by rewrite Hi1| |].
  { eapply is_due_of; [exact Hdl1|done|by right|congruence]. }
  rewrite Er2 in U2. destruct U2 as [Um2 Uu2 Ue2 Ua2]. cbn [snd] in *.
  destruct (down_written _ _ _ _ _ O2 Hin2) as (e & a & He & Hem & Hety & Ha & Ham & Haid & Hpend & Hnext & Hrem).
  { unfold goes_down. by rewrite Hst1. }
  set (m2 := evaluated _ m1) in Hm2.
  assert (Hid2 : m_user_id m2 = m_user_id m /\ m_name m2 = m_name m /\ m_alerts_muted m2 = false).
  { unfold m2, evaluated. rewrite Hst1. cbn. rewrite <- Hmute. done. }
  destruct Hid2 as (Hus2 & Hn2 & Hmu2).
  assert (Husers : t_users (w_tables w3) !! m_user_id m2 = Some u).
  { rewrite Uu2 by (by rewrite <- Hi1). by rewrite (tick_users _ _ _ _ O2), Hus2, <- Hus1, Uu1, (tick_users _ _ _ _ O1), Hus1. }
  rewrite Hi1 in Ham, Hem, Hm2. rewrite Hm2 in Um2.
  edestruct (run_alerter_tick chan baseURL w3 a) as (log & w' & Hrun & Hann);
    [apply H3|done|by apply Ua2|done|by rewrite Hnext| |].
  { eapply alert_row_of; [apply H3|by rewrite Ham|done|by apply Ue2|done]. }
  exists log, w'. split; [exact Hrun|].
  destruct Hann as (d & Hd & _ & Hto & Hsub); [done|exact Hrem|done|].
  exists d. split; [done|]. split; [done|]. by rewrite Hsub, <- Hn2.
Qed.
End outage.

(** ** At a concrete input *)

#[local] Existing Instance demo_extern.

Lemma streaks_of_rows now t : forallb (fun m => m_fail_streak m <? 2147483647) (monitor_rows t) = true -> streaks_ok now t.
Proof.
  rewrite forallb_forall. intros Hall id m Hm _. apply Z.ltb_lt, Hall, list_elem_of_In.
  apply list_elem_of_fmap. exists (id, m). split; [done|]. by apply elem_of_map_to_list.
Qed.

Lemma safe_scheduler_round : safe integrity scheduler_round.
Proof.
  unfold scheduler_round. cbn [wc_Tick scheduler_worker]. apply each_bind; [solve_safe|].
  intros now. apply each_bind; [exact (safe_scheduler (ok := svc_ok) integrity _ _)|]. intros _. constructor.
Qed.

(** The database that [w] leaves, after a wait of [k]. *)
Definition left_for (k : Duration) (w : World) : World :=
  mkWorld (w_tables w) (w_seqs w) 0 None
    (mkEnv (fun _ => FNone) (fun n => env_clock demo_env n + k) (env_uuid demo_env) (env_rand demo_env)).

Lemma sound_round k w : sound_world w -> sound_world (left_for k (snd (run scheduler_round w))).
Proof.
  intros [_ Hi]. split; [by intros n _|]. exact (safe_run integrity scheduler_round safe_scheduler_round w Hi).
Qed.

Lemma undisturbed_left k w id : undisturbed id (w_tables w) (w_tables (left_for k w)).
Proof. by constructor. Qed.

Lemma integrity_demo m s :
  m_user_id m = 10%N ->
  (kind_check (m_kind m) && state_check (m_state m) && schedule_kind_check (m_schedule_kind m) && method_check (m_method m)) = true ->
  integrity (demo_tables [m], s).
Proof.
  intros Hu Hc. constructor; cbn; try by constructor.
  all: try lazymatch goal with
    | |- map_Forall _ ∅ => apply map_Forall_empty
    | |- unique _ ∅ => intros i j x y Hx; by rewrite lookup_empty in Hx
    | |- serial _ _ [] => split; constructor
    end.
  - by apply map_Forall_singleton.
  - by intros i j x y [<- <-]%lookup_singleton_Some [<- <-]%lookup_singleton_Some.
  - rewrite insert_empty. apply map_Forall_singleton. split; [done|]. split; [|done]. unfold known_user. cbn. rewrite Hu. by eexists.
  - rewrite insert_empty. by intros i j x y [<- <-]%lookup_singleton_Some [<- <-]%lookup_singleton_Some.
Qed.

Definition silent : Monitor := demo_heartbeat "up" (Some (demo_t0 - Second)).
Definition outage1 : World := demo_world demo_env [silent].
Definition outage2 : World := left_for Hour (snd (run scheduler_round outage1)).
Definition outage3 : World := left_for (2 * Hour) (snd (run scheduler_round outage2)).

Lemma missed_ping_announced_witness :
  exists log w', run (alerter_tick (Some busy_channel) "" (fun _ => false)) outage3 = (Ok log, w') /\
    exists d, d ∈ log /\ msg_To (dl_Message d) = "ops@example.com" /\
      msg_Subject (dl_Message d) = down_subject "Nightly backup".
Proof.
  assert (S1 : sound_world outage1) by (split; [by intros n _|by apply integrity_demo]).
  pose proof (sound_round Hour outage1 S1 : sound_world outage2) as S2.
  pose proof (sound_round (2 * Hour) outage2 S2 : sound_world outage3) as S3.
  apply (missed_ping_announced busy_channel "" outage1 outage2 outage3 silent demo_user (demo_t0 - Second));
    [exact S1|exact S2|exact S3|..].
  - split; [by vm_compute|]. apply streaks_of_rows. by vm_compute.
  - split; [by vm_compute|]. apply streaks_of_rows. by vm_compute.
  - by vm_compute.
  - done.
  - done.
  - done.
  - done.
  - done.
  - done.
  - done.
  - exact (undisturbed_left Hour (snd (run scheduler_round outage1)) (m_id silent)).
  - done.
  - exact (undisturbed_left (2 * Hour) (snd (run scheduler_round outage2)) (m_id silent)).
  - intros n _. unfold time_Add, clock_offset, production_clock. cbn. unfold Hour, Minute, Second in *. lia.
Defined.
