(* ===== verification/TestClock.v ===== *)
(** * TestClock: the end-to-end build's time warp (internal/testclock, server/testclock.go)

    With the tag e2e and PING_ENV=test the API has an endpoint that moves the
    clock its workers read and drives one pass of each of them.  [advance] is
    that handler; the offset is the state of package testclock. *)
From S2P Require Import Prelude GoLib Json Calendar Models Extern Store Queries Logic Demo Convert Checkin Scheduler Paging Prober ProbeWorker.
From S2P Require Import Outbox Mime Alert Alerter Integrity Lifecycle Http Worker Outage.
Local Open Scope Z_scope.
Local Open Scope ping_scope.

(** ** The clock (internal/testclock/testclock_e2e.go) *)

(** [Advance]: the new offset, and what [Now] says with it. *)
Definition testclock_Advance (offset d : Duration) : Prog (Duration * Time) :=
  let offset := wrap64 (offset + d) in
  let! now := testclock_Now (H := offset) in
  ret (offset, now).

(** ** The endpoint (server/testclock.go) *)

Definition testTickLimit : Z := 500.
Definition maxSchedulerPasses : nat := 10.

Record advanceClockRequest := mkadvanceClockRequest { acr_Seconds : Z }.

(** A field of type int. *)
Definition field_int {T} (set : Z -> T -> T) : FieldDecoder T := fun _ v x =>
  match v with VNum n => i ← ParseInt lim64 n; Some (set i x) | VNull => Some x | _ => None end.

Definition advanceClockRequest_fields : list (string * FieldDecoder advanceClockRequest) :=
  [("seconds"%string, field_int (fun v _ => mkadvanceClockRequest v))].

Definition decode_advance (r : Request) : option advanceClockRequest :=
  v ← first_value (rq_Body r); decode_object advanceClockRequest_fields (mkadvanceClockRequest 0) v.

Section testclock.
Context `{Extern} (deps : Deps).
Context (exchange : nat -> store_Monitor -> Duration -> string -> httpConfig -> Exchange) (cancelled : nat -> bool).

(** The passes of the scheduler: until one claims nothing, at most [n]. *)
Fixpoint scheduler_passes (n : nat) (now : Time) : Prog unit :=
  match n with
  | O => ret tt
  | S n =>
      let! res := EvaluateDueMonitors now testTickLimit in
      if er_Claimed res =? 0 then ret tt else scheduler_passes n now
  end.

Definition advanceClockResponse (now : Time) : Json := JObj [("now"%string, JStr (FormatRFC3339Nano now))].

(** The three passes under the moved clock, and the deliveries they made. *)
Definition drive_workers `{Clock} (sched : list nat) (now : Time) : Prog (list Delivery) :=
  scheduler_passes maxSchedulerPasses now ;;
  prober_tick exchange sched ;;
  alerter_tick (dp_AlertChannel deps) (dp_BaseURL deps) cancelled.

(** The new offset, the response, and the deliveries. *)
Definition advance (offset : Duration) (sched : list nat) (r : Request) : Prog (Duration * Response * list Delivery) :=
  match decode_advance r with
  | Some req =>
      if acr_Seconds req <=? 0 then
        ret (offset, writeJSON 400 (Some (errorResponse "seconds must be a positive integer")), [])
      else
        let! advanced := testclock_Advance offset (seconds (acr_Seconds req)) in
        let '(offset, now) := advanced in
        let! driven := attempt (drive_workers (H0 := offset) sched now) in
        match driven with
        | Err err => ret (offset, writeError err, [])
        | Ok log => ret (offset, writeJSON 200 (Some (advanceClockResponse now)), log)
        end
  | None => ret (offset, writeJSON 400 (Some (errorResponse "seconds must be a positive integer")), [])
  end.

(** [registerTestRoutes]: the endpoint exists in the environment "test" only. *)
Definition registerTestRoutes (env : string)
    : option (Duration -> list nat -> Request -> Prog (Duration * Response * list Delivery)) :=
  if String.eqb env "test" then Some advance else None.
End testclock.

(** ** The scheduler's passes *)

(** A pass claims every due monitor. *)
Definition passable (now : Time) (w : World) : Prop :=
  sound_world w /\ Z.of_nat (length (monitor_rows (w_tables w))) <= testTickLimit /\ streaks_ok now (w_tables w).

(** What a pass makes of a row. *)
Definition pass_row (now txnow : Time) (m : Monitor) : Monitor := if is_due now m then evaluated txnow m else m.

Lemma rows_size t : length (monitor_rows t) = size (t_monitors t).
Proof. unfold monitor_rows. by rewrite length_fmap, length_map_to_list. Qed.

Lemma size_same_keys {A} (m1 m2 : gmap N A) : (forall i, is_Some (m1 !! i) <-> is_Some (m2 !! i)) -> size m1 = size m2.
Proof. intros Hd. rewrite <- !size_dom. f_equal. apply set_eq. intros i. by rewrite !elem_of_dom. Qed.

Lemma passable_tick now w : passable now w -> passable now (tick w).
Proof. intros ([Hf Hi] & Hrest). split; [split; [by auto with ping|done]|done]. Qed.

Section passes.
Context `{Extern}.

Lemma run_pass now w :
  passable now w ->
  exists res w', run (EvaluateDueMonitors now testTickLimit) w = (Ok res, w') /\ passable now w' /\
    (er_Claimed res = 0 -> forall id m, t_monitors (w_tables w) !! id = Some m -> is_due now m = false) /\
    (er_Claimed res <> 0 -> exists id m, t_monitors (w_tables w) !! id = Some m /\ is_due now m = true) /\
    exists txnow, forall id, t_monitors (w_tables w') !! id = pass_row now txnow <$> t_monitors (w_tables w) !! id.
Proof.
  intros ([Hf Hi] & Hl & Hs). pose proof (keyed_of_integrity _ Hi) as Hk.
  destruct (run_EvaluateDueMonitors w now testTickLimit) as (w' & Hrun & Hf' & _ & Ht); [done|done|done| |].
  { intros m [Hm Hd]%elem_of_claimed. apply elem_of_monitor_rows in Hm; [|done]. by eapply Hs. }
  set (ms := claimed_monitors now testTickLimit (w_tables w)) in *.
  assert (Hall : forall m, t_monitors (w_tables w) !! m_id m = Some m -> is_due now m = true -> m ∈ ms).
  { intros m Hm Hd. by apply elem_of_claimed_all. }
  destruct (ticked_keyed now _ _ _ _ Hk Hs Ht) as (Hk' & Hs' & Hdom).
  eexists _, w'. split; [exact Hrun|]. split; [|split; [|split]].
  - split; [split; [done|]|split; [|done]].
    + pose proof (safe_run _ _ (safe_scheduler (ok := svc_ok) integrity now testTickLimit) w Hi) as HI. by rewrite Hrun in HI.
    + by rewrite rows_size, (size_same_keys _ _ Hdom), <- rows_size.
  - cbn [er_Claimed]. rewrite <- claimed_late_down. intros Hz id m Hm. pose proof (Hk _ _ Hm) as <-.
    destruct (is_due now m) eqn:Hd; [|done]. specialize (Hall m Hm Hd). destruct ms; [by apply elem_of_nil in Hall|].
    cbn in Hz. lia.
  - cbn [er_Claimed]. rewrite <- claimed_late_down. intros Hnz. destruct ms as [|m ms'] eqn:Ems; [done|].
    exists (m_id m), m. assert (Hm : m ∈ m :: ms') by left. rewrite <- Ems in Hm. apply elem_of_claimed in Hm as [Hm Hd].
    by apply elem_of_monitor_rows in Hm.
  - exists (cur_clock w). intros id. destruct Ht as [Hin Hout]. destruct (t_monitors (w_tables w) !! id) as [m|] eqn:Hm; cbn.
    + pose proof (Hk _ _ Hm) as <-. unfold pass_row. destruct (is_due now m) eqn:Hd; [by apply Hin, Hall|].
      rewrite Hout; [done|]. intros (m' & Heq & Hm')%list_elem_of_fmap. apply elem_of_claimed in Hm' as [Hm' Hd'].
      apply elem_of_monitor_rows in Hm'; [|done]. rewrite <- Heq in Hm'. congruence.
    + rewrite Hout; [done|]. intros (m' & -> & Hm')%list_elem_of_fmap. apply elem_of_claimed in Hm' as [Hm' _].
      apply elem_of_monitor_rows in Hm'; [|done]. congruence.
Qed.

(** The state of a monitor at [now] by its deadline and grace alone. *)
Definition settled_state (now : Time) (m : Monitor) : string :=
  match m_paused_at m, m_next_deadline m with
  | None, Some d =>
      if String.eqb (m_state m) "up" then
        if d + seconds (default 0 (m_grace_s m)) <? now then (if d <? now then "down" else "up")
        else if d <? now then "late" else "up"
      else if String.eqb (m_state m) "late" then if d <? now then "down" else "late"
      else m_state m
  | _, _ => m_state m
  end.

Definition settles (now : Time) (m m' : Monitor) : Prop :=
  m_state m' = settled_state now m /\ is_due now m' = false /\ m_kind m' = m_kind m.

Lemma settled_not_due now m : is_due now m = false -> settled_state now m = m_state m.
Proof.
  unfold is_due, settled_state. destruct (m_next_deadline m) as [d|]; [|by destruct (m_paused_at m)].
  destruct (m_paused_at m); [done|]. rewrite (bool_decide_eq_false_2 (is_Some None)) by (by intros []).
  rewrite andb_true_r. destruct (d <? now); cbn [andb].
  - intros [-> ->]%orb_false_iff. done.
  - intros _. destruct (String.eqb_spec (m_state m) "up") as [E|_]; [rewrite E; by destruct (_ <? _)|].
    by destruct (String.eqb_spec (m_state m) "late").
Qed.

Lemma settled_pass_row now txnow m : settled_state now (pass_row now txnow m) = settled_state now m.
Proof.
  unfold pass_row. destruct (is_due now m) eqn:Hd; [|done]. pose proof Hd as Hdue. unfold is_due in Hd. unfold evaluated, settled_state.
  destruct (m_next_deadline m) as [d|]; [|done]. destruct (m_paused_at m) eqn:Hp.
  { rewrite bool_decide_eq_true_2, andb_false_r in Hd by (by eexists). done. }
  apply andb_true_iff in Hd as [[Hlt Hst]%andb_true_iff _]. rewrite Hlt.
  destruct (String.eqb (m_state m) "up") eqn:Hu; cbn; rewrite ?Hp; cbn; [done|].
  cbn in Hst. by rewrite Hst.
Qed.

Lemma run_passes now n : forall w k,
  passable now w -> (k < n)%nat ->
  (forall id m, t_monitors (w_tables w) !! id = Some m -> (steps_left now (Some m) <= k)%nat) ->
  exists w', run (scheduler_passes n now) w = (Ok tt, w') /\ passable now w' /\
    forall id m, t_monitors (w_tables w) !! id = Some m -> exists m', t_monitors (w_tables w') !! id = Some m' /\ settles now m m'.
Proof.
  induction n as [|n IH]; intros w k Hw Hk Hsteps; [lia|]. cbn [scheduler_passes].
  destruct (run_pass now w Hw) as (res & w1 & Hrun & Hw1 & Hnone & Hsome & txnow & Hrows). rewrite run_bind, Hrun.
  destruct (Z.eqb_spec (er_Claimed res) 0) as [Hz|Hnz].
  - exists w1. split; [done|]. split; [done|]. intros id m Hm. specialize (Hnone Hz id m Hm).
    exists m. rewrite Hrows, Hm. unfold pass_row. cbn. rewrite Hnone. split; [done|].
    split; [by rewrite settled_not_due|]. done.
  - assert (Hk0 : exists k', k = S k').
    { destruct k as [|k']; [|by exists k']. destruct (Hsome Hnz) as (id & m & Hm & Hd). specialize (Hsteps _ _ Hm).
      unfold steps_left in Hsteps. rewrite Hd in Hsteps. case_match; lia. }
    destruct Hk0 as [k' ->].
    destruct (IH w1 k' Hw1 ltac:(lia)) as (w' & Hr & Hw' & Hset).
    { intros id m' Hm'. rewrite Hrows in Hm'. apply fmap_Some in Hm' as (m & Hm & ->). specialize (Hsteps _ _ Hm).
      unfold pass_row. destruct (is_due now m) eqn:Hd.
      - pose proof (steps_left_evaluated now txnow m Hd). lia.
      - unfold steps_left. rewrite Hd. lia. }
    exists w'. split; [exact Hr|]. split; [done|]. intros id m Hm.
    destruct (Hset id (pass_row now txnow m)) as (m' & Hm' & H1 & H2 & H3); [by rewrite Hrows, Hm|].
    exists m'. split; [done|]. split; [by rewrite H1, settled_pass_row|]. split; [done|].
    rewrite H3. unfold pass_row, evaluated. by repeat case_match.
Qed.
End passes.

(** ** A monitor the other passes leave alone *)

Definition row_is (id : UUID) (om : option Monitor) (d : DB) : Prop := keyed_monitors d.1 /\ t_monitors d.1 !! id = om.

Section frame.
Context `{Extern} (id : UUID) (om : option Monitor).

Lemma row_is_gap : gap_tolerant (row_is id om).
Proof. by intros t s s' HI _. Qed.

(** A statement that writes no monitor, and one that writes another. *)
Lemma row_is_same {X} (q : Sql X) :
  (forall now u d r d', q now u d = (r, d') -> t_monitors d'.1 = t_monitors d.1) -> keeps (row_is id om) q.
Proof. intros Hq now u d r d' [Hk Hr] E. unfold row_is, keyed_monitors. by rewrite (Hq _ _ _ _ _ E). Qed.

Lemma row_is_update i f : i <> id -> (forall now m, m_id (f now m) = m_id m) -> keeps (row_is id om) (sql_update_monitor i f).
Proof.
  intros Hne Hf now u d r d' [Hk Hr] E. unfold sql_update_monitor in E. destruct (t_monitors d.1 !! i) as [m|] eqn:Hm; simplify_eq; [|done].
  pose proof (Hk _ _ Hm) as Hid. split.
  - intros j m' Hj. cbn in Hj. rewrite Hf, Hid in Hj. apply lookup_insert_Some in Hj as [[<- <-]|[_ Hj]]; [by rewrite Hf|by apply Hk].
  - cbn. by rewrite Hf, Hid, lookup_insert_ne.
Qed.

Ltac same_monitors := apply row_is_same; intros ? ? [? ?] ? ? E; cbn in E; repeat case_match; simplify_eq; done.

Lemma row_is_reads {X} (q : Sql X) : reads q -> keeps (row_is id om) q.
Proof. apply reads_keeps. Qed.

Lemma row_is_InsertProbeResult a : keeps (row_is id om) (db_InsertProbeResult a).
Proof. same_monitors. Qed.
Lemma row_is_InsertEvent mid ty msg meta : keeps (row_is id om) (db_InsertEvent mid ty msg meta).
Proof. same_monitors. Qed.
Lemma row_is_InsertAlert mid eid c : keeps (row_is id om) (db_InsertAlert mid eid c).
Proof. same_monitors. Qed.
Lemma row_is_EnqueueDownReminders now : keeps (row_is id om) (db_EnqueueDownReminders now).
Proof. unfold db_EnqueueDownReminders. same_monitors. Qed.
Lemma row_is_update_alert i bump f : keeps (row_is id om) (sql_update_alert i bump f).
Proof. unfold sql_update_alert. same_monitors. Qed.

Ltac row_stmt := first
  [ apply row_is_InsertProbeResult | apply row_is_InsertEvent | apply row_is_InsertAlert | apply row_is_EnqueueDownReminders
  | apply row_is_update_alert | apply row_is_update; [done|intros now m; reflexivity]
  | apply reads_keeps; first [apply reads_page|apply reads_one] ].

Ltac solve_row := repeat safe_step ltac:(row_stmt) ltac:(apply safe_withTx_safe; [apply row_is_gap|solve_advances|]).

Lemma row_is_alerter `{Clock} ch baseURL cancelled : safe (row_is id om) (alerter_tick ch baseURL cancelled).
Proof. solve_row. Qed.

Lemma row_is_probe o i : pgUUID (po_MonitorID o) = Ok i -> i <> id -> safe (row_is id om) (RecordProbeResult o).
Proof.
  intros Hi Hne. unfold RecordProbeResult. apply safe_withTx_safe; [apply row_is_gap|solve_advances|].
  rewrite Hi. cbn [bind lift_res]. solve_row.
Qed.
End frame.

Section prober_frame.
Context `{HL : ExternLaws} `{Clock} (exchange : nat -> store_Monitor -> Duration -> string -> httpConfig -> Exchange).
Context (id : UUID) (m0 : Monitor) (Hkind : m_kind m0 <> "http"%string).

Definition framed (d : DB) : Prop := integrity d /\ row_is id (Some m0) d.

Lemma claimed_probe d now m :
  framed d -> m ∈ sort_by probe_at_le (List.filter (is_probe_due now) (monitor_rows d.1)) ->
  m_id m <> id /\ state_check (m_state m) = true.
Proof.
  intros (Hi & Hk & Hrow) Hm%elem_of_sort_by%list_elem_of_In%filter_In. destruct Hm as [Hm%list_elem_of_In Hd].
  apply elem_of_monitor_rows in Hm; [|done]. split.
  - intros Heq. rewrite Heq, Hrow in Hm. injection Hm as <-. unfold is_probe_due in Hd. destruct (m_next_probe_at m0); [|done].
    apply andb_true_iff in Hd as [[_ Hd%String.eqb_eq]%andb_true_iff _]. done.
  - destruct (in_monitors _ Hi _ _ Hm) as (_ & _ & Hc). repeat (apply andb_true_iff in Hc as [Hc ?]). done.
Qed.

Lemma safe_probeOne m : m_id m <> id -> state_check (m_state m) = true -> safe framed (probeOne exchange (toMonitor m)).
Proof.
  intros Hne Hst. unfold probeOne. destruct (decodeHTTPConfig _) as [cfg|]; [|constructor].
  apply each_bind; [constructor; [done|constructor]|]. intros x. apply each_bind; [unfold testclock_Now; solve_safe|].
  intros now. apply each_bind; [|constructor]. apply each_attempt. apply safe_and.
  - by apply (safe_probe integrity).
  - apply (row_is_probe id (Some m0) _ (m_id m)); [|done]. unfold pgUUID. cbn. by rewrite uuid_scan_string.
Qed.

Lemma guarded_prober_tick sched : guarded framed anything (prober_tick exchange sched).
Proof.
  unfold prober_tick. eapply guarded_bind; [apply guarded_safe; unfold testclock_Now; solve_safe| |done].
  intros now _. eapply (guarded_bind _ (fun r => forall ms, r = Ok ms ->
    exists rows, ms = toMonitor <$> rows /\ forall m, m ∈ rows -> m_id m <> id /\ state_check (m_state m) = true)).
  - unfold prober_ClaimDueProbes. eapply guarded_bind with (Q := fun r => forall rows, r = Ok rows ->
      forall m, m ∈ rows -> m_id m <> id /\ state_check (m_state m) = true); [|intros rows Hr|done].
    + apply guarded_on_err, guarded_stmt; [apply reads_keeps, reads_page|done|].
      intros tnow u d Hd. unfold db_ClaimDueProbes, sql_page. destruct (_ <? 0); cbn; [done|].
      intros rows [= <-] m Hm. eapply elem_of_sublist in Hm; [|apply sql_limit_sublist]. by eapply claimed_probe.
    + constructor. intros ms [= <-]. exists rows. split; [done|]. by apply Hr.
  - intros ms Hms. apply guarded_safe. destruct (Hms ms eq_refl) as (rows & -> & Hrows). apply each_par.
    apply Forall_fmap, Forall_forall. intros m' (m & -> & Hm)%list_elem_of_fmap. destruct (Hrows m Hm) as [Hne Hst].
    by apply safe_probeOne.
  - done.
Qed.
End prober_frame.

(** ** The alerter's pass comes back *)

Section alerter_pass.
Context `{Extern} `{Clock} (ch : option Channel) (baseURL : string).

Lemma run_dispatch_ok job w : exists log w', run (dispatch ch baseURL job) w = (Ok log, w').
Proof.
  destruct ch as [chan|].
  - destruct (run_dispatch_always chan baseURL job w) as (log & w' & Hr & _). by exists log, w'.
  - unfold dispatch. destruct (j_AlertsMuted job); [destruct (run_ignored (SuppressAlert (j_ID job)) (@nil Delivery) w) as [w' ->]; by eexists _, _|].
    destruct (run_fail job "email delivery is not configured" (@nil Delivery) w) as [w' ->]. by eexists _, _.
Qed.

Lemma run_alerter_ok w :
  no_faults w -> exists log w', run (alerter_tick ch baseURL (fun _ => false)) w = (Ok log, w').
Proof.
  intros Hf. unfold alerter_tick. rewrite run_bind, testclock_Now_ok, run_bind, run_attempt.
  destruct (run_EnqueueDownReminders (tick w) (cur_testclock w)) as (w1 & -> & _ & Hf1 & _); [by auto with ping|].
  rewrite run_bind, testclock_Now_ok, run_bind.
  destruct (run_ClaimDueAlerts (tick w1) (cur_testclock w1) claimLimit) as (w2 & ->); [by auto with ping|done|].
  generalize (map job_of_row (sql_limit claimLimit (sort_by attempt_le (omap (alert_row (w_tables (tick w1)))
    (List.filter (alert_due (cur_testclock w1)) (t_alerts (w_tables (tick w1)))))))). intros jobs.
  generalize (@nil Delivery). revert w2. induction jobs as [|job jobs IH]; intros w2 log; cbn [for_range]; [by eexists _, _|].
  rewrite run_bind, run_bind. cbn [run ctx_Err]. rewrite run_bind.
  destruct (run_dispatch_ok job (tick w2)) as (sent & w3 & ->). apply IH.
Qed.
End alerter_pass.

Lemma steady_scheduler_passes `{Extern} n now : steady (scheduler_passes n now).
Proof.
  induction n as [|n IH]; cbn [scheduler_passes]; [constructor|]. apply steady_bind; [solve_steady|].
  intros res. by destruct (er_Claimed res =? 0); [constructor|].
Qed.

Lemma steady_prober_tick `{Extern} `{Clock} exchange sched : steady (prober_tick exchange sched).
Proof.
  unfold prober_tick. apply steady_bind; [unfold testclock_Now; solve_steady|]. intros now.
  apply steady_bind; [solve_steady|]. intros ms. apply steady_par, Forall_fmap, Forall_true. intros m. cbn. solve_steady.
Qed.

Lemma run_prober_tick `{Extern} `{Clock} exchange sched w :
  no_faults w -> exists w', run (prober_tick exchange sched) w = (Ok tt, w').
Proof.
  intros Hf. unfold prober_tick. rewrite run_bind, testclock_Now_ok, run_bind. unfold prober_ClaimDueProbes.
  rewrite run_bind, run_wrap, run_stmt, exec_ok by auto with ping. unfold db_ClaimDueProbes, sql_page. cbn [fst snd].
  apply run_par_ok.
Qed.

(** ** Property *)

(** C11. The time warp settles every heartbeat monitor, in a database of at
    most 500 monitors (what one pass of the scheduler claims) none of which is
    due with a fail_streak at the end of INTEGER: when nothing fails, a request
    to advance the clock by [n] seconds (a positive number that does not
    overflow the offset) is answered with 200 and moves the clock by [n]
    seconds; and afterwards every heartbeat monitor, whatever the probes and
    alerts of the same request do, is in the state its deadline and grace
    period dictate at the new time, across both thresholds at once, and is
    due for nothing more. *)
Theorem advance_settles `{ExternLaws} deps exchange sched offset r n w :
  decode_advance r = Some (mkadvanceClockRequest n) -> 0 < n -> is_int64 (n * Second) -> is_int64 (offset + n * Second) ->
  let now := cur_clock w + (offset + n * Second) in
  passable now w ->
  exists resp log w', run (advance deps exchange (fun _ => false) offset sched r) w
      = (Ok (offset + n * Second, resp, log), w') /\
    rs_Status resp = 200 /\
    forall id m, t_monitors (w_tables w) !! id = Some m -> m_kind m <> "http"%string ->
      exists m', t_monitors (w_tables w') !! id = Some m' /\ settles now m m'.
Proof.
  intros Hreq Hn Hi1 Hi2 now Hw. unfold advance. rewrite Hreq. cbn [acr_Seconds].
  replace (n <=? 0) with false by (symmetry; lia). unfold seconds. rewrite (wrap64_id _ Hi1).
  unfold testclock_Advance. rewrite (wrap64_id _ Hi2), !run_bind, testclock_Now_ok. cbn [run ret].
  rewrite run_bind, run_attempt. unfold drive_workers. rewrite run_bind.
  assert (Hnow : @cur_testclock (offset + n * Second) w = now) by reflexivity. rewrite Hnow.
  destruct (run_passes now maxSchedulerPasses (tick w) 2 (passable_tick _ _ Hw)) as (w1 & Hr1 & ([Hf1 HI1] & _) & Hset); [unfold maxSchedulerPasses; lia| |].
  { intros id m _. unfold steps_left. repeat case_match; lia. }
  rewrite Hr1, run_bind. destruct (run_prober_tick (H0 := offset + n * Second) exchange sched w1 Hf1) as [w2 Hr2]. rewrite Hr2.
  assert (Hf2 : no_faults w2).
  { eapply onward_no_faults; [|exact Hf1]. pose proof (steady_run _ (steady_prober_tick (H0 := offset + n * Second) exchange sched) w1) as Ho.
    by rewrite Hr2 in Ho. }
  destruct (run_alerter_ok (H0 := offset + n * Second) (dp_AlertChannel deps) (dp_BaseURL deps) w2 Hf2) as (log & w3 & Hr3). rewrite Hr3.
  do 3 eexists. split; [reflexivity|]. split; [reflexivity|]. intros id m Hm Hk.
  destruct (Hset id m Hm) as (m' & Hm' & Hs). exists m'. split; [|done].
  assert (Hk' : m_kind m' <> "http"%string) by (by destruct Hs as (_ & _ & ->)).
  pose proof (guarded_run _ _ _ (guarded_prober_tick (H := offset + n * Second) exchange id m' Hk' sched) w1 _ _
    (conj HI1 (conj (keyed_of_integrity _ HI1) Hm')) Hr2) as [[_ Hrow2] _].
  pose proof (safe_run _ _ (row_is_alerter id (Some m') (H0 := offset + n * Second) (dp_AlertChannel deps) (dp_BaseURL deps) (fun _ => false)) w2 Hrow2) as Hrow3.
  rewrite Hr3 in Hrow3. apply Hrow3.
Qed.

(** ** At concrete inputs *)

#[local] Existing Instance demo_extern.
#[local] Existing Instance demo_extern_laws.

Definition warp_request (body : string) : Request :=
  mkRequest "POST" ["test"; "advance-clock"]%string (fun _ => ""%string) "" "" "127.0.0.1:4000" "" false None body.

Definition quoted_seconds (n : string) : string := "{" +:+ in_quotes "seconds" +:+ ":" +:+ n +:+ "}".

Definition warp_deps : Deps := mkDeps "" "" Minute Hour true false false None.

(** The monitor of the outage, 400 seconds later: past its deadline and its
    five minutes of grace, in one request. *)
Lemma advance_settles_witness :
  exists resp log w', run (advance warp_deps (fun _ _ _ _ _ => demo_refused) (fun _ => false) 0 [] (warp_request (quoted_seconds "400"))) outage1
      = (Ok (400 * Second, resp, log), w') /\
    rs_Status resp = 200 /\ exists m', t_monitors (w_tables w') !! 1%N = Some m' /\ m_state m' = "down"%string.
Proof.
  destruct (advance_settles warp_deps (fun _ _ _ _ _ => demo_refused) [] 0 (warp_request (quoted_seconds "400")) 400 outage1)
    as (resp & log & w' & Hr & Hst & Hall).
  - vm_compute. reflexivity.
  - lia.
  - unfold is_int64, Second. lia.
  - unfold is_int64, Second. lia.
  - split; [split; [by intros n _|by apply integrity_demo]|]. split; [by vm_compute|]. apply streaks_of_rows. by vm_compute.
  - exists resp, log, w'. split; [exact Hr|]. split; [exact Hst|].
    destruct (Hall 1%N silent) as (m' & Hm' & Hs & _); [reflexivity|discriminate|]. exists m'. split; [exact Hm'|].
    rewrite Hs. vm_compute. reflexivity.
Defined.

(** A number of seconds that overflows a Duration moves the clock back, and is
    answered with 200: the request is only checked to be positive. *)
Example advance_wraps :
  match fst (run (advance warp_deps (fun _ _ _ _ _ => demo_refused) (fun _ => false) 0 [] (warp_request (quoted_seconds "9223372037"))) outage1) with
  | Ok (offset, resp, _) => (offset <? 0) = true /\ rs_Status resp = 200
  | Err _ => False
  end.
Proof. vm_compute. split; reflexivity. Qed.
