(* ===== verification/Validation.v ===== *)
(** * Validation: what the monitor endpoints let into the table

    [monitor_valid] is what a monitor's row must satisfy for the ping, resume
    and probe paths to work on it; a create establishes it, and an update keeps
    it except in one case, which is characterised.  The flag endpoints
    (server/events.go) are specified here too: they change a row that is
    there. *)
From S2P Require Import Prelude GoLib Json NetAddr Models Extern Store Queries Logic Demo Schedule Convert Checkin.
From S2P Require Import Monitor Feeds ProbeWorker Http Responses MonitorApi.
Local Open Scope Z_scope.
Local Open Scope ping_scope.

Section validation.
Context `{Extern} `{Web}.

Definition in_bounds (lo hi : Z) (v : option Z) : Prop := forall n, v = Some n -> lo <= n <= hi.

(** The http settings of a monitor that can be probed. *)
Definition http_ok (f : httpFields) : Prop :=
  (url_Scheme (hf_URL f) = Some "http"%string \/ url_Scheme (hf_URL f) = Some "https"%string) /\ hf_URL f <> "" /\
  (hf_Method f = "" \/ hf_Method f = "GET" \/ hf_Method f = "HEAD") /\
  in_bounds 30 86400 (hf_IntervalS f) /\ in_bounds 1 30 (hf_TimeoutS f) /\
  (hf_HTTPConfig f = "" \/ json_Valid (hf_HTTPConfig f) = true).

Lemma in_bounds_iff lo hi v : out_of_bounds lo hi v = false <-> in_bounds lo hi v.
Proof.
  unfold out_of_bounds, in_bounds. destruct v as [n|]; [|done]. rewrite orb_false_iff, !Z.ltb_ge.
  split; [by intros ? ? [= <-]|]. intros Hn. by apply Hn.
Qed.

(** A check that refuses with a response, then the rest. *)
Lemma refuse_None {A} (b : bool) (r : A) k : (if b then Some r else k) = None <-> b = false /\ k = None.
Proof. destruct b; naive_solver. Qed.

Lemma method_allowed m :
  negb (String.eqb m "") && negb (String.eqb m "GET") && negb (String.eqb m "HEAD") = false
  <-> m = "" \/ m = "GET" \/ m = "HEAD".
Proof. rewrite !andb_false_iff, !negb_false_iff, !String.eqb_eq. tauto. Qed.

Lemma scheme_allowed u :
  match url_Scheme u with
  | Some scheme => negb (String.eqb scheme "http") && negb (String.eqb scheme "https")
  | None => true
  end = false <-> url_Scheme u = Some "http"%string \/ url_Scheme u = Some "https"%string.
Proof.
  destruct (url_Scheme u) as [sch|]; [|split; [done|by intros []]].
  rewrite andb_false_iff, !negb_false_iff, !String.eqb_eq. split; (intros [?|?]; [left|right]); congruence.
Qed.

Lemma validateHTTPFields_iff f : validateHTTPFields f = None <-> http_ok f.
Proof.
  unfold validateHTTPFields, http_ok, minIntervalS, maxIntervalS, minTimeoutS, maxTimeoutS.
  rewrite !refuse_None, scheme_allowed, method_allowed, !in_bounds_iff, String.eqb_neq, andb_false_iff, !negb_false_iff,
    String.eqb_eq. tauto.
Qed.

(** The http settings of a row. *)
Definition http_of (m : Monitor) : httpFields :=
  mkhttpFields (text_String (m_url m)) (text_String (m_method m)) (m_interval_s m) (m_timeout_s m)
    (m_fail_threshold m) (m_http_config m).

(** A row the other components can work with. *)
Definition monitor_valid (m : Monitor) : Prop :=
  method_check (m_method m) = true /\
  (m_kind m = "heartbeat" /\ is_Some (m_schedule_kind m) /\ valid_config (scheduleConfig m) \/
   m_kind m = "http" /\ m_schedule_kind m = None /\ http_ok (http_of m)).

(** On such a row the deadline of a ping or a resume is never an error. *)
Lemma monitor_valid_deadline m now : monitor_valid m -> exists d, nextDeadlineFor m now = Ok d.
Proof.
  unfold nextDeadlineFor. intros [_ [(Hk & _ & Hc)|(Hk & _ & _)]]; rewrite Hk; cbn [String.eqb Ascii.eqb Bool.eqb negb orb].
  - destruct (bool_decide _); cbn [negb]; [|by eexists]. unfold NextOccurrence.
    rewrite (valid_config_Validate _ Hc). destruct (String.eqb _ KindPeriod); by eexists.
  - by eexists.
Qed.

Lemma text_or_null s : text_String (textOrNull s) = s.
Proof. unfold textOrNull, text_String. by destruct (String.eqb_spec s ""). Qed.

Lemma default_text_or_null s : default "" (textOrNull s) = s.
Proof. apply text_or_null. Qed.

(** ** Creates *)

Lemma valid_config_kind cfg : valid_config cfg -> cfg_Kind cfg = KindPeriod \/ cfg_Kind cfg = KindCron.
Proof. intros (_ & _ & [(? & _)|(? & _)]); auto. Qed.

Lemma http_config_kept f : http_ok f -> http_ok (mkhttpFields (hf_URL f) (hf_Method f) (hf_IntervalS f) (hf_TimeoutS f)
  (hf_FailThreshold f) (default "{}" (raw_bytes (hf_HTTPConfig f)))).
Proof.
  unfold http_ok, raw_bytes, textOrNull. cbn. destruct (String.eqb_spec (hf_HTTPConfig f) "") as [E|]; [|done].
  intros (? & ? & ? & ? & ? & _). split_and!; try done. right. vm_compute. reflexivity.
Qed.

Lemma validateCreate_ok user req p :
  validateCreate user req = inr p ->
  creatable p = true /\ forall now id owner slug, monitor_valid (created_row now id owner slug p).
Proof.
  unfold validateCreate. destruct (String.eqb _ "") eqn:En; [done|].
  destruct (String.eqb_spec (cmr_Kind req) "heartbeat") as [Ek|].
  - destruct (Validate _) eqn:Ev; [done|]. apply Validate_valid_config in Ev.
    destruct (_ || _) eqn:Eu; [done|]. intros [= <-].
    assert (Hm0 : method_check None = true) by reflexivity.
    assert (Hkind : schedule_kind_check (textOrNull (sf_ScheduleKind (cmr_Schedule req))) = true /\
                    is_Some (textOrNull (sf_ScheduleKind (cmr_Schedule req)))).
    { apply valid_config_kind in Ev as [E|E]; cbn in E; rewrite E; by split; [|eexists]. }
    split; [unfold creatable; cbn [scm_Kind scm_ScheduleKind scm_Method]; rewrite Ek; by destruct Hkind as [-> _]|].
    intros now id owner slug. split; [apply Hm0|]. left. split; [exact Ek|]. split; [apply Hkind|]. unfold scheduleConfig. cbn -[Validate].
    rewrite !default_text_or_null. destruct Ev as ((Htz & Hz) & Hrest). cbn in Htz.
    destruct (String.eqb_spec (sf_TZ (cmr_Schedule req)) "") as [E|_]; [done|]. by split.
  - destruct (String.eqb_spec (cmr_Kind req) "http") as [Ek|]; [|done].
    destruct (validateHTTPFields _) eqn:Ev; [done|]. apply validateHTTPFields_iff in Ev.
    destruct (_ || _); [done|]. intros [= <-].
    assert (Hm0 : method_check (textOrNull (hf_Method (cmr_HTTP req))) = true)
      by (destruct Ev as (_ & _ & [Em|[Em|Em]] & _); by rewrite Em).
    split; [unfold creatable; cbn [scm_Kind scm_ScheduleKind scm_Method]; by rewrite Ek, Hm0|].
    intros now id owner slug. split; [exact Hm0|]. right. split; [exact Ek|]. split; [reflexivity|].
    unfold http_of. cbn [m_url m_method m_interval_s m_timeout_s m_fail_threshold m_http_config created_row
      scm_URL scm_Method scm_IntervalS scm_TimeoutS scm_FailThreshold scm_HTTPConfig].
    rewrite !text_or_null. by apply http_config_kept.
Qed.

(** ** Updates *)

(** What the stored schedule keeps of the other kind. *)
Definition left_over (cfg : Config) : bool :=
  String.eqb (cfg_Kind cfg) KindPeriod && negb (String.eqb (cfg_CronExpr cfg) "")
  || String.eqb (cfg_Kind cfg) KindCron && negb (cfg_Period cfg =? 0).

Lemma valid_not_left_over cfg : valid_config cfg -> left_over cfg = false.
Proof. unfold left_over. intros (_ & _ & [(-> & -> & _)|(-> & -> & _)]); reflexivity. Qed.

Lemma left_over_valid cfg cfg' :
  valid_config cfg -> left_over cfg' = false -> cfg_Kind cfg' = cfg_Kind cfg -> cfg_TZ cfg' = cfg_TZ cfg ->
  cfg_Grace cfg' = cfg_Grace cfg -> (cfg_Kind cfg = KindPeriod -> cfg_Period cfg' = cfg_Period cfg) ->
  (cfg_Kind cfg = KindCron -> cfg_CronExpr cfg' = cfg_CronExpr cfg) -> valid_config cfg'.
Proof.
  unfold left_over, valid_config, valid_kind. intros (Htz & Hg & Hk) Hl E -> -> Hp Hc. rewrite E in *. split; [done|]. split; [done|].
  destruct Hk as [(Ek & _ & Hb)|(Ek & _ & Hb)]; rewrite Ek in *.
  - left. change (String.eqb KindPeriod KindPeriod) with true in Hl. apply orb_false_iff in Hl as [Hl _].
    cbn [andb] in Hl. apply negb_false_iff, String.eqb_eq in Hl. by rewrite Hp.
  - right. change (String.eqb KindCron KindCron) with true in Hl. apply orb_false_iff in Hl as [_ Hl].
    cbn [andb] in Hl. apply negb_false_iff, Z.eqb_eq in Hl. by rewrite Hc.
Qed.

Lemma text_coalesce s o : default "" (coalesce (textOrNull s) o) = or_old s (text_String o).
Proof. unfold or_old, textOrNull, text_String. by destruct (String.eqb_spec s ""). Qed.

Lemma default_or_old s d : default d (textOrNull s) = or_old s d.
Proof. unfold or_old, textOrNull. by destruct (String.eqb_spec s ""). Qed.

Lemma coalesce_duration v o : duration_s (coalesce v o) = match v with Some n => seconds n | None => duration_s o end.
Proof. by destruct v. Qed.

(** The schedule an update stores: COALESCE keeps what the request left out. *)
Lemma stored_schedule id user p now m :
  scheduleConfig (updated_monitor (update_params id user p) now m)
  = mkConfig (or_old (sum_ScheduleKind p) (text_String (m_schedule_kind m)))
      (match sum_PeriodS p with Some n => seconds n | None => duration_s (m_period_s m) end)
      (or_old (sum_CronExpr p) (text_String (m_cron_expr m))) (or_old (sum_TZ p) (m_tz m))
      (match sum_GraceS p with Some n => seconds n | None => duration_s (m_grace_s m) end).
Proof.
  unfold scheduleConfig. cbn. rewrite !text_coalesce, default_or_old.
  f_equal; [by destruct (sum_PeriodS p)|by destruct (sum_GraceS p)].
Qed.

Lemma stored_http id user p now m :
  http_of (updated_monitor (update_params id user p) now m)
  = mkhttpFields (or_old (sum_URL p) (text_String (m_url m))) (or_old (sum_Method p) (text_String (m_method m)))
      (coalesce (sum_IntervalS p) (m_interval_s m)) (coalesce (sum_TimeoutS p) (m_timeout_s m))
      (coalesce (sum_FailThreshold p) (m_fail_threshold m)) (default (m_http_config m) (sum_HTTPConfig p)).
Proof. unfold http_of. cbn. unfold text_String at 1 2. by rewrite !text_coalesce. Qed.

Lemma merged_valid m f :
  valid_config (mergeScheduleConfig (toMonitor m) f) ->
  forall id user now name auto,
  let cfg := scheduleConfig (updated_monitor (update_params id user (update_of name f no_http auto)) now m) in
  left_over cfg = false -> valid_config cfg.
Proof.
  intros Hv id user now name auto cfg Hl. unfold cfg in *. rewrite stored_schedule in *. cbn [update_of sum_ScheduleKind
    sum_PeriodS sum_CronExpr sum_TZ sum_GraceS] in *.
  eapply left_over_valid; [exact Hv|exact Hl|..]; unfold mergeScheduleConfig, scheduleConfigFromMonitor in *;
    cbn [toMonitor sm_ScheduleKind sm_PeriodS sm_CronExpr sm_TZ sm_GraceS cfg_Period cfg_CronExpr cfg_Kind cfg_TZ cfg_Grace] in *;
    destruct (sf_PeriodS f) as [n|], (String.eqb_spec (sf_CronExpr f) "") as [Ec|Ec]; cbn in *; try done.
  all: unfold or_old in *; rewrite ?(proj2 (String.eqb_neq _ _) Ec), ?Ec in *; cbn in *; try done.
  all: intros Hk; destruct Hv as (_ & _ & [(Hk' & Hc & _)|(Hk' & _ & _ & Hlen & _)]); cbn in *;
    first [congruence|rewrite Hk in Hk'; discriminate Hk'|discriminate Hlen].
Qed.

(** *** Refusals *)

Lemma schedule_error_status cfg err : Validate cfg = Some err -> rs_Status (writeScheduleValidationError err) = 422.
Proof. intros _. unfold writeScheduleValidationError. by destruct (as_ValidationError err) as [[f m]|]. Qed.

Lemma http_error_status f resp : validateHTTPFields f = Some resp -> rs_Status resp = 422.
Proof. unfold validateHTTPFields. repeat (case_match; try discriminate); by intros [= <-]. Qed.

Lemma validateCreate_refusal user req resp : validateCreate user req = inl resp -> rs_Status resp = 422.
Proof.
  unfold validateCreate. repeat (case_match; try discriminate); intros [= <-]; try done;
    eauto using schedule_error_status, http_error_status.
Qed.

Lemma validateUpdate_refusal m req resp : validateUpdate m req = inl resp -> rs_Status resp = 422.
Proof.
  unfold validateUpdate. repeat (case_match; try discriminate); intros [= <-]; try done;
    eauto using schedule_error_status, http_error_status.
Qed.

Lemma method_coalesce s o :
  (s = "" \/ s = "GET" \/ s = "HEAD") -> method_check o = true -> method_check (coalesce (textOrNull s) o) = true.
Proof. by intros [-> | [-> | ->]]. Qed.

Lemma or_old_method s o :
  method_check o = true -> (or_old s (text_String o) = "" \/ or_old s (text_String o) = "GET" \/ or_old s (text_String o) = "HEAD") ->
  method_check (coalesce (textOrNull s) o) = true.
Proof.
  intros Ho. unfold or_old, textOrNull. destruct (String.eqb_spec s "") as [->|Hs]; [done|].
  cbn. intros [->|[->| ->]]; done.
Qed.

Section update.
Context (m : Monitor) (Hm : monitor_valid m) (id user : UUID) (now : Time) (name : option string) (auto : option bool).

Definition stored (s : scheduleFields) (h : httpFields) : Monitor :=
  updated_monitor (update_params id user (update_of name s h auto)) now m.

(** What an update must satisfy: the CHECKs pass, and the row is valid unless
    something is left over. *)
Definition update_fine (s : scheduleFields) (h : httpFields) : Prop :=
  updatable (update_of name s h auto) m = true /\
  (monitor_valid (stored s h) <-> left_over (scheduleConfig (stored s h)) = false).

Lemma valid_no_left_over m' : monitor_valid m' -> left_over (scheduleConfig m') = false.
Proof using.
  intros [_ [(_ & _ & Hc)|(_ & Hs & _)]]; [by apply valid_not_left_over|]. unfold left_over, scheduleConfig. by rewrite Hs.
Qed.

Lemma checks_pass s h :
  method_check (coalesce (textOrNull (hf_Method h)) (m_method m)) = true ->
  schedule_kind_check (coalesce (textOrNull (sf_ScheduleKind s)) (m_schedule_kind m)) = true ->
  updatable (update_of name s h auto) m = true.
Proof using. intros H1 H2. unfold updatable. cbn. by rewrite H1, H2. Qed.

Lemma row_kind_check : schedule_kind_check (m_schedule_kind m) = true.
Proof using Hm.
  destruct Hm as [_ [(_ & [k Hk] & Hc)|(_ & Hk & _)]]; [|by rewrite Hk].
  apply valid_config_kind in Hc. unfold scheduleConfig in Hc. rewrite Hk in *. cbn in Hc. by destruct Hc as [-> | ->].
Qed.

(** A heartbeat monitor and a schedule the handler accepted. *)
Lemma heartbeat_update s :
  m_kind m = "heartbeat" -> valid_config (mergeScheduleConfig (toMonitor m) s) -> update_fine s no_http.
Proof using Hm.
  intros Hk Hv. destruct Hm as [Hmeth _]. split.
  - apply checks_pass; [done|]. apply valid_config_kind in Hv. unfold mergeScheduleConfig in Hv.
    assert (Hkind : or_old (sf_ScheduleKind s) (text_String (m_schedule_kind m)) = KindPeriod \/
                    or_old (sf_ScheduleKind s) (text_String (m_schedule_kind m)) = KindCron).
    { destruct (sf_PeriodS s), (String.eqb (sf_CronExpr s) ""); exact Hv. }
    pose proof row_kind_check as Hrow. unfold or_old, textOrNull in *.
    destruct (String.eqb (sf_ScheduleKind s) ""); [done|]. cbn. by destruct Hkind as [-> | ->].
  - split; [apply valid_no_left_over|]. intros Hl. split; [done|]. left. split; [done|].
    pose proof (merged_valid m s Hv id user now name auto Hl) as Hc. split; [|exact Hc].
    apply valid_config_kind in Hc. unfold scheduleConfig in Hc.
    destruct (m_schedule_kind _); [by eexists|]. cbn in Hc. by destruct Hc.
Qed.

(** An http monitor and fields the handler accepted. *)
Lemma http_update h :
  m_kind m = "http" -> http_ok (mergeHTTPFields (toMonitor m) h) -> update_fine no_schedule h.
Proof using Hm.
  intros Hk Hv. pose proof row_kind_check as Hrow. destruct Hm as [Hmeth [(Hk' & _)|(_ & Hs & _)]]; [congruence|].
  assert (Hmc : method_check (coalesce (textOrNull (hf_Method h)) (m_method m)) = true).
  { apply or_old_method; [done|]. apply Hv. }
  assert (Hvalid : monitor_valid (stored no_schedule h)).
  { split; [exact Hmc|]. right. split; [done|]. split; [cbn; by rewrite Hs|]. unfold stored. rewrite stored_http.
    unfold mergeHTTPFields in Hv. cbn -[or_old textOrNull raw_bytes] in *.
    unfold raw_bytes. by rewrite default_or_old. }
  split; [by apply checks_pass|]. split; [apply valid_no_left_over|done].
Qed.

(** A request that carries neither. *)
Lemma plain_update : update_fine no_schedule no_http.
Proof using Hm.
  destruct Hm as [Hmeth Hrow]. assert (Hvalid : monitor_valid (stored no_schedule no_http)).
  { assert (Es : scheduleConfig (stored no_schedule no_http) = scheduleConfig m) by (unfold stored; by rewrite stored_schedule).
    assert (Eh : http_of (stored no_schedule no_http) = http_of m) by (unfold stored; by rewrite stored_http).
    unfold monitor_valid. rewrite Es, Eh. exact Hm. }
  split; [apply checks_pass; [done|apply row_kind_check]|]. split; [apply valid_no_left_over|done].
Qed.
End update.

(** An accepted update of a valid row stores a valid row, unless a field of
    the other kind of schedule is left over. *)
Lemma validateUpdate_ok m req p :
  monitor_valid m -> validateUpdate (toMonitor m) req = inr p ->
  updatable p m = true /\ forall id user now,
    let m' := updated_monitor (update_params id user p) now m in
    monitor_valid m' <-> left_over (scheduleConfig m') = false.
Proof.
  intros Hm Hp.
  enough (Hf : exists s h, p = update_of (umr_Name req) s h (umr_AutoResume req) /\
                 forall id user now, update_fine m id user now (umr_Name req) (umr_AutoResume req) s h).
  { destruct Hf as (s & h & -> & Hf). split; [apply (Hf 0%N 0%N 0)|]. intros id user now. apply Hf. }
  unfold validateUpdate in Hp. case_bool_decide; [done|]. change (sm_Kind (toMonitor m)) with (m_kind m) in Hp.
  destruct (String.eqb_spec (m_kind m) "heartbeat") as [Ek|_]; [|destruct (String.eqb_spec (m_kind m) "http") as [Ek|_]].
  - destruct (http_fields_set _); [done|]. destruct (schedule_fields_set _).
    + destruct (Validate _) eqn:Ev; [done|]. injection Hp as <-. do 2 eexists. split; [done|]. intros id user now.
      apply heartbeat_update; [done..|]. by apply Validate_valid_config.
    + injection Hp as <-. do 2 eexists. split; [done|]. intros id user now. by apply plain_update.
  - destruct (schedule_fields_set _); [done|]. destruct (http_fields_set _).
    + destruct (validateHTTPFields _) eqn:Ev; [done|]. injection Hp as <-. do 2 eexists. split; [done|].
      intros id user now. apply http_update; [done..|]. by apply validateHTTPFields_iff.
    + injection Hp as <-. do 2 eexists. split; [done|]. intros id user now. by apply plain_update.
  - injection Hp as <-. do 2 eexists. split; [done|]. intros id user now. by apply plain_update.
Qed.
End validation.

(** ** The endpoints *)

Section endpoints.
Context `{Extern} `{Web} (deps : Deps).

Lemma run_or_writeError {A} (p : Prog A) k w :
  run (or_writeError p k) w = match run p w with
                              | (Ok a, w') => run (k a) w'
                              | (Err e, w') => (Ok (writeError e), w')
                              end.
Proof. unfold or_writeError. rewrite run_bind, run_attempt. by destruct (run p w) as [[a|e] w']. Qed.

Lemma in_use_false t id slug :
  in_use t id slug = false -> t_monitors t !! id = None /\ Forall (fun m => m_slug m <> slug) (monitor_rows t).
Proof.
  unfold in_use. intros [Hid Hs]%orb_false_iff. apply bool_decide_eq_false in Hid. split; [by apply eq_None_not_Some|].
  apply Forall_forall. intros m Hm E. assert (Ht : existsb (fun m => String.eqb (m_slug m) slug) (monitor_rows t) = true).
  { apply existsb_exists. exists m. split; [by apply list_elem_of_In|]. by apply String.eqb_eq. }
  congruence.
Qed.

(** The new row [m] a 201 answers with. *)
Definition created (m : Monitor) (user : UUID) (t t' : Tables) (resp : Response) : Prop :=
  rs_Status resp = 201 /\ rs_Body resp = BJson (monitorResponse_json (toMonitorResponse (toMonitor m) (dp_BaseURL deps))) /\
    t' = put_monitor m t /\ t_monitors t !! m_id m = None /\ Forall (fun m0 => m_slug m0 <> m_slug m) (monitor_rows t) /\
    m_user_id m = user /\ m_state m = "new" /\ monitor_valid m /\ forall now, exists d, nextDeadlineFor m now = Ok d.

(** The row a 200 answers with. *)
Definition updated (id user : UUID) (t t' : Tables) (resp : Response) : Prop :=
  exists m', rs_Status resp = 200 /\ rs_Body resp = BJson (monitorResponse_json (toMonitorResponse (toMonitor m') (dp_BaseURL deps))) /\
    t_monitors t' = <[id := m']> (t_monitors t) /\ m_user_id m' = user /\
    (monitor_valid m' <-> left_over (scheduleConfig m') = false).

(** An accepted creation, when no action fails: the new row, or five slugs in
    a row that are taken. *)
Lemma run_monitor_create r userID user req p w :
  no_faults w -> w_txnow w = None -> pgUUID userID = Ok user -> is_Some (t_users (w_tables w) !! user) ->
  decode_create r = Some req -> validateCreate userID req = inr p ->
  exists resp w', run (monitor_create deps r userID) w = (Ok resp, w') /\
    ((exists i, (i < maxSlugRetries)%nat /\ draw_taken w i = false /\ (forall j, (j < i)%nat -> draw_taken w j = true) /\
        resp = writeJSON 201 (Some (monitorResponse_json (toMonitorResponse (toMonitor (drawn_row p user w i)) (dp_BaseURL deps)))) /\
        w_tables w' = put_monitor (drawn_row p user w i) (w_tables w)) \/
     (forall i, (i < maxSlugRetries)%nat -> draw_taken w i = true) /\ rs_Status resp = 500 /\ w_tables w' = w_tables w).
Proof.
  intros Hf Htx Hu Hex Hd Ev. unfold monitor_create. rewrite Hd, Ev.
  destruct (validateCreate_ok _ _ _ Ev) as [Hc _].
  assert (Huid : scm_UserID p = userID).
  { unfold validateCreate in Ev. repeat (case_match; try discriminate Ev); by injection Ev as <-. }
  rewrite run_or_writeError. unfold CreateMonitor. rewrite Huid, Hu. cbn [lift_res bind].
  destruct (run_create_attempts maxSlugRetries p user w Hf Htx Hc Hex)
    as (res & w' & -> & [(i & Hi & Huse & Hbefore & -> & Ht)|(Hall & -> & Ht)]).
  - do 2 eexists. split; [reflexivity|]. left. by exists i.
  - do 2 eexists. split; [reflexivity|]. by right.
Qed.

(** What a free draw is: an id and a slug that no monitor has. *)
Lemma drawn_row_new p user w i :
  draw_taken w i = false ->
  t_monitors (w_tables w) !! m_id (drawn_row p user w i) = None /\
  Forall (fun m0 => m_slug m0 <> m_slug (drawn_row p user w i)) (monitor_rows (w_tables w)).
Proof. exact (in_use_false _ _ _). Qed.

(** C16. POST /monitors, outside a transaction and when no action fails: a body
    that is not one JSON object of the right types within 16 KiB is a 400, a
    request the rules refuse is a 422, and neither changes anything.  An
    accepted one, unless all five draws of a slug and an id are taken, inserts
    the row of the first free draw with the columns of the request, the
    caller's, which satisfies every CHECK and which the other components can
    work with (its deadline is never an error, or its http settings are in
    bounds), and is answered with 201 and that row; when all five are taken,
    and only then, the answer is a 500 and nothing changes. *)
Theorem create_endpoint r userID user w :
  no_faults w -> w_txnow w = None -> pgUUID userID = Ok user -> is_Some (t_users (w_tables w) !! user) ->
  exists resp w', run (monitor_create deps r userID) w = (Ok resp, w') /\
  match decode_create r with
  | None => rs_Status resp = 400 /\ w_tables w' = w_tables w
  | Some req =>
      match validateCreate userID req with
      | inl refusal => resp = refusal /\ rs_Status resp = 422 /\ w_tables w' = w_tables w
      | inr p =>
          (exists i, (i < maxSlugRetries)%nat /\ draw_taken w i = false /\ (forall j, (j < i)%nat -> draw_taken w j = true) /\
             created (drawn_row p user w i) user (w_tables w) (w_tables w') resp) \/
          (forall i, (i < maxSlugRetries)%nat -> draw_taken w i = true) /\ rs_Status resp = 500 /\ w_tables w' = w_tables w
      end
  end.
Proof.
  intros Hf Htx Hu Hex. destruct (decode_create r) as [req|] eqn:Ed; [|unfold monitor_create; rewrite Ed; by do 2 eexists].
  destruct (validateCreate userID req) as [resp|p] eqn:Ev.
  { unfold monitor_create. rewrite Ed, Ev. do 2 eexists. split; [reflexivity|]. split; [done|].
    split; [by eapply validateCreate_refusal|done]. }
  destruct (run_monitor_create _ _ _ _ _ _ Hf Htx Hu Hex Ed Ev) as (resp & w' & Hr & Hcase). exists resp, w'. split; [exact Hr|].
  destruct (validateCreate_ok _ _ _ Ev) as [_ Hvalid].
  destruct Hcase as [(i & Hi & Hfree & Hbefore & -> & Ht)|?]; [left|by right]. exists i.
  split; [exact Hi|]. split; [exact Hfree|]. split; [exact Hbefore|].
  destruct (drawn_row_new p user w i Hfree) as [Hid Hslug].
  split; [done|]. split; [reflexivity|]. split; [exact Ht|]. split; [exact Hid|]. split; [exact Hslug|].
  split; [done|]. split; [done|]. split; [apply Hvalid|]. intros t. apply monitor_valid_deadline, Hvalid.
Qed.

Lemma run_GetMonitor idS userS id user m w :
  no_faults w -> pgUUID idS = Ok id -> t_monitors (w_tables w) !! id = Some m -> m_user_id m = user ->
  uuid_string user = userS ->
  exists w1, run (GetMonitor idS userS) w = (Ok (toMonitor m), w1) /\ no_faults w1 /\ w_tables w1 = w_tables w.
Proof.
  intros Hf Hid Hm Hu Hs. unfold GetMonitor. rewrite run_bind, (pgUUID_uuid_or_404 _ _ _ Hid), run_bind, run_on_err,
    run_stmt, exec_ok by auto with ping.
  unfold db_GetMonitorByID, sql_one. cbn [fst]. rewrite Hm, Hu, Hs, String.eqb_refl. cbn [negb run ret].
  eexists. split; [reflexivity|]. split; [by apply no_faults_tick, no_faults_set_db|done].
Qed.

(** C17. PATCH /monitors/{id} of a valid monitor by its owner, when no action
    fails: a refused request changes nothing; an accepted one stores a row
    that is valid exactly when it keeps nothing of the other kind of schedule
    (a cron expression in a period schedule, a period in a cron schedule),
    which is what the COALESCE of the statement can leave behind. *)
Theorem update_endpoint r idS userS id user m w :
  no_faults w -> keyed_monitors (w_tables w) -> pgUUID idS = Ok id -> pgUUID userS = Ok user ->
  uuid_string user = userS -> t_monitors (w_tables w) !! id = Some m -> m_user_id m = user -> monitor_valid m ->
  exists resp w', run (monitor_update deps r idS userS) w = (Ok resp, w') /\
  match decode_update r with
  | None => rs_Status resp = 400 /\ w_tables w' = w_tables w
  | Some req =>
      match validateUpdate (toMonitor m) req with
      | inl refusal => resp = refusal /\ rs_Status resp = 422 /\ w_tables w' = w_tables w
      | inr _ => updated id user (w_tables w) (w_tables w') resp
      end
  end.
Proof.
  intros Hf Hk Hid Hu Hs Hm Hown Hvalid. unfold monitor_update. rewrite run_or_writeError.
  destruct (run_GetMonitor idS userS id user m w) as (w1 & -> & Hf1 & Ht1); [done..|].
  destruct (decode_update r) as [req|]; [|by do 2 eexists].
  destruct (validateUpdate (toMonitor m) req) as [resp|p] eqn:Ev.
  { do 2 eexists. split; [reflexivity|]. split; [done|]. split; [by eapply validateUpdate_refusal|done]. }
  destruct (validateUpdate_ok _ _ _ Hvalid Ev) as [Hup Hiff]. rewrite run_or_writeError.
  destruct (run_UpdateMonitor p idS userS id user w1) as (res & w' & -> & Hres); [done|by rewrite Ht1|done..|].
  rewrite Ht1, Hm, Hown, N.eqb_refl, Hup in Hres. destruct Hres as (-> & Hms & _).
  do 2 eexists. split; [reflexivity|]. eexists. split; [done|]. split; [reflexivity|]. split; [exact Hms|].
  split; [exact Hown|]. apply Hiff.
Qed.
End endpoints.

(** ** The flag endpoints *)

Section flag_endpoints.
Context `{HE : ExternLaws} `{Web} (deps : Deps).

Lemma uuid_string_eqb (u v : UUID) : String.eqb (uuid_string u) (uuid_string v) = N.eqb u v.
Proof.
  destruct (N.eqb_spec u v) as [->|Hne]; [apply String.eqb_refl|]. apply String.eqb_neq. intros He. apply Hne.
  pose proof (pgUUID_string u) as Hu. rewrite He, pgUUID_string in Hu. by injection Hu.
Qed.

(** GetMonitor tells a missing monitor from a foreign one. *)
Lemma run_GetMonitor_owner idS id user w :
  no_faults w -> pgUUID idS = Ok id ->
  run (GetMonitor idS (uuid_string user)) w =
  (match t_monitors (w_tables w) !! id with
   | None => Err not_found
   | Some m => if N.eqb (m_user_id m) user then Ok (toMonitor m) else Err forbidden
   end, tick (set_w_db (w_db w) w)).
Proof.
  intros Hf Hid. unfold GetMonitor. rewrite run_bind, (pgUUID_uuid_or_404 _ _ _ Hid), run_bind, run_on_err,
    run_stmt, exec_ok by auto with ping.
  unfold db_GetMonitorByID, sql_one, w_db. cbn [fst]. destruct (t_monitors _ !! id) as [m|]; [|done].
  rewrite uuid_string_eqb. by destruct (N.eqb _ _).
Qed.

(** The four handlers, the operation of the store each calls, and the instant of
    its transaction, for a request that arrives in [w]: GetMonitor is the
    first action, and a resume reads the clock before its transaction. *)
Definition flag_handlers (w : World) : list ((string -> string -> Prog Response) * FlagOp * Time) :=
  let clock n := env_clock (w_env w) (n + w_step w)%nat in
  [(monitor_pause deps, OpPause, clock 1%nat); (monitor_mute deps, OpMute, clock 1%nat);
   (monitor_unmute deps, OpUnmute, clock 1%nat); (monitor_resume deps, OpResume (clock 1%nat), clock 2%nat)].

Lemma run_flag_handler handler op now idS id user m w :
  no_faults w -> keyed_monitors (w_tables w) -> pgUUID idS = Ok id -> t_monitors (w_tables w) !! id = Some m ->
  m_user_id m = user -> (handler, op, now) ∈ flag_handlers w ->
  exists r w', run (handler idS (uuid_string user)) w =
      (Ok match r with Ok sm => writeJSON 200 (Some (monitorResponse_json (toMonitorResponse sm (dp_BaseURL deps)))) | Err e => writeError e end, w') /\
    flag_outcome op id user now (w_tables w) r (w_tables w').
Proof.
  intros Hf Hk Hid Hm Hown Hin. set (w1 := tick (set_w_db (w_db w) w)).
  assert (Hids : parseMonitorIDs idS (uuid_string user) = Ok (id, user)) by (unfold parseMonitorIDs; by rewrite Hid, pgUUID_string).
  assert (Hf1 : no_faults w1) by (by apply no_faults_tick, no_faults_set_db).
  assert (Hstep : forall mutate, run (mutateMonitor deps mutate idS (uuid_string user)) w =
                    run (or_writeError (mutate idS (uuid_string user)) (monitor_json deps 200)) w1).
  { intros mutate. unfold mutateMonitor. rewrite run_or_writeError, (run_GetMonitor_owner idS id user w Hf Hid), Hm, Hown. by rewrite N.eqb_refl. }
  assert (Hrun : forall op w2, no_faults w2 -> w_tables w2 = w_tables w -> exists r w', run (flag_prog op idS (uuid_string user)) w2 = (r, w') /\
                   flag_outcome op id user (cur_clock w2) (w_tables w) r (w_tables w')).
  { intros op' w2 Hf2 Ht2. destruct (run_flag op' idS (uuid_string user) id user w2) as (r & w' & Hr & Ho); [done|by rewrite Ht2|done|].
    exists r, w'. split; [exact Hr|]. by rewrite Ht2 in Ho. }
  unfold flag_handlers in Hin. rewrite !elem_of_cons in Hin.
  assert (Hplain : forall op mutate, mutate idS (uuid_string user) = flag_prog op idS (uuid_string user) ->
    exists r w', run (mutateMonitor deps mutate idS (uuid_string user)) w =
      (Ok match r with Ok sm => writeJSON 200 (Some (monitorResponse_json (toMonitorResponse sm (dp_BaseURL deps)))) | Err e => writeError e end, w') /\
      flag_outcome op id user (cur_clock w1) (w_tables w) r (w_tables w')).
  { intros op' mutate Hmut. destruct (Hrun op' w1 Hf1 eq_refl) as (r & w' & Hr & Ho). exists r, w'. split; [|exact Ho].
    rewrite Hstep, run_or_writeError, Hmut, Hr. by destruct r. }
  destruct Hin as [[= -> -> ->]|[[= -> -> ->]|[[= -> -> ->]|[[= -> -> ->]|Hnil]]]]; [by apply Hplain..| |by apply not_elem_of_nil in Hnil].
  destruct (Hrun (OpResume (cur_clock w1)) (tick w1)) as (r & w' & Hr & Ho); [by apply no_faults_tick|done|].
  exists r, w'. split; [|exact Ho]. unfold monitor_resume. rewrite Hstep, run_or_writeError, run_bind, time_Now_ok.
  cbn [flag_prog] in Hr. rewrite Hr. by destruct r.
Qed.

(** C29. POST /monitors/{id}/pause, mute, unmute and resume by [user], when no
    action fails: an id of no monitor is a 404, a foreign monitor is a 403, and
    a resume whose stored schedule does not validate is answered with that
    error; none of these change anything.  Otherwise the answer is 200 with
    the new row, exactly the operation's columns change (a resume clears the
    pause, goes to up and re-arms the deadline from the clock) and one event
    of its type is appended. *)
Theorem flags_spec handler op now idS id user w :
  no_faults w -> keyed_monitors (w_tables w) -> pgUUID idS = Ok id -> (handler, op, now) ∈ flag_handlers w ->
  exists resp w', run (handler idS (uuid_string user)) w = (Ok resp, w') /\
  match t_monitors (w_tables w) !! id with
  | None => rs_Status resp = 404 /\ w_tables w' = w_tables w
  | Some m =>
      if negb (N.eqb (m_user_id m) user) then rs_Status resp = 403 /\ w_tables w' = w_tables w
      else match flag_deadline op m with
      | Err e => resp = writeError e /\ w_tables w' = w_tables w
      | Ok deadline =>
          let m' := flagged op now deadline m in
          resp = writeJSON 200 (Some (monitorResponse_json (toMonitorResponse (toMonitor m') (dp_BaseURL deps)))) /\
          t_monitors (w_tables w') = <[id := m']> (t_monitors (w_tables w)) /\ log_tables_same (w_tables w) (w_tables w') /\
          exists e, t_events (w_tables w') = t_events (w_tables w) ++ [e] /\ e_monitor_id e = id /\ e_type e = flag_event op
      end
  end.
Proof.
  intros Hf Hk Hid Hin.
  assert (Hrefused : forall err, run (GetMonitor idS (uuid_string user)) w = (Err err, tick (set_w_db (w_db w) w)) ->
            run (handler idS (uuid_string user)) w = (Ok (writeError err), tick (set_w_db (w_db w) w))).
  { intros err Hg. unfold flag_handlers in Hin. rewrite !elem_of_cons in Hin.
    destruct Hin as [[= -> _ _]|[[= -> _ _]|[[= -> _ _]|[[= -> _ _]|Hnil]]]]; [..|by apply not_elem_of_nil in Hnil].
    all: unfold monitor_pause, monitor_mute, monitor_unmute, monitor_resume, mutateMonitor; by rewrite run_or_writeError, Hg. }
  pose proof (run_GetMonitor_owner idS id user w Hf Hid) as Hget.
  destruct (t_monitors (w_tables w) !! id) as [m|] eqn:Hm; [destruct (N.eqb_spec (m_user_id m) user) as [Hown|_]; cbn [negb]|].
  - destruct (run_flag_handler handler op now idS id user m w) as (r & w' & Hr & Ho); [done..|]. do 2 eexists. split; [exact Hr|].
    unfold flag_outcome in Ho. rewrite Hm in Ho. destruct (flag_deadline op m) as [deadline|e]; [|by destruct Ho as [-> ?]].
    rewrite Hown, N.eqb_refl in Ho. destruct Ho as (-> & Ho). by split.
  - do 2 eexists. split; [by apply Hrefused|done].
  - do 2 eexists. split; [by apply Hrefused|done].
Qed.
End flag_endpoints.

(** ** At concrete inputs *)

#[local] Existing Instance demo_extern.
#[local] Existing Instance demo_extern_laws.

(** Every address parses, and every URL with a well-formed scheme. *)
Definition demo_web : Web := mkWeb (fun _ => true) (fun _ => true).
#[local] Existing Instance demo_web.

Definition demo_deps : Deps :=
  mkDeps "https://ping.example.com" "https://ping.example.com" (15 * Minute) (720 * Hour) true true false None.

(** A JSON request, in single quotes. *)
Definition demo_request (body : string) : Request :=
  mkRequest "POST" [] (fun _ => "") "" "" "192.0.2.7:51234" "curl/8" true None (quoted body).

Lemma create_endpoint_witness :
  let w := demo_world demo_env [] in
  let r := demo_request "{'kind':'heartbeat','name':'Nightly','schedule_kind':'period','period_s':900,'tz':'UTC','grace_s':300}" in
  exists resp w', run (monitor_create demo_deps r "10") w = (Ok resp, w') /\ exists m, created demo_deps m 10%N (w_tables w) (w_tables w') resp.
Proof.
  intros w r. destruct (create_endpoint demo_deps r "10" 10%N w) as (resp & w' & Hr & Hres).
  - apply demo_no_faults.
  - reflexivity.
  - vm_compute. reflexivity.
  - by eexists.
  - exists resp, w'. split; [exact Hr|]. unfold r in *.
    destruct (decode_create _) as [req|] eqn:Ed; [|vm_compute in Ed; discriminate Ed].
    destruct (validateCreate _ req) as [x|p] eqn:Ev.
    { vm_compute in Ed. injection Ed as <-. vm_compute in Ev. discriminate Ev. }
    destruct Hres as [(i & _ & _ & _ & Hc)|[Hall _]]; [by eexists|].
    specialize (Hall 0%nat ltac:(unfold maxSlugRetries; lia)). vm_compute in Hall. discriminate Hall.
Defined.

Lemma flags_spec_witness :
  let w := demo_world demo_env [demo_heartbeat "up" None] in
  exists resp w', run (monitor_pause demo_deps "1" "10") w = (Ok resp, w') /\ rs_Status resp = 200 /\
    t_monitors (w_tables w') !! 1%N = Some (with_updated_at (env_clock demo_env 1) (with_paused_at (Some (env_clock demo_env 1)) (demo_heartbeat "up" None))).
Proof.
  intros w. destruct (flags_spec demo_deps (monitor_pause demo_deps) OpPause (env_clock demo_env 1) "1" 1%N 10%N w) as (resp & w' & Hr & Ho).
  - apply demo_no_faults.
  - apply demo_keyed.
  - vm_compute. reflexivity.
  - apply list_elem_of_here.
  - exists resp, w'. split; [exact Hr|].
    replace (t_monitors (w_tables w) !! 1%N) with (Some (demo_heartbeat "up" None)) in Ho by (vm_compute; reflexivity).
    destruct Ho as (-> & Hm & _). split; [reflexivity|]. rewrite Hm. apply lookup_insert_eq.
Defined.

Definition switch_request : Request := demo_request "{'schedule_kind':'cron','cron_expr':'* * * * *'}".

Lemma demo_heartbeat_valid : monitor_valid (demo_heartbeat "up" None).
Proof.
  split; [done|]. left. split; [done|]. split; [by eexists|]. apply Validate_valid_config. vm_compute. reflexivity.
Qed.

Lemma update_endpoint_witness :
  let w := demo_world demo_env [demo_heartbeat "up" None] in
  exists resp w', run (monitor_update demo_deps switch_request "1" "10") w = (Ok resp, w') /\
    updated demo_deps 1%N 10%N (w_tables w) (w_tables w') resp.
Proof.
  intros w. destruct (update_endpoint demo_deps switch_request "1" "10" 1%N 10%N (demo_heartbeat "up" None) w)
    as (resp & w' & Hr & Hres).
  - apply demo_no_faults.
  - apply demo_keyed.
  - vm_compute. reflexivity.
  - vm_compute. reflexivity.
  - vm_compute. reflexivity.
  - vm_compute. reflexivity.
  - reflexivity.
  - exact demo_heartbeat_valid.
  - exists resp, w'. split; [exact Hr|].
    destruct (decode_update _) as [req|] eqn:Ed; [|vm_compute in Ed; discriminate Ed].
    destruct (validateUpdate _ req) as [x|p] eqn:Ev; [|exact Hres].
    vm_compute in Ed. injection Ed as <-. vm_compute in Ev. discriminate Ev.
Defined.

(** The switch from a period to cron is answered 200, and the next ping of the
    monitor is not recorded. *)
Example accepted_switch_breaks_pings :
  let w := demo_world demo_env [demo_heartbeat "up" None] in
  let '(r1, w1) := run (monitor_update demo_deps switch_request "1" "10") w in
  let '(r2, w2) := run (RecordCheckin (mkRecordCheckinParams "backup" CheckinSuccess "" "" "" demo_t0)) w1 in
  (match r1 with Ok resp => rs_Status resp | Err _ => 0 end) = 200 /\ is_ok r2 = false /\ t_checkins (w_tables w2) = [].
Proof. vm_compute. repeat split. Qed.

(** An http_config that is JSON but not of the prober's shape is accepted; the
    prober then skips the monitor, which is never probed and stays due. *)
Example accepted_config_never_probed :
  let w := demo_world demo_env [] in
  let r := demo_request "{'kind':'http','name':'Site','url':'https://example.com','http_config':{'headers':['a']}}" in
  let '(r1, w1) := run (monitor_create demo_deps r "10") w in
  let '(r2, w2) := run demo_prober w1 in
  (match r1 with Ok resp => rs_Status resp | Err _ => 0 end) = 201 /\
  (match r2 with Ok _ => true | Err _ => false end) = true /\ t_probe_results (w_tables w2) = [] /\
  (m_next_probe_at <$> map snd (map_to_list (t_monitors (w_tables w2)))) =
  (m_next_probe_at <$> map snd (map_to_list (t_monitors (w_tables w1)))).
Proof. vm_compute. repeat split. Qed.

(** A non-positive threshold is accepted and means the default of two. *)
Example accepted_zero_threshold :
  match decode_create (demo_request "{'kind':'http','name':'S','url':'http://x','fail_threshold':-3}") with
  | Some req => match validateCreate "10" req with inr p => scm_FailThreshold p = Some (-3) | inl _ => False end
  | None => False
  end.
Proof. vm_compute. reflexivity. Qed.

(** Requests the endpoint refuses, by the field the 422 names. *)
Definition refused_field (body : string) : option Json :=
  req ← decode_create (demo_request body);
  match validateCreate "10" req with
  | inl resp => match rs_Body resp with BJson (JObj [_; (_, f)]) => Some f | _ => None end
  | inr _ => None
  end.

Example refusals :
  refused_field "{'kind':'http','name':'S','url':'ftp://x'}" = Some (JStr "url") /\
  refused_field "{'kind':'http','name':'S','url':'HTTPS://x','interval_s':29}" = Some (JStr "interval_s") /\
  refused_field "{'kind':'http','name':'S','url':'http://x','timeout_s':31}" = Some (JStr "timeout_s") /\
  refused_field "{'kind':'heartbeat','name':'S','schedule_kind':'cron','cron_expr':'* * * * *','grace_s':60}" = Some (JStr "tz") /\
  refused_field "{'kind':'cron','name':'S'}" = Some (JStr "kind") /\
  refused_field "{'kind':'http'}" = Some (JStr "name") /\
  decode_create (demo_request "{'kind':'http','interval_s':'60'}") = None /\
  decode_create (demo_request "{'kind':'http','interval_s':3000000000}") = None.
Proof. vm_compute. repeat split. Qed.
