(* ===== verification/Access.v ===== *)
(** * Access: who may do what through the API

    [api_isolation] lifts the isolation of Ownership to the endpoints behind
    their middleware: whatever requests are served, in any interleaving and
    under any faults, a user whose access tokens, API keys and ping addresses
    are in none of them keeps their monitors, logs and keys as they are.
    [endpoint_auth_required] and [access_token_round_trip] are about the credentials
    themselves, [ping_answer] about the one endpoint that needs none. *)
From S2P Require Import Prelude GoLib Json Models Extern Store Queries Logic Demo Schedule Convert Checkin Scheduler Monitor.
From S2P Require Import Feeds Ownership Session User RateLimit Alert Alerter Lifecycle Http AuthApi MonitorApi Server Validation.
Local Open Scope Z_scope.
Local Open Scope ping_scope.

(** ** Statements *)

Section statements.
Context (victim : UUID) (t0 : Tables).

Local Abbreviation kept0 := (kept victim t0).

(** Statements that write users and refresh tokens. *)
Lemma kept_accounts d d' :
  t_monitors d'.1 = t_monitors d.1 -> t_events d'.1 = t_events d.1 -> t_checkins d'.1 = t_checkins d.1 ->
  t_probe_results d'.1 = t_probe_results d.1 -> t_alerts d'.1 = t_alerts d.1 -> t_api_keys d'.1 = t_api_keys d.1 ->
  kept0 d -> kept0 d'.
Proof.
  unfold kept, untouched, keys_untouched, keyed_monitors, keyed_keys, events_of, checkins_of, probes_of, alerts_of.
  by intros -> -> -> -> -> ->.
Qed.

Ltac solve_accounts :=
  intros now u [t s] r d' Hd E; cbn in E; repeat case_match; simplify_eq; try exact Hd;
  by eapply kept_accounts; [..|exact Hd].

Lemma kept_CreateUser email hash : keeps kept0 (db_CreateUser email hash).
Proof. unfold db_CreateUser. solve_accounts. Qed.
Lemma kept_CreateRefreshToken user family hash expires : keeps kept0 (db_CreateRefreshToken user family hash expires).
Proof. unfold db_CreateRefreshToken. solve_accounts. Qed.
Lemma kept_RevokeRefreshTokenFamily family : keeps kept0 (db_RevokeRefreshTokenFamily family).
Proof. unfold db_RevokeRefreshTokenFamily. solve_accounts. Qed.
Lemma kept_RotateRefreshToken id : keeps kept0 (db_RotateRefreshTokenIfUnrotated id).
Proof. unfold db_RotateRefreshTokenIfUnrotated. solve_accounts. Qed.

(** *** API keys *)

(** No key of [victim] is stored under this id. *)
Definition foreign_key_id (id : UUID) : Prop := forall k, t_api_keys t0 !! id = Some k -> k_user_id k <> victim.

Lemma kept_put_key t s k :
  kept0 (t, s) -> k_user_id k <> victim -> foreign_key_id (k_id k) -> kept0 (put_api_key k t, s).
Proof.
  intros [Hm [Hk Hkeys]] Hu Hf. split; [exact Hm|]. split.
  - intros i k'. cbn. rewrite lookup_insert_Some. intros [[<- <-]|[_ Hl]]; [done|by apply Hk].
  - intros i k' Hv. cbn. rewrite <- Hkeys by done. rewrite lookup_insert_Some. split.
    + intros [[<- <-]|[_ Hl]]; [done|exact Hl].
    + intros Hl. right. split; [|done]. intros <-. apply Hkeys in Hl; [|done]. by apply (Hf _ Hl).
Qed.

Lemma kept_absent_key t s id : kept0 (t, s) -> t_api_keys t !! id = None -> foreign_key_id id.
Proof. intros [_ [_ Hkeys]] Hn k Hk Hv. apply Hkeys in Hk; [|done]. cbn in Hk. congruence. Qed.

Lemma kept_present_key t s id k :
  kept0 (t, s) -> t_api_keys t !! id = Some k -> k_user_id k <> victim -> foreign_key_id id.
Proof. intros [_ [_ Hkeys]] Hn Hu k' Hk Hv. apply Hkeys in Hk; [|done]. cbn in Hk. congruence. Qed.

Lemma kept_CreateAPIKey user hash label : user <> victim -> keeps kept0 (db_CreateAPIKey user hash label).
Proof.
  intros Hu now u [t s] r d' Hd. unfold db_CreateAPIKey. case_match eqn:Ef; [by intros [= <- <-]|].
  case_match; intros [= <- <-]; [|done]. apply orb_false_iff in Ef as [Ef%bool_decide_eq_false%eq_None_not_Some _].
  apply kept_put_key; [done..|]. by eapply kept_absent_key.
Qed.

Lemma kept_RevokeAPIKey id user : user <> victim -> keeps kept0 (db_RevokeAPIKey id user).
Proof.
  intros Hu now u [t s] r d' Hd. unfold db_RevokeAPIKey. cbn [fst snd]. destruct (t_api_keys t !! id) as [k|] eqn:Hl;
    [|by intros [= <- <-]]. destruct (_ && _) eqn:E; intros [= <- <-]; [|done].
  apply andb_true_iff in E as [E%N.eqb_eq _]. apply kept_put_key; [done|cbn; congruence|].
  cbn. assert (Ek : k_id k = id) by (destruct Hd as [_ [Hk _]]; by apply Hk). rewrite Ek.
  eapply kept_present_key; [exact Hd|exact Hl|congruence].
Qed.

Lemma kept_TouchAPIKey id : foreign_key_id id -> keeps kept0 (db_TouchAPIKeyLastUsed id).
Proof.
  intros Hf now u [t s] r d' Hd. unfold db_TouchAPIKeyLastUsed. cbn [fst snd].
  destruct (t_api_keys t !! id) as [k|] eqn:Hl; intros [= <- <-]; [|done].
  assert (Ek : k_id k = id) by (destruct Hd as [_ [Hk _]]; by apply Hk).
  apply kept_put_key; [done| |cbn; by rewrite Ek]. cbn. intros Hv.
  destruct Hd as [_ [_ Hkeys]]. apply Hkeys in Hl; [|done]. by apply (Hf _ Hl).
Qed.

(** *** Pings of somebody else's monitor *)

Lemma untouched_checkins t c :
  untouched victim t0 t -> other_monitor victim (c_monitor_id c) t ->
  untouched victim t0 (set_checkins (t_checkins t ++ [c]) t).
Proof.
  intros Ht Ho. pose proof (untouched_not_victim victim t0 t (c_monitor_id c)) as Hnv.
  destruct Ht as (Hk & Hm & Hlog). split_and!; [done..|]. intros id m Hl Hv.
  destruct (Hlog id m Hl Hv) as (He & Hc & Hrest). split; [exact He|]. split; [|exact Hrest]. rewrite <- Hc.
  unfold checkins_of. cbn. rewrite List.filter_app. cbn.
  destruct (N.eqb_spec (c_monitor_id c) id) as [<-|]; [|by rewrite app_nil_r].
  exfalso. by eapply Hnv.
Qed.

Lemma untouched_alerts t a :
  untouched victim t0 t -> other_monitor victim (a_monitor_id a) t ->
  untouched victim t0 (set_alerts (t_alerts t ++ [a]) t).
Proof.
  intros Ht Ho. pose proof (untouched_not_victim victim t0 t (a_monitor_id a)) as Hnv.
  destruct Ht as (Hk & Hm & Hlog). split_and!; [done..|]. intros id m Hl Hv.
  destruct (Hlog id m Hl Hv) as (He & Hc & Hp & Ha). split_and!; [done..|]. rewrite <- Ha.
  unfold alerts_of. cbn. rewrite List.filter_app. cbn.
  destruct (N.eqb_spec (a_monitor_id a) id) as [<-|]; [|by rewrite app_nil_r].
  exfalso. by eapply Hnv.
Qed.

Context (row : Monitor).

Local Abbreviation ours := (kept_row victim t0 row).

Lemma ours_InsertCheckin a : ic_monitor_id a = m_id row -> keeps ours (db_InsertCheckin a).
Proof.
  intros Ha now u [t s] r d' [[Hm Hk] Ho]. unfold db_InsertCheckin. case_match; [by intros [= <- <-]|].
  case_match; intros [= <- <-]; [|done]. split; [|exact Ho]. split; [|exact Hk]. apply untouched_checkins; [done|].
  cbn. by rewrite Ha.
Qed.

Lemma ours_update id f :
  id = m_id row -> (forall now m, m_id (f now m) = m_id m /\ m_user_id (f now m) = m_user_id m) ->
  keeps ours (sql_update_monitor id f).
Proof.
  intros -> Hf now u [t s] r d' [[Hm Hk] Ho]. unfold sql_update_monitor. cbn [fst snd].
  destruct (t_monitors t !! m_id row) as [m|] eqn:Hl; intros [= <- <-]; [|done].
  destruct (Hf now m) as [Ei Eu]. destruct Ho as (m' & Hl' & Hu). cbn in Hl'. rewrite Hl in Hl'. injection Hl' as <-.
  assert (Em : m_id m = m_id row) by (destruct Hm as (Hkey & _); by apply Hkey).
  split; [split; [|exact Hk]|].
  - apply untouched_put; [exact Hm|congruence|]. rewrite Ei, Em. intros m0 Hm0. cbn in Hm0. congruence.
  - exists (f now m). cbn. rewrite Ei, Em, lookup_insert_eq. split; [done|congruence].
Qed.

Lemma ours_InsertEvent ty msg meta : keeps ours (db_InsertEvent (m_id row) ty msg meta).
Proof.
  intros now u [t s] r d' [[Hm Hk] Ho]. unfold db_InsertEvent. case_bool_decide; intros [= <- <-]; [|done].
  split; [|exact Ho]. split; [|exact Hk]. by apply untouched_events.
Qed.

Lemma ours_InsertAlert eid ch : keeps ours (db_InsertAlert (m_id row) eid ch).
Proof.
  intros now u [t s] r d' [[Hm Hk] Ho]. unfold db_InsertAlert. case_match; intros [= <- <-]; [|done].
  split; [|exact Ho]. split; [|exact Hk]. by apply untouched_alerts.
Qed.
End statements.

Create HintDb kept.
#[export] Hint Resolve reads_keeps reads_one reads_many reads_page reads_latency kept_CreateUser kept_CreateRefreshToken
  kept_RevokeRefreshTokenFamily kept_RotateRefreshToken kept_CreateAPIKey kept_RevokeAPIKey kept_TouchAPIKey : kept.
#[export] Hint Extern 2 (reads _) => first [apply reads_one | apply reads_many | apply reads_page] : kept.

(** ** Operations of the store *)

Section operations.
Context `{Extern} (victim : UUID) (t0 : Tables).

Local Abbreviation kept0 := (kept victim t0).

(** A text that is no spelling of [victim]'s id. *)
Definition stranger (uid : string) : Prop := forall u, pgUUID uid = Ok u -> u <> victim.

Lemma stranger_uuid `{!ExternLaws H} u : u <> victim -> stranger (uuid_string u).
Proof. intros Hu u'. unfold pgUUID. rewrite uuid_scan_string. by intros [= <-]. Qed.

(** No monitor of [victim] has this slug. *)
Definition foreign_slug (slug : string) : Prop :=
  forall id m, t_monitors t0 !! id = Some m -> m_user_id m = victim -> m_slug m <> slug.

Lemma kept_slug_row slug row d :
  kept0 d -> foreign_slug slug -> monitor_by_slug slug d.1 = Some row -> kept_row victim t0 row d.
Proof.
  intros Hd Hs Hr. split; [exact Hd|]. unfold monitor_by_slug in Hr. apply find_some in Hr as [Hin Hslug%String.eqb_eq].
  apply list_elem_of_In, list_elem_of_fmap in Hin as ([i m] & -> & Hm%elem_of_map_to_list). cbn in *.
  destruct Hd as [(Hk & Hms & _) _]. rewrite (Hk _ _ Hm). exists m. split; [done|]. intros Hv.
  apply Hms in Hm; [|done]. by apply (Hs _ _ Hm).
Qed.

Lemma ours_transition row ty msg :
  okay (kept_row victim t0 row) (recordTransition (m_id row) ty msg) (fun _ => kept_row victim t0 row).
Proof.
  eapply okay_bind with (M := fun _ => kept_row victim t0 row).
  { apply okay_wrap, okay_stmt. intros now u d r d' Hd E. by eapply ours_InsertEvent in E. }
  intros e. eapply okay_bind with (M := fun _ => kept_row victim t0 row); [|intros _; by apply okay_ret].
  apply okay_wrap, okay_stmt. intros now u d r d' Hd E. by eapply ours_InsertAlert in E.
Qed.

Lemma ours_checkin_update row a c :
  uc_id a = m_id row ->
  okay (kept_row victim t0 row) (wrap c (stmt (db_UpdateMonitorOnCheckin a))) (fun _ => kept_row victim t0 row).
Proof.
  intros Ha. apply okay_wrap, okay_stmt. intros now u d r d' Hd E.
  refine (ours_update victim t0 row _ _ Ha _ now u d _ d' Hd E). by intros now' m.
Qed.

Lemma safe_RecordCheckin p : foreign_slug (rcp_Slug p) -> safe kept0 (RecordCheckin p).
Proof.
  intros Hs. apply safe_withTx; [apply kept_gap|solve_advances|].
  eapply okay_bind with (M := fun row => kept_row victim t0 row).
  { apply okay_on_err, okay_stmt. intros now u d r d' Hd. unfold db_GetMonitorBySlugForUpdate, sql_one.
    destruct (monitor_by_slug _ _) eqn:E; intros Hr; simplify_eq. by eapply kept_slug_row. }
  intros row. eapply okay_bind with (M := fun _ => kept_row victim t0 row).
  { apply okay_wrap, okay_stmt. intros now u d r d' Hd E. by eapply ours_InsertCheckin in E. }
  intros _. cbv zeta.
  assert (Hret : forall x : RecordCheckinResult, okay (kept_row victim t0 row) (ret x) (fun _ => kept0))
    by (intros x; apply okay_ret; by intros d []).
  assert (Htr : forall ty msg (x : RecordCheckinResult),
    okay (kept_row victim t0 row) (let! _ := recordTransition (m_id row) ty msg in ret x) (fun _ => kept0))
    by (intros; eapply okay_bind; [apply ours_transition|done]).
  destruct (String.eqb _ _); [apply Hret|]. destruct (String.eqb _ _); [|destruct (String.eqb _ _); [|apply okay_err]].
  - unfold applySuccess. destruct (nextDeadlineFor _ _) as [dl|e]; [|apply okay_err]. cbn [lift_res bind].
    eapply okay_bind; [by apply (ours_checkin_update row)|]. intros ?. cbv beta. destruct (String.eqb _ _); [apply Htr|apply Hret].
  - unfold applyFail. eapply okay_bind; [by apply (ours_checkin_update row)|]. intros ?. cbv beta. destruct (negb _); [apply Htr|apply Hret].
Qed.

Lemma safe_CreateMonitor p : stranger (scm_UserID p) -> safe kept0 (CreateMonitor p).
Proof.
  intros Hs. unfold CreateMonitor. destruct (pgUUID (scm_UserID p)) as [u|e] eqn:E; [|constructor].
  by apply safe_create_attempts, Hs.
Qed.

Lemma safe_Update id caller p : stranger caller -> safe kept0 (UpdateMonitor id caller p).
Proof.
  intros Hs. destruct (pgUUID caller) as [u|e] eqn:E; [by eapply safe_UpdateMonitor, Hs|].
  unfold UpdateMonitor, uuid_or_404. rewrite E. destruct (pgUUID id); constructor.
Qed.

Lemma safe_Delete id caller : stranger caller -> safe kept0 (DeleteMonitor id caller).
Proof.
  intros Hs. destruct (pgUUID caller) as [u|e] eqn:E; [by eapply (safe_op victim t0 (OpDelete id caller)), Hs|].
  unfold DeleteMonitor, uuid_or_404. rewrite E. destruct (pgUUID id); constructor.
Qed.

Lemma safe_Flag op id caller : stranger caller -> safe kept0 (flag_prog op id caller).
Proof.
  intros Hs. destruct (pgUUID caller) as [u|e] eqn:E; [by eapply safe_flag, Hs|].
  assert (Hids : is_ok (parseMonitorIDs id caller) = false) by (unfold parseMonitorIDs; rewrite E; by destruct (pgUUID id)).
  destruct (parseMonitorIDs id caller) as [ids|e'] eqn:Ep; [done|].
  destruct op; unfold flag_prog, PauseMonitor, MuteMonitor, UnmuteMonitor, ResumeMonitor, flagMonitor; rewrite Ep; constructor.
Qed.

Lemma safe_CreateKey userID label : stranger userID -> safe kept0 (CreateAPIKey userID label).
Proof.
  intros Hs. unfold CreateAPIKey. destruct (pgUUID userID) as [u|e] eqn:E; [|constructor]. specialize (Hs u E). cbn [lift_res bind].
  repeat safe_step ltac:(solve [auto with kept]) fail.
Qed.

Lemma safe_RevokeKey id caller : stranger caller -> safe kept0 (RevokeAPIKey id caller).
Proof.
  intros Hs. unfold RevokeAPIKey, uuid_or_404. destruct (pgUUID caller) as [u|e] eqn:E; destruct (pgUUID id);
    [|constructor..]. specialize (Hs u E). cbn [lift_res on_err bind].
  repeat safe_step ltac:(solve [auto with kept]) fail.
Qed.

(** [plainKey] is not a key of [victim]. *)
Definition foreign_key (plainKey : string) : Prop :=
  forall id k, t_api_keys t0 !! id = Some k -> k_user_id k = victim -> k_key_hash k <> hashToken plainKey.

Lemma kept_key_row plainKey k d :
  kept0 d -> foreign_key plainKey -> find (live_key_with_hash (hashToken plainKey)) (api_key_rows d.1) = Some k ->
  k_user_id k <> victim /\ foreign_key_id victim t0 (k_id k).
Proof.
  intros Hd Hf Hk. apply find_some in Hk as [Hin [Hh%String.eqb_eq _]%andb_true_iff].
  apply list_elem_of_In, list_elem_of_fmap in Hin as ([i k'] & -> & Hm%elem_of_map_to_list). cbn in *.
  assert (Hv : k_user_id k' <> victim).
  { intros Hv. destruct Hd as [_ [_ Hkeys]]. apply Hkeys in Hm; [|done]. by apply (Hf _ _ Hm). }
  split; [done|]. destruct d as [t s]. assert (Ek : k_id k' = i) by (destruct Hd as [_ [Hkk _]]; by apply Hkk).
  rewrite Ek. by eapply kept_present_key.
Qed.

(** Authenticating a key that is not [victim]'s yields somebody else. *)
Lemma guarded_AuthenticateAPIKey `{!ExternLaws H} plainKey :
  foreign_key plainKey ->
  guarded kept0 (fun r => match r with Ok a => stranger (aak_UserID a) | Err _ => True end) (AuthenticateAPIKey plainKey).
Proof.
  intros Hf. unfold AuthenticateAPIKey. eapply guarded_bind with
    (Q := fun r => match r with Ok k => k_user_id k <> victim /\ foreign_key_id victim t0 (k_id k) | Err _ => True end).
  - apply guarded_on_err. apply guarded_stmt; [solve [auto with kept]|done|].
    intros now u d Hd. unfold db_GetAPIKeyByHash, sql_one. destruct (find _ _) as [k|] eqn:E; [|done]. by eapply kept_key_row.
  - intros k [Hu Hid]. eapply guarded_bind with (Q := anything); [|intros [] _|done].
    + apply guarded_safe. repeat safe_step ltac:(solve [auto with kept]) fail.
    + constructor. by apply stranger_uuid.
  - done.
Qed.
End operations.

#[export] Hint Resolve safe_RecordCheckin safe_CreateMonitor safe_Update safe_Delete safe_CreateKey safe_RevokeKey : kept.
#[export] Hint Extern 1 (safe _ (PauseMonitor _ _)) => apply (safe_Flag _ _ OpPause) : kept.
#[export] Hint Extern 1 (safe _ (MuteMonitor _ _)) => apply (safe_Flag _ _ OpMute) : kept.
#[export] Hint Extern 1 (safe _ (UnmuteMonitor _ _)) => apply (safe_Flag _ _ OpUnmute) : kept.
#[export] Hint Extern 1 (safe _ (ResumeMonitor _ _ ?now)) => apply (safe_Flag _ _ (OpResume now)) : kept.

(** ** Handlers *)

(** The operations above, the statements that read, and the rest by syntax. *)
Ltac solve_kept :=
  repeat first [solve [eauto 2 with kept] | safe_step ltac:(solve [auto with kept]) fail].

Section handlers.
Context `{Extern} `{Jwt} `{Web} (deps : Deps) (limiter : Limiter) (backends : Backends).
Context (victim : UUID) (t0 : Tables).

Local Abbreviation kept0 := (kept victim t0).

Lemma validateCreate_UserID userID req p : validateCreate userID req = inr p -> scm_UserID p = userID.
Proof. unfold validateCreate. intros E. repeat (case_match; try discriminate E); by injection E as <-. Qed.

Lemma safe_monitor_create r uid : stranger victim uid -> safe kept0 (monitor_create deps r uid).
Proof.
  intros Hs. unfold monitor_create. destruct (decode_create r) as [req|]; [|constructor].
  destruct (validateCreate uid req) as [resp|p] eqn:E; [constructor|]. apply validateCreate_UserID in E.
  rewrite <- E in Hs. solve_kept.
Qed.

(** What a stranger asks of the endpoints behind authentication. *)
Lemma safe_api_handler e r h uid :
  api_handler deps e r = Some h -> stranger victim uid -> safe kept0 (h uid).
Proof.
  intros Hh Hs. destruct e; try discriminate Hh; injection Hh as <-; try by apply safe_monitor_create.
  all: solve_kept.
Qed.

Lemma safe_key_handler e r h uid :
  key_handler e r = Some h -> stranger victim uid -> safe kept0 (h uid).
Proof.
  intros Hh Hs. destruct e; try discriminate Hh; injection Hh as <-; solve_kept.
Qed.

(** The ping address of a request is nobody's or another user's. *)
Definition foreign_ping (e : Endpoint) : Prop :=
  match e with
  | EpPing slug | EpPingStart slug | EpPingFail slug | EpPingCode slug _ => foreign_slug victim t0 slug
  | _ => True
  end.

Lemma safe_public_handler e r : foreign_ping e -> safe kept0 (public_handler deps limiter backends e r).
Proof. intros He. destruct e; cbn [foreign_ping] in He; solve_kept. Qed.

(** Nothing in the request is [victim]'s: not the ping address, not the user an
    access token is for (at any instant), not an API key. *)
Record outsider (e : Endpoint) (r : Request) : Prop := mkOutsider {
  out_ping : foreign_ping e;
  out_token : forall token now c, bearerToken r = Some token ->
    jwt_ParseWithClaims now ["RS256"] jwtIssuer jwtAudience token = Some c -> stranger victim (ac_Subject c);
  out_key : forall token, bearerToken r = Some token -> foreign_key victim t0 token
}.

Local Abbreviation fine p := (guarded kept0 anything p).

Lemma fine_bind {A B} (p : Prog A) (k : A -> Prog B) : fine p -> (forall a, fine (k a)) -> fine (bind p k).
Proof. intros Hp Hk. by eapply guarded_bind. Qed.

Lemma guarded_parseAccessToken token (P : accessClaims -> Prop) :
  (forall now c, jwt_ParseWithClaims now ["RS256"] jwtIssuer jwtAudience token = Some c -> P c) ->
  guarded kept0 (fun r => match r with Ok (Some c) => P c | _ => True end) (parseAccessToken token).
Proof.
  intros HP. unfold parseAccessToken. eapply guarded_bind with (Q := anything); [|intros now _|done].
  - apply guarded_safe. solve_kept.
  - constructor. destruct (jwt_ParseWithClaims _ _ _ _ _) eqn:E; [by eapply HP|done].
Qed.

(** An access token lets the request through as its subject. *)
Lemma fine_token token next (P : string -> Prop) :
  (forall now c, jwt_ParseWithClaims now ["RS256"] jwtIssuer jwtAudience token = Some c -> P (ac_Subject c)) ->
  (forall uid, P uid -> fine (next uid)) ->
  fine (let! claims := parseAccessToken token in
        match claims with
        | None => ret (unauthorized "invalid or expired access token")
        | Some c => next (ac_Subject c)
        end).
Proof.
  intros HP Hn. eapply guarded_bind; [by apply (guarded_parseAccessToken token (fun c => P (ac_Subject c)))| |done].
  intros [c|] Hc; [by apply Hn|by constructor].
Qed.

Lemma fine_requireAuth next e r :
  outsider e r -> (forall uid, stranger victim uid -> fine (next uid)) -> fine (requireAuth next r).
Proof.
  intros [_ Htok _] Hn. unfold requireAuth. destruct (bearerToken r) as [token|] eqn:Eb; [|by constructor].
  eapply fine_token; [|exact Hn]. intros now c. by eapply Htok.
Qed.

Lemma fine_requireAuthOrAPIKey `{!ExternLaws H} next e r :
  outsider e r -> (forall uid, stranger victim uid -> fine (next uid)) -> fine (requireAuthOrAPIKey limiter next r).
Proof.
  intros [_ Htok Hkey] Hn. unfold requireAuthOrAPIKey. destruct (bearerToken r) as [token|] eqn:Eb; [|by constructor].
  destruct (cut_prefix _ _); [|eapply fine_token; [intros now c; by eapply Htok|exact Hn]].
  eapply guarded_bind; [by eapply guarded_attempt, guarded_AuthenticateAPIKey, Hkey| |done].
  intros [a|err] (r0 & [= <-] & Ha); [|by constructor]. unfold rate_limited.
  apply fine_bind; [apply guarded_safe; solve_kept|]. intros [[allowed retryAfter] rest].
  destruct (negb allowed); [by constructor|by apply Hn].
Qed.

Lemma fine_serve `{!ExternLaws H} e r : outsider e r -> fine (serve deps limiter backends e r).
Proof.
  intros Ho. unfold serve, middlewares, requestIDMiddleware, recoverMiddleware, securityHeadersMiddleware, corsMiddleware.
  apply fine_bind; [apply guarded_safe; solve_kept|]. intros id. apply fine_bind; [|by constructor].
  apply fine_bind; [|intros [resp|err]; by constructor]. eapply guarded_any, guarded_attempt.
  apply fine_bind; [|by constructor]. apply fine_bind; [|by constructor].
  destruct (String.eqb _ _); [by constructor|]. unfold handler.
  destruct (api_handler deps e r) as [h|] eqn:Ea; [|destruct (key_handler e r) as [h|] eqn:Ek].
  - eapply fine_requireAuthOrAPIKey; [exact Ho|]. intros uid Hs. by eapply guarded_safe, safe_api_handler.
  - eapply fine_requireAuth; [exact Ho|]. intros uid Hs. by eapply guarded_safe, safe_key_handler.
  - by apply guarded_safe, safe_public_handler, Ho.
Qed.
End handlers.

(** ** Isolation *)

(** C1. Serve any requests, of any endpoints, and interleave their database
    actions in any order, with any of them failing or losing its
    acknowledgement.  If none of the requests carries an access token for
    [victim], an API key of [victim] or a ping address of [victim]'s, then
    [victim]'s monitors, everything logged about them and [victim]'s API keys
    are as they were: no endpoint, and no race between endpoints, lets one
    user write another's data. *)
Theorem api_isolation `{E : Extern} `{!ExternLaws E} `{Jwt} `{Web} deps limiter backends victim
    (requests : list (Endpoint * Request)) (w w' : World) (ps' : list (Prog Response)) :
  keyed_monitors (w_tables w) -> keyed_keys (w_tables w) ->
  Forall (fun q => outsider victim (w_tables w) q.1 q.2) requests ->
  rtc pool_step ((fun q => serve deps limiter backends q.1 q.2) <$> requests, w) (ps', w') ->
  untouched victim (w_tables w) (w_tables w') /\ keys_untouched victim (w_tables w) (w_tables w').
Proof.
  intros Hm Hk Hreq Hrun.
  apply (guarded_pool (kept victim (w_tables w)) anything) in Hrun as [_ Hkept]; [exact Hkept| |by apply kept_refl].
  cbn. apply Forall_fmap. eapply Forall_impl; [exact Hreq|]. intros [e r] Ho. by apply fine_serve.
Qed.

(** ** Credentials *)

Lemma status_headers hs r : rs_Status (add_headers hs r) = rs_Status r.
Proof. induction hs as [|h hs IH]; [done|]. exact IH. Qed.

Section credentials.
Context `{E : Extern} `{Jwt} `{Web} (deps : Deps) (limiter : Limiter) (backends : Backends).

(** [w'] is [w] later: the database and the world's oracles are the same. *)
Definition later (w w' : World) : Prop :=
  w_db w' = w_db w /\ (w_env w' = w_env w /\ w_txnow w' = w_txnow w) /\ (no_faults w -> no_faults w').

Lemma later_tick w w' : later w w' -> later w (tick w').
Proof. intros (Hd & [He Ht] & Hf). split_and!; [done..|]. intros Hw. by apply no_faults_tick, Hf. Qed.

Lemma later_refl w : later w w.
Proof. by split_and!. Qed.

Lemma run_newRequestID w : exists id w', run newRequestID w = (Ok id, w') /\ later w w'.
Proof.
  unfold newRequestID. rewrite run_bind, run_attempt. unfold rand_Read. cbn [run]. destruct (cur_fault w).
  all: cbn [run ret bind]; rewrite ?run_bind, ?time_Now_ok; eexists _, _; split; [reflexivity|].
  all: repeat apply later_tick; apply later_refl.
Qed.

(** The middleware around a handler: a request id, then the handler (not for a
    preflight), whose panic becomes a 500; headers change no status. *)
Definition served (r0 : Res Response) : Z := match r0 with Ok resp => rs_Status resp | Err _ => 500 end.

Lemma run_middlewares r next w : exists w1, later w w1 /\
  let '(r0, w2) := if String.eqb (rq_Method r) "OPTIONS" then (Ok (mkResponse 204 [] [] BNone), w1) else run next w1 in
  exists resp, run (middlewares deps r next) w = (Ok resp, w2) /\ rs_Status resp = served r0 /\
    match r0 with Ok resp0 => rs_Body resp = rs_Body resp0 | Err _ => True end /\ (w_step w <= w_step w1)%nat.
Proof.
  destruct (run_newRequestID w) as (id & w1 & Hid & Hw1). exists w1. split; [done|].
  assert (Hstep : (w_step w <= w_step w1)%nat).
  { assert (Hs : steady newRequestID) by (unfold newRequestID; solve_steady).
    destruct (steady_run _ Hs w) as (_ & Hle & _). by rewrite Hid in Hle. }
  unfold middlewares, requestIDMiddleware, recoverMiddleware, securityHeadersMiddleware, corsMiddleware.
  rewrite run_bind, Hid, run_bind, run_bind, run_attempt, run_bind, run_bind.
  assert (Hid' : forall r, rs_Status (add_header "X-Request-ID" id r) = rs_Status r) by done.
  assert (Hidb : forall r, rs_Body (add_header "X-Request-ID" id r) = rs_Body r) by done.
  assert (Hbody : forall hs r, rs_Body (add_headers hs r) = rs_Body r) by (intros hs r'; induction hs; [done|]; exact IHhs).
  destruct (String.eqb _ _).
  { cbn [run ret]. eexists. split; [reflexivity|]. split; [by rewrite Hid', !status_headers|]. split; [by rewrite Hidb, !Hbody|done]. }
  destruct (run next w1) as [[resp|err] w2]; cbn [run ret]; eexists; (split; [reflexivity|]).
  - split; [by rewrite Hid', !status_headers|]. split; [by rewrite Hidb, !Hbody|done].
  - split; [by rewrite Hid', status_headers|done].
Qed.

Lemma run_serve e r w : exists w1, later w w1 /\
  let '(r0, w2) := if String.eqb (rq_Method r) "OPTIONS" then (Ok (mkResponse 204 [] [] BNone), w1)
                   else run (handler deps limiter backends e r) w1 in
  exists resp, run (serve deps limiter backends e r) w = (Ok resp, w2) /\ rs_Status resp = served r0.
Proof.
  destruct (run_middlewares r (handler deps limiter backends e r) w) as (w1 & Hl & Hs). exists w1. split; [exact Hl|].
  destruct (if String.eqb _ _ then _ else _) as [r0 w2]. destruct Hs as (resp & Hr & Hst & _). by exists resp.
Qed.

(** No credential: no bearer token, or one that no instant accepts as an access
    token and that is not an API key in use. *)
Definition no_credential (r : Request) (t : Tables) : Prop :=
  match bearerToken r with
  | None => True
  | Some token => (forall now, jwt_ParseWithClaims now ["RS256"] jwtIssuer jwtAudience token = None) /\ live_key token t = None
  end.

Definition is_protected (e : Endpoint) (r : Request) : Prop :=
  is_Some (api_handler deps e r) \/ is_Some (key_handler e r).

(** What a request without a credential gets. *)
Definition refused (w : World) (p : Prog Response) : Prop :=
  exists resp w', run p w = (Ok resp, w') /\ w_tables w' = w_tables w /\
    (rs_Status resp = 401 \/ rs_Status resp = 500 /\ ~ no_faults w).

Lemma refused_token token next w :
  (forall now, jwt_ParseWithClaims now ["RS256"] jwtIssuer jwtAudience token = None) ->
  refused w (let! claims := parseAccessToken token in
             match claims with
             | None => ret (unauthorized "invalid or expired access token")
             | Some c => next (ac_Subject c)
             end).
Proof.
  intros Hp. unfold parseAccessToken. do 2 eexists. rewrite run_bind, run_bind, time_Now_ok. cbn [run ret].
  rewrite Hp. split; [reflexivity|]. split; [done|by left].
Qed.

Lemma refused_requireAuth next r w : no_credential r (w_tables w) -> refused w (requireAuth next r).
Proof.
  unfold no_credential, requireAuth. destruct (bearerToken r) as [token|]; [intros [Hp _]; by apply refused_token|].
  intros _. do 2 eexists. split; [reflexivity|]. split; [done|by left].
Qed.

Lemma refused_requireAuthOrAPIKey next r w : no_credential r (w_tables w) -> refused w (requireAuthOrAPIKey limiter next r).
Proof.
  unfold no_credential, requireAuthOrAPIKey. destruct (bearerToken r) as [token|].
  2: { intros _. do 2 eexists. split; [reflexivity|]. split; [done|by left]. }
  intros [Hp Hk]. destruct (cut_prefix _ _); [|by apply refused_token].
  unfold refused, AuthenticateAPIKey. rewrite run_bind, run_attempt, run_bind, run_on_err, run_stmt. unfold exec.
  assert (Hnf : cur_fault w <> FNone -> ~ no_faults w) by (intros Hc Hf; by apply Hc, no_faults_cur).
  destruct (cur_fault w) eqn:Ef.
  - unfold db_GetAPIKeyByHash, sql_one. cbn [fst]. unfold live_key in Hk. rewrite Hk. do 2 eexists. split; [reflexivity|].
    split; [done|by left].
  - do 2 eexists. split; [reflexivity|]. split; [done|]. right. split; [done|by apply Hnf].
  - unfold db_GetAPIKeyByHash, sql_one. cbn [fst]. unfold live_key in Hk. rewrite Hk. do 2 eexists. split; [reflexivity|].
    split; [done|]. right. split; [done|by apply Hnf].
Qed.

(** Every endpoint but the public ones answers 401 to a request without a
    credential and changes nothing; a failed lookup of an API key is 500, a
    preflight 204. *)
Lemma endpoint_auth_required e r w :
  is_protected e r -> no_credential r (w_tables w) ->
  exists resp w', run (serve deps limiter backends e r) w = (Ok resp, w') /\ w_tables w' = w_tables w /\
    if String.eqb (rq_Method r) "OPTIONS" then rs_Status resp = 204
    else rs_Status resp = 401 \/ rs_Status resp = 500 /\ ~ no_faults w.
Proof.
  intros Hp Hn. destruct (run_serve e r w) as (w1 & (Hd & _ & Hf) & Hs). injection Hd as Ht _.
  destruct (String.eqb _ _); [destruct Hs as (resp & ? & ?); by exists resp, w1|].
  rewrite <- Ht in Hn. assert (Hr : refused w1 (handler deps limiter backends e r)).
  { revert Hp. unfold is_protected, handler. destruct (api_handler deps e r); [by intros _; apply refused_requireAuthOrAPIKey|].
    destruct (key_handler e r); [by intros _; apply refused_requireAuth|]. by intros [[]|[]]. }
  destruct Hr as (resp0 & w2 & Hr & Ht2 & Hst). rewrite Hr in Hs. destruct Hs as (resp & Hrun & Heq).
  exists resp, w2. split; [exact Hrun|]. split; [congruence|]. rewrite Heq. cbn. destruct Hst as [?|[? Hnf]]; [by left|right].
  split; [done|]. intros Hw. by apply Hnf, Hf.
Qed.

(** *** Access tokens *)

(** The instant a token issued at [issued] stops being accepted: within a
    second of the lifetime asked for, since the claim has whole seconds. *)
Definition token_end (issued : Time) (ttl : Duration) : Time := jwt_NewNumericDate (time_Add issued ttl).

Lemma bearer_of r token :
  rq_Authorization r = bearerPrefix +:+ token -> is_Some (cut_prefix "eyJ" token) -> bearerToken r = Some token /\ cut_prefix "pk_" token = None.
Proof.
  intros Hr [rest Ht]. unfold bearerToken. rewrite Hr. destruct token as [|c token]; [discriminate Ht|].
  split; [reflexivity|]. cbn [cut_prefix] in *. destruct (Ascii.eqb_spec "e" c) as [<-|]; [reflexivity|discriminate Ht].
Qed.

(** A token of ours, signed for a user and accepted until an instant. *)
Definition token_of (token userID : string) (until : Time) : Prop :=
  exists c, jwt_SignedString c = Ok token /\ ac_Subject c = userID /\ ac_ExpiresAt c = until /\
    ac_Issuer c = jwtIssuer /\ jwtAudience ∈ ac_Audience c.

(** What both middlewares make of one. *)
Lemma token_decides `{!JwtLaws _} token userID until next r w auth :
  token_of token userID until -> rq_Authorization r = bearerPrefix +:+ token ->
  auth = requireAuth next r \/ auth = requireAuthOrAPIKey limiter next r ->
  run auth w = if cur_clock w <? until then run (next userID) (tick w)
               else (Ok (unauthorized "invalid or expired access token"), tick w).
Proof.
  intros (c & Hs & <- & <- & Hi & Ha) Hr Hauth. destruct (bearer_of r token Hr (jwt_token_shape _ _ Hs)) as [Hb Hk].
  assert (Hp : run (parseAccessToken token) w = (Ok (if cur_clock w <? ac_ExpiresAt c then Some c else None), tick w)).
  { unfold parseAccessToken. rewrite run_bind, time_Now_ok. cbn [run ret].
    rewrite (jwt_parse_signed _ _ _ _ _ Hs), Hi, String.eqb_refl, bool_decide_true by done. by destruct (_ <? _). }
  destruct Hauth as [->| ->]; [unfold requireAuth|unfold requireAuthOrAPIKey]; rewrite Hb, ?Hk, run_bind, Hp;
    by destruct (_ <? _).
Qed.

Lemma run_issueAccessToken userID ttl w :
  exists r w', run (issueAccessToken userID ttl) w = (r, w') /\ later w w' /\
    match r with
    | Ok token => token_of token userID (token_end (cur_clock w) ttl)
    | Err e => exists e', e = EWrap "server: sign access token" e'
    end.
Proof.
  unfold issueAccessToken. rewrite run_bind, time_Now_ok, run_bind. destruct (run_newRequestID (tick w)) as (id & w' & -> & Hl).
  assert (Hl' : later w w').
  { destruct Hl as (Hd & [He Ht] & Hf). split_and!; [done..|]. intros Hw. by apply Hf, no_faults_tick. }
  cbn [lift_res]. destruct (jwt_SignedString _) as [signed|e] eqn:Es; do 2 eexists; (split; [reflexivity|]); (split; [exact Hl'|]).
  - eexists. split; [exact Es|]. split_and!; try done. by apply list_elem_of_singleton.
  - by eexists.
Qed.

(** C15. The token a login hands out: shown to any endpoint behind
    authentication, it runs the endpoint as the user it was issued to, at
    every instant before its end, and is refused with a 401 from then on; its
    end is the lifetime after the issue, less than a second early. *)
Theorem access_token_round_trip `{!JwtLaws _} userID ttl w token w1 r next w2 :
  run (issueAccessToken userID ttl) w = (Ok token, w1) ->
  rq_Authorization r = bearerPrefix +:+ token ->
  let issued := cur_clock w in
  time_Add issued ttl - Second < token_end issued ttl <= time_Add issued ttl /\
  forall auth, auth = requireAuth next r \/ auth = requireAuthOrAPIKey limiter next r ->
  run auth w2 = if cur_clock w2 <? token_end issued ttl then run (next userID) (tick w2)
                  else (Ok (unauthorized "invalid or expired access token"), tick w2).
Proof.
  intros Hi Hr. destruct (run_issueAccessToken userID ttl w) as (res & w' & Hrun & _ & Htok). rewrite Hi in Hrun.
  injection Hrun as <- <-. split; [apply jwt_date_seconds|]. intros auth Hauth. by eapply token_decides.
Qed.

(** *** Pings *)

Definition ping_of (e : Endpoint) : option (string * string) :=
  match e with
  | EpPing slug => Some (slug, CheckinSuccess)
  | EpPingStart slug => Some (slug, CheckinStart)
  | EpPingFail slug => Some (slug, CheckinFail)
  | EpPingCode slug code => Some (slug, exit_kind code)
  | _ => None
  end.

Definition ping_body (r : Request) : string := if String.eqb (rq_Method r) "HEAD" then "" else readTruncatedBody r.

(** C18. What a ping address answers, whatever becomes of the check-in.  The
    limiter is asked once, for the client's address, with the limit and the
    window of pings.  When it says no, the answer is 429 and no table changes;
    when it says yes (which it also does when Redis fails), the check-in is
    recorded with the address, the user agent and the first 10 kB of the body
    the client sent, at the instant of the next clock reading, and the answer
    is 200 even when it could not be recorded: it says nothing about whether
    the address exists. *)
Theorem ping_answer e slug kind r w :
  ping_of e = Some (slug, kind) -> String.eqb (rq_Method r) "OPTIONS" = false ->
  exists resp w' w0, run (serve deps limiter backends e r) w = (Ok resp, w') /\ later w w0 /\
    if (limiter (w_step w0) ("rate:ping:" +:+ clientIP r) pingRateLimit pingRateWindow).1.1
    then rs_Status resp = 200 /\ exists result,
      run (RecordCheckin (mkRecordCheckinParams slug kind (clientIP r) (rq_UserAgent r) (ping_body r) (cur_clock (tick w0))))
        (tick (tick w0)) = (result, w')
    else rs_Status resp = 429 /\ w_tables w' = w_tables w.
Proof.
  intros Hp Ho. destruct (run_serve e r w) as (w1 & Hl & Hs). rewrite Ho in Hs.
  assert (Hh : handler deps limiter backends e r = ingest limiter slug kind r)
    by (destruct e; try discriminate Hp; injection Hp as <- <-; reflexivity).
  rewrite Hh in Hs. unfold ingest, rate_limited in Hs. rewrite run_bind in Hs. cbn [run server_Allow] in Hs.
  destruct (limiter _ _ _ _) as [[allowed retryAfter] rest] eqn:El. destruct allowed; cbn [negb] in Hs.
  - rewrite run_bind, testclock_Now_ok, cur_testclock_production, run_bind, run_attempt in Hs. fold (ping_body r) in Hs.
    destruct (run (RecordCheckin _) _) as [result w2] eqn:Er. cbn [run ret] in Hs. destruct Hs as (resp & Hr & Hst).
    exists resp, w2, w1. split; [exact Hr|]. split; [exact Hl|]. rewrite El. cbn. split; [exact Hst|]. exists result. exact Er.
  - cbn [run ret] in Hs. destruct Hs as (resp & Hr & Hst). exists resp, (tick w1), w1. split; [exact Hr|]. split; [exact Hl|].
    rewrite El. cbn. split; [exact Hst|]. destruct Hl as ([= Ht _] & _). exact Ht.
Qed.
End credentials.

(** ** At concrete inputs *)

#[local] Existing Instance demo_extern.
#[local] Existing Instance demo_extern_laws.
#[local] Existing Instance demo_web.

(** A stand-in for the JWT library: a token is the claims written in binary. *)
Definition claims_tuple (c : accessClaims) : string * string * Z * Z * string * list string :=
  (ac_Subject c, ac_ID c, ac_IssuedAt c, ac_ExpiresAt c, ac_Issuer c, ac_Audience c).

Definition tuple_claims (x : string * string * Z * Z * string * list string) : accessClaims :=
  let '(sub, id, iat, exp, iss, aud) := x in mkaccessClaims sub id iat exp iss aud.

Fixpoint binary (p : positive) : string :=
  match p with xH => "" | xO q => String "0" (binary q) | xI q => String "1" (binary q) end.

Fixpoint of_binary (s : string) : positive :=
  match s with EmptyString => xH | String c r => if Ascii.eqb c "1" then xI (of_binary r) else xO (of_binary r) end.

Lemma of_binary_binary p : of_binary (binary p) = p.
Proof. induction p as [p IH|p IH|]; cbn; by rewrite ?IH. Qed.

Definition demo_jwt : Jwt := {|
  jwt_NewNumericDate := fun t => t / Second * Second;
  jwt_SignedString := fun c => Ok ("eyJ" +:+ binary (encode (claims_tuple c)));
  jwt_ParseWithClaims := fun now methods iss aud token =>
    if negb (bool_decide ("RS256"%string ∈ methods)) then None else
    rest ← cut_prefix "eyJ" token;
    c ← tuple_claims <$> decode (of_binary rest);
    if (now <? ac_ExpiresAt c) && String.eqb (ac_Issuer c) iss && bool_decide (aud ∈ ac_Audience c) then Some c else None
|}.
#[local] Existing Instance demo_jwt.

#[local] Instance demo_jwt_laws : JwtLaws demo_jwt.
Proof.
  constructor.
  - intros c tok now iss aud [= <-]. unfold jwt_ParseWithClaims, demo_jwt. rewrite bool_decide_true by by left.
    cbn [negb]. change (cut_prefix "eyJ" ("eyJ" +:+ ?s)) with (Some s). cbn [mbind option_bind]. rewrite of_binary_binary, decode_encode.
    by destruct c.
  - intros c tok [= <-]. by eexists.
  - intros t. cbn. pose proof (Z.div_mod t Second ltac:(done)). pose proof (Z.mod_pos_bound t Second ltac:(done)). lia.
Qed.

(** Two users: 10 with a monitor, a key and an event about the monitor, and 11
    with the same. *)
Definition key_of (id user : UUID) (plain : string) : ApiKey := mkApiKey id user (hashToken plain) "cli" None None demo_t0.

Definition other_heartbeat : Monitor :=
  mkMonitor 3 11 "heartbeat" "mine" "My backup" (Some "period") (Some 900) None "UTC" (Some 300)
    None None None None None "{}" "up" 0 None None None false None demo_t0 demo_t0 true 86400 None.

Definition access_tables : Tables :=
  mkTables {[ 10%N := demo_user; 11%N := mkUser 11 "eve@example.com" "hash" demo_t0 demo_t0 ]}
    {[ 5%N := key_of 5 10 "pk_victim"; 6%N := key_of 6 11 "pk_eve" ]}
    {[ 1%N := demo_heartbeat "up" None; 3%N := other_heartbeat ]} [] []
    [mkEvent 1 1 "down" "Check-in overdue" MetaEmpty demo_t0] [] ∅ ∅.

Definition access_world : World := mkWorld access_tables (mkSeqs 0 0 1 0) 0 None demo_env.

Definition demo_limiter : Limiter := fun _ _ _ _ => (true, 0, None).
Definition demo_backends : Backends := mkBackends None None (fun _ => GetNil).

Definition with_token (token : string) : Request :=
  mkRequest "POST" [] (fun _ => "") (bearerPrefix +:+ token) "" "192.0.2.7:51234" "curl/8" true None "{}".

Definition eve_requests : list (Endpoint * Request) :=
  [(EpDeleteMonitor "1", with_token "pk_eve"); (EpDeleteMonitor "3", with_token "pk_eve");
   (EpRevokeKey "5", with_token "pk_eve"); (EpPingFail "mine", with_token ""); (EpPause "1", with_token "pk_eve")].

Definition statuses (ps : list (Prog Response)) : list (option Z) :=
  (fun p => match p with Ret (Ok resp) => Some (rs_Status resp) | _ => None end) <$> ps.

Definition serve_all (requests : list (Endpoint * Request)) : list (Prog Response) :=
  (fun q => serve demo_deps demo_limiter demo_backends q.1 q.2) <$> requests.

Lemma access_keys id k :
  t_api_keys access_tables !! id = Some k -> id = 5%N /\ k = key_of 5 10 "pk_victim" \/ id = 6%N /\ k = key_of 6 11 "pk_eve".
Proof.
  cbn. rewrite lookup_insert_Some, lookup_singleton_Some. intros [[<- <-]|[_ [<- <-]]]; auto.
Qed.

Lemma access_monitors id m :
  t_monitors access_tables !! id = Some m -> id = 1%N /\ m = demo_heartbeat "up" None \/ id = 3%N /\ m = other_heartbeat.
Proof.
  cbn. rewrite lookup_insert_Some, lookup_singleton_Some. intros [[<- <-]|[_ [<- <-]]]; auto.
Qed.

(** What a request with the key "pk_eve" can be of user 10's. *)
Lemma eve_outsider e token :
  foreign_ping 10%N access_tables e -> token = "pk_eve"%string \/ token = ""%string -> outsider 10%N access_tables e (with_token token).
Proof.
  intros He Htok. split; [exact He| |]; intros token'; destruct Htok as [-> | ->].
  - intros now c [= <-] Hp. discriminate Hp.
  - intros now c Hb. discriminate Hb.
  - intros [= <-] id k [[-> ->]|[-> ->]]%access_keys Hv; [vm_compute; discriminate|discriminate Hv].
  - intros Hb. discriminate Hb.
Qed.

Lemma api_isolation_witness :
  let c := run_schedule (concat (repeat [0; 1; 2; 3; 4]%nat 14)) (serve_all eve_requests) access_world in
  (untouched 10%N access_tables (w_tables (snd c)) /\ keys_untouched 10%N access_tables (w_tables (snd c))) /\
  statuses (fst c) = [Some 403; Some 204; Some 401; Some 200; Some 403].
Proof.
  intros c. split; [|vm_compute; reflexivity].
  apply (api_isolation demo_deps demo_limiter demo_backends 10%N eve_requests access_world (snd c) (fst c)).
  - by intros id m [[-> ->]|[-> ->]]%access_monitors.
  - by intros id k [[-> ->]|[-> ->]]%access_keys.
  - repeat (apply Forall_cons; split; [cbn [fst snd]; apply eve_outsider; [try exact I|by auto]|]); [|by constructor].
    by intros id m [[-> ->]|[-> ->]]%access_monitors.
  - unfold c. rewrite <- surjective_pairing. apply run_schedule_rtc.
Defined.

(** A token good for fifteen minutes, shown on the next action. *)
Lemma access_token_round_trip_witness :
  exists token w1,
    run (issueAccessToken "11" (15 * Minute)) access_world = (Ok token, w1) /\
    token_end demo_t0 (15 * Minute) = demo_t0 + 15 * Minute /\
    run (requireAuth (fun uid => ret (mkResponse 200 [] [] (BText uid))) (with_token token)) w1
    = (Ok (mkResponse 200 [] [] (BText "11")), tick w1).
Proof.
  eexists _, _. split; [reflexivity|]. split; [vm_compute; reflexivity|].
  match goal with |- run (requireAuth ?next (with_token ?token)) ?w = _ =>
    destruct (access_token_round_trip demo_limiter "11" (15 * Minute) access_world token w (with_token token) next w)
      as [_ Hrun]; [reflexivity|reflexivity|]; rewrite (Hrun _ (or_introl eq_refl)) end.
  reflexivity.
Defined.

Lemma ping_answer_witness :
  let r := with_token "" in
  exists resp w' w0, run (serve demo_deps demo_limiter demo_backends (EpPingCode "mine" "7") r) access_world = (Ok resp, w') /\
    later access_world w0 /\
    if (demo_limiter (w_step w0) "rate:ping:192.0.2.7" pingRateLimit pingRateWindow).1.1
    then rs_Status resp = 200 /\ exists result,
      run (RecordCheckin (mkRecordCheckinParams "mine" "fail" "192.0.2.7" "curl/8" "{}" (cur_clock (tick w0)))) (tick (tick w0)) = (result, w')
    else rs_Status resp = 429 /\ w_tables w' = access_tables.
Proof.
  intros r. apply (ping_answer demo_deps demo_limiter demo_backends (EpPingCode "mine" "7") "mine" "fail" r access_world); reflexivity.
Defined.

(** An exit code beyond the range of an int is a success. *)
Example huge_exit_code : exit_kind "1" = CheckinFail /\ exit_kind "-1" = CheckinFail /\ exit_kind "18446744073709551617" = CheckinSuccess.
Proof. vm_compute. repeat split. Qed.
