(* ===== verification/Account.v ===== *)
(** * Account: what a registration gives (server/auth.go over store/user.go and store/session.go)

    [sign_up] composes the layers below the register endpoint: decoding and
    validation, the account, the access token, the refresh token and the
    middleware that will read the token. *)
From S2P Require Import Prelude GoLib Json Models Extern Store Queries Logic Demo Convert Monitor Session User RateLimit Http AuthApi Server Integrity Lifecycle Validation Access.
Local Open Scope Z_scope.
Local Open Scope ping_scope.

Section account.
Context `{HE : ExternLaws} `{HJ : JwtLaws} `{Web} (deps : Deps) (limiter : Limiter).

(** A session of [user]: an access token, and the row of a refresh token. *)
Record session_started (user : UUID) (email : string) (status : Z) (w w' : World) (resp : Response) (token : string)
    (rt : RefreshToken) (row : RefreshTokenRow) : Prop := mkSessionStarted {
  ss_response : resp = add_cookie (setRefreshCookie (rt_PlainToken rt) (rt_ExpiresAt rt) (dp_CookieSecure deps))
                         (writeJSON status (Some (authResponse token (uuid_string user) email)));
  ss_token : token_of token (uuid_string user) (token_end (cur_clock w) (dp_JWTAccessTTL deps));
  ss_refresh : exists fam at_, issued user fam (rt_FamilyID rt) (at_ + dp_JWTRefreshTTL deps) (w_tables w) rt row;
  ss_tables : w_tables w' = put_token row (w_tables w)
}.

Lemma run_issueTokenPair status user email w :
  no_faults w -> is_Some (t_users (w_tables w) !! user) ->
  exists resp w', run (issueTokenPair deps status (uuid_string user) email) w = (Ok resp, w') /\
    ((exists token rt row, session_started user email status w w' resp token rt row) \/
     (exists err, resp = writeError err) /\ w_tables w' = w_tables w).
Proof.
  intros Hf Hu. unfold issueTokenPair.
  destruct (run_issueAccessToken (uuid_string user) (dp_JWTAccessTTL deps) w) as (r & w1 & Hr & (Hd & _ & Hf1) & Htok).
  assert (Ht1 : w_tables w1 = w_tables w) by (change (fst (w_db w1) = fst (w_db w)); by rewrite Hd).
  rewrite run_bind, run_attempt, Hr. destruct r as [token|err]; [|do 2 eexists; split; [reflexivity|]; right; split; [by eexists|done]].
  unfold IssueRefreshToken. destruct (run_newRandomUUID w1) as (family & fam & Hfam & Hpg); [by apply Hf1|].
  rewrite run_bind, run_attempt, run_bind, run_wrap, Hfam.
  destruct (run_issue user fam family (dp_JWTRefreshTTL deps) (tick w1)) as (r2 & w2 & Hr2 & Hcase);
    [by apply no_faults_tick, Hf1|done|change (w_tables (tick w1)) with (w_tables w1); by rewrite Ht1|].
  rewrite Hr2. change (w_tables (tick w1)) with (w_tables w1) in Hcase. rewrite Ht1 in Hcase.
  destruct Hcase as [(rt & row & -> & _ & Hi & Ht)|(e & -> & _ & _ & Ht)]; do 2 eexists; (split; [reflexivity|]).
  - left. exists token, rt, row. constructor; [done|exact Htok| |exact Ht]. destruct Hi as [<- Hi]. by do 2 eexists.
  - right. split; [by eexists|exact Ht].
Qed.

(** An error message and no cookie. *)
Definition refusal (resp : Response) : Prop :=
  rs_Cookies resp = [] /\ exists message, rs_Body resp = BJson (errorResponse message).

Lemma refusal_writeError err : refusal (writeError err).
Proof. unfold refusal, writeError. destruct (default _ _). split; [done|by eexists]. Qed.

Lemma refusal_input req resp : validEmailPassword req = Some resp -> refusal resp.
Proof. unfold validEmailPassword. repeat case_match; intros [= <-]; (split; [done|by eexists]). Qed.

(** What checkRateLimit runs: the handler, possibly after an answer of the
    limiter, or its refusal. *)
Lemma run_checkRateLimit key next w : exists w1, later w w1 /\
  (run (checkRateLimit deps limiter key next) w = run next w1 \/
   exists retryAfter, run (checkRateLimit deps limiter key next) w = (Ok (writeRateLimited retryAfter), w1)).
Proof.
  unfold checkRateLimit, rate_limited. destruct (dp_AuthRateLimitDisabled deps); [exists w; split; [apply later_refl|by left]|].
  exists (tick w). split; [apply later_tick, later_refl|]. rewrite run_bind. cbn [run server_Allow].
  destruct (limiter _ _ _ _) as [[[|] retryAfter] e]; cbn [negb]; [by left|right; by exists retryAfter].
Qed.

(** The account of a registration that was accepted, and its first session. *)
Definition signed_up (r : Request) (w w' : World) (resp : Response) (req : emailPasswordRequest) (u : User) (token : string)
    (rt : RefreshToken) (row : RefreshTokenRow) : Prop :=
  decodeJSON r = Some req /\ validEmailPassword req = None /\ dp_RegistrationOpen deps = true /\
  exists w1, w_env w1 = w_env w /\ registered (epr_Email req) (epr_Password req) u w w1 /\
    session_started (u_id u) (u_email u) 201 w1 w' resp token rt row.

Lemma steady_Register email password open : steady (Register email password open).
Proof. solve_steady. Qed.

Lemma run_register r w :
  no_faults w -> users_ok (w_tables w) ->
  exists resp w', run (auth_register deps limiter r) w = (Ok resp, w') /\
    ((exists req u token rt row, signed_up r w w' resp req u token rt row) \/
     refusal resp /\
     (w_tables w' = w_tables w \/
      exists req u w1 err, resp = writeError err /\ registered (epr_Email req) (epr_Password req) u w w1 /\ w_tables w' = w_tables w1)).
Proof.
  intros Hf Hok. unfold auth_register.
  set (next := match decodeJSON r with Some req => _ | None => _ end).
  destruct (run_checkRateLimit ("rate:register:" +:+ clientIP r) next w) as (w1 & Hlater & Hrun).
  pose proof Hlater as (Hd & _ & Hf1).
  assert (Ht1 : w_tables w1 = w_tables w) by (change (fst (w_db w1) = fst (w_db w)); by rewrite Hd).
  destruct Hrun as [->|[retryAfter ->]]; [|do 2 eexists; split; [reflexivity|]; right; split; [by split; [|eexists]|by left]].
  subst next. destruct (decodeJSON r) as [req|] eqn:Hdec; [|do 2 eexists; split; [reflexivity|]; right; split; [by split; [|eexists]|by left]].
  destruct (validEmailPassword req) as [resp|] eqn:Hv.
  { do 2 eexists. split; [reflexivity|]. right. split; [by eapply refusal_input|by left]. }
  rewrite run_bind, run_attempt. destruct (dp_RegistrationOpen deps) eqn:Hopen.
  2: { do 2 eexists. split; [reflexivity|]. right. split; [by split; [|eexists]|by left]. }
  destruct (run_Register (epr_Email req) (epr_Password req) w1 (Hf1 Hf)) as (res & w2 & Hrun2 & Hf2 & Hcase); [by rewrite Ht1|].
  pose proof (steady_run _ (steady_Register (epr_Email req) (epr_Password req) true) w1) as Hon. rewrite Hrun2 in Hon |- *.
  destruct Hcase as [(e & -> & Ht & _)|(u & -> & Hreg)].
  { do 2 eexists. split; [reflexivity|]. right. split; [apply refusal_writeError|left; by rewrite Ht]. }
  cbn [au_ID au_Email].
  destruct (run_issueTokenPair 201 (u_id u) (u_email u) w2 Hf2) as (resp & w' & -> & Hs).
  { destruct Hreg as (_ & _ & _ & _ & ->). cbn. rewrite lookup_insert_eq. by eexists. }
  assert (Hreg' : registered (epr_Email req) (epr_Password req) u w w2) by (unfold registered in *; by rewrite <- Ht1).
  exists resp, w'. split; [reflexivity|]. destruct Hs as [(token & rt & row & Hs)|[[err ->] Ht]].
  - left. exists req, u, token, rt, row. split_and!; [done..|]. exists w2. split; [|done].
    destruct Hon as [Henv _]. cbn [snd] in Henv. rewrite Henv. apply Hlater.
  - right. split; [apply refusal_writeError|]. right. by exists req, u, w2, err.
Qed.

(** ** Property *)

(** C14. Registering.  When no action fails, a registration either starts a
    session or answers with an error and no cookie and leaves the tables as
    they were, except that an account stays whose first tokens could not be
    made.  If it starts a
    session: the body was a valid email and password and registration is open;
    one account with the normalized email has been added, which any spelling
    of that email and the password log into from then on; the access token in
    the answer admits exactly that account on every protected endpoint, until
    the access lifetime (whole seconds) is over, and nobody after; and the
    cookie's token is that of one new refresh token row of the account, not
    rotated, not revoked, and the only one with its hash. *)
Theorem sign_up r w :
  no_faults w -> users_ok (w_tables w) -> tokens_ok (w_tables w) ->
  exists resp w', run (auth_register deps limiter r) w = (Ok resp, w') /\
    ((exists req u token rt row, signed_up r w w' resp req u token rt row /\
        rs_Status resp = 201 /\ rs_Body resp = BJson (authResponse token (uuid_string (u_id u)) (u_email u)) /\
        (exists at_, forall next r2 w2 auth, rq_Authorization r2 = bearerPrefix +:+ token ->
           auth = requireAuth next r2 \/ auth = requireAuthOrAPIKey limiter next r2 ->
           run auth w2 = if cur_clock w2 <? token_end at_ (dp_JWTAccessTTL deps) then run (next (uuid_string (u_id u))) (tick w2)
                         else (Ok (unauthorized "invalid or expired access token"), tick w2)) /\
        (forall email w2, normalizeEmail email = normalizeEmail (epr_Email req) -> no_faults w2 -> w_tables w2 = w_tables w' ->
           fst (run (Authenticate email (epr_Password req)) w2) = Ok (mkAuthUser (uuid_string (u_id u)) (u_email u))) /\
        ck_Value <$> rs_Cookies resp = [rt_PlainToken rt] /\ token_row (hashToken (rt_PlainToken rt)) (w_tables w') = Some row /\
        r_user_id row = u_id u /\ r_rotated_at row = None /\ r_revoked_at row = None) \/
     refusal resp /\
     (w_tables w' = w_tables w \/
      exists req u w1 err, resp = writeError err /\ registered (epr_Email req) (epr_Password req) u w w1 /\ w_tables w' = w_tables w1)).
Proof.
  intros Hf Hok Htok. destruct (run_register r w Hf Hok) as (resp & w' & Hrun & [(req & u & token & rt & row & Hs)|Hno]);
    exists resp, w'; (split; [exact Hrun|]); [left|by right].
  exists req, u, token, rt, row. split; [exact Hs|]. destruct Hs as (_ & _ & _ & w1 & _ & Hreg & [-> Ht (fam & at_ & Hi) Ht']).
  split; [done|]. split; [done|]. split; [exists (cur_clock w1); intros next r2 w2 auth Hr Ha; by eapply token_decides|].
  pose proof Hreg as (_ & _ & _ & _ & Hw1). destruct Hi as (_ & _ & _ & Hh & Hu & _ & Hrot & Hrev & Hid & Hnone).
  split; [|split; [done|split; [|done]]].
  - intros email w2 Hn Hf2 Ht2. destruct (run_Authenticate email (epr_Password req) w2 Hf2) as (w3 & -> & _).
    rewrite Ht2, Ht'. exact (registered_login _ _ _ _ _ _ Hok Hreg Hn).
  - assert (Htok1 : tokens_ok (w_tables w1)) by (rewrite Hw1; exact Htok). rewrite Ht'. apply token_row_Some.
    + apply tokens_ok_put; [exact Htok1|]. intros i r' Hr' Heq. exfalso.
      assert (Hsome : token_row (hashToken (rt_PlainToken rt)) (w_tables w1) = Some r'); [|congruence].
      apply token_row_Some; [exact Htok1|]. destruct Htok1 as [Hk _]. rewrite (Hk _ _ Hr'). by rewrite Heq.
    + split; [|exact Hh]. cbn. by rewrite lookup_insert_eq.
Qed.
End account.

#[local] Existing Instance demo_extern.
#[local] Existing Instance demo_extern_laws.
#[local] Existing Instance demo_web.
#[local] Existing Instance demo_jwt.
#[local] Existing Instance demo_jwt_laws.

Definition sign_up_request : Request := demo_request "{'email':'Ann@Example.com','password':'correct horse battery'}".

Lemma sign_up_witness :
  exists resp w' token, run (auth_register demo_deps demo_limiter sign_up_request) (mkWorld empty_tables demo_seqs 0 None demo_env)
      = (Ok resp, w') /\ rs_Status resp = 201 /\
    (exists user email, rs_Body resp = BJson (authResponse token (uuid_string user) email) /\
       exists at_, forall next r2 w2, rq_Authorization r2 = bearerPrefix +:+ token ->
         run (requireAuth next r2) w2 = if cur_clock w2 <? token_end at_ (15 * Minute) then run (next (uuid_string user)) (tick w2)
                                        else (Ok (unauthorized "invalid or expired access token"), tick w2)).
Proof.
  destruct (sign_up demo_deps demo_limiter sign_up_request (mkWorld empty_tables demo_seqs 0 None demo_env))
    as (resp & w' & Hrun & Hcase).
  - by intros n _.
  - split; intros i; intros; discriminate.
  - split; intros i; intros; discriminate.
  - exists resp, w'. destruct Hcase as [(req & u & token & rt & row & _ & Hst & Hb & (at_ & Hadm) & _)|[[Hc _] _]].
    + exists token. split; [exact Hrun|]. split; [exact Hst|]. exists (u_id u), (u_email u). split; [exact Hb|].
      exists at_. intros next r2 w2 Hr. exact (Hadm next r2 w2 _ Hr (or_introl eq_refl)).
    + exfalso. assert (Hlen : length (match fst (run (auth_register demo_deps demo_limiter sign_up_request)
        (mkWorld empty_tables demo_seqs 0 None demo_env)) with Ok resp => rs_Cookies resp | Err _ => [] end) = 1%nat)
        by (vm_compute; reflexivity).
      rewrite Hrun in Hlen. cbn [fst] in Hlen. by rewrite Hc in Hlen.
Defined.
