(* ===== verification/Routes.v ===== *)
(** * Routes: from a method and a path to an endpoint (server/server.go, New)

    [New_routes] are the registrations of [New], with their groups and
    sub-routers.  The router itself (go-chi) is a parameter, [Chi], which finds
    one of a list of patterns; [ChiLaws] is what its documentation says of it.
    [ServeHTTP] is what the server does with a request.  [route_table] compares
    it with the endpoints docs/API.md lists, and [auth_required] says what a
    request without a credential can reach. *)
From S2P Require Import Prelude GoLib Json Models Extern Store Queries Logic Demo NetAddr User Alert Alerter Http AuthApi MonitorApi Server Validation Access.
Local Open Scope Z_scope.
Local Open Scope ping_scope.

(** ** Patterns and paths *)

(** A path is the list of what its slashes separate, after the first one. *)
Inductive Seg := Lit (s : string) | Param (name : string).

Definition parse_seg (s : string) : Seg :=
  match s with
  | String "{" r => Param (String.substring 0 (pred (String.length r)) r)
  | _ => Lit s
  end.

Definition path_segs (path : string) : list string := tail (split_on "/" path).

Definition pattern_segs (pattern : string) : list Seg := parse_seg <$> path_segs pattern.

Abbreviation URLParams := (list (string * string)).

Definition is_nil {A} (l : list A) : bool := match l with [] => true | _ :: _ => false end.

(** A parameter takes the text up to the next slash; at the end of the path it
    takes some text. *)
Fixpoint match_segs (pattern : list Seg) (path : list string) : option (URLParams * list string) :=
  match pattern, path with
  | [], _ => Some ([], path)
  | Lit s :: pattern, x :: path => if String.eqb s x then match_segs pattern path else None
  | Param n :: pattern, x :: path =>
      if String.eqb x "" && is_nil path then None
      else '(ps, rest) ← match_segs pattern path; Some ((n, x) :: ps, rest)
  | _, [] => None
  end.

(** A registration: for one method and the whole path, or, for a sub-router,
    for any method and every path below the pattern. *)
Definition Key : Type := option string * list Seg.

Definition key_match (k : Key) (method : string) (path : list string) : option (URLParams * list string) :=
  '(ps, rest) ← match_segs k.2 path;
  match k.1 with
  | Some m => if String.eqb m method && is_nil rest then Some (ps, []) else None
  | None => Some (ps, if is_nil rest then [""%string] else rest)
  end.

(** Literal text goes before parameters. *)
Fixpoint more_static (a b : list Seg) : bool :=
  match a, b with
  | Lit _ :: _, Param _ :: _ => true
  | Lit s :: a, Lit t :: b => String.eqb s t && more_static a b
  | Param _ :: a, Param _ :: b => more_static a b
  | _, _ => false
  end.

Definition filled (ps : URLParams) : bool := forallb (fun p => negb (String.eqb p.2 "")) ps.

(** What the router finds: a registration with the values of its parameters
    and the path left to a sub-router, or nothing, which it answers itself. *)
Inductive Found := FoundRoute (n : nat) (ps : URLParams) (rest : list string) | FoundNone (resp : Response).

(** The methods a router has a place for; it answers 405 to any other before it
    looks at a path. *)
Definition router_methods : list string := ["CONNECT"; "DELETE"; "GET"; "HEAD"; "OPTIONS"; "PATCH"; "POST"; "PUT"; "TRACE"]%string.

Definition known_method (m : string) : bool := existsb (String.eqb m) router_methods.

Class Chi := chi_find : list Key -> string -> list string -> Found.

Class ChiLaws (C : Chi) : Prop := {
  chi_sound keys m path n ps rest : chi_find keys m path = FoundRoute n ps rest ->
    exists k, keys !! n = Some k /\ key_match k m path = Some (ps, rest);
  chi_static keys m path n ps rest (k : Key) n' (k' : Key) ps' rest' : chi_find keys m path = FoundRoute n ps rest ->
    keys !! n = Some k -> keys !! n' = Some k' -> key_match k' m path = Some (ps', rest') -> filled ps' = true ->
    more_static k'.2 k.2 = false;
  chi_none keys m path resp : chi_find keys m path = FoundNone resp ->
    (rs_Status resp = 404 \/ rs_Status resp = 405) /\
    (known_method m = true ->
     forall n k ps rest, keys !! n = Some k -> key_match k m path = Some (ps, rest) -> filled ps = false)
}.

(** ** The registrations *)

(** [r.Use] of a group: nothing, the JWT-or-key middleware, the JWT-only one. *)
Inductive Guard := Open | JwtOrKey | JwtOnly.

Abbreviation Leaf := ((string -> string) -> Endpoint).

Inductive Target := Handle (h : Leaf) | Mount (sub : list (Key * Leaf)).

Definition r_MethodFunc {T} (method pattern : string) (h : T) : Key * T := ((Some method, pattern_segs pattern), h).
Definition r_Route (pattern : string) (sub : list (Key * Leaf)) : Key * Target := ((None, pattern_segs pattern), Mount sub).
Definition r_Group (g : Guard) (routes : list (Key * Target)) : list (Key * (Guard * Target)) :=
  (fun r => (r.1, (g, r.2))) <$> routes.

(** A handler that reads no parameter, and one that reads [id]. *)
Definition plain (e : Endpoint) : Leaf := fun _ => e.
Definition with_id (e : string -> Endpoint) : Leaf := fun param => e (param "id"%string).

Definition auth_routes : list (Key * Leaf) :=
  [r_MethodFunc "POST" "/register" (plain EpRegister); r_MethodFunc "POST" "/login" (plain EpLogin);
   r_MethodFunc "POST" "/refresh" (plain EpRefresh); r_MethodFunc "POST" "/logout" (plain EpLogout)].

Definition ping_routes : list (Key * Leaf) :=
  mbind (fun method =>
    [r_MethodFunc method "/" (fun p => EpPing (p "slug"%string));
     r_MethodFunc method "/start" (fun p => EpPingStart (p "slug"%string));
     r_MethodFunc method "/fail" (fun p => EpPingFail (p "slug"%string));
     r_MethodFunc method "/{code}" (fun p => EpPingCode (p "slug"%string) (p "code"%string))])
  ["GET"; "POST"; "HEAD"]%string.

Definition monitor_routes : list (Key * Leaf) :=
  [r_MethodFunc "POST" "/" (plain EpCreateMonitor); r_MethodFunc "GET" "/" (plain EpListMonitors);
   r_MethodFunc "GET" "/{id}" (with_id EpGetMonitor); r_MethodFunc "PATCH" "/{id}" (with_id EpUpdateMonitor);
   r_MethodFunc "DELETE" "/{id}" (with_id EpDeleteMonitor);
   r_MethodFunc "POST" "/{id}/pause" (with_id EpPause); r_MethodFunc "POST" "/{id}/resume" (with_id EpResume);
   r_MethodFunc "POST" "/{id}/mute" (with_id EpMute); r_MethodFunc "POST" "/{id}/unmute" (with_id EpUnmute);
   r_MethodFunc "GET" "/{id}/events" (with_id EpMonitorEvents); r_MethodFunc "GET" "/{id}/checkins" (with_id EpMonitorCheckins);
   r_MethodFunc "GET" "/{id}/probe-results" (with_id EpMonitorProbes); r_MethodFunc "GET" "/{id}/latency" (with_id EpMonitorLatency)].

Definition apikey_routes : list (Key * Leaf) :=
  [r_MethodFunc "POST" "/" (plain EpCreateKey); r_MethodFunc "GET" "/" (plain EpListKeys);
   r_MethodFunc "DELETE" "/{id}" (with_id EpRevokeKey)].

(** Production builds register no test route. *)
Definition New_routes : list (Key * (Guard * Target)) :=
  r_Group Open
    [r_MethodFunc "GET" "/health" (Handle (plain EpHealth));
     r_Route "/api/v1/auth" auth_routes;
     r_Route "/p/{slug}" ping_routes] ++
  r_Group JwtOrKey
    [r_MethodFunc "POST" "/api/v1/schedule/describe" (Handle (plain EpDescribe));
     r_MethodFunc "POST" "/api/v1/alerting/test" (Handle (plain EpSendTest));
     r_MethodFunc "GET" "/api/v1/events" (Handle (plain EpEvents));
     r_Route "/api/v1/monitors" monitor_routes] ++
  r_Group JwtOnly [r_Route "/api/v1/apikeys" apikey_routes].

(** The value given last. *)
Definition URLParam (ps : URLParams) (key : string) : string :=
  default ""%string (snd <$> List.find (fun p => String.eqb p.1 key) (rev ps)).

(** An endpoint behind the middleware of its group, or what the router
    answers, behind the middleware of the sub-router that did not find it. *)
Inductive Routed := Serves (g : Guard) (e : Endpoint) | Answers (g : Guard) (resp : Response).

Definition router_not_found : Response := mkResponse 404 [] [] BNone.

Definition routed `{Chi} (method : string) (path : list string) : Routed :=
  match chi_find (fst <$> New_routes) method path with
  | FoundNone resp => Answers Open resp
  | FoundRoute n ps rest =>
      match New_routes !! n with
      | Some (_, (g, Handle h)) => Serves g (h (URLParam ps))
      | Some (_, (g, Mount sub)) =>
          match chi_find (fst <$> sub) method rest with
          | FoundNone resp => Answers g resp
          | FoundRoute n' ps' _ =>
              match sub !! n' with
              | Some (_, h) => Serves g (h (URLParam (ps ++ ps')))
              | None => Answers g router_not_found
              end
          end
      | None => Answers Open router_not_found
      end
  end.

Section serve_http.
Context `{Extern} `{Clock} `{Jwt} `{Web} `{Chi} (deps : Deps) (limiter : Limiter) (backends : Backends).

Definition behind_guard (g : Guard) (next : string -> Prog Response) (r : Request) : Prog Response :=
  match g with
  | Open => next ""%string
  | JwtOrKey => requireAuthOrAPIKey limiter next r
  | JwtOnly => requireAuth next r
  end.

(** The registered method value, applied to the user the middleware found. *)
Definition endpoint_handler (e : Endpoint) (r : Request) : string -> Prog Response :=
  match api_handler deps e r, key_handler e r with
  | Some h, _ => h
  | None, Some h => h
  | None, None => fun _ => public_handler deps limiter backends e r
  end.

Definition ServeHTTP (r : Request) : Prog Response :=
  middlewares deps r
    match routed (rq_Method r) (rq_Path r) with
    | Serves g e => behind_guard g (endpoint_handler e r) r
    | Answers g resp => behind_guard g (fun _ => ret resp) r
    end.
End serve_http.

(** ** The endpoints of docs/API.md *)

Definition api_table : list (Key * Leaf) :=
  let ping (path : string) (h : Leaf) := (fun method => r_MethodFunc method path h) <$> ["GET"; "POST"; "HEAD"]%string in
  [r_MethodFunc "POST" "/api/v1/auth/register" (plain EpRegister); r_MethodFunc "POST" "/api/v1/auth/login" (plain EpLogin);
   r_MethodFunc "POST" "/api/v1/auth/refresh" (plain EpRefresh); r_MethodFunc "POST" "/api/v1/auth/logout" (plain EpLogout);
   r_MethodFunc "POST" "/api/v1/monitors" (plain EpCreateMonitor); r_MethodFunc "GET" "/api/v1/monitors" (plain EpListMonitors);
   r_MethodFunc "GET" "/api/v1/monitors/{id}" (with_id EpGetMonitor); r_MethodFunc "PATCH" "/api/v1/monitors/{id}" (with_id EpUpdateMonitor);
   r_MethodFunc "DELETE" "/api/v1/monitors/{id}" (with_id EpDeleteMonitor);
   r_MethodFunc "POST" "/api/v1/schedule/describe" (plain EpDescribe); r_MethodFunc "GET" "/health" (plain EpHealth)] ++
  ping "/p/{slug}"%string (fun p => EpPing (p "slug"%string)) ++
  ping "/p/{slug}/start"%string (fun p => EpPingStart (p "slug"%string)) ++
  ping "/p/{slug}/fail"%string (fun p => EpPingFail (p "slug"%string)) ++
  ping "/p/{slug}/{code}"%string (fun p => EpPingCode (p "slug"%string) (p "code"%string)) ++
  [r_MethodFunc "POST" "/api/v1/apikeys" (plain EpCreateKey); r_MethodFunc "GET" "/api/v1/apikeys" (plain EpListKeys);
   r_MethodFunc "DELETE" "/api/v1/apikeys/{id}" (with_id EpRevokeKey);
   r_MethodFunc "POST" "/api/v1/monitors/{id}/pause" (with_id EpPause); r_MethodFunc "POST" "/api/v1/monitors/{id}/resume" (with_id EpResume);
   r_MethodFunc "POST" "/api/v1/monitors/{id}/mute" (with_id EpMute); r_MethodFunc "POST" "/api/v1/monitors/{id}/unmute" (with_id EpUnmute);
   r_MethodFunc "GET" "/api/v1/monitors/{id}/events" (with_id EpMonitorEvents); r_MethodFunc "GET" "/api/v1/events" (plain EpEvents);
   r_MethodFunc "GET" "/api/v1/monitors/{id}/checkins" (with_id EpMonitorCheckins);
   r_MethodFunc "GET" "/api/v1/monitors/{id}/probe-results" (with_id EpMonitorProbes);
   r_MethodFunc "GET" "/api/v1/monitors/{id}/latency" (with_id EpMonitorLatency);
   r_MethodFunc "POST" "/api/v1/alerting/test" (plain EpSendTest)].

(** The endpoint of the first row a request fits. *)
Fixpoint documented (rows : list (Key * Leaf)) (method : string) (path : list string) : option Endpoint :=
  match rows with
  | [] => None
  | (k, h) :: rows =>
      match key_match k method path with
      | Some (ps, _) => Some (h (URLParam ps))
      | None => documented rows method path
      end
  end.

(** A path without an empty segment. *)
Definition clean (path : list string) : bool := forallb (fun s => negb (String.eqb s "")) path.

Example documented_examples :
  documented api_table "GET" (path_segs "/p/abc/start") = Some (EpPingStart "abc") /\
  documented api_table "HEAD" (path_segs "/p/abc/137") = Some (EpPingCode "abc" "137") /\
  documented api_table "PATCH" (path_segs "/api/v1/monitors/7") = Some (EpUpdateMonitor "7") /\
  documented api_table "PUT" (path_segs "/api/v1/monitors/7") = None.
Proof. vm_compute. repeat split. Qed.

(** ** The router's choice is the first registration that fits *)

Fixpoint first_row {A} (l : list (Key * A)) (method : string) (path : list string) : option (A * URLParams * list string) :=
  match l with
  | [] => None
  | (k, a) :: l =>
      match key_match k method path with
      | Some (ps, rest) => Some (a, ps, rest)
      | None => first_row l method path
      end
  end.

(** No path fits both patterns, or the first is the more static one. *)
Fixpoint apart (exact : bool) (a b : list Seg) : bool :=
  match a, b with
  | Lit s :: a, Lit t :: b => if String.eqb s t then apart exact a b else true
  | Lit _ :: _, Param _ :: _ => true
  | Param _ :: a, Param _ :: b => apart exact a b
  | [], _ :: _ | _ :: _, [] => exact
  | _, _ => false
  end.

Definition apart_keys (k k' : Key) : bool :=
  match k.1, k'.1 with
  | Some m, Some m' => negb (String.eqb m m') || apart true k.2 k'.2
  | _, _ => apart false k.2 k'.2
  end.

Fixpoint static_first (l : list Key) : bool :=
  match l with
  | [] => true
  | k :: l => forallb (apart_keys k) l && static_first l
  end.

Lemma apart_spec exact a b path ps rest ps' rest' :
  apart exact a b = true -> match_segs a path = Some (ps, rest) -> match_segs b path = Some (ps', rest') ->
  (exact = true -> rest = [] /\ rest' = []) -> more_static a b = true.
Proof.
  revert b path ps ps'. induction a as [|[s|n] a IH]; intros [|[t|n'] b] [|x path] ps ps' Ha H1 H2 Hx; cbn in *; try done.
  all: try (destruct (Hx Ha) as [-> ->]; discriminate).
  - destruct (String.eqb_spec s x) as [->|]; [|done]. destruct (String.eqb_spec t x) as [->|]; [|done].
    rewrite String.eqb_refl in *. by eapply IH.
  - destruct (_ && _); [done|]. destruct (match_segs a path) as [[? ?]|] eqn:E1; [|done].
    destruct (match_segs b path) as [[? ?]|] eqn:E2; [|done]. cbn in *. simplify_eq. by eapply IH.
Qed.

Lemma key_match_inv k m path ps rest :
  key_match k m path = Some (ps, rest) ->
  exists rest0, match_segs k.2 path = Some (ps, rest0) /\ (forall m', k.1 = Some m' -> m' = m /\ rest0 = []).
Proof.
  unfold key_match. destruct (match_segs _ _) as [[ps0 r0]|]; [|done]. cbn. intros Hk. exists r0.
  destruct k as [[m'|] pattern]; cbn [fst snd] in *; [|by simplify_eq].
  destruct (String.eqb_spec m' m) as [->|]; [|done]. destruct r0; [|done]. cbn in Hk. simplify_eq.
  split; [done|]. by intros ? [= <-].
Qed.

Lemma apart_keys_spec k k' m path ps rest ps' rest' :
  apart_keys k k' = true -> key_match k m path = Some (ps, rest) -> key_match k' m path = Some (ps', rest') ->
  more_static k.2 k'.2 = true.
Proof.
  intros Ha (r & H1 & Hm)%key_match_inv (r' & H2 & Hm')%key_match_inv. unfold apart_keys in Ha.
  destruct k as [[m1|] p1], k' as [[m2|] p2]; cbn [fst snd] in *; [|by apply (apart_spec false _ _ path ps r ps' r' Ha H1 H2)..].
  destruct (Hm _ eq_refl) as [-> ->], (Hm' _ eq_refl) as [-> ->]. rewrite String.eqb_refl in Ha.
  by apply (apart_spec true _ _ path ps [] ps' [] Ha H1 H2).
Qed.

(** Only the last segment can be empty, and no parameter takes it. *)
Lemma match_filled pattern path ps rest :
  clean (removelast path) = true -> match_segs pattern path = Some (ps, rest) -> filled ps = true.
Proof.
  revert path ps. induction pattern as [|[s|n] pattern IH]; intros [|x path] ps Hc; cbn; intros Hm; try done; try by simplify_eq.
  - destruct (String.eqb _ _); [|done]. eapply IH; [|exact Hm]. destruct path; [done|]. cbn in Hc. by apply andb_true_iff in Hc as [_ Hc].
  - destruct (String.eqb x "" && is_nil path) eqn:Ex; [done|]. destruct (match_segs pattern path) as [[ps0 r0]|] eqn:Em; [|done].
    cbn in Hm. simplify_eq. cbn. apply andb_true_iff. destruct path as [|y path].
    + rewrite andb_true_r in Ex. rewrite Ex. split; [done|]. by eapply (IH []).
    + cbn [removelast clean forallb] in Hc. apply andb_true_iff in Hc as [-> Hc]. split; [done|]. by eapply (IH (y :: path)).
Qed.

Section first.
Context `{!ChiLaws C} {A : Type}.

Lemma first_row_none (l : list (Key * A)) m path :
  (forall n k ps rest, (fst <$> l) !! n = Some k -> key_match k m path <> Some (ps, rest)) -> first_row l m path = None.
Proof.
  induction l as [|[k a] l IH]; intros Hn; [done|]. cbn. destruct (key_match k m path) as [[ps rest]|] eqn:Ek.
  - by destruct (Hn 0%nat k ps rest).
  - apply IH. intros n. exact (Hn (S n)).
Qed.

Lemma first_row_static (l : list (Key * A)) m path n k a ps rest :
  static_first (fst <$> l) = true -> l !! n = Some (k, a) -> key_match k m path = Some (ps, rest) ->
  (forall n' k' ps' rest', (fst <$> l) !! n' = Some k' -> key_match k' m path = Some (ps', rest') ->
     more_static k'.2 k.2 = false) ->
  first_row l m path = Some (a, ps, rest).
Proof.
  revert n. induction l as [|[k0 a0] l IH]; intros [|n] Hs Hl Hk Hn; cbn in *; simplify_eq; [by rewrite Hk|].
  apply andb_true_iff in Hs as [Hap Hs]. destruct (key_match k0 m path) as [[ps0 rest0]|] eqn:E0.
  - pose proof (Hn 0%nat k0 ps0 rest0 eq_refl E0) as Hf. rewrite forallb_forall in Hap.
    rewrite (apart_keys_spec k0 k m path ps0 rest0 ps rest) in Hf; [done| |done..]. apply Hap, list_elem_of_In.
    apply list_elem_of_fmap. exists (k, a). split; [done|]. by eapply list_elem_of_lookup_2.
  - eapply IH; [done..|]. intros n'. exact (Hn (S n')).
Qed.

Lemma chi_first (l : list (Key * A)) m path :
  static_first (fst <$> l) = true -> clean (removelast path) = true ->
  match chi_find (fst <$> l) m path with
  | FoundRoute n ps rest => exists k a, l !! n = Some (k, a) /\ first_row l m path = Some (a, ps, rest)
  | FoundNone resp => (known_method m = true -> first_row l m path = None) /\ (rs_Status resp = 404 \/ rs_Status resp = 405)
  end.
Proof.
  intros Hs Hc. assert (Hfill : forall k ps rest, key_match k m path = Some (ps, rest) -> filled ps = true).
  { intros k ps rest (r & Hm & _)%key_match_inv. by eapply match_filled. }
  destruct (chi_find _ m path) as [n ps rest|resp] eqn:Ef.
  - destruct (chi_sound _ _ _ _ _ _ Ef) as (k & Hk & Hm). pose proof Hk as Hk0. rewrite list_lookup_fmap in Hk.
    destruct (l !! n) as [[k0 a]|] eqn:Hl; [|done]. injection Hk as ->. exists k, a. split; [done|].
    eapply first_row_static; [done..|]. intros n' k' ps' rest' Hk' Hm'. eapply chi_static; [exact Ef|done..|]. by eapply Hfill.
  - destruct (chi_none _ _ _ _ Ef) as [Hst Hn]. split; [|done]. intros Hkn. apply first_row_none. intros n k ps rest Hk Hm.
    pose proof (Hn Hkn n k ps rest Hk Hm) as Hf. by rewrite (Hfill k ps rest Hm) in Hf.
Qed.
End first.

Lemma more_static_asym a b : more_static a b = true -> more_static b a = true -> False.
Proof.
  revert b. induction a as [|[s|n] a IH]; intros [|[t|n'] b]; cbn; try done; [|by apply IH].
  rewrite String.eqb_sym. destruct (String.eqb _ _); [by apply IH|done].
Qed.

Section rows.
Context {A : Type} (m : string) (path : list string).
Implicit Types (l : list (Key * A)).

Lemma first_row_Some l a ps rest :
  static_first (fst <$> l) = true -> first_row l m path = Some (a, ps, rest) ->
  exists k, (k, a) ∈ l /\ key_match k m path = Some (ps, rest) /\
    forall k' a', (k', a') ∈ l -> key_match k' m path <> None -> (k', a') = (k, a) \/ more_static k.2 k'.2 = true.
Proof.
  induction l as [|[k0 a0] l IH]; [done|]. cbn. intros [Hap Hs]%andb_true_iff.
  destruct (key_match k0 m path) as [[ps0 rest0]|] eqn:E0.
  - intros [= <- <- <-]. exists k0. split; [left|]. split; [done|]. intros k' a' [Heq|Hin]%elem_of_cons Hm; [by left|right].
    destruct (key_match k' m path) as [[ps' rest']|] eqn:E'; [|done]. rewrite forallb_forall in Hap.
    eapply (apart_keys_spec k0 k'); [|done..]. apply Hap, list_elem_of_In, list_elem_of_fmap. by exists (k', a').
  - intros Hf. destruct (IH Hs Hf) as (k & Hin & Hm & Hrest). exists k. split; [by right|]. split; [done|].
    intros k' a' [[= -> ->]|Hin']%elem_of_cons Hm'; [done|by apply Hrest].
Qed.

Lemma first_row_is_Some l k a : (k, a) ∈ l -> key_match k m path <> None -> first_row l m path <> None.
Proof.
  induction l as [|[k0 a0] l IH]; [by intros ?%elem_of_nil|]. cbn. destruct (key_match k0 m path) as [[? ?]|] eqn:E0; [done|].
  intros [[= -> ->]|Hin]%elem_of_cons Hm; [done|by apply IH].
Qed.

(** The order of the rows does not matter. *)
Lemma first_row_same l l' :
  static_first (fst <$> l) = true -> static_first (fst <$> l') = true -> (forall x, x ∈ l <-> x ∈ l') ->
  first_row l m path = first_row l' m path.
Proof.
  intros Hs Hs' Hll. destruct (first_row l m path) as [[[a ps] rest]|] eqn:E.
  - destruct (first_row_Some _ _ _ _ Hs E) as (k & Hin & Hm & Hfirst).
    destruct (first_row l' m path) as [[[a' ps'] rest']|] eqn:E'.
    2: { exfalso. apply (first_row_is_Some l' k a); [by apply Hll|congruence|done]. }
    destruct (first_row_Some _ _ _ _ Hs' E') as (k' & Hin' & Hm' & Hfirst').
    destruct (Hfirst k' a') as [Heq|H1]; [by apply Hll|congruence|by simplify_eq|].
    destruct (Hfirst' k a) as [Heq|H2]; [by apply Hll|congruence|by simplify_eq|].
    by destruct (more_static_asym _ _ H1 H2).
  - destruct (first_row l' m path) as [[[a' ps'] rest']|] eqn:E'; [|done]. exfalso.
    destruct (first_row_Some _ _ _ _ Hs' E') as (k' & Hin' & Hm' & _).
    apply (first_row_is_Some l k' a'); [by apply Hll|congruence|done].
Qed.

Lemma first_row_app l l' : first_row (l ++ l') m path = match first_row l m path with Some x => Some x | None => first_row l' m path end.
Proof. induction l as [|[k a] l IH]; [done|]. cbn. by destruct (key_match k m path) as [[? ?]|]. Qed.
End rows.

(** ** Sub-routers flattened *)

Definition below (k k' : Key) : Key := (k'.1, match k'.2 with [Lit ""] => k.2 | _ => k.2 ++ k'.2 end).

Definition flatten_row (row : Key * (Guard * Target)) : list (Key * (Guard * Leaf)) :=
  match row with
  | (k, (g, Handle h)) => [(k, (g, h))]
  | (k, (g, Mount sub)) => (fun r => (below k r.1, (g, r.2))) <$> sub
  end.

Definition flatten (l : list (Key * (Guard * Target))) : list (Key * (Guard * Leaf)) := mbind flatten_row l.

Lemma match_segs_app a b path :
  match_segs (a ++ b) path =
  ('(ps, rest) ← match_segs a path; '(qs, rest') ← match_segs b rest; Some (ps ++ qs, rest')).
Proof.
  revert path. induction a as [|[s|n] a IH]; intros path; cbn.
  - by destruct (match_segs b path) as [[? ?]|].
  - destruct path as [|x path]; [done|]. destruct (String.eqb _ _); [apply IH|done].
  - destruct path as [|x path]; [done|]. destruct (_ && _); [done|]. rewrite IH.
    destruct (match_segs a path) as [[? rest]|]; [|done]. cbn. by destruct (match_segs b rest) as [[? ?]|].
Qed.

Lemma match_clean pattern path ps rest : clean path = true -> match_segs pattern path = Some (ps, rest) -> clean rest = true.
Proof.
  revert path ps. induction pattern as [|[s|n] pattern IH]; intros [|x path] ps Hc Hm; cbn in *; try done; try by simplify_eq.
  - apply andb_true_iff in Hc as [_ Hc]. destruct (String.eqb _ _); [by eapply IH|done].
  - apply andb_true_iff in Hc as [_ Hc]. destruct (_ && _); [done|].
    destruct (match_segs pattern path) as [[? ?]|] eqn:E; [|done]. cbn in Hm. simplify_eq. by eapply IH.
Qed.

Lemma clean_removelast path : clean path = true -> clean (removelast path) = true.
Proof.
  induction path as [|x path IH]; [done|]. cbn [clean forallb]. intros [Hx Hc]%andb_true_iff.
  destruct path as [|y path]; [done|]. cbn [removelast clean forallb]. rewrite Hx. by apply IH.
Qed.

(** A registration of a sub-router: for a method, with a pattern. *)
Definition leaf_key (k : Key) : bool := match k with (Some _, _ :: _) => true | _ => false end.

Definition mount_key (k : Key) : bool := match k.1 with None => true | Some _ => false end.

Lemma key_match_below k k' m path :
  mount_key k = true -> leaf_key k' = true -> clean path = true ->
  key_match (below k k') m path =
  ('(ps, rest) ← key_match k m path; '(qs, rest') ← key_match k' m rest; Some (ps ++ qs, rest')).
Proof.
  destruct k as [[?|] a], k' as [[m'|] [|x b]]; try done. intros _ _ Hc. unfold key_match, below. cbn [fst snd].
  destruct (match_segs a path) as [[ps r]|] eqn:Ea.
  - pose proof (match_clean _ _ _ _ Hc Ea) as Hr. destruct r as [|y r]; cbn [is_nil mbind option_bind].
    + destruct x as [[|c s]|n]; [destruct b|..].
      * rewrite Ea. cbn. destruct (String.eqb m' m); cbn; by rewrite ?app_nil_r.
      * rewrite match_segs_app, Ea. cbn. by destruct s.
      * rewrite match_segs_app, Ea. done.
      * rewrite match_segs_app, Ea. done.
    + assert (Hy : String.eqb "" y = false). { cbn in Hr. rewrite String.eqb_sym. by destruct (String.eqb y ""). }
      destruct x as [[|c s]|n]; [destruct b|..]; [rewrite Ea; cbn -[String.eqb]; by rewrite Hy, andb_false_r|..].
      all: rewrite match_segs_app, Ea; cbn -[match_segs String.eqb];
        match goal with |- context [match_segs ?p ?q] => by destruct (match_segs p q) as [[? ?]|]; cbn; [destruct (_ && _)|] end.
  - assert (Hb : match_segs (match x :: b with [Lit ""] => a | _ => a ++ x :: b end) path = None).
    { destruct x as [[|c s]|n]; [destruct b|..]; rewrite ?match_segs_app, ?Ea; done. }
    by rewrite Hb.
Qed.

Lemma first_row_below {A} k (sub : list (Key * A)) g m path :
  mount_key k = true -> forallb leaf_key (fst <$> sub) = true -> clean path = true ->
  first_row ((fun r => (below k r.1, (g, r.2) : Guard * A)) <$> sub) m path =
  ('(ps, rest) ← key_match k m path; '(h, qs, rest') ← first_row sub m rest; Some ((g, h), ps ++ qs, rest')).
Proof.
  intros Hk Hsub Hc. induction sub as [|[k' h] sub IH]; cbn -[below]; [by destruct (key_match k m path) as [[? ?]|]|].
  apply andb_true_iff in Hsub as [Hk' Hsub]. rewrite key_match_below by done. rewrite IH by done.
  destruct (key_match k m path) as [[ps rest]|]; [|done]. cbn. by destruct (key_match k' m rest) as [[? ?]|].
Qed.

(** *** The nested lookup *)

(** The group and, when the sub-router finds one, the endpoint. *)
Definition nested_row (l : list (Key * (Guard * Target))) (m : string) (path : list string) : option (Guard * option Endpoint) :=
  '(gt, ps, rest) ← first_row l m path;
  match gt with
  | (g, Handle h) => Some (g, Some (h (URLParam ps)))
  | (g, Mount sub) => Some (g, '(h, ps', _) ← first_row sub m rest; Some (h (URLParam (ps ++ ps'))))
  end.

(** Two patterns that no path fits both of. *)
Fixpoint clash (a b : list Seg) : bool :=
  match a, b with
  | Lit s :: a, Lit t :: b => negb (String.eqb s t) || clash a b
  | _ :: a, _ :: b => clash a b
  | _, _ => false
  end.

Lemma clash_spec a b path ps rest : clash a b = true -> match_segs a path = Some (ps, rest) -> match_segs b path = None.
Proof.
  revert b path ps rest. induction a as [|[s|n] a IH]; intros [|[t|n'] b] [|x path] ps rest Hc Hm; cbn in *; try done.
  - destruct (String.eqb_spec s x) as [->|]; [|done]. destruct (String.eqb_spec t x) as [->|]; [|done].
    rewrite String.eqb_refl in Hc. exact (IH _ _ _ _ Hc Hm).
  - destruct (String.eqb s x); [|done]. destruct (_ && _); [done|]. by rewrite (IH _ _ _ _ Hc Hm).
  - destruct (_ && _); [done|]. destruct (match_segs a path) as [[? ?]|] eqn:E; [|done].
    destruct (String.eqb t x); [|done]. exact (IH _ _ _ _ Hc E).
  - destruct (_ && _); [done|]. destruct (match_segs a path) as [[? ?]|] eqn:E; [|done]. by rewrite (IH _ _ _ _ Hc E).
Qed.

Fixpoint all_clash (l : list Key) : bool :=
  match l with
  | [] => true
  | k :: l => forallb (fun k' => clash k.2 k'.2) l && all_clash l
  end.

Definition row_ok (row : Key * (Guard * Target)) : bool :=
  match row.2.2 with
  | Handle _ => true
  | Mount sub => mount_key row.1 && forallb leaf_key (fst <$> sub)
  end.

Lemma key_match_clash k k' m path ps rest :
  clash k.2 k'.2 = true -> key_match k m path = Some (ps, rest) -> key_match k' m path = None.
Proof. intros Hc (r & Hm & _)%key_match_inv. unfold key_match. by rewrite (clash_spec _ _ _ _ _ Hc Hm). Qed.

Lemma first_row_flatten_row k g t m path :
  row_ok (k, (g, t)) = true -> clean path = true ->
  first_row (flatten_row (k, (g, t))) m path =
  ('(ps, rest) ← key_match k m path;
   match t with
   | Handle h => Some ((g, h), ps, rest)
   | Mount sub => '(h, qs, rest') ← first_row sub m rest; Some ((g, h), ps ++ qs, rest')
   end).
Proof.
  destruct t as [h|sub]; cbn -[below]; intros Ho Hc; [by destruct (key_match k m path) as [[? ?]|]|].
  apply andb_true_iff in Ho as [? ?]. by apply first_row_below.
Qed.

Lemma first_row_flatten_none l m path :
  forallb row_ok l = true -> clean path = true -> (forall x, x ∈ l -> key_match x.1 m path = None) ->
  first_row (flatten l) m path = None.
Proof.
  intros Ho Hc. unfold flatten. induction l as [|[k [g t]] l IH]; intros Hn; [done|]. cbn -[flatten_row].
  cbn [forallb] in Ho. apply andb_true_iff in Ho as [Ho Hos].
  rewrite first_row_app, first_row_flatten_row by done. rewrite (Hn (k, (g, t)) (list_elem_of_here _ _) : key_match k m path = None). cbn.
  apply IH; [done|]. intros x Hx. apply Hn. by right.
Qed.

Lemma nested_flat l m path :
  all_clash (fst <$> l) = true -> forallb row_ok l = true -> clean path = true ->
  match nested_row l m path with
  | Some (g, Some e) => exists h ps rest, first_row (flatten l) m path = Some ((g, h), ps, rest) /\ e = h (URLParam ps)
  | _ => first_row (flatten l) m path = None
  end.
Proof.
  intros Hcl Ho Hc. unfold nested_row. induction l as [|[k [g t]] l IH]; [done|].
  cbn [forallb] in Ho. apply andb_true_iff in Ho as [Ho Hos]. cbn [fmap list_fmap fst all_clash] in Hcl.
  apply andb_true_iff in Hcl as [Hk Hcl]. change (flatten ((k, (g, t)) :: l)) with (flatten_row (k, (g, t)) ++ flatten l).
  rewrite first_row_app, first_row_flatten_row by done. cbn [first_row].
  destruct (key_match k m path) as [[ps rest]|] eqn:Ek; [|exact (IH Hcl Hos)].
  assert (Hlater : first_row (flatten l) m path = None).
  { apply first_row_flatten_none; [done..|]. intros x Hx. eapply key_match_clash; [|exact Ek].
    rewrite forallb_forall in Hk. apply Hk, list_elem_of_In, list_elem_of_fmap. by exists x. }
  destruct t as [h|sub]; cbn; [by exists h, ps, rest|].
  destruct (first_row sub m rest) as [[[h qs] rest']|]; cbn; [by exists h, (ps ++ qs), rest'|done].
Qed.

(** ** The theorems *)

Definition guard_of (e : Endpoint) : Guard :=
  match e with
  | EpHealth | EpRegister | EpLogin | EpRefresh | EpLogout | EpPing _ | EpPingStart _ | EpPingFail _ | EpPingCode _ _ => Open
  | EpCreateKey | EpListKeys | EpRevokeKey _ => JwtOnly
  | _ => JwtOrKey
  end.

Lemma top_level_clash : all_clash (fst <$> New_routes) = true.
Proof. vm_compute. reflexivity. Qed.

Lemma top_level_ok : forallb row_ok New_routes = true.
Proof. vm_compute. reflexivity. Qed.

Definition without_guard (row : Key * (Guard * Leaf)) : Key * Leaf := (row.1, row.2.2).

Lemma flat_guards : Forall (fun row => forall param, guard_of (row.2.2 param) = row.2.1) (flatten New_routes).
Proof. repeat (constructor; [intros param; reflexivity|]). constructor. Qed.

Ltac solve_row := lazymatch goal with |- _ ∈ _ => first [left | right; solve_row] end.

Lemma same_rows x : x ∈ (without_guard <$> flatten New_routes) <-> x ∈ api_table.
Proof.
  split; revert x; apply Forall_forall.
  - cbv -[plain with_id elem_of]. repeat (constructor; [solve_row|]). constructor.
  - cbv -[plain with_id elem_of]. repeat (constructor; [solve_row|]). constructor.
Qed.

Lemma first_row_fmap {A B} (f : A -> B) (l : list (Key * A)) m path :
  first_row ((fun row => (row.1, f row.2)) <$> l) m path = ('(a, ps, rest) ← first_row l m path; Some (f a, ps, rest)).
Proof. induction l as [|[k a] l IH]; [done|]. cbn. by destruct (key_match k m path) as [[? ?]|]. Qed.

Lemma documented_row rows m path :
  documented rows m path = ('(h, ps, _) ← first_row rows m path; Some (h (URLParam ps))).
Proof. induction rows as [|[k h] rows IH]; [done|]. cbn. by destruct (key_match k m path) as [[? ?]|]. Qed.

Lemma documented_flat m path :
  documented api_table m path = ('(gh, ps, _) ← first_row (flatten New_routes) m path; Some (gh.2 (URLParam ps))).
Proof.
  rewrite documented_row. erewrite <- (first_row_same m path (without_guard <$> flatten New_routes)); [|by vm_compute..|exact same_rows].
  unfold without_guard. rewrite (first_row_fmap snd). by destruct (first_row _ m path) as [[[[g h] ps] rest]|].
Qed.

(** The nested lookup finds the documented endpoint, behind its middleware. *)
Lemma documented_nested m path : clean path = true ->
  match documented api_table m path with
  | Some e => nested_row New_routes m path = Some (guard_of e, Some e)
  | None => forall g e, nested_row New_routes m path <> Some (g, Some e)
  end.
Proof.
  intros Hc. rewrite documented_flat. pose proof (nested_flat New_routes m path top_level_clash top_level_ok Hc) as Hn.
  destruct (nested_row New_routes m path) as [[g [e|]]|]; [|by rewrite Hn..].
  destruct Hn as (h & ps & rest & Hf & ->). rewrite Hf. cbn.
  destruct (first_row_Some m path (flatten New_routes) (g, h) ps rest) as (k & Hin & _); [by vm_compute|exact Hf|].
  pose proof flat_guards as Hg. rewrite Forall_forall in Hg. pose proof (Hg _ Hin (URLParam ps)) as He. cbn in He. by rewrite He.
Qed.

(** Everything documented is for a method the router knows. *)
Lemma documented_known m path e : documented api_table m path = Some e -> known_method m = true.
Proof.
  rewrite documented_row. destruct (first_row api_table m path) as [[[h ps] rest]|] eqn:E; [|done]. intros _.
  assert (Hall : forallb (fun row : Key * Leaf => match row.1.1 with Some m' => known_method m' | None => false end) api_table = true)
    by (vm_compute; reflexivity).
  rewrite forallb_forall in Hall. destruct (first_row_Some m path api_table h ps rest) as (k & Hin & Hm & _); [by vm_compute|exact E|].
  specialize (Hall (k, h) ltac:(by apply list_elem_of_In)). cbn in Hall.
  apply key_match_inv in Hm as (r & _ & Hkey). destruct k.1 as [m'|]; [|done]. by destruct (Hkey m' eq_refl) as [<- _].
Qed.

Lemma nested_known m path g e : clean path = true -> nested_row New_routes m path = Some (g, Some e) -> known_method m = true.
Proof.
  intros Hc Hn. pose proof (documented_nested m path Hc) as Hd. destruct (documented api_table m path) as [e'|] eqn:E.
  - by eapply documented_known.
  - by destruct (Hd g e).
Qed.

Definition target_static (t : Target) : bool :=
  match t with Handle _ => true | Mount sub => static_first (fst <$> sub) end.

Lemma top_static : static_first (fst <$> New_routes) = true.
Proof. vm_compute. reflexivity. Qed.

Lemma subs_static : Forall (fun row => target_static row.2.2 = true) New_routes.
Proof. repeat (constructor; [vm_compute; reflexivity|]). constructor. Qed.

Lemma rest_removelast k m path ps rest :
  clean path = true -> key_match k m path = Some (ps, rest) -> clean (removelast rest) = true.
Proof.
  intros Hc. unfold key_match. destruct (match_segs k.2 path) as [[ps0 r0]|] eqn:E; [|done]. cbn.
  pose proof (match_clean _ _ _ _ Hc E) as Hr. destruct k.1; [destruct (_ && _)|]; intros [= <- <-]; [done|].
  destruct r0 as [|x r0]; [done|]. cbn [is_nil]. by apply clean_removelast.
Qed.

Section theorems.
Context `{!ChiLaws C}.

Lemma routed_nested m path : clean path = true ->
  match nested_row New_routes m path with
  | Some (g, Some e) => routed m path = Serves g e
  | _ => exists g resp, routed m path = Answers g resp /\ (rs_Status resp = 404 \/ rs_Status resp = 405)
  end.
Proof.
  intros Hc. pose proof (nested_known m path) as Hkn. revert Hkn. unfold nested_row, routed.
  assert (Hnone : forall g resp row, (known_method m = true -> forall g e, row <> Some (g, Some e)) -> (rs_Status resp = 404 \/ rs_Status resp = 405) ->
    (forall g e, clean path = true -> row = Some (g, Some e) -> known_method m = true) ->
    match row with
    | Some (g', Some e) => Answers g resp = Serves g' e
    | _ => exists g' resp', Answers g resp = Answers g' resp' /\ (rs_Status resp' = 404 \/ rs_Status resp' = 405)
    end).
  { intros g resp [[g' [e|]]|] Hrow Hst Hkn; [|by exists g, resp..]. by destruct (Hrow (Hkn g' e Hc eq_refl) g' e). }
  pose proof (chi_first New_routes m path top_static (clean_removelast _ Hc)) as Htop.
  destruct (chi_find (fst <$> New_routes) m path) as [n ps rest|resp].
  2: { destruct Htop as [Hrow Hst]. intros Hkn. apply Hnone; [|exact Hst|exact Hkn]. intros Hk. by rewrite Hrow. }
  destruct Htop as (k & [g t] & Hl & Hf). rewrite Hl, Hf. cbn [mbind option_bind].
  destruct t as [h|sub]; [done|]. intros Hkn.
  assert (Hrest : clean (removelast rest) = true).
  { destruct (first_row_Some _ _ _ _ _ _ top_static Hf) as (k0 & _ & Hm & _). by eapply rest_removelast. }
  pose proof subs_static as Hss. rewrite Forall_lookup in Hss. specialize (Hss _ _ Hl). cbn in Hss.
  pose proof (chi_first sub m rest Hss Hrest) as Hsub.
  destruct (chi_find (fst <$> sub) m rest) as [n' ps' rest'|resp].
  - destruct Hsub as (k' & h & Hl' & Hf'). by rewrite Hl', Hf'.
  - destruct Hsub as [Hrow Hst].
    apply (Hnone g resp (Some (g, '(h, ps', _) ← first_row sub m rest; Some (h (URLParam (ps ++ ps')))))); [|exact Hst|exact Hkn].
    intros Hk. by rewrite Hrow.
Qed.

Context `{Ext : Extern} `{Jwt} `{Web} (deps : Deps) (limiter : Limiter) (backends : Backends).

Lemma guarded_handler e r :
  behind_guard limiter (guard_of e) (endpoint_handler deps limiter backends e r) r = handler deps limiter backends e r.
Proof. by destruct e. Qed.

Lemma ServeHTTP_routes r : clean (rq_Path r) = true ->
  match documented api_table (rq_Method r) (rq_Path r) with
  | Some e => ServeHTTP deps limiter backends r = serve deps limiter backends e r
  | None => exists g resp, ServeHTTP deps limiter backends r = middlewares deps r (behind_guard limiter g (fun _ => ret resp) r) /\
              (rs_Status resp = 404 \/ rs_Status resp = 405)
  end.
Proof.
  intros Hc. pose proof (documented_nested (rq_Method r) _ Hc) as Hd. pose proof (routed_nested (rq_Method r) _ Hc) as Hr.
  unfold ServeHTTP. destruct (documented _ _ _) as [e|].
  - rewrite Hd in Hr. by rewrite Hr, guarded_handler.
  - destruct (nested_row _ _ _) as [[g [e|]]|]; [by destruct (Hd g e)|..].
    all: destruct Hr as (g' & resp & -> & Hst); by exists g', resp.
Qed.

(** C12. The server serves the API that docs/API.md lists, and nothing else:
    for every method and every path without an empty segment, a request is
    served by the endpoint of the documented row it fits, with the values of
    the row's parameters, behind the middleware of the endpoint's group
    (/start and /fail before the exit codes); a request that fits no row
    reaches no handler: what is behind the server's middleware, and behind that
    of one of the groups, is an answer of 404 or 405 (so the client may get the
    204 of a preflight, or the 401 of a group, instead). *)
Theorem route_table r : clean (rq_Path r) = true ->
  match documented api_table (rq_Method r) (rq_Path r) with
  | Some e => ServeHTTP deps limiter backends r = serve deps limiter backends e r
  | None => exists g resp, ServeHTTP deps limiter backends r = middlewares deps r (behind_guard limiter g (fun _ => ret resp) r) /\
              (rs_Status resp = 404 \/ rs_Status resp = 405)
  end.
Proof. exact (ServeHTTP_routes r). Qed.

(** *** What needs no credential *)

Definition public_prefixes : list (list Seg) := pattern_segs <$> ["/health"; "/api/v1/auth"; "/p"]%string.

Definition public_path (path : list string) : bool :=
  existsb (fun prefix => match match_segs prefix path with Some _ => true | None => false end) public_prefixes.

Lemma open_routes : Forall (fun row => row.2.1 = Open -> exists a b, a ∈ public_prefixes /\ row.1.2 = a ++ b) New_routes.
Proof.
  repeat (constructor; [try discriminate; intros _|]); [..|constructor].
  - exists (pattern_segs "/health"), []. split; [apply list_elem_of_In; cbn; tauto|done].
  - exists (pattern_segs "/api/v1/auth"), []. split; [apply list_elem_of_In; cbn; tauto|done].
  - exists (pattern_segs "/p"), [Param "slug"]. split; [apply list_elem_of_In; cbn; tauto|done].
Qed.

Lemma found_guard k g t m path ps rest :
  (k, (g, t)) ∈ New_routes -> key_match k m path = Some (ps, rest) -> public_path path = false -> g <> Open.
Proof.
  intros Hin (r0 & Hm & _)%key_match_inv Hp ->. pose proof open_routes as Ho. rewrite Forall_forall in Ho.
  destruct (Ho _ Hin eq_refl) as (a & b & Ha & Hk). cbn in Hk. rewrite Hk, match_segs_app in Hm.
  destruct (match_segs a path) as [x|] eqn:E; [|done]. apply not_true_iff_false in Hp. apply Hp, existsb_exists.
  exists a. split; [by apply list_elem_of_In|by rewrite E].
Qed.

Lemma routed_guard m path : public_path path = false ->
  match routed m path with
  | Serves g e => g <> Open
  | Answers g resp => g <> Open \/ (rs_Status resp = 404 \/ rs_Status resp = 405)
  end.
Proof.
  intros Hp. unfold routed. destruct (chi_find (fst <$> New_routes) m path) as [n ps rest|resp] eqn:Ef.
  2: { right. by apply (chi_none _ _ _ _ Ef). }
  destruct (chi_sound _ _ _ _ _ _ Ef) as (k & Hk & Hm). rewrite list_lookup_fmap in Hk.
  destruct (New_routes !! n) as [[k0 [g t]]|] eqn:Hl; [|done]. injection Hk as ->.
  assert (Hg : g <> Open) by (eapply found_guard; [by eapply list_elem_of_lookup_2|done..]).
  destruct t as [h|sub]; [done|]. destruct (chi_find (fst <$> sub) m rest); [|by left].
  destruct (sub !! _) as [[? ?]|]; [done|by left].
Qed.

(** C13. Without a credential nothing but the public addresses (/health,
    /api/v1/auth and below, /p and below) does anything: whatever the method
    and the path, the answer is 401, or the router's own 404 or 405, and
    nothing changes; an address with an endpoint behind it answers 401.  When
    the lookup of an API key fails the answer is 500, a CORS preflight is
    answered 204, and neither reaches a handler. *)
Theorem auth_required r w :
  public_path (rq_Path r) = false -> no_credential r (w_tables w) ->
  exists resp w', run (ServeHTTP deps limiter backends r) w = (Ok resp, w') /\ w_tables w' = w_tables w /\
    if String.eqb (rq_Method r) "OPTIONS" then rs_Status resp = 204
    else rs_Status resp = 401 \/
         (rs_Status resp = 404 \/ rs_Status resp = 405) /\ (forall g e, routed (rq_Method r) (rq_Path r) <> Serves g e) \/
         rs_Status resp = 500 /\ ~ no_faults w.
Proof.
  intros Hp Hn. unfold ServeHTTP. set (next := match routed _ _ with Serves g e => _ | Answers g resp => _ end).
  destruct (run_middlewares deps r next w) as (w1 & (Hd & _ & Hf) & Hs). injection Hd as Ht _.
  destruct (String.eqb _ _); [destruct Hs as (resp & ? & ? & _); by exists resp, w1|].
  rewrite <- Ht in Hn. pose proof (routed_guard (rq_Method r) _ Hp) as Hg.
  assert (Hguard : forall g h, g <> Open -> refused w1 (behind_guard limiter g h r)).
  { intros [| |] h Hne; [done|by apply refused_requireAuthOrAPIKey|by apply refused_requireAuth]. }
  assert (Hr : refused w1 next \/ exists resp, next = ret resp /\ (rs_Status resp = 404 \/ rs_Status resp = 405) /\
                 forall g e, routed (rq_Method r) (rq_Path r) <> Serves g e).
  { subst next. destruct (routed _ _) as [g e|g resp]; [left; by apply Hguard|].
    destruct g; [|left; by apply Hguard..]. right. exists resp. by destruct Hg as [[]|?]. }
  destruct Hr as [(resp0 & w2 & Hr & Ht2 & Hst)|(resp0 & Hnext & Hst & Hno)].
  - rewrite Hr in Hs. destruct Hs as (resp & Hrun & Heq & _). exists resp, w2. split; [exact Hrun|]. split; [congruence|].
    rewrite Heq. cbn. destruct Hst as [?|[? Hnf]]; [by left|right; right]. split; [done|]. intros Hw. by apply Hnf, Hf.
  - rewrite Hnext in Hs. destruct Hs as (resp & Hrun & Heq & _). exists resp, w1. split; [rewrite Hnext; exact Hrun|].
    split; [done|]. rewrite Heq. cbn. by right; left.
Qed.
End theorems.

(** ** A router with these laws *)

Fixpoint best_match (n : nat) (keys : list Key) (m : string) (path : list string) : option (nat * URLParams * list string) :=
  match keys with
  | [] => None
  | k :: keys =>
      match key_match k m path with
      | Some (ps, rest) =>
          if existsb (fun k' => match key_match k' m path with Some _ => more_static k'.2 k.2 | None => false end) keys
          then best_match (S n) keys m path else Some (n, ps, rest)
      | None => best_match (S n) keys m path
      end
  end.

Definition demo_chi : Chi := fun keys m path =>
  match best_match 0 keys m path with
  | Some (n, ps, rest) => FoundRoute n ps rest
  | None => FoundNone router_not_found
  end.

Lemma more_static_trans a b c : more_static a b = true -> more_static b c = true -> more_static a c = true.
Proof.
  revert b c. induction a as [|[s|n] a IH]; intros [|[t|n'] b] [|[u|n''] c]; cbn; try done; [|by apply IH].
  intros [Est Ha]%andb_true_iff [Etu Hb]%andb_true_iff. apply String.eqb_eq in Est as ->. rewrite Etu. by eapply IH.
Qed.

Lemma best_match_spec j keys m path :
  match best_match j keys m path with
  | Some (n, ps, rest) => exists i k, n = (j + i)%nat /\ keys !! i = Some k /\ key_match k m path = Some (ps, rest) /\
      forall k', k' ∈ keys -> key_match k' m path <> None -> more_static k'.2 k.2 = false
  | None => forall k, k ∈ keys -> key_match k m path = None
  end.
Proof.
  revert j. induction keys as [|k keys IH]; intros j; cbn; [by intros k ?%elem_of_nil|].
  specialize (IH (S j)).
  destruct (key_match k m path) as [[ps rest]|] eqn:Ek; [destruct (existsb _ keys) eqn:Ex|].
  - apply existsb_exists in Ex as (x & Hx%list_elem_of_In & Hxk).
    destruct (key_match x m path) as [[? ?]|] eqn:Exm; [|done].
    destruct (best_match (S j) keys m path) as [[[n ps'] rest']|]; [|by rewrite IH in Exm].
    destruct IH as (i & k1 & -> & Hl & Hm & Hmax). exists (S i), k1. split; [lia|]. split; [done|]. split; [done|].
    intros k' [->|Hin]%elem_of_cons Hk'; [|by apply Hmax]. apply not_true_iff_false. intros Hkk.
    pose proof (more_static_trans _ _ _ Hxk Hkk) as Ht.
    by rewrite (Hmax x Hx) in Ht; [|congruence].
  - exists 0%nat, k. split; [lia|]. split; [done|]. split; [done|]. intros k' [->|Hin]%elem_of_cons Hk'.
    + apply not_true_iff_false. intros Hkk. by destruct (more_static_asym _ _ Hkk Hkk).
    + apply not_true_iff_false. intros Hkk. apply not_true_iff_false in Ex. apply Ex, existsb_exists. exists k'.
      split; [by apply list_elem_of_In|]. by destruct (key_match k' m path) as [[? ?]|].
  - destruct (best_match (S j) keys m path) as [[[n ps'] rest']|].
    + destruct IH as (i & k1 & -> & Hl & Hm & Hmax). exists (S i), k1. split; [lia|]. split; [done|]. split; [done|].
      intros k' [->|Hin]%elem_of_cons Hk'; [by rewrite Ek in Hk'|by apply Hmax].
    + intros k' [->|Hin]%elem_of_cons; [done|by apply IH].
Qed.

#[local] Existing Instance demo_chi.

#[local] Instance demo_chi_laws : ChiLaws demo_chi.
Proof.
  constructor; unfold chi_find, demo_chi; intros *; pose proof (best_match_spec 0 keys m path) as Hb;
    destruct (best_match 0 keys m path) as [[[n0 ps0] rest0]|]; try discriminate.
  - intros [= -> -> ->]. destruct Hb as (i & k & -> & Hk & Hm & _). by exists k.
  - intros [= -> -> ->] Hk Hk' Hm' _. destruct Hb as (i & k1 & -> & Hk1 & _ & Hmax). cbn [Nat.add] in Hk. simplify_eq.
    apply Hmax; [by eapply list_elem_of_lookup_2|congruence].
  - intros [= <-]. split; [by left|]. intros _ n k ps rest Hk Hm. by rewrite (Hb k) in Hm; [|eapply list_elem_of_lookup_2].
Qed.

(** ** At concrete inputs *)

#[local] Existing Instance demo_extern.
#[local] Existing Instance demo_web.
#[local] Existing Instance demo_jwt.

Definition request_to (method path token : string) : Request :=
  let r := with_token token in
  mkRequest method (path_segs path) (rq_Query r) (rq_Authorization r) "" (rq_RemoteAddr r) (rq_UserAgent r) true None "{}".

Lemma route_table_witness :
  ServeHTTP demo_deps demo_limiter demo_backends (request_to "GET" "/p/mine/start" "")
  = serve demo_deps demo_limiter demo_backends (EpPingStart "mine") (request_to "GET" "/p/mine/start" "").
Proof. exact (route_table demo_deps demo_limiter demo_backends (request_to "GET" "/p/mine/start" "") eq_refl). Defined.

(** Without a credential: an endpoint, a path below a guarded sub-router, a
    method the API does not have, a path that is nowhere. *)
Lemma auth_required_witness :
  let r := request_to "DELETE" "/api/v1/monitors/1" "pk_lost" in
  (exists resp w', run (ServeHTTP demo_deps demo_limiter demo_backends r) access_world = (Ok resp, w') /\
     w_tables w' = access_tables) /\
  (fun q => match fst (run (ServeHTTP demo_deps demo_limiter demo_backends (request_to q.1 q.2 "pk_lost")) access_world) with
            | Ok resp => rs_Status resp | Err _ => 0 end) <$>
    [("DELETE", "/api/v1/monitors/1"); ("PUT", "/api/v1/monitors/1/x"); ("PUT", "/api/v1/events"); ("GET", "/nowhere")]%string
  = [401; 401; 404; 404].
Proof.
  intros r. split; [|vm_compute; reflexivity].
  destruct (auth_required demo_deps demo_limiter demo_backends r access_world) as (resp & w' & Hrun & Ht & _);
    [reflexivity|split; [done|vm_compute; reflexivity]|].
  exists resp, w'. split; [exact Hrun|exact Ht].
Defined.
