(* ===== verification/LoadGen.v ===== *)
(** * LoadGen: the load generator of the soak test (cmd/soakloadgen/main.go)

    A client of the API: it registers an account, creates monitors and pings
    the heartbeats, over a transport ([Transport], http.Client).  [to_server]
    is the transport that leads to the server of Routes; with it
    [heartbeats_created] composes the client with the service: what the client
    writes is read, validated and stored, and what it reads back is the
    monitors' own slugs and ping addresses.  Probabilities are the float64
    values of the code (SpecFloat's binary64). *)
From Stdlib Require Import SpecFloat Decimal DecimalString DecimalPos.
From S2P Require Import Prelude GoLib Json Marshal Calendar NetAddr Models Extern Store Queries Logic Demo Schedule Convert Monitor Feeds Session User Http AuthApi Responses MonitorApi Server Integrity Lifecycle Validation Access Account Routes.
Local Open Scope Z_scope.
Local Open Scope ping_scope.

(** ** Numbers *)

Abbreviation float64 := spec_float.

Definition float_lt (x y : float64) : bool := SFltb x y.
Definition float_add (x y : float64) : float64 := SFadd 53 1024 x y.

(** [rand.Float64()]: a multiple of 2^-53 below 1. *)
Definition rand_Float64 (draw : Z) : float64 := binary_normalize 53 1024 (draw mod 2 ^ 53) (-53) false.

(** ** The client *)

Record HttpReply := mkHttpReply { hr_Status : Z; hr_Body : string }.

(** [http.Client.Do] of a request: method, URL, Authorization header, body. *)
Definition Transport : Type := string -> string -> string -> string -> Prog HttpReply.

Record apiClient := mkapiClient { ac_baseURL : string; ac_bearer : string }.

Record load_config := mkload_config {
  lc_baseURL : string;
  lc_monitorCount : Z;
  lc_flakyTargetBaseURL : string;
  lc_flakyTargetBasePort : Z;
  lc_skipProbability : float64;
  lc_failProbability : float64
}.

Record heartbeatMonitor := mkheartbeatMonitor { hm_slug : string; hm_pingURL : string; hm_periodS : Z }.

(** A Go map is marshalled by its sorted keys. *)
Definition json_map (fields : list (string * Json)) : Json := JObj (sort_by (fun a b => String.leb a.1 b.1) fields).

Section client.
Context (http_Do : Transport).

(** [decode] is the decoding of the reply into [out], or nothing when it is
    nil. *)
Definition post {T} (c : apiClient) (path : string) (body : Json) (decode : string -> option T) : Prog T :=
  let auth := if String.eqb (ac_bearer c) "" then ""%string else "Bearer " +:+ ac_bearer c in
  let! resp := wrap ("apiClient.post " +:+ path) (http_Do "POST" (ac_baseURL c +:+ path) auth (Marshal body)) in
  if 300 <=? hr_Status resp then
    throw (EMsg ("apiClient.post " +:+ path +:+ ": unexpected status " +:+ FormatInt (hr_Status resp)))
  else match decode (hr_Body resp) with
       | Some out => ret out
       | None => throw (EWrap ("apiClient.post " +:+ path +:+ ": decode response") (EMsg "malformed"))
       end.

Definition decode_reply {T} (fields : list (string * FieldDecoder T)) (zero : T) (body : string) : option T :=
  v ← first_value body; decode_object fields zero v.

Definition nil_out (body : string) : option unit := Some tt.

(** The random bytes of crypto/rand, whose error is dropped. *)
Definition randomHex (n : nat) : Prog string :=
  let! b := attempt (rand_Read n) in
  ret (hex_encode (match b with Ok b => b | Err _ => String.string_of_list_ascii (repeat "000"%char n) end)).

Definition soak_password : string := "soak-test-password-1".

Definition access_token_field : list (string * FieldDecoder string) := [("access_token"%string, field_string (fun v _ => v))].

Definition bootstrapAccount (api : apiClient) : Prog string :=
  let! hex := randomHex 8 in
  let email := "soak-" +:+ hex +:+ "@example.com" in
  wrap "bootstrapAccount: register"
    (post api "/api/v1/auth/register" (json_map [("email", JStr email); ("password", JStr soak_password)]%string)
      (decode_reply access_token_field "")).

Definition soak_periodS : Z := 60.
Definition soak_graceS : Z := 60.

Definition heartbeat_body (i : Z) : Json :=
  json_map [("kind", JStr "heartbeat"); ("name", JStr ("soak-heartbeat-" +:+ FormatInt i)); ("schedule_kind", JStr "period");
            ("period_s", JInt soak_periodS); ("grace_s", JInt soak_graceS); ("tz", JStr "UTC")]%string.

Definition created_fields : list (string * FieldDecoder (string * string)) :=
  [("slug"%string, field_string (fun v r => (v, r.2))); ("ping_url"%string, field_string (fun v r => (r.1, v)))].

(** [range n]: the numbers below [n]. *)
Definition range (n : Z) : list Z := seqZ 0 n.

(** [make] panics on a negative capacity. *)
Definition createHeartbeatMonitors (api : apiClient) (count : Z) : Prog (list heartbeatMonitor) :=
  if count <? 0 then throw (EMsg "panic: makeslice: cap out of range")
  else for_range (fun monitors i =>
         let! resp := wrap "createHeartbeatMonitors"
                        (post api "/api/v1/monitors" (heartbeat_body i) (decode_reply created_fields ("", "")%string)) in
         ret (monitors ++ [mkheartbeatMonitor resp.1 resp.2 soak_periodS])) [] (range count).

Definition http_body (targetURL : string) (i : Z) : Json :=
  json_map [("kind", JStr "http"); ("name", JStr ("soak-http-" +:+ FormatInt i)); ("url", JStr targetURL); ("method", JStr "GET");
            ("interval_s", JInt 30); ("timeout_s", JInt 5); ("fail_threshold", JInt 2)]%string.

Definition target_url (flakyTargetBaseURL : string) (basePort i : Z) : string :=
  flakyTargetBaseURL +:+ ":" +:+ FormatInt (wrap64 (basePort + i)) +:+ "/health".

Definition createHTTPMonitors (api : apiClient) (count : Z) (flakyTargetBaseURL : string) (basePort : Z) : Prog unit :=
  for_range (fun _ i =>
    wrap "createHTTPMonitors" (post api "/api/v1/monitors" (http_body (target_url flakyTargetBaseURL basePort i) i) nil_out))
    tt (range count).

(** A request that cannot be built or sent is logged. *)
Definition pingURL (url : string) : Prog unit := let! _ := attempt (http_Do "POST" url "" "") in ret tt.

(** What a roll decides: no request, a failure, a success. *)
Inductive Roll := RollSkip | RollFail | RollSuccess.

Definition decide_roll (roll skipProbability failProbability : float64) : Roll :=
  if float_lt roll skipProbability then RollSkip
  else if float_lt roll (float_add skipProbability failProbability) then RollFail
  else RollSuccess.

Definition sendOnePing (baseURL : string) (m : heartbeatMonitor) (skipProbability failProbability : float64) (draw : Z) : Prog unit :=
  match decide_roll (rand_Float64 draw) skipProbability failProbability with
  | RollSkip => ret tt
  | RollFail => pingURL (baseURL +:+ "/p/" +:+ hm_slug m +:+ "/fail")
  | RollSuccess => pingURL (hm_pingURL m)
  end.

(** The ticks until the context is done, each with its draw. *)
Definition pingLoop (baseURL : string) (m : heartbeatMonitor) (skipProbability failProbability : float64) (draws : list Z) : Prog unit :=
  for_range (fun _ draw => sendOnePing baseURL m skipProbability failProbability draw) tt draws.

(** The loops of the monitors run side by side, as [sched] says; [draws] are
    the ticks of each. *)
Definition load_run (cfg : load_config) (draws : nat -> list Z) (sched : list nat) : Prog unit :=
  let! token := wrap "run: bootstrap account" (bootstrapAccount (mkapiClient (lc_baseURL cfg) "")) in
  let api := mkapiClient (lc_baseURL cfg) token in
  let heartbeatCount := Z.quot (lc_monitorCount cfg) 2 in
  let httpCount := lc_monitorCount cfg - heartbeatCount in
  let! heartbeats := wrap "run: create heartbeat monitors" (createHeartbeatMonitors api heartbeatCount) in
  let! _ := wrap "run: create http monitors"
              (createHTTPMonitors api httpCount (lc_flakyTargetBaseURL cfg) (lc_flakyTargetBasePort cfg)) in
  par (length heartbeats) sched
    (imap (fun i m => pingLoop (lc_baseURL cfg) m (lc_skipProbability cfg) (lc_failProbability cfg) (draws i)) heartbeats).
End client.

(** ** The server behind the transport *)

Definition body_text (b : Body) : string :=
  match b with BNone => "" | BText s => s | BJson j => Encode j end.

Definition client_request (method path auth body : string) : Request :=
  mkRequest method (path_segs path) (fun _ => ""%string) auth "" "127.0.0.1:50000" "Go-http-client/1.1" false None body.

(** A URL that does not lead to the server is an error of the transport. *)
Definition to_server (baseURL : string) (server : Request -> Prog Response) : Transport := fun method url auth body =>
  match cut_prefix baseURL url with
  | Some path => let! resp := server (client_request method path auth body) in ret (mkHttpReply (rs_Status resp) (body_text (rs_Body resp)))
  | None => throw (EMsg "no such host")
  end.

Example decide_roll_examples :
  let p k := binary_normalize 53 1024 k (-10) false in
  decide_roll (rand_Float64 0) (p 154) (p 51) = RollSkip /\
  decide_roll (rand_Float64 (2 ^ 53 * 160 / 1024)) (p 154) (p 51) = RollFail /\
  decide_roll (rand_Float64 (2 ^ 53 - 1)) (p 154) (p 51) = RollSuccess.
Proof. vm_compute. repeat split. Qed.

Example bodies :
  Marshal (heartbeat_body 3) =
    quoted "{'grace_s':60,'kind':'heartbeat','name':'soak-heartbeat-3','period_s':60,'schedule_kind':'period','tz':'UTC'}" /\
  target_url "http://127.0.0.1" 9101 2 = "http://127.0.0.1:9103/health"%string.
Proof. vm_compute. split; reflexivity. Qed.

(** ** Lengths *)

Lemma length_uint_double d :
  (nb_digits (Little.double d) <= S (nb_digits d))%nat /\ (nb_digits (Little.succ_double d) <= S (nb_digits d))%nat.
Proof. induction d as [|d [IH1 IH2]|d [IH1 IH2]|d [IH1 IH2]|d [IH1 IH2]|d [IH1 IH2]|d [IH1 IH2]|d [IH1 IH2]|d [IH1 IH2]|d [IH1 IH2]|d [IH1 IH2]]; cbn in *; lia. Qed.

Lemma length_to_uint p : (nb_digits (Pos.to_uint p) <= Pos.size_nat p)%nat.
Proof.
  unfold Pos.to_uint. assert (Hrev : forall d acc, nb_digits (revapp d acc) = (nb_digits d + nb_digits acc)%nat).
  { induction d; intros acc; cbn; rewrite ?IHd; cbn; lia. }
  unfold Decimal.rev. rewrite Hrev. cbn. rewrite Nat.add_0_r. induction p as [p IH|p IH|]; cbn [Pos.to_little_uint Pos.size_nat].
  - destruct (length_uint_double (Pos.to_little_uint p)). lia.
  - destruct (length_uint_double (Pos.to_little_uint p)). lia.
  - cbn. lia.
Qed.

Lemma size_nat_bound p n : Z.pos p < 2 ^ Z.of_nat n -> (Pos.size_nat p <= n)%nat.
Proof.
  revert n. induction p as [p IH|p IH|]; intros [|n] Hp; cbn [Pos.size_nat]; try (cbn in Hp; lia).
  - rewrite Nat2Z.inj_succ, Z.pow_succ_r in Hp by lia. specialize (IH n). lia.
  - rewrite Nat2Z.inj_succ, Z.pow_succ_r in Hp by lia. specialize (IH n). lia.
Qed.

Lemma FormatInt_length n : is_int64 n -> (String.length (FormatInt n) <= 65)%nat.
Proof.
  assert (Hu : forall d, String.length (NilEmpty.string_of_uint d) = nb_digits d) by (induction d; cbn; congruence).
  intros Hn. unfold is_int64 in Hn. destruct n as [|p|p]; cbn [FormatInt String.length]; [lia| |]; rewrite Hu;
    pose proof (length_to_uint p); pose proof (size_nat_bound p 64); lia.
Qed.

Lemma json_escape_length s : (String.length (json_escape s) <= 6 * String.length s)%nat.
Proof.
  assert (Hb : forall c, (String.length (json_escape_byte c) <= 6)%nat)
    by (intros c; apply Nat.leb_le; by destruct c as [[] [] [] [] [] [] [] []]).
  remember (String.length s) as n eqn:En. revert s En. induction n as [n IH] using lt_wf_ind. intros [|c r] ->; [cbn; lia|].
  destruct (json_escape_cons c r) as [(a & b & r' & -> & _ & Heq)|Heq]; rewrite Heq.
  - rewrite length_append. cbn [String.length]. specialize (IH (String.length r') ltac:(cbn; lia) r' eq_refl). cbn. lia.
  - rewrite length_append. specialize (IH (String.length r) ltac:(cbn; lia) r eq_refl). specialize (Hb c). cbn. lia.
Qed.

Lemma substring_all n s : (String.length s <= n)%nat -> String.substring 0 n s = s.
Proof.
  revert n. induction s as [|c s IH]; intros [|n] Hn; cbn in *; try done; [lia|]. by rewrite IH by lia.
Qed.

(** ** What the server reads *)

Definition soak_request (i : Z) : createMonitorRequest :=
  mkcreateMonitorRequest "heartbeat" ("soak-heartbeat-" +:+ FormatInt i) None
    (mkscheduleFields "period" (Some soak_periodS) "" "UTC" (Some soak_graceS)) no_http.

Definition soak_params (userID : string) (i : Z) : store_CreateMonitorParams :=
  mk_store_CreateMonitorParams userID "heartbeat" ("soak-heartbeat-" +:+ FormatInt i) "period" (Some soak_periodS) "" "UTC"
    (Some soak_graceS) "" "" None None None None None.

Lemma heartbeat_fields i : heartbeat_body i =
  JObj [("grace_s", JInt 60); ("kind", JStr "heartbeat"); ("name", JStr ("soak-heartbeat-" +:+ FormatInt i));
        ("period_s", JInt 60); ("schedule_kind", JStr "period"); ("tz", JStr "UTC")]%string.
Proof. reflexivity. Qed.

Lemma heartbeat_length i : is_int64 i -> Z.of_nat (String.length (Marshal (heartbeat_body i))) <= maxMonitorBodyBytes.
Proof.
  intros Hi. rewrite heartbeat_fields.
  pose proof (json_escape_length ("soak-heartbeat-" +:+ FormatInt i)) as Hl. pose proof (FormatInt_length i Hi) as Hn.
  rewrite length_append in Hl. change (String.length "soak-heartbeat-") with 15%nat in Hl. cbn [Marshal map commas fst snd].
  set (q := json_quote ("soak-heartbeat-" +:+ FormatInt i)).
  assert (Hq : (String.length q <= 6 * 80 + 2)%nat).
  { subst q. unfold json_quote. cbn [String.length]. rewrite length_append. cbn [String.length]. lia. }
  repeat match goal with |- context [json_quote ?s] => let t := eval vm_compute in (json_quote s) in change (json_quote s) with t end.
  change (FormatInt 60) with "60"%string. change maxMonitorBodyBytes with 16384. cbn [String.length].
  repeat (rewrite length_append; cbn [String.length]). lia.
Qed.

Lemma decode_heartbeat method path auth i : is_int64 i ->
  decode_create (client_request method path auth (Marshal (heartbeat_body i))) = Some (soak_request i).
Proof.
  intros Hi. unfold decode_create, decode_body. cbn [rq_Body client_request].
  rewrite substring_all by (pose proof (heartbeat_length i Hi); lia).
  rewrite <- (append_empty (Marshal _)). rewrite marshal_round_trip; [|done|vm_compute; discriminate|done].
  rewrite heartbeat_fields. reflexivity.
Qed.

Lemma validate_heartbeat `{Extern} `{Web} userID i :
  tz_known "UTC" = true -> validateCreate userID (soak_request i) = inr (soak_params userID i).
Proof. intros Htz. unfold validateCreate, Validate. cbn -[FormatInt tz_known]. rewrite Htz. reflexivity. Qed.

(** ** What the client reads *)

(** A member the client's struct has no field for. *)
Definition spare (f : string * Json) : Prop :=
  no_raw f.2 = true /\ height f.2 <= 1 /\ find_field created_fields f.1 = None.

Definition member_value (f : string * Json) : string * (string * Value) := (f.1, (Marshal f.2, value_of f.2)).

Lemma decode_spare acc l : Forall spare l -> foldl (decode_member created_fields) acc (map member_value l) = acc.
Proof.
  intros Hl. revert acc. induction Hl as [|[k j] l (_ & _ & Hk) _ IH]; intros acc; [done|]. cbn [map foldl].
  rewrite IH. unfold decode_member, member_value. cbn in *. destruct acc; [|done]. cbn. by rewrite Hk.
Qed.

Lemma opt_str_spare k s : find_field created_fields k = None -> Forall spare (opt_str k s).
Proof. unfold opt_str. destruct (String.eqb _ _); repeat constructor; (done || discriminate). Qed.
Lemma opt_int_spare k n : find_field created_fields k = None -> Forall spare (opt_int k n).
Proof. destruct n; repeat constructor; (done || discriminate). Qed.
Lemma opt_time_spare k t : find_field created_fields k = None -> Forall spare (opt_time k t).
Proof. destruct t; repeat constructor; (done || discriminate). Qed.

Ltac solve_spare :=
  repeat first [apply opt_str_spare; reflexivity | apply opt_int_spare; reflexivity | apply opt_time_spare; reflexivity
               | apply Forall_app; split | constructor; [split_and!; (reflexivity || discriminate)|] | constructor].

Lemma spare_no_raw l : Forall spare l -> forallb (fun f => no_raw f.2) l = true.
Proof. induction 1 as [|f l (Hr & _) _ IH]; [done|]. cbn. by rewrite Hr. Qed.

Lemma spare_height l : Forall spare l -> foldr Z.max 0 (map (fun f => height f.2) l) <= 1.
Proof. induction 1 as [|f l (_ & Hh & _) _ IH]; cbn; lia. Qed.

Lemma foldr_max_app l l' : foldr Z.max 0 (l ++ l') = Z.max (foldr Z.max 0 l) (foldr Z.max 0 l').
Proof. induction l as [|x l IH]; cbn; [induction l'; cbn; lia|]. rewrite IH. lia. Qed.

(** The members of a heartbeat's response: those the client reads, and others. *)
Lemma heartbeat_response `{Extern} m baseURL : sm_Kind m = "heartbeat"%string -> sm_HTTPConfig m = "{}"%string ->
  exists pre mid post, Forall spare pre /\ Forall spare mid /\ Forall spare post /\
    Marshal (monitorResponse_json (toMonitorResponse m baseURL)) =
      Marshal (JObj (pre ++ ("slug"%string, JStr (sm_Slug m)) :: mid
                     ++ ("ping_url"%string, JStr (baseURL +:+ "/p/" +:+ sm_Slug m)) :: post)).
Proof.
  intros Hk Hc. unfold toMonitorResponse, monitorResponse_json; cbn [mr_ID mr_Kind mr_Slug mr_Name mr_State mr_DisplayState mr_PingURL mr_ScheduleKind mr_PeriodS mr_CronExpr mr_TZ mr_GraceS mr_URL mr_Method mr_IntervalS mr_TimeoutS mr_FailThreshold mr_HTTPConfig mr_FailStreak mr_AlertsMuted mr_AutoResume mr_LastCheckinAt mr_NextDeadline mr_PausedAt mr_CreatedAt mr_UpdatedAt mr_ScheduleSummary mr_DailyStats]. rewrite Hk, Hc. change (String.eqb "heartbeat" "heartbeat") with true.
  change (opt_raw "http_config" "{}") with [("http_config"%string, JRaw "{}")]. cbv iota.
  assert (Hurl : opt_str "ping_url" (baseURL +:+ "/p/" +:+ sm_Slug m) = [("ping_url"%string, JStr (baseURL +:+ "/p/" +:+ sm_Slug m))]).
  { unfold opt_str. destruct baseURL; reflexivity. }
  rewrite Hurl.
  exists [("id"%string, JStr (sm_ID m)); ("kind"%string, JStr "heartbeat")],
    [("name"%string, JStr (sm_Name m)); ("state"%string, JStr (sm_State m)); ("display_state"%string, JStr (sm_DisplayState m))],
    (opt_str "schedule_kind" (sm_ScheduleKind m) ++ opt_int "period_s" (sm_PeriodS m)
     ++ opt_str "cron_expr" (sm_CronExpr m) ++ opt_str "tz" (sm_TZ m) ++ opt_int "grace_s" (sm_GraceS m)
     ++ opt_str "url" (sm_URL m) ++ opt_str "method" (sm_Method m) ++ opt_int "interval_s" (sm_IntervalS m)
     ++ opt_int "timeout_s" (sm_TimeoutS m) ++ opt_int "fail_threshold" (sm_FailThreshold m)
     ++ [("http_config"%string, JObj [])]
     ++ [("fail_streak"%string, JInt (sm_FailStreak m)); ("alerts_muted"%string, JBool (sm_AlertsMuted m));
         ("auto_resume"%string, JBool (sm_AutoResume m))]
     ++ opt_time "last_checkin_at" (sm_LastCheckinAt m) ++ opt_time "next_deadline" (sm_NextDeadline m)
     ++ opt_time "paused_at" (sm_PausedAt m)
     ++ [("created_at"%string, JStr (FormatRFC3339Nano (sm_CreatedAt m)));
         ("updated_at"%string, JStr (FormatRFC3339Nano (sm_UpdatedAt m)))]
     ++ opt_str "schedule_summary" (schedule_summary m) ++ []).
  split; [solve_spare|]. split; [solve_spare|]. split; [solve_spare|].
  cbn [Marshal app]. do 2 f_equal. f_equal. cbn [map]. rewrite !map_app. reflexivity.
Qed.

(** The slug and the ping address of the reply. *)
Lemma decode_created `{Extern} m baseURL : sm_Kind m = "heartbeat"%string -> sm_HTTPConfig m = "{}"%string ->
  decode_reply created_fields ("", "")%string (Encode (monitorResponse_json (toMonitorResponse m baseURL)))
  = Some (sm_Slug m, baseURL +:+ "/p/" +:+ sm_Slug m).
Proof.
  intros Hk Hc. destruct (heartbeat_response m baseURL Hk Hc) as (pre & mid & post & Hpre & Hmid & Hpost & Hm).
  unfold decode_reply, Encode. rewrite Hm, marshal_round_trip; [|..|done].
  - cbn [value_of mbind option_bind decode_object]. fold member_value. rewrite map_app. cbn [map]. rewrite map_app. cbn [map].
    rewrite foldl_app. cbn [foldl]. rewrite decode_spare by done. rewrite foldl_app. cbn [foldl]. 
    unfold decode_member at 3. cbn. rewrite decode_spare by done. cbn. by rewrite decode_spare.
  - cbn [no_raw]. rewrite forallb_app. cbn [forallb]. rewrite forallb_app. cbn. by rewrite !spare_no_raw.
  - cbn [height]. rewrite map_app. cbn [map]. rewrite map_app. cbn [map]. rewrite foldr_max_app. cbn [foldr].
    rewrite foldr_max_app. cbn [foldr]. pose proof (spare_height pre Hpre). pose proof (spare_height mid Hmid).
    pose proof (spare_height post Hpost). unfold maxNestingDepth. cbn [height snd]. lia.
Qed.

(** ** Client and server together *)

Section over_transport.
Context `{Ext : Extern} `{Jwt} `{Web} `{!ChiLaws C} (deps : Deps) (limiter : Limiter) (backends : Backends) (baseURL : string).

(** A POST to a path that is routed to [e]: what [e] answers, read back. *)
Lemma post_served {T} token path body (decode : string -> option T) e w resp w2 :
  let request := client_request "POST" path (if String.eqb token "" then "" else "Bearer " +:+ token)%string (Marshal body) in
  ServeHTTP deps limiter backends request = serve deps limiter backends e request ->
  run (serve deps limiter backends e request) w = (Ok resp, w2) ->
  run (post (to_server baseURL (ServeHTTP deps limiter backends)) (mkapiClient baseURL token) path body decode) w
  = if 300 <=? rs_Status resp then
      (Err (EMsg ("apiClient.post " +:+ path +:+ ": unexpected status " +:+ FormatInt (rs_Status resp))), w2)
    else match decode (body_text (rs_Body resp)) with
         | Some out => (Ok out, w2)
         | None => (Err (EWrap ("apiClient.post " +:+ path +:+ ": decode response") (EMsg "malformed")), w2)
         end.
Proof.
  intros request Hserve Hrun. unfold post. rewrite run_bind, run_wrap. unfold to_server. cbn [ac_baseURL ac_bearer].
  rewrite cut_prefix_app. fold request. rewrite run_bind, Hserve, Hrun. cbn [run ret hr_Status hr_Body].
  destruct (300 <=? rs_Status resp); [done|]. by destruct (decode _).
Qed.
End over_transport.

(** ** The account *)

Lemma decode_token token userID email :
  decode_reply access_token_field "" (Encode (authResponse token userID email)) = Some token.
Proof. unfold decode_reply. rewrite encode_round_trip; [reflexivity|reflexivity|vm_compute; discriminate]. Qed.

Lemma decode_refusal message : decode_reply access_token_field "" (Encode (errorResponse message)) = Some ""%string.
Proof. unfold decode_reply. rewrite encode_round_trip; [reflexivity|reflexivity|vm_compute; discriminate]. Qed.

Section bootstrap.
Context `{HE : ExternLaws} `{HJ : JwtLaws} `{Web} `{!ChiLaws C} (deps : Deps) (limiter : Limiter) (backends : Backends) (baseURL : string).

Lemma steady_serve_register r : steady (serve deps limiter backends EpRegister r).
Proof. unfold serve, middlewares, handler. cbn [api_handler key_handler public_handler]. solve_steady. Qed.

(** A token it comes back with is the session of a new account. *)
Lemma run_bootstrapAccount token w w' :
  no_faults w -> users_ok (w_tables w) ->
  run (bootstrapAccount (to_server baseURL (ServeHTTP deps limiter backends)) (mkapiClient baseURL "")) w = (Ok token, w') ->
  token <> ""%string ->
  exists u k, token_of token (uuid_string (u_id u)) (token_end (env_clock (w_env w) k) (dp_JWTAccessTTL deps)) /\
    onward w w' /\ t_users (w_tables w) !! u_id u = None /\ t_users (w_tables w') = <[u_id u := u]> (t_users (w_tables w)) /\
    t_monitors (w_tables w') = t_monitors (w_tables w).
Proof.
  intros Hf Hok Hrun Hne. unfold bootstrapAccount in Hrun. rewrite run_bind in Hrun. unfold randomHex in Hrun.
  rewrite run_bind, run_attempt, run_rand_Read in Hrun by auto with ping. cbn [run ret] in Hrun.
  set (body := json_map _) in Hrun. set (request := client_request "POST" "/api/v1/auth/register" "" (Marshal body)).
  assert (Hserve : ServeHTTP deps limiter backends request = serve deps limiter backends EpRegister request)
    by exact (ServeHTTP_routes deps limiter backends request eq_refl).
  pose proof (run_middlewares deps request (handler deps limiter backends EpRegister request) (tick w)) as (w1 & (Hd & [Henv Htx] & Hf1) & Hmw).
  change (String.eqb (rq_Method request) "OPTIONS") with false in Hmw. cbv iota in Hmw.
  change (handler deps limiter backends EpRegister request) with (auth_register deps limiter request) in Hmw.
  assert (Ht1 : w_tables w1 = w_tables w) by (change (fst (w_db w1) = fst (w_db (tick w))); by rewrite Hd).
  destruct (run_register deps limiter request w1) as (resp0 & w2 & Hreg & Hcase); [by apply Hf1, no_faults_tick|by rewrite Ht1|].
  rewrite Hreg in Hmw. destruct Hmw as (resp & Hr & Hst & Hbody & _).
  pose proof (steady_run _ (steady_serve_register request) (tick w)) as Hon.
  change (middlewares deps request (auth_register deps limiter request)) with (serve deps limiter backends EpRegister request) in Hr.
  rewrite Hr in Hon. rewrite run_wrap, (post_served deps limiter backends baseURL "" _ body _ EpRegister (tick w) resp w2 Hserve Hr) in Hrun.
  destruct (300 <=? rs_Status resp); [discriminate Hrun|]. rewrite Hbody in Hrun.
  destruct Hcase as [(req & u & token' & rt & row & Hs)|[[_ [message Hm]] _]].
  - destruct Hs as (_ & _ & _ & w3 & He3 & Hreg3 & [-> Htok _ Ht']). cbn [rs_Body add_cookie writeJSON body_text] in Hrun.
    rewrite decode_token in Hrun. injection Hrun as -> <-. destruct Hreg3 as (_ & _ & Hnone & _ & Ht3).
    exists u, (w_step w3). split; [|split; [etrans; [|exact Hon]; by split_and!; [|cbn; lia|]|]].
    + unfold cur_clock in Htok. by rewrite He3, Henv in Htok.
    + rewrite Ht', Ht3, Ht1. cbn. rewrite Ht1 in Hnone. by split.
  - rewrite Hm in Hrun. cbn [body_text] in Hrun. rewrite decode_refusal in Hrun. by injection Hrun as <- _.
Qed.
End bootstrap.

Section together.
Context `{Ext : Extern} `{!JwtLaws J} `{Web} `{!ChiLaws C} (deps : Deps) (limiter : Limiter) (backends : Backends).
Context (baseURL token userID : string) (until : Time) (user : UUID).

(** The session of the load generator: a signed token of ours, of a user. *)
Hypothesis Htoken : token_of token userID until.
Hypothesis Huser : pgUUID userID = Ok user.

Local Abbreviation server := (ServeHTTP deps limiter backends).
Local Abbreviation transport := (to_server baseURL server).
Local Abbreviation api := (mkapiClient baseURL token).

(** The token outlives the run, nothing fails, and the account is there. *)
Definition fit (w : World) : Prop :=
  no_faults w /\ w_txnow w = None /\ (forall n, env_clock (w_env w) n < until) /\ is_Some (t_users (w_tables w) !! user).

Lemma fit_onward w w' : fit w -> onward w w' -> t_users (w_tables w') = t_users (w_tables w) -> fit w'.
Proof.
  intros (Hf & Ht & Hc & Hu) Ho Hus. split; [by eapply onward_no_faults|]. destruct Ho as (He & _ & Htx). split; [by apply Htx|].
  rewrite He, Hus. by split.
Qed.

Lemma steady_create_attempts n u p : steady (create_attempts n u p).
Proof. induction n as [|n IH]; cbn [create_attempts]; [constructor|]. unfold generateSlug. solve_steady. Qed.

Lemma steady_serve_create r : steady (serve deps limiter backends EpCreateMonitor r).
Proof.
  unfold serve, middlewares, handler, api_handler, monitor_create, CreateMonitor, requireAuthOrAPIKey.
  repeat first [apply steady_create_attempts | progress solve_steady].
Qed.

(** The row of the [i]-th heartbeat. *)
Definition soak_row (i : Z) (m : Monitor) : Prop :=
  exists now id slug, m = created_row now id user slug (soak_params userID i) /\
    String.length slug = slugLen /\ str_all slug_char slug = true.

Lemma bearer_auth : (if String.eqb token "" then "" else "Bearer " +:+ token)%string = bearerPrefix +:+ token.
Proof.
  destruct Htoken as (c & Hs & _). destruct (jwt_token_shape _ _ Hs) as [rest Ht]. destruct token; [discriminate Ht|reflexivity].
Qed.

(** Nothing but taken draws: at some action of the run from [w] to [w'], the five
    draws of a creation, from the tables [w'] has, were all of an id or a slug
    in use. *)
Definition out_of_slugs (w w' : World) : Prop :=
  exists w0, w_env w0 = w_env w /\ (w_step w <= w_step w0)%nat /\ w_tables w0 = w_tables w' /\
    forall i, (i < maxSlugRetries)%nat -> draw_taken w0 i = true.

(** One POST: the new row, with its slug and ping address read back, or five
    taken draws and no row. *)
Lemma run_post i w : is_int64 i -> tz_known "UTC" = true -> fit w ->
  exists r w', run (post transport api "/api/v1/monitors" (heartbeat_body i) (decode_reply created_fields ("", "")%string)) w = (r, w') /\
    fit w' /\ onward w w' /\
    ((exists m, soak_row i m /\ w_tables w' = put_monitor m (w_tables w) /\ t_monitors (w_tables w) !! m_id m = None /\
        Forall (fun m0 => m_slug m0 <> m_slug m) (monitor_rows (w_tables w)) /\
        r = Ok (m_slug m, dp_BaseURL deps +:+ "/p/" +:+ m_slug m)) \/
     (exists e, r = Err e) /\ w_tables w' = w_tables w /\ out_of_slugs w w').
Proof.
  intros Hi Htz Hfit. set (request := client_request "POST" "/api/v1/monitors" (bearerPrefix +:+ token) (Marshal (heartbeat_body i))).
  assert (Hserve : server request = serve deps limiter backends EpCreateMonitor request)
    by exact (ServeHTTP_routes deps limiter backends request eq_refl).
  destruct (run_middlewares deps request (handler deps limiter backends EpCreateMonitor request) w) as (w1 & (Hdb & [Henv Htx1] & Hnf) & Hrun).
  change (String.eqb (rq_Method request) "OPTIONS") with false in Hrun. cbv iota in Hrun.
  pose proof Hfit as (Hf & Htx & Hclock & Hex).
  change (handler deps limiter backends EpCreateMonitor request)
    with (requireAuthOrAPIKey limiter (monitor_create deps request) request) in Hrun.
  rewrite (token_decides limiter token userID until (monitor_create deps request) request w1 _ Htoken eq_refl (or_intror eq_refl)),
    (proj2 (Z.ltb_lt (cur_clock w1) until)) in Hrun by (unfold cur_clock; rewrite Henv; apply Hclock).
  assert (Hdec : decode_create request = Some (soak_request i)) by (by apply decode_heartbeat).
  destruct (run_monitor_create deps request userID user (soak_request i) (soak_params userID i) (tick w1))
    as (resp0 & w2 & Hr & Hcase); [by apply no_faults_tick, Hnf| |done| |done|by apply validate_heartbeat|].
  { change (w_txnow (tick w1)) with (w_txnow w1). by rewrite Htx1. }
  { change (w_tables (tick w1)) with (fst (w_db w1)). by rewrite Hdb. }
  rewrite Hr in Hrun. destruct Hrun as (resp & Hmw & Hst & Hbody & Hstep).
  assert (Htab : w_tables (tick w1) = w_tables w) by (change (w_tables (tick w1)) with (fst (w_db w1)); by rewrite Hdb).
  assert (Hon : onward w (run (serve deps limiter backends EpCreateMonitor request) w).2)
    by apply steady_run, steady_serve_create.
  change (serve deps limiter backends EpCreateMonitor request)
    with (middlewares deps request (requireAuthOrAPIKey limiter (monitor_create deps request) request)) in *.
  rewrite Hmw in Hon. cbn [snd] in Hon.
  rewrite (post_served deps limiter backends baseURL token _ (heartbeat_body i) _ EpCreateMonitor w resp w2);
    [|by rewrite bearer_auth..].
  rewrite Hst. cbn [served]. rewrite Hbody.
  destruct Hcase as [(j & Hj & Hfree & _ & -> & Ht)|(Hall & H500 & Ht)]; rewrite Htab in Ht.
  - destruct (drawn_row_new (soak_params userID i) user (tick w1) j Hfree) as [Hid Hslug]. rewrite Htab in Hid, Hslug.
    destruct (drawn_slug_ok (w_env (tick w1)) (w_step (tick w1)) j) as [Hlen Hchars].
    exists (Ok (m_slug (drawn_row (soak_params userID i) user (tick w1) j),
                dp_BaseURL deps +:+ "/p/" +:+ m_slug (drawn_row (soak_params userID i) user (tick w1) j))), w2.
    cbn [rs_Status writeJSON rs_Body body_text].
    change (300 <=? 201) with false. cbv iota. rewrite decode_created by reflexivity. split; [reflexivity|].
    split; [eapply fit_onward; [exact Hfit|exact Hon|by rewrite Ht]|]. split; [exact Hon|]. left.
    eexists. split; [by do 3 eexists|]. split; [exact Ht|]. by split_and!.
  - rewrite H500. change (300 <=? 500) with true. do 2 eexists. split; [reflexivity|].
    split; [eapply fit_onward; [exact Hfit|exact Hon|by rewrite Ht]|]. split; [exact Hon|]. right. split; [by eexists|].
    split; [exact Ht|]. exists (tick w1). split; [exact Henv|]. split; [cbn; lia|]. by rewrite Htab, Ht.
Qed.

Definition heartbeat_of (m : Monitor) : heartbeatMonitor :=
  mkheartbeatMonitor (m_slug m) (dp_BaseURL deps +:+ "/p/" +:+ m_slug m) soak_periodS.

Definition put_all (rows : list Monitor) (t : Tables) : Tables := foldl (fun t m => put_monitor m t) t rows.

(** None of [rows] has the slug of a monitor in [t]. *)
Definition new_slugs (rows : list Monitor) (t : Tables) : Prop :=
  Forall (fun m => Forall (fun m0 => m_slug m0 <> m_slug m) (monitor_rows t)) rows.

Lemma monitor_rows_put m t : t_monitors t !! m_id m = None -> monitor_rows (put_monitor m t) ≡ₚ m :: monitor_rows t.
Proof. intros Hn. unfold monitor_rows, put_monitor. cbn. by rewrite map_to_list_insert. Qed.

Lemma run_creates xs : tz_known "UTC" = true -> forall acc w, Forall is_int64 xs -> fit w ->
  exists r w' rows,
    run (for_range (fun monitors i =>
           let! resp := wrap "createHeartbeatMonitors"
                          (post transport api "/api/v1/monitors" (heartbeat_body i) (decode_reply created_fields ("", "")%string)) in
           ret (monitors ++ [mkheartbeatMonitor resp.1 resp.2 soak_periodS])) acc xs) w = (r, w') /\
    w_tables w' = put_all rows (w_tables w) /\ (forall j m, rows !! j = Some m -> exists i, xs !! j = Some i /\ soak_row i m) /\
    NoDup (m_slug <$> rows) /\ new_slugs rows (w_tables w) /\
    match r with
    | Ok ms => length rows = length xs /\ ms = acc ++ (heartbeat_of <$> rows)
    | Err _ => (length rows < length xs)%nat /\ out_of_slugs w w'
    end.
Proof.
  intros Htz. induction xs as [|i xs IH]; intros acc w Hxs Hfit; cbn [for_range].
  { exists (Ok acc), w, []. split; [done|]. split; [done|]. split; [done|]. split; [constructor|]. split; [constructor|].
    by rewrite app_nil_r. }
  apply Forall_cons in Hxs as [Hi Hxs]. destruct (run_post i w Hi Htz Hfit) as (r & w1 & Hr & Hfit1 & Hon & Hcase).
  rewrite run_bind, run_bind, run_wrap, Hr. destruct Hcase as [(m & Hm & Ht & Hid & Hslug & ->)|([e ->] & Ht & Hout)].
  - cbn [run ret fst snd]. destruct (IH (acc ++ [heartbeat_of m]) w1 Hxs Hfit1) as (r & w' & rows & Hr' & Ht' & Hrows & Hnd & Hnew & Hres).
    exists r, w', (m :: rows). split; [exact Hr'|]. split; [by rewrite Ht', Ht|]. split.
    { intros [|j] m' Hl; [|by apply Hrows]. injection Hl as <-. by exists i. }
    unfold new_slugs in Hnew. rewrite Ht in Hnew.
    assert (Hnew' : Forall (fun m0 => m_slug m <> m_slug m0 /\ Forall (fun m1 => m_slug m1 <> m_slug m0) (monitor_rows (w_tables w))) rows).
    { eapply Forall_impl; [exact Hnew|]. intros m0 Hm0. cbn in Hm0. rewrite monitor_rows_put in Hm0 by done.
      by apply Forall_cons in Hm0. }
    split. { apply NoDup_cons. split; [|exact Hnd]. intros (m0 & Heq & Hin)%list_elem_of_fmap.
             rewrite Forall_forall in Hnew'. by destruct (Hnew' m0 Hin). }
    split. { constructor; [exact Hslug|]. eapply Forall_impl; [exact Hnew'|]. by intros m0 []. }
    destruct r as [ms|e]; cbn [length].
    2: { destruct Hres as (Hlt & w0 & He0 & Hs0 & Hrest). split; [lia|]. exists w0. destruct Hon as (He1 & Hs1 & _).
         split; [congruence|]. split; [lia|exact Hrest]. }
    destruct Hres as [-> ->]. split; [done|]. by rewrite <- app_assoc.
  - do 2 eexists. exists []. split; [reflexivity|]. split; [exact Ht|]. split; [done|]. split; [constructor|].
    split; [constructor|]. split; [cbn; lia|exact Hout].
Qed.

(** *** Pings *)

Lemma slug_no_slash slug : str_all slug_char slug = true -> split_on "/" slug = [slug].
Proof.
  induction slug as [|c slug IH]; [done|]. cbn. intros [Hc Hs]%andb_true_iff. rewrite IH by done.
  replace (Ascii.eqb c "/") with false; [done|]. symmetry. apply Ascii.eqb_neq. intros ->. discriminate Hc.
Qed.

Lemma slug_no_slash_then slug r : str_all slug_char slug = true -> split_on "/" (slug +:+ String "/" r) = slug :: split_on "/" r.
Proof.
  induction slug as [|c slug IH]; [done|]. cbn [str_all]. intros [Hc Hs]%andb_true_iff. rewrite append_cons. cbn [split_on]. rewrite IH by done.
  replace (Ascii.eqb c "/") with false; [done|]. symmetry. apply Ascii.eqb_neq. intros ->. discriminate Hc.
Qed.

Lemma run_pingURL e path request w :
  request = client_request "POST" path "" "" -> server request = serve deps limiter backends e request ->
  run (pingURL transport (baseURL +:+ path)) w = (Ok tt, snd (run (serve deps limiter backends e request) w)).
Proof.
  intros -> Hs. unfold pingURL. rewrite run_bind, run_attempt. unfold to_server. rewrite cut_prefix_app, run_bind, Hs.
  by destruct (run (serve _ _ _ e _) w) as [[resp|err] w'].
Qed.

(** What a tick does to a heartbeat of the server at [baseURL]: nothing, a
    failure of its slug, or a success. *)
Definition ping_request (path : string) : Request := client_request "POST" path "" "".

Definition ping_effect (slug : string) (roll : Roll) (w : World) : World :=
  match roll with
  | RollSkip => w
  | RollFail => snd (run (serve deps limiter backends (EpPingFail slug) (ping_request ("/p/" +:+ slug +:+ "/fail"))) w)
  | RollSuccess => snd (run (serve deps limiter backends (EpPing slug) (ping_request ("/p/" +:+ slug))) w)
  end.

Lemma run_sendOnePing slug periodS skip fail draw w :
  slug <> ""%string -> str_all slug_char slug = true ->
  run (sendOnePing transport baseURL (mkheartbeatMonitor slug (baseURL +:+ "/p/" +:+ slug) periodS) skip fail draw) w
  = (Ok tt, ping_effect slug (decide_roll (rand_Float64 draw) skip fail) w).
Proof.
  intros Hne Hs. unfold sendOnePing, ping_effect. cbn [hm_slug hm_pingURL]. destruct (decide_roll _ _ _); [done|..].
  - eapply run_pingURL; [reflexivity|].
    pose proof (ServeHTTP_routes deps limiter backends (ping_request ("/p/" +:+ slug +:+ "/fail"))) as Hroute.
    assert (Hp : rq_Path (ping_request ("/p/" +:+ slug +:+ "/fail")) = ["p"; slug; "fail"]%string).
    { change ("p"%string :: split_on "/" (slug +:+ String "/" "fail") = ["p"; slug; "fail"]%string).
      by rewrite slug_no_slash_then. }
    rewrite Hp in Hroute. destruct slug as [|c slug]; [done|]. exact (Hroute eq_refl).
  - eapply run_pingURL; [reflexivity|].
    pose proof (ServeHTTP_routes deps limiter backends (ping_request ("/p/" +:+ slug))) as Hroute.
    assert (Hp : rq_Path (ping_request ("/p/" +:+ slug)) = ["p"; slug]%string).
    { change ("p"%string :: split_on "/" slug = ["p"; slug]%string). by rewrite slug_no_slash. }
    rewrite Hp in Hroute. destruct slug as [|c slug]; [done|]. exact (Hroute eq_refl).
Qed.

(** What the heartbeats of an account are, and what their pings do. *)
Lemma run_createHeartbeatMonitors n w :
  0 <= n -> is_int64 n -> tz_known "UTC" = true -> fit w ->
  exists r w' rows, run (createHeartbeatMonitors transport api n) w = (r, w') /\
    w_tables w' = put_all rows (w_tables w) /\ (forall j m, rows !! j = Some m -> soak_row (Z.of_nat j) m) /\
    NoDup (m_slug <$> rows) /\ new_slugs rows (w_tables w) /\
    match r with
    | Ok ms => length rows = Z.to_nat n /\ ms = heartbeat_of <$> rows /\
        (dp_BaseURL deps = baseURL -> forall j m hm, rows !! j = Some m -> ms !! j = Some hm -> forall skip fail draw w0,
           run (sendOnePing transport baseURL hm skip fail draw) w0
           = (Ok tt, ping_effect (m_slug m) (decide_roll (rand_Float64 draw) skip fail) w0))
    | Err _ => (length rows < Z.to_nat n)%nat /\ out_of_slugs w w'
    end.
Proof.
  intros Hn Hi Htz Hfit. unfold createHeartbeatMonitors. destruct (Z.ltb_spec n 0); [lia|].
  destruct (run_creates (range n) Htz [] w) as (r & w' & rows & Hr & Ht & Hrows & Hnd & Hnew & Hres); [|exact Hfit|].
  { apply Forall_forall. intros x Hx%elem_of_seqZ. unfold is_int64 in *. lia. }
  assert (Hlen : length (range n) = Z.to_nat n) by apply length_seqZ. rewrite Hlen in Hres.
  assert (Hrow : forall j m, rows !! j = Some m -> soak_row (Z.of_nat j) m).
  { intros j m Hj. destruct (Hrows j m Hj) as (i & Hij & Hm). apply lookup_seqZ in Hij as [-> _]. exact Hm. }
  exists r, w', rows. split; [exact Hr|]. split; [exact Ht|]. split; [exact Hrow|]. split; [exact Hnd|]. split; [exact Hnew|].
  destruct r as [ms|e]; [|exact Hres]. destruct Hres as [Hl ->]. split; [exact Hl|]. split; [done|].
  intros Hbase j m hm Hj Hhm skip fail draw w0. cbn [app] in Hhm. rewrite list_lookup_fmap, Hj in Hhm. injection Hhm as <-.
  unfold heartbeat_of. rewrite Hbase. destruct (Hrow j m Hj) as (now & id & slug & -> & Hl' & Hs).
  apply run_sendOnePing; [by destruct slug|exact Hs].
Qed.
End together.

Section run.
Context `{HE : ExternLaws} `{HJ : JwtLaws} `{Web} `{!ChiLaws C} (deps : Deps) (limiter : Limiter) (backends : Backends) (baseURL : string).

Local Abbreviation transport := (to_server baseURL (ServeHTTP deps limiter backends)).

(** C39. The load generator against the service, in a run shorter than the life
    of an access token in which no action fails.  The token that
    bootstrapAccount comes back with, having read it from the answer, is that
    of one new account, and no monitor was touched.  Creating [n] heartbeats
    with it is [n] requests that are all accepted, each storing a monitor of
    that account with a new slug, a period and a grace of a minute, and the
    list the generator goes on with has their slugs and ping addresses, as it
    read them from the answers; only a creation whose five draws are all of an
    id or a slug in use stops it early.
    A tick of one of its ping loops is then no request, or a failure or a
    success of exactly that monitor's slug, as the roll decides. *)
Theorem heartbeats_created n token w w1 :
  no_faults w -> w_txnow w = None -> users_ok (w_tables w) ->
  (forall j k, env_clock (w_env w) j < token_end (env_clock (w_env w) k) (dp_JWTAccessTTL deps)) ->
  0 <= n -> is_int64 n -> tz_known "UTC" = true ->
  run (bootstrapAccount transport (mkapiClient baseURL "")) w = (Ok token, w1) -> token <> ""%string ->
  exists u r w' rows,
    t_users (w_tables w) !! u_id u = None /\ t_users (w_tables w1) = <[u_id u := u]> (t_users (w_tables w)) /\
    t_monitors (w_tables w1) = t_monitors (w_tables w) /\
    run (createHeartbeatMonitors transport (mkapiClient baseURL token) n) w1 = (r, w') /\
    w_tables w' = put_all rows (w_tables w1) /\
    (forall j m, rows !! j = Some m -> soak_row (uuid_string (u_id u)) (u_id u) (Z.of_nat j) m) /\
    NoDup (m_slug <$> rows) /\ new_slugs rows (w_tables w1) /\
    match r with
    | Ok ms => length rows = Z.to_nat n /\ ms = heartbeat_of deps <$> rows /\
        (dp_BaseURL deps = baseURL -> forall j m hm, rows !! j = Some m -> ms !! j = Some hm -> forall skip fail draw w0,
           run (sendOnePing transport baseURL hm skip fail draw) w0
           = (Ok tt, ping_effect deps limiter backends (m_slug m) (decide_roll (rand_Float64 draw) skip fail) w0))
    | Err _ => (length rows < Z.to_nat n)%nat /\ out_of_slugs w1 w'
    end.
Proof.
  intros Hf Htx Hok Hlife Hn Hi Htz Hrun Hne.
  destruct (run_bootstrapAccount deps limiter backends baseURL token w w1 Hf Hok Hrun Hne)
    as (u & k & Htok & Hon & Hnone & Hu & Hm).
  destruct (run_createHeartbeatMonitors deps limiter backends baseURL token (uuid_string (u_id u))
              (token_end (env_clock (w_env w) k) (dp_JWTAccessTTL deps)) (u_id u) Htok (pgUUID_string (u_id u)) n w1)
    as (r & w' & rows & Hrest); [done..| |by exists u, r, w', rows].
  pose proof Hon as (He & _ & Ht). split; [by eapply onward_no_faults|]. split; [by apply Ht|].
  split; [intros j; rewrite He; apply Hlife|]. rewrite Hu, lookup_insert_eq. by eexists.
Qed.
End run.

(** ** At a concrete input *)

#[local] Existing Instance demo_extern.
#[local] Existing Instance demo_extern_laws.
#[local] Existing Instance demo_web.
#[local] Existing Instance demo_jwt.
#[local] Existing Instance demo_jwt_laws.
#[local] Existing Instance demo_chi.
#[local] Existing Instance demo_chi_laws.

(** Random bytes and ids that differ from action to action. *)
Definition soak_env : Env :=
  mkEnv (fun _ => FNone) (fun _ => demo_t0) (fun n => N.of_nat (100 + n)) (fun n i => ascii_of_nat (7 * n + i)).

Definition soak_world : World := mkWorld empty_tables demo_seqs 0 None soak_env.

Definition soak_server : Transport := to_server "https://ping.example.com" (ServeHTTP demo_deps demo_limiter demo_backends).

(** The token and the world the account leaves. *)
Definition soak_boot : Res string * World := run (bootstrapAccount soak_server (mkapiClient "https://ping.example.com" "")) soak_world.

Definition soak_token : string := match fst soak_boot with Ok token => token | Err _ => "" end.

Lemma heartbeats_created_witness :
  exists r w' rows,
    run (createHeartbeatMonitors soak_server (mkapiClient "https://ping.example.com" soak_token) 2) (snd soak_boot) = (r, w') /\
    w_tables w' = put_all rows (w_tables (snd soak_boot)) /\ length rows = 2%nat.
Proof.
  destruct (heartbeats_created demo_deps demo_limiter demo_backends "https://ping.example.com" 2 soak_token soak_world (snd soak_boot))
    as (u & r & w' & rows & _ & _ & _ & Hr & Ht & _ & _ & _ & Hres).
  - by intros n _.
  - done.
  - split; intros i; intros; discriminate.
  - intros j k. vm_compute. reflexivity.
  - lia.
  - unfold is_int64. lia.
  - reflexivity.
  - vm_compute. reflexivity.
  - vm_compute. discriminate.
  - exists r, w', rows. split; [exact Hr|]. split; [exact Ht|].
    assert (Hok : is_Some (match r with Ok ms => Some ms | Err _ => None end)).
    { replace r with (fst (r, w')) by done. rewrite <- Hr. vm_compute. by eexists. }
    destruct r as [ms|e]; [apply Hres|by destruct Hok].
Defined.
